(* ===== verification/_CoqProject ===== *)
-Q . S2P
Prelude.v
Keys.v
Proto.v
HostNode.v
LoadBalance.v
BalanceSpec.v
RouteLb.v
RouteSpec.v
Bytes.v
Wire.v
Messages.v
EventLoop.v
BufPool.v
ReactorBuf.v
Stream.v
StreamSpec.v
TcpConn.v
ConnThread.v
TcpClient.v
Udp.v
ThreadPool.v
TcpServer.v
Text.v
DnsRoute.v
Subscribe.v
DnsService.v
PushThreads.v
MsgOps.v
AgentService.v
AgentTypes.v
FloatText.v
ConfigFile.v
Reporter.v
Statistics.v
AgentMain.v
ServiceMain.v
LarsApi.v
System.v
Progress.v
Channel.v
ApiExamples.v
