(* ===== verification/Prelude.v ===== *)
(** * Lars: a verified model of the load balancing services

    Lars (src/) tells applications which host to call for a module, a pair
    (modid, cmdid).  Its programs, and what they say to each other:

    - an application links the api (src/api/cpp/lars_api), which asks one of the
      three udp servers of the agent on its machine, by (modid + cmdid) % 3;
    - the agent (src/lars_lb_agent) keeps, per module, the hosts that are idle or
      overloaded, chooses one for each request and judges them by the reports of
      the applications; unknown or stale modules it pulls from the dns service,
      its statistics it sends to the reporter;
    - the dns service (src/lars_dns) loads the route table from MySQL, answers the
      agents, subscribes them to what they asked for, and pushes changes;
    - the reporter (src/lars_reporter) stores the statistics in MySQL;
    - all of them are built on the reactor (src/lars_reactor): event loop, buffer
      pool, tcp and udp endpoints, thread pool, configuration files;
    - they exchange the protobuf messages of src/base/proto.

    ** How the code is modelled

    A C++ object is a [Record], a method a function from the state (and the
    answers of the system calls it makes) to [res] of the new state: [Ok], or
    [Err] of the [fault] in which the execution ends: a failed assert, an exit, a
    call that blocks for good, or one of the undefined behaviours (null or
    dangling pointer, index out of range, uninitialised read).  Pointers that are
    aliased are locations in a heap of the record (io_bufs, host_infos); what has
    one owner is a value.  Integers are [Z], with [u32], [i32] and the like where
    the code wraps.  A method under a mutex is one step; threads are interleaved
    step by step.  What is not under src/ is an interface, a class with the
    documented laws and a concrete instance the witnesses run on: [Clock] (time),
    [HashOrder] (iteration order of unordered containers), [Epoll], [EventFd],
    [WireFormat] (varints and field skipping of the protobuf library),
    [InetAddr].  Answers of sockets, files and MySQL are arguments.
    Between parts of the program, [Codec] is what the services rely on of a
    message class; Messages implements it for each.

    ** Files

    Shared:
    - Prelude: integers, [res], loops ([foldM]), lists, maps.
    - Keys: the 64-bit keys ([pack_key]) of modules and hosts.
    - Text: atoi, strtol and decimal printing.

    Messages (src/base/proto/lars.proto, lars.pb.h, lars.pb.cc):
    - Proto: the fields, ids and return codes.
    - Wire: reading and writing fields; [merge_fields] is the loop of every
      MergePartialFromCodedStream; the class [Codec].
    - Messages: per class its switch ([_case]), [_serialize] and [_size].
      [messages_roundtrip], [reading_terminates].
    - MsgOps: MergeFrom, Clear, copies, swaps, and writing into an array:
      [merge_is_concatenation], [serialize_fills_array].

    The agent's decisions (load_balance, host_info, route_lb):
    - HostNode: host_info; LoadBalance: load_balance with its heap of hosts, the
      map and the idle and overload lists, and the invariant [lb_wf].
    - BalanceSpec: the specification: report is a step of an automaton per host
      ([report_refines_automaton]), update reconciles with the remote hosts
      ([update_reconciles], [update_dropped_host]), the choice is round robin and
      probes overloaded hosts ([choice_round_robin], [choice_probe_period]).
    - RouteLb: route_lb, the modules of one thread; RouteSpec: no run of calls
      faults while updates cover the known hosts ([covering_runs_safe]), requests
      to the dns service ([one_request_in_flight], [get_host_outcome],
      [empty_module_starves]).

    The reactor:
    - Bytes: bytes in memory, message heads, msg_router (message.h).
    - EventLoop: event_loop.cpp; [reported_events_are_handled].
    - BufPool: buf_pool and io_buf; [pool_clients_safe] over all runs of clients.
    - ReactorBuf: input_buf and output_buf.
    - Stream: what tcp_conn and tcp_client have in common (reading frames, writing,
      queueing), over an abstract object; StreamSpec: its specification on byte
      streams ([ep_ok], [scan_frame]), next to the other endpoints ([tenant]) that have
      buffers of the same pool.  The callbacks that are registered are a parameter
      there, with a contract ([handler_serves]): what they may do to the pending output
      and to the application, and when they have room for it; each service shows that
      its own callbacks satisfy it.
    - TcpConn: tcp_conn.cpp and the connection table; [tcp_conn_reassembly],
      [tcp_conn_output], and what breaks it ([empty_message_kills_server],
      [failed_send_corrupts_stream]).
    - ConnThread: all connections of one thread, with the loop, the pool and the
      application they share; [connections_isolated].
    - TcpClient: tcp_client.cpp; Udp: udp_server.cpp and udp_client.cpp;
      ThreadPool: thread_queue.h and thread_pool.cpp; TcpServer: tcp_server.cpp.
    - ConfigFile: config_file.cpp; [load_reads_back]; FloatText: what the library makes
      of a float in a text.

    The services:
    - DnsRoute: dns_route.cpp; Subscribe: subscribe.cpp; DnsService:
      dns_service.cpp and the poll, as a step relation [dns_step] of connections,
      requests, polls and pushes with the invariant [subscriptions_consistent];
      [poll_announces_newest], [publish_reaches_subscribers], and what the bytes of an
      agent's connection make of the bytes sent back ([dns_answers_stream]).
    - PushThreads: publishing and the pushes of the pool's workers, interleaved action
      by action with each other, with connections and reloads;
      [publications_delivered], [pushes_confined].  That the code erases a published
      module without the lock of the list is not resolved further: the erase is one
      atomic step.
    - AgentService: the callbacks of the agent's udp servers, the dns client and the
      report client; [agent_survives_datagrams],
      [first_request_pulls_then_serves].
    - AgentTypes: every integer of the agent is in the range of its type, whatever
      comes in; [agent_stays_typed].
    - Reporter: reporter_service.cpp, store_thread.cpp, store_report.cpp;
      [reports_dealt_and_stored]; [report_index_race], what two threads of connections do
      to the index they share.
    - Statistics: the statistics on their way from the agent's modules through the
      report client and the reporter to the database, as one transition system;
      [reports_reach_database].
    - AgentMain: main of the agent: its settings ([settings_from_file]), its threads
      ([agent_threads_wired]) and the order in which they start ([startup_window]).
    - ServiceMain: main of the dns service and of the reporter.
    - System: the agent and the dns service with the messages between them as one
      transition system; [hosts_come_from_tables], and what one datagram to an agent
      does to the service ([module_zero_kills_dns]).
    - Progress: what becomes of the messages in System when they are handled; a module
      that was asked for ends with the hosts of the table
      ([asked_module_gets_its_hosts]).
    - Channel: System again, with an endpoint of the reactor on either side and the
      bytes between them in the place of the messages; every run of it is a run of
      System ([channel_refines_system]).  It is about the life of one connection, while
      the pending bytes stay below the 8M of a buffer ([room]) and no module has more
      hosts than fit in a message ([small_table]); the other connections of the dns
      service appear as [ch_others].
    - LarsApi: lars_api.cpp; [host_request_served] composes it with the agent over
      the bytes on the wire, [get_host_takes_own_answer], [reg_init_retries].
    - ApiExamples: the programs of api/cpp/example: the load generator, whose statistics
      are those of the reports it sent ([simulator_counts]), the ones that call the api
      once, and the measuring loop of qps.

    The theorems whose names speak of faults, losses or races state defects of the
    code as it is, with the inputs that lead to them.

    ** Bounds and fuel

    Loops that are not structural have fuel, and lemmas rule out [OutOfFuel]: the
    frames in a buffer are at most its length ([read_messages]), each field of a
    message takes a byte ([merge_fields]), each turn of [write_all] and
    [await_host] uses up one answer of the socket, each turn of [split_list] drops
    a character.  [decimal] has 20 digits, enough for 64 bits.  The 2700 hosts of
    [max_hosts] are what surely fits a datagram.

    [digits] of FloatText has 60, more than any float has before the point.

    ** Not modelled

    - pthread_create, signals and socket options: the threads are the steps of the
      interleavings, what they set up before [event_process] is AgentMain and
      ServiceMain.
    - the MySQL client and what it answers to statements; log output.
    - of lars.pb.*: arenas, descriptors, reflection, unknown fields.
    - lars_web (a Go program), vendored headers; of the examples and tests, those of
      the reactor and the test clients of the services, which send constant messages
      and print what comes back.
    - the callbacks under [#if 0] in tcp_server.cpp, which are not compiled.

    ** What could be resolved further

    Threads of the server interleaved inside their callbacks (each event is one step in
    [connections_isolated]; single pool operations interleave in [pool_clients_safe]);
    the erase without a lock in [push_change_task] as two steps; a broken connection in
    Channel and the reconnection after it (TcpClient has [client_clean_conn], the agent
    [reset_lb_status]). *)

From AAC_tactics Require Import AAC.
From AAC_tactics Require Instances.
From stdpp Require Import base numbers list gmap fin_maps strings sorting.
From Stdlib Require Import ZArith Lia.

#[global] Set Default Goal Selector "!".
Open Scope Z_scope.

(** ** Machine integers

    A C++ integer is a [Z]; the conversions below are the ones the program
    relies on: unsigned types wrap around modulo their width, signed ones are
    two's complement. *)

Definition u16 (z : Z) : Z := z mod 2 ^ 16.
Definition u32 (z : Z) : Z := z mod 2 ^ 32.
Definition u64 (z : Z) : Z := z mod 2 ^ 64.
Definition i16 (z : Z) : Z := (z + 2 ^ 15) mod 2 ^ 16 - 2 ^ 15.
Definition i32 (z : Z) : Z := (z + 2 ^ 31) mod 2 ^ 32 - 2 ^ 31.

Definition is_u32 (z : Z) : Prop := 0 <= z < 2 ^ 32.
Definition is_u64 (z : Z) : Prop := 0 <= z < 2 ^ 64.
Definition is_i32 (z : Z) : Prop := - 2 ^ 31 <= z < 2 ^ 31.

Lemma u32_range z : is_u32 (u32 z).
Proof. apply Z.mod_pos_bound; lia. Qed.

Lemma u64_range z : is_u64 (u64 z).
Proof. apply Z.mod_pos_bound; lia. Qed.

Lemma i32_range z : is_i32 (i32 z).
Proof. unfold is_i32, i32. pose proof (Z.mod_pos_bound (z + 2 ^ 31) (2 ^ 32)). lia. Qed.

Lemma u32_id z : is_u32 z -> u32 z = z.
Proof. apply Z.mod_small. Qed.

Lemma u64_id z : is_u64 z -> u64 z = z.
Proof. apply Z.mod_small. Qed.

Lemma i32_id z : is_i32 z -> i32 z = z.
Proof. unfold is_i32, i32. intros. rewrite Z.mod_small; lia. Qed.

Lemma u32_i32 z : u32 (i32 z) = u32 z.
Proof.
  unfold u32, i32. rewrite Zminus_mod_idemp_l. f_equal. lia.
Qed.

Lemma i32_u32 z : i32 (u32 z) = i32 z.
Proof. unfold u32, i32. by rewrite Zplus_mod_idemp_l. Qed.

(** ** Outcomes

    A handler either returns, or stops in one of the ways the C++ code can go
    wrong.  From [NullDeref] to [Uninit] they are undefined behaviour in C++; the
    model makes them values so that theorems can state that they are not
    reached.  [OutOfFuel] is no behaviour of the program: the theorems about the
    loops rule it out. *)

Inductive fault : Type :=
| AssertFail       (* a failed assert() *)
| ExitFailure      (* exit(1) *)
| Blocked          (* a blocking system call that never returns *)
| NullDeref        (* access through a null pointer *)
| UseAfterFree     (* access through a dangling pointer *)
| OutOfBounds      (* access outside an array or an empty container *)
| Uninit           (* read of an uninitialised value *)
| OutOfFuel.       (* a loop ran out of the fuel its definition gives it *)

#[export] Instance fault_eq_dec : EqDecision fault.
Proof. solve_decision. Defined.

Inductive res (A : Type) : Type :=
| Ok (a : A)
| Err (f : fault).
Arguments Ok {A} a.
Arguments Err {A} f.

#[export] Instance res_ret : MRet res := fun A a => Ok a.
#[export] Instance res_bind : MBind res := fun A B k m =>
  match m with Ok a => k a | Err f => Err f end.

Definition res_map {A B} (f : A -> B) (m : res A) : res B :=
  match m with Ok a => Ok (f a) | Err e => Err e end.

(** [of_option f o] is the access that faults with [f] when there is nothing. *)
Definition of_option {A} (f : fault) (o : option A) : res A :=
  match o with Some a => Ok a | None => Err f end.

Declare Scope lars_scope.
Delimit Scope lars_scope with lars.
(** A guard the code states: an assert, or an access that must be legal. *)
Notation "'ensure' b 'or' f ; k" :=
  (if b then k else Err f) (at level 100, b at level 99, f at level 99, k at level 200, right associativity)
  : lars_scope.
Open Scope lars_scope.

Section outcomes.
Context {A B : Type}.

Lemma bind_ok (m : res A) (k : A -> res B) b :
  (m ≫= k) = Ok b <-> exists a, m = Ok a /\ k a = Ok b.
Proof.
  destruct m as [a|f]; cbn; split; [|intros (? & [= ->] & ?)|done|intros (? & ? & ?)]; eauto.
  done.
Qed.

Lemma bind_of_ok (m : res A) (k : A -> res B) a :
  m = Ok a -> (m ≫= k) = k a.
Proof. by intros ->. Qed.

Lemma of_option_ok f (o : option A) a : of_option f o = Ok a <-> o = Some a.
Proof. destruct o; cbn; split; congruence. Qed.

(** A monadic left fold: the loops of the program over a container. *)
Fixpoint foldM (f : B -> A -> res B) (b : B) (l : list A) : res B :=
  match l with
  | [] => Ok b
  | a :: l => b' ← f b a; foldM f b' l
  end.

Lemma foldM_app f b l1 l2 :
  foldM f b (l1 ++ l2) = (b' ← foldM f b l1; foldM f b' l2).
Proof. revert b. induction l1 as [|a l1 IH]; intros b; cbn; [done|]. by destruct (f b a); cbn. Qed.

(** Loop rule: an invariant indexed by what is left to do. *)
Lemma foldM_inv (P : list A -> B -> Prop) f l b :
  P l b ->
  (forall a l' b, P (a :: l') b -> exists b', f b a = Ok b' /\ P l' b') ->
  exists b', foldM f b l = Ok b' /\ P [] b'.
Proof.
  intros HP Hstep. revert b HP. induction l as [|a l IH]; intros b HP; cbn; [by eauto|].
  destruct (Hstep _ _ _ HP) as (b' & -> & HP'). cbn. auto.
Qed.
End outcomes.

(** Turns [m = Ok x] hypotheses about binds, folds and accesses into facts. *)
Ltac res_inv :=
  repeat match goal with
  | H : Ok _ = Ok _ |- _ => injection H as H; subst
  | H : Err _ = Ok _ |- _ => discriminate H
  | H : Ok _ = Err _ |- _ => discriminate H
  | H : (_ ≫= _) = Ok _ |- _ => apply bind_ok in H as (? & ? & ?)
  | H : of_option _ _ = Ok _ |- _ => apply of_option_ok in H
  | H : (_, _) = (_, _) |- _ => injection H as H; subst
  | p : (_ * _)%type |- _ => destruct p
  end; cbn in *.

(** [lia] on comparisons computed in [bool]. *)
Ltac zlia := rewrite ?Z.ltb_lt, ?Z.ltb_ge, ?Z.leb_le, ?Z.leb_gt, ?Z.eqb_eq, ?Z.eqb_neq in *; lia.

(** ** Environment interfaces

    [time_at n] is what the [n]-th call of [time(NULL)] returns. *)
Class Clock := time_at : nat -> Z.

(** The hash tables of the program ([__gnu_cxx::hash_map]) enumerate their
    entries in an order that depends on the buckets: any enumeration of the
    entries is allowed. *)
Class HashOrder := {
  hm_elements : forall {V : Type}, gmap Z V -> list (Z * V);
  hm_elements_perm : forall V (m : gmap Z V), hm_elements m ≡ₚ map_to_list m
}.

(** Ascending order: the iteration order of [std::set<uint64_t>]. *)
Definition ordered (s : gset Z) : list Z := merge_sort Z.le (elements s).

(** Concrete instances, used to evaluate the definitions. *)
Definition clock_const (t : Z) : Clock := fun _ => t.
Definition hash_order_list : HashOrder :=
  {| hm_elements := fun V m => map_to_list m; hm_elements_perm := fun V m => reflexivity _ |}.

(** ** Lists *)

(** Permutations of concatenations, modulo associativity and commutativity. *)
#[export] Existing Instances Instances.Lists.aac_List_app_Permutation_Assoc Instances.Lists.aac_List_app_Permutation_Comm
  Instances.Lists.aac_List_app_nil_Permutation_Unit.
#[export] Instance perm_lift {A} : AAC_lift (@Permutation A) (@Permutation A) := {}.
Ltac solve_perm := aac_reflexivity.

Section lists.
Context {A : Type}.
Implicit Types l : list A.

Lemma elem_of_ordered (s : gset Z) k : k ∈ ordered s <-> k ∈ s.
Proof. unfold ordered. by rewrite merge_sort_Permutation, elem_of_elements. Qed.

Lemma intersection_split (L R : gset Z) : (L ∩ R) ∪ (R ∖ (L ∪ ∅)) = R.
Proof. apply set_eq. intros k. destruct (decide (k ∈ L)); set_solver. Qed.

Lemma reconcile_nothing_lost (L R : gset Z) :
  L ⊆ R -> (R ∪ (L ∪ ∅)) ∖ ((L ∩ R) ∪ (R ∖ (L ∪ ∅))) = ∅.
Proof.
  intros Hs. rewrite intersection_split. apply set_eq. intros k. specialize (Hs k). set_solver.
Qed.

Lemma NoDup_ordered (s : gset Z) : NoDup (ordered s).
Proof. unfold ordered. rewrite merge_sort_Permutation. apply NoDup_elements. Qed.

(** [std::list::remove]: every element equal to [x] goes. *)
Definition list_remove_all `{EqDecision A} (x : A) l : list A := filter (fun y => y <> x) l.

Lemma elem_of_remove_all `{EqDecision A} x y l :
  y ∈ list_remove_all x l <-> y ∈ l /\ y <> x.
Proof. unfold list_remove_all. rewrite list_elem_of_filter. tauto. Qed.

Lemma NoDup_remove_all `{EqDecision A} x l : NoDup l -> NoDup (list_remove_all x l).
Proof. apply NoDup_filter. Qed.

Lemma remove_all_notin `{EqDecision A} x l : x ∉ l -> list_remove_all x l = l.
Proof.
  unfold list_remove_all. induction l as [|y l IH]; [done|]. intros Hx.
  rewrite filter_cons_True by set_solver. f_equal. set_solver.
Qed.

Lemma remove_all_perm `{EqDecision A} x l :
  NoDup l -> x ∈ l -> l ≡ₚ x :: list_remove_all x l.
Proof.
  unfold list_remove_all. induction 1 as [|y l Hy Hl IH]; [set_solver|].
  intros [->|Hx]%elem_of_cons.
  - rewrite filter_cons_False by naive_solver. by fold (list_remove_all y l); rewrite (remove_all_notin y l).
  - rewrite filter_cons_True by set_solver. rewrite IH at 1 by done. constructor.
Qed.
End lists.

Lemma length_omap {A B} (f : A -> option B) (l : list A) :
  (forall x, x ∈ l -> is_Some (f x)) -> length (omap f l) = length l.
Proof.
  induction l as [|x l IH]; intros Hl; cbn; [done|]. destruct (Hl x) as [y ->]; [by left|].
  cbn. rewrite IH; [done|]. intros; apply Hl; by right.
Qed.

Lemma NoDup_omap {A B} (f : A -> option B) (l : list A) :
  (forall x y b, x ∈ l -> y ∈ l -> f x = Some b -> f y = Some b -> x = y) ->
  NoDup l -> NoDup (omap f l).
Proof.
  intros Hinj. induction 1 as [|x l Hx Hl IH]; cbn; [constructor|].
  assert (NoDup (omap f l)) as Hn by (apply IH; intros; eapply Hinj; try done; by right).
  destruct (f x) as [b|] eqn:Hb; [|done]. constructor; [|done].
  intros (y & Hy & Hfy)%list_elem_of_omap. apply Hx.
  rewrite (Hinj x y b); [done|by left|by right|done|done].
Qed.

Arguments list_remove_all : simpl never.
Arguments ordered : simpl never.

Create HintDb lars discriminated.
Create Rewrite HintDb lars_rw.
#[export] Hint Resolve u32_range u64_range i32_range NoDup_ordered NoDup_remove_all : lars.
#[export] Hint Rewrite @elem_of_remove_all elem_of_ordered : lars_rw.
