(* ===== verification/Keys.v ===== *)
(** * Keys: the 64-bit keys made of two 32-bit halves

    modid/cmdid and ip/port pairs index every table of the system through
    [((uint64_t)hi << 32) + lo], where [lo] is an [int] that C++ converts to
    [uint64_t] before the addition.  [push_change_task] of lars_dns/src/subscribe.cpp and
    [get_route] of lars_dns/src/dns_service.cpp take the halves back. *)

From S2P Require Import Prelude.
From stdpp Require Import base numbers.
From Stdlib Require Import ZArith Lia.
Open Scope Z_scope.

(** [uint64_t key = ((uint64_t)hi << 32) + lo] *)
Definition pack_key (hi lo : Z) : Z := u64 (u64 (Z.shiftl (u64 hi) 32) + u64 lo).

(** [(uint32_t)(ip_port >> 32)] and [(uint32_t)ip_port]. *)
Definition key_hi_u32 (key : Z) : Z := u32 (Z.shiftr key 32).
Definition key_lo_u32 (key : Z) : Z := u32 key.

(** [int(mod >> 32)] and [int(mod)], for a key [mod] of the publication list. *)
Definition key_hi_int (key : Z) : Z := i32 (Z.shiftr key 32).
Definition key_lo_int (key : Z) : Z := i32 key.

(** ** The arithmetic of a key *)

Lemma pack_key_eq hi lo : pack_key hi lo = (hi * 2 ^ 32 + lo) mod 2 ^ 64.
Proof.
  unfold pack_key, u64. rewrite Z.shiftl_mul_pow2 by lia.
  rewrite <-Z.add_mod by lia. rewrite <-Zplus_mod_idemp_l, Zmult_mod_idemp_l.
  by rewrite Zplus_mod_idemp_l.
Qed.

Lemma pack_key_range hi lo : is_u64 (pack_key hi lo).
Proof. apply u64_range. Qed.

(** Keys compare like the pairs they are made of, as long as the low halves
    lie in one window of width 2^32 and so do the high halves. *)
Lemma pack_key_inj_window a b hi1 lo1 hi2 lo2 :
  a <= lo1 < a + 2 ^ 32 -> a <= lo2 < a + 2 ^ 32 ->
  b <= hi1 < b + 2 ^ 32 -> b <= hi2 < b + 2 ^ 32 ->
  pack_key hi1 lo1 = pack_key hi2 lo2 -> hi1 = hi2 /\ lo1 = lo2.
Proof.
  rewrite !pack_key_eq. intros ???? Heq.
  pose proof (Z.div_mod (hi1 * 2 ^ 32 + lo1) (2 ^ 64)) as Hd1.
  pose proof (Z.div_mod (hi2 * 2 ^ 32 + lo2) (2 ^ 64)) as Hd2.
  rewrite Heq in Hd1.
  set (q1 := (hi1 * 2 ^ 32 + lo1) / 2 ^ 64) in *.
  set (q2 := (hi2 * 2 ^ 32 + lo2) / 2 ^ 64) in *. clearbody q1 q2. lia.
Qed.

Lemma pack_key_inj hi1 lo1 hi2 lo2 :
  is_i32 hi1 -> is_i32 lo1 -> is_i32 hi2 -> is_i32 lo2 ->
  pack_key hi1 lo1 = pack_key hi2 lo2 -> hi1 = hi2 /\ lo1 = lo2.
Proof. unfold is_i32. intros. eapply (pack_key_inj_window (- 2 ^ 31) (- 2 ^ 31)); lia || done. Qed.

Lemma pack_key_inj_u32 hi1 lo1 hi2 lo2 :
  is_u32 hi1 -> is_i32 lo1 -> is_u32 hi2 -> is_i32 lo2 ->
  pack_key hi1 lo1 = pack_key hi2 lo2 -> hi1 = hi2 /\ lo1 = lo2.
Proof. unfold is_i32, is_u32. intros. eapply (pack_key_inj_window (- 2 ^ 31) 0); lia || done. Qed.

Lemma pack_key_lo hi lo : u32 (pack_key hi lo) = u32 lo.
Proof.
  rewrite pack_key_eq. unfold u32.
  pose proof (Z.div_mod (hi * 2 ^ 32 + lo) (2 ^ 64)) as H.
  set (q := (hi * 2 ^ 32 + lo) / 2 ^ 64) in *. clearbody q.
  replace ((hi * 2 ^ 32 + lo) mod 2 ^ 64) with (lo + (hi - 2 ^ 32 * q) * 2 ^ 32) by lia.
  apply Z.mod_add. lia.
Qed.

Lemma pack_key_u32_hi hi lo : pack_key (u32 hi) lo = pack_key hi lo.
Proof.
  rewrite !pack_key_eq. unfold u32.
  rewrite (Z.mod_eq hi (2 ^ 32)) by lia.
  replace ((hi - 2 ^ 32 * (hi / 2 ^ 32)) * 2 ^ 32 + lo)
    with (hi * 2 ^ 32 + lo + - (hi / 2 ^ 32) * 2 ^ 64) by lia.
  apply Z.mod_add. lia.
Qed.

Lemma pack_key_hi hi lo : Z.shiftr (pack_key hi lo) 32 = u32 (hi + lo / 2 ^ 32).
Proof.
  rewrite pack_key_eq, Z.shiftr_div_pow2 by lia. unfold u32.
  change (2 ^ 64) with (2 ^ 32 * 2 ^ 32).
  rewrite Z.rem_mul_r by lia.
  rewrite Z.add_comm, Z.mul_comm, Z.div_add_l by lia.
  rewrite (Z.div_small (_ mod _)) by (apply Z.mod_pos_bound; lia).
  rewrite Z.add_0_r. by rewrite Z.div_add_l by lia.
Qed.

(** ** Taking the halves back *)

Lemma key_lo_int_pack hi lo : is_i32 lo -> key_lo_int (pack_key hi lo) = lo.
Proof. intros. unfold key_lo_int. by rewrite <-i32_u32, pack_key_lo, i32_u32, i32_id. Qed.

Lemma key_hi_int_pack hi lo :
  key_hi_int (pack_key hi lo) = i32 (hi + lo / 2 ^ 32).
Proof. unfold key_hi_int. by rewrite pack_key_hi, i32_u32. Qed.

Lemma key_lo_u32_pack hi lo : key_lo_u32 (pack_key hi lo) = u32 lo.
Proof. apply pack_key_lo. Qed.

Lemma key_hi_u32_pack hi lo :
  key_hi_u32 (pack_key hi lo) = u32 (hi + lo / 2 ^ 32).
Proof. unfold key_hi_u32. rewrite pack_key_hi. apply u32_id, u32_range. Qed.

(** ** Properties *)

(** Two modid/cmdid pairs of 32-bit ints (as two ip/port pairs of the
    agent) have the same 64-bit key only when they are the same pair, negative
    halves included: no module shadows another one in the tables. *)
Theorem pack_key_injective hi1 lo1 hi2 lo2 :
  is_i32 hi1 -> is_i32 lo1 -> is_i32 hi2 -> is_i32 lo2 ->
  pack_key hi1 lo1 = pack_key hi2 lo2 <-> (hi1, lo1) = (hi2, lo2).
Proof.
  intros. split; [|by intros [= -> ->]].
  intros H'. by apply pack_key_inj in H' as [-> ->].
Qed.

(** [push_change_task] takes a key apart with [int(mod >> 32)] and
    [int(mod)]: it gets the cmdid back, and the modid exactly when the cmdid is
    not negative; for a negative cmdid it gets the modid before. *)
Theorem unpack_mod_key modid cmdid :
  is_i32 modid -> is_i32 cmdid ->
  key_lo_int (pack_key modid cmdid) = cmdid /\
  key_hi_int (pack_key modid cmdid) = if bool_decide (0 <= cmdid) then modid else i32 (modid - 1).
Proof.
  intros Hm Hc. split; [by apply key_lo_int_pack|]. rewrite key_hi_int_pack.
  unfold is_i32 in Hc. case_bool_decide.
  - rewrite Z.div_small, Z.add_0_r by lia. by rewrite i32_id.
  - replace (cmdid / 2 ^ 32) with (-1); [done|].
    apply (Z.div_unique_pos _ _ _ (cmdid + 2 ^ 32)); lia.
Qed.

Lemma pack_key_injective_witness :
  is_i32 (-1) /\ (pack_key (-1) 7 = pack_key (-1) 7 <-> (-1, 7) = (-1, 7)).
Proof.
  assert (is_i32 (-1) /\ is_i32 7) as [H1 H7] by (unfold is_i32; lia).
  split; [done|]. exact (pack_key_injective (-1) 7 (-1) 7 H1 H7 H1 H7).
Defined.

Lemma unpack_mod_key_witness :
  key_lo_int (pack_key 5 (-3)) = -3 /\ key_hi_int (pack_key 5 (-3)) = 4.
Proof.
  assert (is_i32 5 /\ is_i32 (-3)) as [H1 H2] by (unfold is_i32; lia).
  exact (unpack_mod_key 5 (-3) H1 H2).
Defined.
