(* ===== verification/Proto.v ===== *)
(** * Proto: the messages of base/proto/lars.proto as the generated classes hold them

    One record per message class of base/proto/lars.pb.h: the fields are the
    C++ members behind the accessors, [int32] fields in [is_i32], [uint32]
    fields in [is_u32]; a repeated field is a list, an optional sub-message an
    [option].  [X_new] is a default-constructed message ([lars::X x;]). *)

From S2P Require Import Prelude.
From stdpp Require Import base numbers list.
From Stdlib Require Import ZArith.
Open Scope Z_scope.

(** [enum MessageId] *)
Definition ID_GetRouteRequest := 1.
Definition ID_GetRouteResponse := 2.
Definition ID_ReportStatusRequest := 3.
Definition ID_GetHostRequest := 4.
Definition ID_GetHostResponse := 5.
Definition ID_ReportRequest := 6.
Definition ID_API_GetRouteRequest := 7.
Definition ID_API_GetRouteResponse := 8.

(** [enum LarsRetCode] *)
Definition RET_SUCC := 0.
Definition RET_OVERLOAD := 1.
Definition RET_SYSTEM_ERROR := 2.
Definition RET_NOEXIST := 3.

Record HostInfo := { hi_ip : Z; hi_port : Z }.
Definition HostInfo_new : HostInfo := {| hi_ip := 0; hi_port := 0 |}.

Record GetRouteRequest := { grq_modid : Z; grq_cmdid : Z }.
Definition GetRouteRequest_new : GetRouteRequest := {| grq_modid := 0; grq_cmdid := 0 |}.

Record GetRouteResponse := { grs_modid : Z; grs_cmdid : Z; grs_host : list HostInfo }.
Definition GetRouteResponse_new : GetRouteResponse :=
  {| grs_modid := 0; grs_cmdid := 0; grs_host := [] |}.

Record HostCallResult := {
  hcr_ip : Z; hcr_port : Z; hcr_succ : Z; hcr_err : Z; hcr_overload : bool
}.
Definition HostCallResult_new : HostCallResult :=
  {| hcr_ip := 0; hcr_port := 0; hcr_succ := 0; hcr_err := 0; hcr_overload := false |}.

Record ReportStatusRequest := {
  rsr_modid : Z; rsr_cmdid : Z; rsr_caller : Z; rsr_results : list HostCallResult; rsr_ts : Z
}.
Definition ReportStatusRequest_new : ReportStatusRequest :=
  {| rsr_modid := 0; rsr_cmdid := 0; rsr_caller := 0; rsr_results := []; rsr_ts := 0 |}.

Record GetHostRequest := { ghq_seq : Z; ghq_modid : Z; ghq_cmdid : Z }.
Definition GetHostRequest_new : GetHostRequest :=
  {| ghq_seq := 0; ghq_modid := 0; ghq_cmdid := 0 |}.

Record GetHostResponse := {
  ghs_seq : Z; ghs_modid : Z; ghs_cmdid : Z; ghs_retcode : Z; ghs_host : option HostInfo
}.
Definition GetHostResponse_new : GetHostResponse :=
  {| ghs_seq := 0; ghs_modid := 0; ghs_cmdid := 0; ghs_retcode := 0; ghs_host := None |}.

Record ReportRequest := {
  rrq_modid : Z; rrq_cmdid : Z; rrq_host : option HostInfo; rrq_retcode : Z
}.
Definition ReportRequest_new : ReportRequest :=
  {| rrq_modid := 0; rrq_cmdid := 0; rrq_host := None; rrq_retcode := 0 |}.

(** [host()] on a message: the sub-message, or the default instance. *)
Definition rrq_host_get (r : ReportRequest) : HostInfo := default HostInfo_new (rrq_host r).
Definition ghs_host_get (r : GetHostResponse) : HostInfo := default HostInfo_new (ghs_host r).

(** Setters of the responses the handlers fill in. *)
Definition ghs_set_retcode (c : Z) (r : GetHostResponse) : GetHostResponse :=
  {| ghs_seq := ghs_seq r; ghs_modid := ghs_modid r; ghs_cmdid := ghs_cmdid r;
     ghs_retcode := c; ghs_host := ghs_host r |}.
Definition ghs_set_host (h : HostInfo) (r : GetHostResponse) : GetHostResponse :=
  {| ghs_seq := ghs_seq r; ghs_modid := ghs_modid r; ghs_cmdid := ghs_cmdid r;
     ghs_retcode := ghs_retcode r; ghs_host := Some h |}.
Definition grs_add_host (h : HostInfo) (r : GetRouteResponse) : GetRouteResponse :=
  {| grs_modid := grs_modid r; grs_cmdid := grs_cmdid r; grs_host := grs_host r ++ [h] |}.
Definition rsr_add_results (c : HostCallResult) (r : ReportStatusRequest) : ReportStatusRequest :=
  {| rsr_modid := rsr_modid r; rsr_cmdid := rsr_cmdid r; rsr_caller := rsr_caller r;
     rsr_results := rsr_results r ++ [c]; rsr_ts := rsr_ts r |}.

#[export] Instance HostInfo_eq_dec : EqDecision HostInfo.
Proof. solve_decision. Defined.
