(* ===== verification/HostNode.v ===== *)
(** * HostNode: one host of a module (lars_lb_agent, host_info)

    [struct host_info] with its constructor, [set_overload] and [set_idle]
    (include/host_info.h, src/host_info.cpp), the configuration the agent loads
    (include/main_server.h), and the parts of [load_balance::report] that look at
    one host only: the counters and the overload and idle conditions, with the
    IEEE double arithmetic of the C++ expressions. *)

From S2P Require Import Prelude Keys Proto.
From stdpp Require Import base numbers list.
From Stdlib Require Import ZArith SpecFloat.
Open Scope Z_scope.

(** [struct load_balance_config].  The two rates are [float]s. *)
Record load_balance_config := {
  probe_num : Z;
  init_succ_cnt : Z;
  init_err_cnt : Z;
  err_rate : spec_float;
  succ_rate : spec_float;
  contin_err_limit : Z;
  contin_succ_limit : Z;
  idle_timeout : Z;
  overload_timeout : Z;
  update_timeout : Z
}.

(** [struct host_info].  The constructor leaves [overload_ts] uninitialised. *)
Record host_info := {
  h_ip : Z;
  h_port : Z;
  h_vsucc : Z;
  h_verr : Z;
  h_rsucc : Z;
  h_rerr : Z;
  h_contin_succ : Z;
  h_contin_err : Z;
  h_idle_ts : Z;
  h_overload_ts : option Z;
  h_overload : bool
}.

(** [host_info(uint32_t ip, int port, int init_succ)]; [now] is [time(NULL)]. *)
Definition host_info_new (now ip port init_succ : Z) : host_info := {|
  h_ip := u32 ip; h_port := port; h_vsucc := u32 init_succ; h_verr := 0;
  h_rsucc := 0; h_rerr := 0; h_contin_succ := 0; h_contin_err := 0;
  h_idle_ts := now; h_overload_ts := None; h_overload := false
|}.

Definition set_overload (cfg : load_balance_config) (now : Z) (h : host_info) : host_info := {|
  h_ip := h_ip h; h_port := h_port h; h_vsucc := 0; h_verr := u32 (init_err_cnt cfg);
  h_rsucc := 0; h_rerr := 0; h_contin_succ := 0; h_contin_err := 0;
  h_idle_ts := h_idle_ts h; h_overload_ts := Some now; h_overload := true
|}.

Definition set_idle (cfg : load_balance_config) (now : Z) (h : host_info) : host_info := {|
  h_ip := h_ip h; h_port := h_port h; h_vsucc := u32 (init_succ_cnt cfg); h_verr := 0;
  h_rsucc := 0; h_rerr := 0; h_contin_succ := 0; h_contin_err := 0;
  h_idle_ts := now; h_overload_ts := h_overload_ts h; h_overload := false
|}.

(** The counters of [load_balance::report]: [uint32_t] increments wrap. *)
Definition count_result (retcode : Z) (h : host_info) : host_info :=
  if retcode =? RET_SUCC then {|
    h_ip := h_ip h; h_port := h_port h;
    h_vsucc := u32 (h_vsucc h + 1); h_verr := h_verr h;
    h_rsucc := u32 (h_rsucc h + 1); h_rerr := h_rerr h;
    h_contin_succ := u32 (h_contin_succ h + 1); h_contin_err := 0;
    h_idle_ts := h_idle_ts h; h_overload_ts := h_overload_ts h; h_overload := h_overload h
  |} else {|
    h_ip := h_ip h; h_port := h_port h;
    h_vsucc := h_vsucc h; h_verr := u32 (h_verr h + 1);
    h_rsucc := h_rsucc h; h_rerr := u32 (h_rerr h + 1);
    h_contin_succ := 0; h_contin_err := u32 (h_contin_err h + 1);
    h_idle_ts := h_idle_ts h; h_overload_ts := h_overload_ts h; h_overload := h_overload h
  |}.

(** ** The rates, in IEEE 754 double precision *)

Definition double_of_Z (z : Z) : spec_float := binary_normalize 53 1024 z 0 false.

(** A [float] promoted to [double]: the same value, renormalised. *)
Definition double_of_float (f : spec_float) : spec_float :=
  match f with
  | S754_finite s m e => binary_normalize 53 1024 (cond_Zopp s (Zpos m)) e s
  | _ => f
  end.

(** [a * 1.0 / (b + c)] for [uint32_t] operands. *)
Definition rate (a b c : Z) : spec_float :=
  SFdiv 53 1024 (SFmul 53 1024 (double_of_Z a) (double_of_Z 1)) (double_of_Z (u32 (b + c))).

Definition rate_above (r threshold : spec_float) : bool := SFltb (double_of_float threshold) r.

(** The tests that make an idle host overloaded, and an overloaded one idle. *)
Definition becomes_overload (cfg : load_balance_config) (h : host_info) : bool :=
  rate_above (rate (h_verr h) (h_vsucc h) (h_verr h)) (err_rate cfg)
  || (u32 (contin_err_limit cfg) <=? h_contin_err h).

Definition becomes_idle (cfg : load_balance_config) (h : host_info) : bool :=
  rate_above (rate (h_vsucc h) (h_vsucc h) (h_verr h)) (succ_rate cfg)
  || (u32 (contin_succ_limit cfg) <=? h_contin_succ h).

(** The key under which [load_balance::update] files a host. *)
Definition host_key (h : host_info) : Z := pack_key (h_ip h) (h_port h).

(** ** Lemmas *)

Lemma host_key_new now ip port init : host_key (host_info_new now ip port init) = pack_key ip port.
Proof. unfold host_key. cbn [h_ip h_port host_info_new]. apply pack_key_u32_hi. Qed.

Lemma host_key_set_overload cfg t h : host_key (set_overload cfg t h) = host_key h.
Proof. done. Qed.

Lemma host_key_set_idle cfg t h : host_key (set_idle cfg t h) = host_key h.
Proof. done. Qed.

Lemma host_key_count rc h : host_key (count_result rc h) = host_key h.
Proof. unfold count_result. by destruct (rc =? RET_SUCC). Qed.

Lemma overload_count rc h : h_overload (count_result rc h) = h_overload h.
Proof. unfold count_result. by destruct (rc =? RET_SUCC). Qed.

Lemma overload_ts_count rc h : h_overload_ts (count_result rc h) = h_overload_ts h.
Proof. unfold count_result. by destruct (rc =? RET_SUCC). Qed.

#[export] Hint Rewrite host_key_new host_key_set_overload host_key_set_idle host_key_count
  overload_count overload_ts_count : lars_rw.

(** The values of conf/lb_agent.ini. *)
Definition float_ratio (a b : Z) : spec_float :=
  SFdiv 24 128 (binary_normalize 24 128 a 0 false) (binary_normalize 24 128 b 0 false).
Definition lb_agent_ini : load_balance_config := {|
  probe_num := 10; init_succ_cnt := 180; init_err_cnt := 5;
  err_rate := float_ratio 1 10; succ_rate := float_ratio 95 100;
  contin_err_limit := 15; contin_succ_limit := 15;
  idle_timeout := 15; overload_timeout := 15; update_timeout := 15
|}.
