(* ===== verification/LoadBalance.v ===== *)
(** * LoadBalance: the hosts of one modid/cmdid (lars_lb_agent, load_balance)

    The class of include/load_balance.h with the operations of
    src/load_balance.cpp.  [_host_map] maps a key to a pointer, the two lists
    hold pointers, and the [host_info] objects live in [lb_heap]: the part of
    the heap this object allocated.  An object that was deleted is absent from
    [lb_heap] and its address is not given out again, so that an access through
    a pointer that was kept too long is the fault [UseAfterFree]. *)

From S2P Require Import Prelude Keys Proto HostNode.
From stdpp Require Import base numbers list gmap fin_maps.
From Stdlib Require Import ZArith Lia.
Open Scope Z_scope.

Abbreviation loc := positive.

(** [enum STATUS] *)
Inductive STATUS := PULLING | NEW.

#[export] Instance STATUS_eq_dec : EqDecision STATUS.
Proof. solve_decision. Defined.

(** What the agent threads share: the calls of [time(NULL)] made so far and the
    messages put on [dns_queue] and [report_queue]. *)
Record world := World {
  w_ticks : nat;
  w_dns_queue : list GetRouteRequest;
  w_report_queue : list ReportStatusRequest
}.

Definition w_send_dns (r : GetRouteRequest) (w : world) : world :=
  World (w_ticks w) (w_dns_queue w ++ [r]) (w_report_queue w).
Definition w_send_report (r : ReportStatusRequest) (w : world) : world :=
  World (w_ticks w) (w_dns_queue w) (w_report_queue w ++ [r]).

Record load_balance := LB {
  lb_modid : Z;
  lb_cmdid : Z;
  lb_host_map : gmap Z loc;
  lb_idle : list loc;
  lb_over : list loc;
  lb_access_cnt : Z;
  lb_status : STATUS;
  lb_last_update : Z;
  lb_heap : gmap loc host_info;
  lb_next : loc
}.

(** ** Field updates *)

Definition lb_set_lists (idle over : list loc) (lb : load_balance) : load_balance :=
  LB (lb_modid lb) (lb_cmdid lb) (lb_host_map lb) idle over (lb_access_cnt lb)
     (lb_status lb) (lb_last_update lb) (lb_heap lb) (lb_next lb).
Definition lb_set_cnt (c : Z) (lb : load_balance) : load_balance :=
  LB (lb_modid lb) (lb_cmdid lb) (lb_host_map lb) (lb_idle lb) (lb_over lb) c
     (lb_status lb) (lb_last_update lb) (lb_heap lb) (lb_next lb).
Definition lb_set_status (s : STATUS) (lb : load_balance) : load_balance :=
  LB (lb_modid lb) (lb_cmdid lb) (lb_host_map lb) (lb_idle lb) (lb_over lb) (lb_access_cnt lb)
     s (lb_last_update lb) (lb_heap lb) (lb_next lb).
Definition lb_set_last_update (t : Z) (lb : load_balance) : load_balance :=
  LB (lb_modid lb) (lb_cmdid lb) (lb_host_map lb) (lb_idle lb) (lb_over lb) (lb_access_cnt lb)
     (lb_status lb) t (lb_heap lb) (lb_next lb).
Definition lb_set_heap (h : gmap loc host_info) (lb : load_balance) : load_balance :=
  LB (lb_modid lb) (lb_cmdid lb) (lb_host_map lb) (lb_idle lb) (lb_over lb) (lb_access_cnt lb)
     (lb_status lb) (lb_last_update lb) h (lb_next lb).

(** [p->...]: a read through a pointer, a write to the object it points to. *)
Definition deref (lb : load_balance) (p : loc) : res host_info :=
  of_option UseAfterFree (lb_heap lb !! p).
Definition store (p : loc) (h : host_info) (lb : load_balance) : load_balance :=
  lb_set_heap (<[p:=h]> (lb_heap lb)) lb.

(** [_host_map[key] = new host_info(...); _idle_list.push_back(hi);] *)
Definition add_host (key : Z) (h : host_info) (lb : load_balance) : load_balance :=
  LB (lb_modid lb) (lb_cmdid lb) (<[key:=lb_next lb]> (lb_host_map lb))
     (lb_idle lb ++ [lb_next lb]) (lb_over lb) (lb_access_cnt lb)
     (lb_status lb) (lb_last_update lb) (<[lb_next lb:=h]> (lb_heap lb)) (Pos.succ (lb_next lb)).

Section operations.
Context `{Clock} (cfg : load_balance_config).

(** [time(NULL)] *)
Definition time_now (w : world) : Z * world :=
  (time_at (w_ticks w), World (S (w_ticks w)) (w_dns_queue w) (w_report_queue w)).

(** [load_balance(int modid, int cmdid)] *)
Definition load_balance_new (modid cmdid : Z) (w : world) : load_balance * world :=
  let '(t, w) := time_now w in
  (LB modid cmdid ∅ [] [] 0 NEW t ∅ 1%positive, w).

Definition lb_empty (lb : load_balance) : bool := bool_decide (lb_host_map lb = ∅).

(** [load_balance::pull] *)
Definition pull (lb : load_balance) (w : world) : load_balance * world :=
  let req := {| grq_modid := lb_modid lb; grq_cmdid := lb_cmdid lb |} in
  let w := w_send_dns req w in
  (lb_set_status PULLING lb, w).

(** *** update *)

(** The body of the first loop of [load_balance::update]. *)
Definition update_insert (st : gset Z * load_balance * world) (h : HostInfo)
    : gset Z * load_balance * world :=
  let '(remote_hosts, lb, w) := st in
  let key := pack_key (hi_ip h) (hi_port h) in
  let remote_hosts := {[key]} ∪ remote_hosts in
  match lb_host_map lb !! key with
  | Some _ => (remote_hosts, lb, w)
  | None =>
      let '(t, w) := time_now w in
      let hi := host_info_new t (hi_ip h) (hi_port h) (init_succ_cnt cfg) in
      (remote_hosts, add_host key hi lb, w)
  end.

(** The body of the last loop: the host is taken out of its list and
    deleted. *)
Definition update_delete (lb : load_balance) (key : Z) : res load_balance :=
  p ← of_option NullDeref (lb_host_map lb !! key);
  hi ← deref lb p;
  let lb := if h_overload hi
            then lb_set_lists (lb_idle lb) (list_remove_all p (lb_over lb)) lb
            else lb_set_lists (list_remove_all p (lb_idle lb)) (lb_over lb) lb in
  Ok (lb_set_heap (delete p (lb_heap lb)) lb).

Definition update (rsp : GetRouteResponse) (lb : load_balance) (w : world)
    : res (load_balance * world) :=
  let '(current_time, w) := time_now w in
  ensure negb (Nat.eqb (length (grs_host rsp)) 0) or AssertFail;
  let '(remote_hosts, lb, w) := foldl update_insert (∅, lb, w) (grs_host rsp) in
  let need_delete := dom (lb_host_map lb) ∖ remote_hosts in
  lb ← foldM update_delete lb (ordered need_delete);
  Ok (lb_set_status NEW (lb_set_last_update current_time lb), w).

(** *** choice_one_host *)

Definition get_host_from_list (lb : load_balance) (rsp : GetHostResponse) (l : list loc)
    : res (GetHostResponse * list loc) :=
  match l with
  | [] => Err OutOfBounds
  | host :: l' =>
      hi ← deref lb host;
      Ok (ghs_set_host {| hi_ip := i32 (h_ip hi); hi_port := h_port hi |} rsp, l' ++ [host])
  end.

Definition choice_idle (rsp : GetHostResponse) (lb : load_balance)
    : res (Z * GetHostResponse * load_balance) :=
  '(rsp, l) ← get_host_from_list lb rsp (lb_idle lb);
  Ok (RET_SUCC, rsp, lb_set_lists l (lb_over lb) lb).

Definition choice_over (rsp : GetHostResponse) (lb : load_balance)
    : res (Z * GetHostResponse * load_balance) :=
  '(rsp, l) ← get_host_from_list lb rsp (lb_over lb);
  Ok (RET_SUCC, rsp, lb_set_lists (lb_idle lb) l lb).

Definition choice_one_host (rsp : GetHostResponse) (lb : load_balance)
    : res (Z * GetHostResponse * load_balance) :=
  match lb_idle lb with
  | [] =>
      if probe_num cfg <=? lb_access_cnt lb then choice_over rsp (lb_set_cnt 0 lb)
      else Ok (RET_OVERLOAD, rsp, lb_set_cnt (lb_access_cnt lb + 1) lb)
  | _ :: _ =>
      match lb_over lb with
      | [] => choice_idle rsp lb
      | _ :: _ =>
          if probe_num cfg <=? lb_access_cnt lb then choice_over rsp (lb_set_cnt 0 lb)
          else choice_idle rsp (lb_set_cnt (lb_access_cnt lb + 1) lb)
      end
  end.

Context `{HashOrder}.

(** [load_balance::get_all_hosts]: the pointers of [_host_map]. *)
Definition get_all_hosts (lb : load_balance) : list loc := (hm_elements (lb_host_map lb)).*2.
End operations.

Section report.
Context `{Clock} (cfg : load_balance_config).

(** [_idle_list.remove(hi); _overload_list.push_back(hi);] and its converse *)
Definition move_to_over (p : loc) (lb : load_balance) : load_balance :=
  lb_set_lists (list_remove_all p (lb_idle lb)) (lb_over lb ++ [p]) lb.
Definition move_to_idle (p : loc) (lb : load_balance) : load_balance :=
  lb_set_lists (lb_idle lb ++ [p]) (list_remove_all p (lb_over lb)) lb.

(** The last part of [load_balance::report]: the time windows. *)
Definition report_windows (current_time : Z) (p : loc) (hi : host_info)
    (lb : load_balance) (w : world) : res (load_balance * world) :=
  if negb (h_overload hi) then
    if idle_timeout cfg <=? current_time - h_idle_ts hi then
      let '(t, w) := time_now w in
      Ok (store p (set_idle cfg t hi) lb, w)
    else Ok (lb, w)
  else
    ts ← of_option Uninit (h_overload_ts hi);
    if overload_timeout cfg <=? current_time - ts then
      let '(t, w) := time_now w in
      Ok (move_to_idle p (store p (set_idle cfg t hi) lb), w)
    else Ok (lb, w).

Definition report (ip port retcode : Z) (lb : load_balance) (w : world)
    : res (load_balance * world) :=
  let '(current_time, w) := time_now w in
  let key := pack_key ip port in
  match lb_host_map lb !! key with
  | None => Ok (lb, w)
  | Some p =>
      hi0 ← deref lb p;
      let hi := count_result retcode hi0 in
      let lb := store p hi lb in
      if negb (h_overload hi) && negb (retcode =? RET_SUCC) then
        if becomes_overload cfg hi then
          let '(t, w) := time_now w in
          Ok (move_to_over p (store p (set_overload cfg t hi) lb), w)
        else report_windows current_time p hi lb w
      else if h_overload hi && (retcode =? RET_SUCC) then
        if becomes_idle cfg hi then
          let '(t, w) := time_now w in
          Ok (move_to_idle p (store p (set_idle cfg t hi) lb), w)
        else report_windows current_time p hi lb w
      else report_windows current_time p hi lb w
  end.

(** One entry of the loops of [load_balance::commit]. *)
Definition commit_host (lb : load_balance) (overload : bool) (req : ReportStatusRequest) (p : loc)
    : res ReportStatusRequest :=
  hi ← deref lb p;
  Ok (rsr_add_results {| hcr_ip := i32 (h_ip hi); hcr_port := h_port hi;
                         hcr_succ := h_rsucc hi; hcr_err := h_rerr hi;
                         hcr_overload := overload |} req).

Definition commit (lb : load_balance) (w : world) : res world :=
  if lb_empty lb then Ok w
  else
    let '(t, w) := time_now w in
    let req := {| rsr_modid := lb_modid lb; rsr_cmdid := lb_cmdid lb; rsr_caller := 127;
                  rsr_results := []; rsr_ts := u32 t |} in
    req ← foldM (commit_host lb false) req (lb_idle lb);
    req ← foldM (commit_host lb true) req (lb_over lb);
    Ok (w_send_report req w).
End report.

(** ** The invariant

    [lb_wf] is what every operation keeps.  It does not say that the pointers
    of [_host_map] are valid: the map may keep pointers to deleted hosts
    ([dead_keys]), but every host that is alive is in exactly one list, the one
    its [overload] flag names, under its own key. *)

Definition host_at (lb : load_balance) (k : Z) : option host_info :=
  p ← lb_host_map lb !! k; lb_heap lb !! p.

Definition alive (lb : load_balance) (k : Z) : Prop := is_Some (host_at lb k).
#[export] Instance alive_dec lb k : Decision (alive lb k).
Proof. unfold alive. apply _. Defined.

Definition live_keys (lb : load_balance) : gset Z := filter (alive lb) (dom (lb_host_map lb)).
Definition dead_keys (lb : load_balance) : gset Z := dom (lb_host_map lb) ∖ live_keys lb.

Record lb_wf (lb : load_balance) : Prop := {
  wf_nodup : NoDup (lb_idle lb ++ lb_over lb);
  wf_idle p : p ∈ lb_idle lb -> exists h, lb_heap lb !! p = Some h /\ h_overload h = false;
  wf_over p : p ∈ lb_over lb ->
    exists h, lb_heap lb !! p = Some h /\ h_overload h = true /\ is_Some (h_overload_ts h);
  wf_mapped p h : lb_heap lb !! p = Some h -> lb_host_map lb !! host_key h = Some p;
  wf_listed p h : lb_heap lb !! p = Some h -> p ∈ lb_idle lb ++ lb_over lb;
  wf_inj k1 k2 p : lb_host_map lb !! k1 = Some p -> lb_host_map lb !! k2 = Some p -> k1 = k2;
  wf_fresh k p : lb_host_map lb !! k = Some p -> (p < lb_next lb)%positive;
  wf_cnt : 0 <= lb_access_cnt lb
}.

(** Nothing dangles: the state of a module no host was ever removed from. *)
Definition lb_intact (lb : load_balance) : Prop := dead_keys lb = ∅.

(** The module an object is for. *)
Definition lb_key (lb : load_balance) : Z := pack_key (lb_modid lb) (lb_cmdid lb).
Definition same_module (lb lb' : load_balance) : Prop :=
  lb_modid lb' = lb_modid lb /\ lb_cmdid lb' = lb_cmdid lb.

(** ** Lemmas on the invariant *)

Lemma heap_key lb k p h :
  lb_wf lb -> lb_host_map lb !! k = Some p -> lb_heap lb !! p = Some h -> host_key h = k.
Proof. intros Hwf Hk Hp. eapply (wf_inj lb Hwf); [by apply wf_mapped|done]. Qed.

Lemma host_at_Some lb k h :
  host_at lb k = Some h <-> exists p, lb_host_map lb !! k = Some p /\ lb_heap lb !! p = Some h.
Proof. unfold host_at. rewrite bind_Some. done. Qed.

Lemma elem_of_live_keys lb k : k ∈ live_keys lb <-> alive lb k.
Proof.
  unfold live_keys. rewrite elem_of_filter, elem_of_dom. split; [tauto|]. intros Hk. split; [done|].
  destruct Hk as [h (p & -> & _)%host_at_Some]. done.
Qed.

Lemma elem_of_dead_keys lb k :
  k ∈ dead_keys lb <-> exists p, lb_host_map lb !! k = Some p /\ lb_heap lb !! p = None.
Proof.
  unfold dead_keys. rewrite elem_of_difference, elem_of_dom, elem_of_live_keys.
  unfold alive, host_at. split.
  - intros [[p Hk] Hd]. exists p. split; [done|]. rewrite Hk in Hd. cbn in Hd.
    by apply eq_None_not_Some.
  - intros (p & Hk & Hp). rewrite Hk. cbn. rewrite Hp. split; [by eauto|]. by intros [? [=]].
Qed.

Lemma wf_in_list lb p h :
  lb_wf lb -> lb_heap lb !! p = Some h ->
  if h_overload h then p ∈ lb_over lb /\ p ∉ lb_idle lb else p ∈ lb_idle lb /\ p ∉ lb_over lb.
Proof.
  intros Hwf Hp. pose proof (wf_listed _ Hwf _ _ Hp) as Hin. rewrite elem_of_app in Hin.
  pose proof (wf_idle _ Hwf p). pose proof (wf_over _ Hwf p).
  destruct (h_overload h) eqn:?; naive_solver congruence.
Qed.

Lemma wf_disjoint lb p : lb_wf lb -> p ∈ lb_idle lb -> p ∈ lb_over lb -> False.
Proof.
  intros Hwf Hi Ho. destruct (wf_idle _ Hwf _ Hi) as (h & Hp & Hh).
  destruct (wf_over _ Hwf _ Ho) as (h' & Hp' & Hh' & _). congruence.
Qed.

Lemma lists_perm_move (p : loc) l1 l2 :
  NoDup (l1 ++ l2) -> p ∈ l1 -> list_remove_all p l1 ++ l2 ++ [p] ≡ₚ l1 ++ l2.
Proof.
  intros (Hl1 & _ & _)%NoDup_app Hp. rewrite (remove_all_perm p l1) at 2 by done.
  by rewrite app_assoc, Permutation_app_comm.
Qed.

(** The one lemma behind every change of a host: its record is replaced and
    the lists are rearranged so that it sits where its new flag says. *)
Lemma wf_relist lb p h h' idle over :
  lb_wf lb -> lb_heap lb !! p = Some h -> host_key h' = host_key h ->
  (h_overload h' = true -> is_Some (h_overload_ts h')) ->
  idle ++ over ≡ₚ lb_idle lb ++ lb_over lb ->
  (forall q, q ∈ idle <-> q = p /\ h_overload h' = false \/ q <> p /\ q ∈ lb_idle lb) ->
  (forall q, q ∈ over <-> q = p /\ h_overload h' = true \/ q <> p /\ q ∈ lb_over lb) ->
  lb_wf (lb_set_lists idle over (store p h' lb)).
Proof.
  intros Hwf Hp Hkey Hts Hperm Hidle Hover. destruct Hwf as [W1 W2 W3 W4 W5 W6 W7 W8].
  constructor; cbn; try done.
  - by rewrite Hperm.
  - intros q Hq%Hidle. rewrite lookup_insert. case_decide; naive_solver.
  - intros q Hq%Hover. rewrite lookup_insert. case_decide; naive_solver.
  - intros q h0. rewrite lookup_insert. case_decide as Hd; [|by auto].
    intros [= <-]. rewrite Hkey. subst. by apply W4.
  - intros q h0. rewrite lookup_insert. rewrite Hperm. case_decide as Hd; [|by eauto].
    intros _. subst. by eauto.
Qed.

Lemma wf_store lb p h h' :
  lb_wf lb -> lb_heap lb !! p = Some h -> host_key h' = host_key h ->
  h_overload h' = h_overload h ->
  (h_overload h' = true -> is_Some (h_overload_ts h')) ->
  lb_wf (store p h' lb).
Proof.
  intros Hwf Hp Hkey Hflag Hts. pose proof (wf_in_list _ _ _ Hwf Hp) as Hin.
  rewrite <-Hflag in Hin.
  apply (wf_relist lb p h h' (lb_idle lb) (lb_over lb)); try done.
  all: intros q; destruct (decide (q = p)) as [->|]; destruct (h_overload h'); naive_solver.
Qed.

Lemma wf_move_to_over lb p h h' :
  lb_wf lb -> lb_heap lb !! p = Some h -> host_key h' = host_key h ->
  h_overload h = false -> h_overload h' = true -> is_Some (h_overload_ts h') ->
  lb_wf (move_to_over p (store p h' lb)).
Proof.
  intros Hwf Hp Hkey Hf Hf' Hts. pose proof (wf_in_list _ _ _ Hwf Hp) as Hin.
  rewrite Hf in Hin. destruct Hin as [Hin Hout].
  apply (wf_relist lb p h h'); try done; cbn.
  - by apply lists_perm_move; [apply Hwf|].
  - intros q. rewrite elem_of_remove_all, Hf'. split; [|intros [[_ [=]]|]]; tauto.
  - intros q. rewrite elem_of_app, list_elem_of_singleton. destruct (decide (q = p)); naive_solver.
Qed.

Lemma wf_move_to_idle lb p h h' :
  lb_wf lb -> lb_heap lb !! p = Some h -> host_key h' = host_key h ->
  h_overload h = true -> h_overload h' = false ->
  lb_wf (move_to_idle p (store p h' lb)).
Proof.
  intros Hwf Hp Hkey Hf Hf'. pose proof (wf_in_list _ _ _ Hwf Hp) as Hin.
  rewrite Hf in Hin. destruct Hin as [Hin Hout].
  apply (wf_relist lb p h h'); try done; cbn.
  - by rewrite Hf'.
  - rewrite <-app_assoc. apply Permutation_app_head. symmetry.
    apply remove_all_perm; [|done]. by apply (NoDup_app (lb_idle lb)), Hwf.
  - intros q. rewrite elem_of_app, list_elem_of_singleton. destruct (decide (q = p)); naive_solver.
  - intros q. rewrite elem_of_remove_all, Hf'. split; [|intros [[_ [=]]|]]; tauto.
Qed.

(** ** One report on one host

    The cases of [report] on one host, in terms of the functions it calls: [t0] is the
    time the report starts, [t1] the time of the change, [rc] the return code.
    BalanceSpec relates them to an automaton that is written without these functions. *)

Inductive host_step (cfg : load_balance_config) (t0 t1 rc : Z) : host_info -> host_info -> Prop :=
| hs_trip h :
    h_overload h = false -> rc <> RET_SUCC -> becomes_overload cfg (count_result rc h) = true ->
    host_step cfg t0 t1 rc h (set_overload cfg t1 (count_result rc h))
| hs_recover h :
    h_overload h = true -> rc = RET_SUCC -> becomes_idle cfg (count_result rc h) = true ->
    host_step cfg t0 t1 rc h (set_idle cfg t1 (count_result rc h))
| hs_new_window h :
    h_overload h = false -> (rc = RET_SUCC \/ becomes_overload cfg (count_result rc h) = false) ->
    idle_timeout cfg <= t0 - h_idle_ts h ->
    host_step cfg t0 t1 rc h (set_idle cfg t1 (count_result rc h))
| hs_stay_idle h :
    h_overload h = false -> (rc = RET_SUCC \/ becomes_overload cfg (count_result rc h) = false) ->
    t0 - h_idle_ts h < idle_timeout cfg ->
    host_step cfg t0 t1 rc h (count_result rc h)
| hs_second_chance h ts :
    h_overload h = true -> (rc <> RET_SUCC \/ becomes_idle cfg (count_result rc h) = false) ->
    h_overload_ts h = Some ts -> overload_timeout cfg <= t0 - ts ->
    host_step cfg t0 t1 rc h (set_idle cfg t1 (count_result rc h))
| hs_stay_overload h ts :
    h_overload h = true -> (rc <> RET_SUCC \/ becomes_idle cfg (count_result rc h) = false) ->
    h_overload_ts h = Some ts -> t0 - ts < overload_timeout cfg ->
    host_step cfg t0 t1 rc h (count_result rc h).

(** Where a host goes when its record becomes [h']. *)
Definition replace_host (p : loc) (h h' : host_info) (lb : load_balance) : load_balance :=
  let lb' := store p h' lb in
  match h_overload h, h_overload h' with
  | false, true => move_to_over p lb'
  | true, false => move_to_idle p lb'
  | _, _ => lb'
  end.

Lemma store_store p h h' lb : store p h' (store p h lb) = store p h' lb.
Proof. unfold store. cbn. by rewrite insert_insert_eq. Qed.

Lemma host_step_key cfg t0 t1 rc h h' : host_step cfg t0 t1 rc h h' -> host_key h' = host_key h.
Proof. destruct 1; autorewrite with lars_rw; done. Qed.

Lemma host_step_ts cfg t0 t1 rc h h' :
  host_step cfg t0 t1 rc h h' -> (h_overload h = true -> is_Some (h_overload_ts h)) ->
  h_overload h' = true -> is_Some (h_overload_ts h').
Proof. destruct 1; autorewrite with lars_rw; cbn; eauto; congruence. Qed.

Lemma wf_replace_host lb p h h' :
  lb_wf lb -> lb_heap lb !! p = Some h -> host_key h' = host_key h ->
  (h_overload h' = true -> is_Some (h_overload_ts h')) ->
  lb_wf (replace_host p h h' lb).
Proof.
  intros. unfold replace_host. destruct (h_overload h) eqn:?, (h_overload h') eqn:?.
  - eapply wf_store; eauto; congruence.
  - eapply wf_move_to_idle; eauto.
  - eapply wf_move_to_over; eauto.
  - eapply wf_store; eauto; congruence.
Qed.

Lemma replace_host_heap lb p h h' : lb_heap (replace_host p h h' lb) = <[p:=h']> (lb_heap lb).
Proof. unfold replace_host. by destruct (h_overload h), (h_overload h'). Qed.

Lemma replace_host_map lb p h h' : lb_host_map (replace_host p h h' lb) = lb_host_map lb.
Proof. unfold replace_host. by destruct (h_overload h), (h_overload h'). Qed.

Lemma replace_host_status lb p h h' : lb_status (replace_host p h h' lb) = lb_status lb.
Proof. unfold replace_host. by destruct (h_overload h), (h_overload h'). Qed.

Lemma replace_host_last lb p h h' : lb_last_update (replace_host p h h' lb) = lb_last_update lb.
Proof. unfold replace_host. by destruct (h_overload h), (h_overload h'). Qed.

Lemma replace_host_at lb p h h' k k' :
  lb_wf lb -> lb_host_map lb !! k = Some p ->
  host_at (replace_host p h h' lb) k' = if decide (k = k') then Some h' else host_at lb k'.
Proof.
  intros Hwf Hk. unfold host_at. rewrite replace_host_map, replace_host_heap.
  case_decide as Hkk; [subst; rewrite Hk; cbn; apply lookup_insert_eq|].
  destruct (lb_host_map lb !! k') as [p'|] eqn:Hk'; cbn; [|done].
  apply lookup_insert_ne. intros ->. apply Hkk. by eapply (wf_inj lb Hwf).
Qed.

Lemma alive_replace_host lb p h h' k k' :
  lb_wf lb -> lb_host_map lb !! k = Some p -> lb_heap lb !! p = Some h ->
  alive (replace_host p h h' lb) k' <-> alive lb k'.
Proof.
  intros Hwf Hk Hp. unfold alive. rewrite (replace_host_at _ _ _ _ k) by done.
  case_decide; [subst|done]. split; intros _; [|done]. exists h. apply host_at_Some. eauto.
Qed.

Section report_spec.
Context `{Clock} (cfg : load_balance_config).

(** The queues are untouched; only the clock is read. *)
Definition same_queues (w w' : world) : Prop :=
  w_dns_queue w' = w_dns_queue w /\ w_report_queue w' = w_report_queue w.

Lemma report_windows_step t0 t1 p rc h lb w :
  t1 = time_at (w_ticks w) -> (h_overload h = true -> is_Some (h_overload_ts h)) ->
  (if h_overload h then rc <> RET_SUCC \/ becomes_idle cfg (count_result rc h) = false
   else rc = RET_SUCC \/ becomes_overload cfg (count_result rc h) = false) ->
  exists h' w', report_windows cfg t0 p (count_result rc h) (store p (count_result rc h) lb) w
                  = Ok (replace_host p h h' lb, w')
    /\ host_step cfg t0 t1 rc h h' /\ same_queues w w'.
Proof.
  intros -> Hts Hc. unfold report_windows. autorewrite with lars_rw.
  assert (h_idle_ts (count_result rc h) = h_idle_ts h) as ->
    by (unfold count_result; by destruct (rc =? RET_SUCC)).
  destruct (h_overload h) eqn:Hf; cbn.
  - destruct (Hts eq_refl) as [ts Ets]. rewrite Ets. cbn.
    destruct (Z.leb_spec (overload_timeout cfg) (t0 - ts)).
    + exists (set_idle cfg (time_at (w_ticks w)) (count_result rc h)), (time_now w).2. split; [|split; [by eapply hs_second_chance|by split]].
      rewrite store_store. unfold replace_host. by rewrite Hf.
    + exists (count_result rc h), w. split; [|split; [by eapply hs_stay_overload|by split]].
      unfold replace_host. autorewrite with lars_rw. by rewrite Hf.
  - destruct (Z.leb_spec (idle_timeout cfg) (t0 - h_idle_ts h)).
    + exists (set_idle cfg (time_at (w_ticks w)) (count_result rc h)), (time_now w).2. split; [|split; [by apply hs_new_window|by split]].
      rewrite store_store. unfold replace_host. by rewrite Hf.
    + exists (count_result rc h), w. split; [|split; [by apply hs_stay_idle|by split]].
      unfold replace_host. autorewrite with lars_rw. by rewrite Hf.
Qed.

(** The whole of [report] on a key whose host is alive. *)
Lemma report_live lb w ip port rc p h :
  lb_wf lb -> lb_host_map lb !! pack_key ip port = Some p -> lb_heap lb !! p = Some h ->
  exists h' w', report cfg ip port rc lb w = Ok (replace_host p h h' lb, w')
    /\ host_step cfg (time_at (w_ticks w)) (time_at (S (w_ticks w))) rc h h' /\ same_queues w w'.
Proof.
  intros Hwf Hk Hp. unfold report. cbn. rewrite Hk. unfold deref. rewrite Hp. cbn.
  autorewrite with lars_rw.
  assert (h_overload h = true -> is_Some (h_overload_ts h)) as Hts.
  { intros Hf. pose proof (wf_in_list _ _ _ Hwf Hp) as Hin. rewrite Hf in Hin.
    destruct (wf_over _ Hwf p) as (h0 & Hp0 & _ & ?); [tauto|]. congruence. }
  pose proof (report_windows_step (time_at (w_ticks w)) (time_at (S (w_ticks w))) p rc h lb
    (time_now w).2 eq_refl Hts) as Hwin.
  destruct (h_overload h) eqn:Hf; cbn; destruct (Z.eqb_spec rc RET_SUCC) as [Hrc|Hrc]; cbn.
  - destruct (becomes_idle cfg (count_result rc h)) eqn:Hb; [|by apply Hwin; auto].
    exists (set_idle cfg (time_at (S (w_ticks w))) (count_result rc h)), (time_now (time_now w).2).2.
    split; [|split; [by apply hs_recover|by split]].
    rewrite store_store. unfold replace_host. by rewrite Hf.
  - by apply Hwin; auto.
  - by apply Hwin; auto.
  - destruct (becomes_overload cfg (count_result rc h)) eqn:Hb; [|by apply Hwin; auto].
    exists (set_overload cfg (time_at (S (w_ticks w))) (count_result rc h)), (time_now (time_now w).2).2.
    split; [|split; [by apply hs_trip|by split]].
    rewrite store_store. unfold replace_host. by rewrite Hf.
Qed.

Lemma report_unknown lb w ip port rc :
  lb_host_map lb !! pack_key ip port = None ->
  report cfg ip port rc lb w = Ok (lb, (time_now w).2).
Proof. intros Hk. unfold report. cbn. by rewrite Hk. Qed.

(** On any key: a fault only through a dangling pointer. *)
Lemma report_cases lb w ip port rc :
  lb_wf lb ->
  if decide (pack_key ip port ∈ dead_keys lb) then report cfg ip port rc lb w = Err UseAfterFree
  else exists lb' w', report cfg ip port rc lb w = Ok (lb', w') /\ lb_wf lb' /\ same_queues w w' /\
    dead_keys lb' = dead_keys lb /\ lb_host_map lb' = lb_host_map lb /\
    lb_status lb' = lb_status lb /\ lb_last_update lb' = lb_last_update lb /\ same_module lb lb'.
Proof.
  intros Hwf. case_decide as Hd.
  { apply elem_of_dead_keys in Hd as (p & Hk & Hp). unfold report, deref. cbn. by rewrite Hk, Hp. }
  destruct (lb_host_map lb !! pack_key ip port) as [p|] eqn:Hk; cycle 1.
  { rewrite report_unknown by done. exists lb, (time_now w).2.
    split; [done|]. split; [done|]. split; [by split|done]. }
  destruct (lb_heap lb !! p) as [h|] eqn:Hp; [|destruct Hd; apply elem_of_dead_keys; eauto].
  destruct (report_live lb w ip port rc p h Hwf Hk Hp) as (h' & w' & -> & Hs & Hq).
  eexists _, w'. split; [done|]. split; [|split; [done|split]].
  - eapply wf_replace_host; [done..|by eapply host_step_key|]. eapply host_step_ts; [done|].
    intros Hf. pose proof (wf_in_list _ _ _ Hwf Hp) as Hin. rewrite Hf in Hin.
    destruct (wf_over _ Hwf p) as (h0 & Hp0 & _ & ?); [tauto|]. congruence.
  - apply set_eq. intros k. unfold dead_keys. rewrite !elem_of_difference, !elem_of_live_keys.
    by rewrite (alive_replace_host _ _ _ _ _ _ Hwf Hk Hp), replace_host_map.
  - rewrite replace_host_map, replace_host_status, replace_host_last.
    split_and!; try done; unfold replace_host; by destruct (h_overload h), (h_overload h').
Qed.

Lemma report_dead lb w ip port rc :
  pack_key ip port ∈ dead_keys lb -> report cfg ip port rc lb w = Err UseAfterFree.
Proof.
  intros (p & Hk & Hp)%elem_of_dead_keys. unfold report, deref. cbn. by rewrite Hk, Hp.
Qed.
End report_spec.

(** A module that was just created. *)
Lemma wf_new modid cmdid t : lb_wf (LB modid cmdid ∅ [] [] 0 NEW t ∅ 1%positive).
Proof. constructor; cbn; try done; try constructor; set_solver. Qed.

(** ** Lemmas on [update] *)

Lemma wf_heap_fresh lb : lb_wf lb -> lb_heap lb !! lb_next lb = None.
Proof.
  intros Hwf. destruct (lb_heap lb !! lb_next lb) as [h|] eqn:E; [|done].
  pose proof (wf_fresh _ Hwf _ _ (wf_mapped _ Hwf _ _ E)). lia.
Qed.

Lemma host_at_add_host lb key h k :
  lb_wf lb -> lb_host_map lb !! key = None ->
  host_at (add_host key h lb) k = if decide (key = k) then Some h else host_at lb k.
Proof.
  intros Hwf Hkey. unfold host_at. cbn. rewrite lookup_insert. case_decide; cbn.
  - by rewrite lookup_insert_eq.
  - destruct (lb_host_map lb !! k) as [p|] eqn:Hk; cbn; [|done].
    pose proof (wf_fresh _ Hwf _ _ Hk). apply lookup_insert_ne. lia.
Qed.

Lemma wf_add_host lb key h :
  lb_wf lb -> lb_host_map lb !! key = None -> host_key h = key -> h_overload h = false ->
  lb_wf (add_host key h lb).
Proof.
  intros Hwf Hkey Hh Hf. pose proof (wf_heap_fresh _ Hwf) as Hfresh.
  destruct Hwf as [W1 W2 W3 W4 W5 W6 W7 W8].
  assert (forall p h0, lb_heap lb !! p = Some h0 -> (p < lb_next lb)%positive) as Hlt by eauto.
  constructor; cbn; try done.
  - rewrite <-app_assoc, (Permutation_app_comm [_]), app_assoc.
    apply NoDup_app. split_and!; [done| |apply NoDup_singleton].
    intros p Hp ->%list_elem_of_singleton. apply elem_of_app in Hp as [Hp|Hp].
    + destruct (W2 _ Hp) as (? & ? & _). congruence.
    + destruct (W3 _ Hp) as (? & ? & _). congruence.
  - intros p [Hp| ->%list_elem_of_singleton]%elem_of_app; [|rewrite lookup_insert_eq; by eauto].
    destruct (W2 _ Hp) as (h0 & Hp0 & ?). exists h0. rewrite lookup_insert_ne; [done|congruence].
  - intros p Hp. destruct (W3 _ Hp) as (h0 & Hp0 & ?). exists h0.
    rewrite lookup_insert_ne; [done|congruence].
  - intros p h0. rewrite lookup_insert. case_decide as Hd.
    + intros [= <-]. rewrite Hh, Hd. apply lookup_insert_eq.
    + intros Hp. rewrite lookup_insert_ne; [by auto|]. intros ->. specialize (W4 _ _ Hp). congruence.
  - intros p h0. rewrite lookup_insert. rewrite !elem_of_app, list_elem_of_singleton.
    case_decide; [by auto|]. intros Hp%W5. apply elem_of_app in Hp. tauto.
  - intros k1 k2 p. rewrite !lookup_insert. do 2 case_decide; [congruence| | |by apply W6].
    + intros [= <-] Hp%W7. lia.
    + intros Hp%W7 [= <-]. lia.
  - intros k p. rewrite lookup_insert. case_decide; [intros [= <-]; lia|]. intros Hp%W7. lia.
Qed.

Lemma host_at_delete lb p k k' idle over :
  lb_wf lb -> lb_host_map lb !! k = Some p ->
  host_at (lb_set_heap (delete p (lb_heap lb)) (lb_set_lists idle over lb)) k'
    = if decide (k = k') then None else host_at lb k'.
Proof.
  intros Hwf Hk. unfold host_at. cbn. case_decide as Hkk; [subst; rewrite Hk; apply lookup_delete_eq|].
  destruct (lb_host_map lb !! k') as [p'|] eqn:Hk'; cbn; [|done].
  apply lookup_delete_ne. intros ->. apply Hkk. by eapply (wf_inj lb Hwf).
Qed.

Lemma wf_delete lb p :
  lb_wf lb -> is_Some (lb_heap lb !! p) ->
  lb_wf (lb_set_heap (delete p (lb_heap lb))
          (lb_set_lists (list_remove_all p (lb_idle lb)) (list_remove_all p (lb_over lb)) lb)).
Proof.
  intros Hwf [h Hp]. destruct Hwf as [W1 W2 W3 W4 W5 W6 W7 W8].
  constructor; cbn; try done.
  - unfold list_remove_all. rewrite <-filter_app. by apply NoDup_filter.
  - intros q. rewrite elem_of_remove_all. intros [Hq Hne]. rewrite lookup_delete_ne by done. auto.
  - intros q. rewrite elem_of_remove_all. intros [Hq Hne]. rewrite lookup_delete_ne by done. auto.
  - intros q h0. rewrite lookup_delete_Some. intros [_ ?]. auto.
  - intros q h0. rewrite lookup_delete_Some, elem_of_app, !elem_of_remove_all.
    intros [? Hq%W5]. apply elem_of_app in Hq. naive_solver.
Qed.

Definition remote_keys (l : list HostInfo) : gset Z :=
  list_to_set ((fun h => pack_key (hi_ip h) (hi_port h)) <$> l).

(** A host map entry changes neither its pointer nor the rest of the object
    when other hosts come and go: [keeps] relates the state before and after. *)
Record keeps (lb lb' : load_balance) : Prop := {
  kp_modid : lb_modid lb' = lb_modid lb;
  kp_cmdid : lb_cmdid lb' = lb_cmdid lb;
  kp_cnt : lb_access_cnt lb' = lb_access_cnt lb
}.

#[export] Instance keeps_preorder : PreOrder keeps.
Proof. split; [by split|]. intros ??? [] []. split; congruence. Qed.

Lemma keys_of_domain lb : dom (lb_host_map lb) = live_keys lb ∪ dead_keys lb.
Proof.
  apply set_eq. intros k. unfold dead_keys. rewrite elem_of_union, elem_of_difference.
  rewrite elem_of_live_keys, elem_of_dom. unfold alive, host_at.
  destruct (lb_host_map lb !! k) as [p|] eqn:Hk; cbn.
  - destruct (lb_heap lb !! p); naive_solver.
  - split; [intros [? [=]]|]. intros [[? [=]]|[[? [=]] _]].
Qed.

Section update_lemmas.
Context `{Clock} (cfg : load_balance_config).

(** One remote host: a key that is not in the map gets a fresh idle host. *)
Lemma update_insert_step R lb w h :
  lb_wf lb ->
  let k := pack_key (hi_ip h) (hi_port h) in
  exists lb' w', update_insert cfg (R, lb, w) h = ({[k]} ∪ R, lb', w') /\
    lb_wf lb' /\ keeps lb lb' /\ same_queues w w' /\
    dom (lb_host_map lb') = {[k]} ∪ dom (lb_host_map lb) /\
    (forall k', host_at lb' k' =
      if decide (k' = k /\ k ∉ dom (lb_host_map lb))
      then Some (host_info_new (time_at (w_ticks w)) (hi_ip h) (hi_port h) (init_succ_cnt cfg))
      else host_at lb k').
Proof.
  intros Hwf k. unfold update_insert. fold k.
  destruct (lb_host_map lb !! k) as [p|] eqn:Hk.
  - exists lb, w. split; [done|]. split; [done|]. split; [done|]. split; [by split|].
    assert (k ∈ dom (lb_host_map lb)) as Hin by (apply elem_of_dom; eauto).
    split; [set_solver|]. intros k'. case_decide; [tauto|done].
  - cbn. eexists _, _. split; [done|].
    split; [apply wf_add_host; [done|done| |done]; unfold k; by autorewrite with lars_rw|].
    split; [by split|]. split; [by split|]. split; [by cbn; rewrite dom_insert_L|].
    intros k'. rewrite host_at_add_host by done.
    apply not_elem_of_dom in Hk. destruct (decide (k = k')) as [<-|Hne].
    + by rewrite decide_True.
    + rewrite decide_False; [done|]. intros [? _]. congruence.
Qed.

Lemma update_insert_all l R lb w :
  lb_wf lb ->
  exists lb' w', foldl (update_insert cfg) (R, lb, w) l = (remote_keys l ∪ R, lb', w') /\
    lb_wf lb' /\ keeps lb lb' /\ same_queues w w' /\
    dom (lb_host_map lb') = remote_keys l ∪ dom (lb_host_map lb) /\
    (forall k, k ∈ dom (lb_host_map lb) -> host_at lb' k = host_at lb k) /\
    (forall k, k ∈ remote_keys l -> k ∉ dom (lb_host_map lb) -> alive lb' k).
Proof.
  revert R lb w. induction l as [|h l IH]; intros R lb w Hwf.
  - exists lb, w. change (remote_keys []) with (∅ : gset Z). rewrite !(left_id_L ∅ (∪)).
    split_and!; done || set_solver.
  - cbn [foldl].
    destruct (update_insert_step R lb w h Hwf) as (lb1 & w1 & -> & Hwf1 & Hk1 & [Hq1 Hr1] & Hd1 & Ha1).
    set (k := pack_key (hi_ip h) (hi_port h)) in *.
    destruct (IH ({[k]} ∪ R) lb1 w1 Hwf1) as (lb2 & w2 & -> & Hwf2 & Hk2 & [Hq2 Hr2] & Hd2 & Hs2 & Hn2).
    assert (remote_keys (h :: l) = {[k]} ∪ remote_keys l) as -> by done.
    exists lb2, w2. split; [f_equal; f_equal; set_solver|]. split; [done|]. split; [by etrans|].
    split; [split; congruence|]. split; [set_solver|]. split.
    + intros k' Hk'. rewrite Hs2 by set_solver. rewrite Ha1, decide_False; [done|]. intros [-> ?]. done.
    + intros k' Hin Hout. destruct (decide (k' = k)) as [->|Hne].
      * unfold alive. rewrite Hs2 by set_solver. rewrite Ha1, decide_True by done. by eauto.
      * apply Hn2; set_solver.
Qed.

Lemma update_delete_live lb k :
  lb_wf lb -> alive lb k ->
  exists lb', update_delete lb k = Ok lb' /\ lb_wf lb' /\ keeps lb lb' /\
    lb_host_map lb' = lb_host_map lb /\
    forall k', host_at lb' k' = if decide (k = k') then None else host_at lb k'.
Proof.
  intros Hwf [h (p & Hk & Hp)%host_at_Some]. unfold update_delete, deref. rewrite Hk. cbn.
  rewrite Hp. cbn. pose proof (wf_in_list _ _ _ Hwf Hp) as Hin.
  pose proof (wf_delete lb p Hwf (mk_is_Some _ _ Hp)) as Hwf'.
  pose proof (fun i o k' => host_at_delete lb p k k' i o Hwf Hk) as Hat.
  destruct (h_overload h).
  - rewrite (remove_all_notin p (lb_idle lb)) in Hwf' by tauto. eexists; split_and!; eauto; done.
  - rewrite (remove_all_notin p (lb_over lb)) in Hwf' by tauto. eexists; split_and!; eauto; done.
Qed.

Lemma update_delete_dead lb k : k ∈ dead_keys lb -> update_delete lb k = Err UseAfterFree.
Proof.
  intros (p & Hk & Hp)%elem_of_dead_keys. unfold update_delete, deref. by rewrite Hk; cbn; rewrite Hp.
Qed.

Lemma update_delete_all l lb :
  lb_wf lb -> NoDup l -> (forall k, k ∈ l -> k ∈ dom (lb_host_map lb)) ->
  if decide (Forall (alive lb) l)
  then exists lb', foldM update_delete lb l = Ok lb' /\ lb_wf lb' /\ keeps lb lb' /\
         lb_host_map lb' = lb_host_map lb /\
         forall k, host_at lb' k = if decide (k ∈ l) then None else host_at lb k
  else foldM update_delete lb l = Err UseAfterFree.
Proof.
  revert lb. induction l as [|k l IH]; intros lb Hwf Hnd Hdom; cbn.
  { exists lb. split_and!; try done. }
  apply NoDup_cons in Hnd as [Hk Hnd].
  destruct (decide (alive lb k)) as [Ha|Ha]; cycle 1.
  { rewrite decide_False by (intros [? ?]%Forall_cons; tauto).
    rewrite update_delete_dead; [done|]. apply elem_of_difference. split; [set_solver|].
    by rewrite elem_of_live_keys. }
  destruct (update_delete_live lb k Hwf Ha) as (lb1 & -> & Hwf1 & Hk1 & Hm1 & Ha1). cbn.
  assert (forall k', k' ∈ l -> alive lb1 k' <-> alive lb k') as Heq.
  { intros k' Hk'. unfold alive. rewrite Ha1, decide_False; [done|congruence]. }
  specialize (IH lb1 Hwf1 Hnd). rewrite Hm1 in IH. specialize (IH ltac:(set_solver)).
  destruct (decide (Forall (alive lb1) l)) as [Hl|Hl].
  - rewrite decide_True by (constructor; [done|]; rewrite Forall_forall in *; naive_solver).
    destruct IH as (lb2 & -> & Hwf2 & Hk2 & Hm2 & Ha2). exists lb2.
    split; [done|]. split; [done|]. split; [by etrans|]. split; [congruence|].
    intros k'. rewrite Ha2, Ha1. repeat case_decide; set_solver.
  - rewrite decide_False; [done|]. intros [_ Hl']%Forall_cons. apply Hl.
    rewrite Forall_forall in *. naive_solver.
Qed.
End update_lemmas.

(** ** What [update] does *)

Section update_spec.
Context `{Clock} (cfg : load_balance_config).

(** After an update by the remote hosts [R]. *)
Record updated (R : gset Z) (t : Z) (lb lb' : load_balance) : Prop := {
  up_wf : lb_wf lb';
  up_keeps : keeps lb lb';
  up_status : lb_status lb' = NEW;
  up_time : lb_last_update lb' = t;
  up_dom : dom (lb_host_map lb') = R ∪ dom (lb_host_map lb);
  up_live : live_keys lb' = (live_keys lb ∩ R) ∪ (R ∖ dom (lb_host_map lb));
  up_host k : k ∈ live_keys lb ∩ R -> host_at lb' k = host_at lb k
}.

Lemma updated_intro R t lb lb1 lb2 (l : list Z) :
  (forall k, k ∈ l <-> k ∈ dom (lb_host_map lb) ∖ R) ->
  dom (lb_host_map lb1) = R ∪ dom (lb_host_map lb) ->
  (forall k, k ∈ dom (lb_host_map lb) -> host_at lb1 k = host_at lb k) ->
  (forall k, k ∈ R -> k ∉ dom (lb_host_map lb) -> alive lb1 k) ->
  lb_host_map lb2 = lb_host_map lb1 ->
  (forall k, host_at lb2 k = if decide (k ∈ l) then None else host_at lb1 k) ->
  lb_wf lb2 -> keeps lb lb2 ->
  updated R t lb (lb_set_status NEW (lb_set_last_update t lb2)).
Proof.
  intros Hl Hd1 Hs1 Hn1 Hm2 Hs2 Hwf Hk.
  assert (forall k, alive lb k -> k ∈ dom (lb_host_map lb)) as Hdom.
  { intros k [h (p & ? & _)%host_at_Some]. apply elem_of_dom. eauto. }
  constructor; cbn; try done.
  - by destruct Hwf; constructor.
  - by destruct Hk; constructor.
  - by rewrite Hm2.
  - apply set_eq. intros k. rewrite elem_of_live_keys, elem_of_union, elem_of_intersection.
    rewrite elem_of_live_keys, elem_of_difference. unfold alive at 1.
    change (is_Some (host_at lb2 k) <-> alive lb k /\ k ∈ R \/ k ∈ R /\ k ∉ dom (lb_host_map lb)).
    rewrite Hs2. destruct (decide (k ∈ dom (lb_host_map lb))) as [Hin|Hout].
    + destruct (decide (k ∈ R)).
      * rewrite decide_False, Hs1 by (done || rewrite Hl; set_solver). unfold alive. tauto.
      * rewrite decide_True by (rewrite Hl; set_solver). split; [by intros [? [=]]|tauto].
    + rewrite decide_False by (rewrite Hl; set_solver). destruct (decide (k ∈ R)).
      * split; [tauto|]. intros _. by apply Hn1.
      * split; [|tauto]. intros [h (p & Hp & _)%host_at_Some].
        apply elem_of_dom_2 in Hp. set_solver.
  - intros k [Hk1%elem_of_live_keys HkR]%elem_of_intersection.
    change (host_at lb2 k = host_at lb k).
    rewrite Hs2, decide_False by (rewrite Hl; set_solver). auto.
Qed.

Lemma update_outcome rsp lb w :
  lb_wf lb -> grs_host rsp <> [] ->
  if decide (dead_keys lb ⊆ remote_keys (grs_host rsp))
  then exists lb' w', update cfg rsp lb w = Ok (lb', w') /\ same_queues w w' /\
         updated (remote_keys (grs_host rsp)) (time_at (w_ticks w)) lb lb'
  else update cfg rsp lb w = Err UseAfterFree.
Proof.
  intros Hwf Hne. unfold update. cbn [time_now].
  destruct (Nat.eqb_spec (length (grs_host rsp)) 0) as [He|_];
    [by apply length_zero_iff_nil in He|]. cbn [negb].
  set (R := remote_keys (grs_host rsp)).
  destruct (update_insert_all cfg (grs_host rsp) ∅ lb (time_now w).2 Hwf)
    as (lb1 & w1 & Hf & Hwf1 & Hk1 & [Hq1 Hr1] & Hd1 & Hs1 & Hn1).
  fold R in Hf, Hd1, Hn1. unfold time_now in Hf. cbn [snd] in Hf. rewrite Hf. clear Hf.
  rewrite (right_id_L ∅ (∪)). set (l := ordered (dom (lb_host_map lb1) ∖ R)).
  assert (forall k, k ∈ l <-> k ∈ dom (lb_host_map lb) ∖ R) as Hl.
  { intros k. unfold l. rewrite elem_of_ordered. set_solver. }
  pose proof (update_delete_all l lb1 Hwf1 (NoDup_ordered _)) as Hdel.
  specialize (Hdel ltac:(intros k; rewrite Hl; set_solver)).
  assert (Forall (alive lb1) l <-> dead_keys lb ⊆ R) as Hiff.
  { rewrite Forall_forall. split.
    - intros Ha k Hk. destruct (decide (k ∈ R)); [done|exfalso].
      assert (k ∈ dom (lb_host_map lb)) by (rewrite keys_of_domain; set_solver).
      specialize (Ha k ltac:(rewrite Hl; set_solver)). unfold alive in Ha. rewrite Hs1 in Ha by done.
      apply elem_of_difference in Hk as [_ Hk]. by rewrite elem_of_live_keys in Hk.
    - intros Hs k Hk%Hl. unfold alive. rewrite Hs1 by set_solver.
      rewrite keys_of_domain in Hk. apply elem_of_live_keys. set_solver. }
  destruct (decide (dead_keys lb ⊆ R)) as [Hd|Hd].
  - rewrite decide_True in Hdel by tauto. destruct Hdel as (lb2 & -> & Hwf2 & Hk2 & Hm2 & Hs2).
    cbn. eexists _, w1. split; [done|]. split; [split; done|].
    eapply updated_intro; eauto. by etrans.
  - rewrite decide_False in Hdel by tauto. by rewrite Hdel.
Qed.
End update_spec.

(** ** What [choice_one_host] does *)

Definition host_answer (h : host_info) : HostInfo := {| hi_ip := i32 (h_ip h); hi_port := h_port h |}.

Lemma wf_reorder lb idle over :
  lb_wf lb -> idle ≡ₚ lb_idle lb -> over ≡ₚ lb_over lb -> lb_wf (lb_set_lists idle over lb).
Proof.
  intros [W1 W2 W3 W4 W5 W6 W7 W8] Hi Ho. constructor; cbn; try done.
  - by rewrite Hi, Ho.
  - intros p. rewrite Hi. auto.
  - intros p. rewrite Ho. auto.
  - intros p h. rewrite Hi, Ho. apply W5.
Qed.

Lemma wf_set_cnt lb c : 0 <= c -> lb_wf lb -> lb_wf (lb_set_cnt c lb).
Proof. intros ? []. by constructor. Qed.

Lemma wf_set_status lb s : lb_wf lb -> lb_wf (lb_set_status s lb).
Proof. intros []. by constructor. Qed.

Section choice_spec.
Context (cfg : load_balance_config).

Lemma choice_idle_head rsp lb p l h :
  lb_idle lb = p :: l -> lb_heap lb !! p = Some h ->
  choice_idle rsp lb
    = Ok (RET_SUCC, ghs_set_host (host_answer h) rsp, lb_set_lists (l ++ [p]) (lb_over lb) lb).
Proof. intros Hl Hp. unfold choice_idle, get_host_from_list, deref. by rewrite Hl, Hp. Qed.

Lemma choice_over_head rsp lb p l h :
  lb_over lb = p :: l -> lb_heap lb !! p = Some h ->
  choice_over rsp lb
    = Ok (RET_SUCC, ghs_set_host (host_answer h) rsp, lb_set_lists (lb_idle lb) (l ++ [p]) lb).
Proof. intros Hl Hp. unfold choice_over, get_host_from_list, deref. by rewrite Hl, Hp. Qed.

(** The next host is taken from the overload list. *)
Definition probes (lb : load_balance) : Prop :=
  probe_num cfg <= lb_access_cnt lb /\ lb_over lb <> [].
(** No idle host, and it is not yet time to probe. *)
Definition refuses (lb : load_balance) : Prop :=
  lb_idle lb = [] /\ lb_access_cnt lb < probe_num cfg.

Lemma choice_refuses rsp lb :
  refuses lb -> choice_one_host cfg rsp lb = Ok (RET_OVERLOAD, rsp, lb_set_cnt (lb_access_cnt lb + 1) lb).
Proof.
  intros [Hi Hc]. unfold choice_one_host. rewrite Hi. by destruct (Z.leb_spec (probe_num cfg) (lb_access_cnt lb)); [lia|].
Qed.

Lemma choice_probes rsp lb p l h :
  probe_num cfg <= lb_access_cnt lb -> lb_over lb = p :: l -> lb_heap lb !! p = Some h ->
  choice_one_host cfg rsp lb = Ok (RET_SUCC, ghs_set_host (host_answer h) rsp,
    lb_set_lists (lb_idle lb) (l ++ [p]) (lb_set_cnt 0 lb)).
Proof.
  intros Hc Ho Hp. transitivity (choice_over rsp (lb_set_cnt 0 lb)); [|by apply (choice_over_head rsp (lb_set_cnt 0 lb))].
  unfold choice_one_host. rewrite Ho.
  destruct (Z.leb_spec (probe_num cfg) (lb_access_cnt lb)); [|lia]. by destruct (lb_idle lb).
Qed.

Lemma choice_serves_idle rsp lb p l h :
  lb_idle lb = p :: l -> lb_heap lb !! p = Some h ->
  lb_over lb = [] \/ lb_access_cnt lb < probe_num cfg ->
  choice_one_host cfg rsp lb = Ok (RET_SUCC, ghs_set_host (host_answer h) rsp,
    lb_set_lists (l ++ [p]) (lb_over lb)
      (lb_set_cnt (match lb_over lb with [] => lb_access_cnt lb | _ => lb_access_cnt lb + 1 end) lb)).
Proof.
  intros Hi Hp Hc. unfold choice_one_host. rewrite Hi. destruct (lb_over lb) as [|q l'] eqn:Ho.
  - rewrite (choice_idle_head _ _ p l h) by done. rewrite Ho. by destruct lb.
  - destruct (Z.leb_spec (probe_num cfg) (lb_access_cnt lb)); [naive_solver lia|].
    rewrite (choice_idle_head _ (lb_set_cnt _ lb) p l h) by done. cbn. by rewrite Ho.
Qed.

Lemma choice_retcode rsp lb ret rsp' lb' :
  choice_one_host cfg rsp lb = Ok (ret, rsp', lb') -> ret = RET_SUCC \/ ret = RET_OVERLOAD.
Proof.
  unfold choice_one_host, choice_idle, choice_over.
  destruct (lb_idle lb); [|destruct (lb_over lb)]; try destruct (probe_num cfg <=? lb_access_cnt lb);
    intros Hc; res_inv; auto.
Qed.

(** Nothing can go wrong as long as one list holds a host. *)
Lemma choice_safe rsp lb :
  lb_wf lb -> lb_idle lb ++ lb_over lb <> [] ->
  exists ret rsp' lb', choice_one_host cfg rsp lb = Ok (ret, rsp', lb') /\ lb_wf lb' /\
    lb_host_map lb' = lb_host_map lb /\ lb_heap lb' = lb_heap lb /\
    lb_status lb' = lb_status lb /\ lb_last_update lb' = lb_last_update lb /\ same_module lb lb'.
Proof.
  intros Hwf Hne.
  destruct (lb_idle lb) as [|p l] eqn:Hi.
  - destruct (lb_over lb) as [|q l'] eqn:Ho; [done|].
    destruct (wf_over lb Hwf q) as (h & Hq & _); [rewrite Ho; by left|].
    destruct (Z.le_gt_cases (probe_num cfg) (lb_access_cnt lb)).
    + rewrite (choice_probes _ _ q l' h) by done. do 3 eexists. split; [done|]. split; [|done].
      apply wf_reorder; [by apply wf_set_cnt; [lia|]|done|]. cbn. rewrite Ho. apply Permutation_app_comm.
    + rewrite choice_refuses by done. do 3 eexists. split; [done|]. split; [|done].
      apply wf_set_cnt; [|done]. pose proof (wf_cnt _ Hwf). lia.
  - destruct (wf_idle lb Hwf p) as (h & Hp & _); [rewrite Hi; by left|].
    pose proof (wf_cnt _ Hwf).
    destruct (decide (lb_over lb = [] \/ lb_access_cnt lb < probe_num cfg)) as [Hc|Hc].
    + rewrite (choice_serves_idle _ _ p l h) by done. do 3 eexists. split; [done|]. split; [|done].
      apply wf_reorder; [apply wf_set_cnt; [|done]; destruct (lb_over lb); lia|cbn|done].
      rewrite Hi. apply Permutation_app_comm.
    + destruct (lb_over lb) as [|q l'] eqn:Ho; [naive_solver|].
      destruct (wf_over lb Hwf q) as (h' & Hq & _); [rewrite Ho; by left|].
      rewrite (choice_probes _ _ q l' h') by (done || lia).
      do 3 eexists. split; [done|]. split; [|done].
      apply wf_reorder; [by apply wf_set_cnt; [lia|]|done|]. cbn. rewrite Ho. apply Permutation_app_comm.
Qed.
End choice_spec.
