(* ===== verification/BalanceSpec.v ===== *)
(** * BalanceSpec: what a load_balance object promises

    The theorems about the operations of LoadBalance: one report as a step of
    the host automaton, the round robin and the probing of [choice_one_host] over
    many requests, the reconciliation done by [update], the content of a
    [commit], and what happens to the pointers of deleted hosts. *)

From S2P Require Import Prelude Keys Proto HostNode LoadBalance.
From stdpp Require Import base numbers list gmap fin_maps.
From Stdlib Require Import ZArith Lia SpecFloat.
Open Scope Z_scope.

(** ** Many requests *)

Section serving.
Context (cfg : load_balance_config).

(** The retcode and host of the answers to [n] consecutive requests. *)
Fixpoint choices (n : nat) (lb : load_balance) : res (list (Z * option HostInfo) * load_balance) :=
  match n with
  | O => Ok ([], lb)
  | S n =>
      '(ret, rsp, lb) ← choice_one_host cfg GetHostResponse_new lb;
      '(answers, lb) ← choices n lb;
      Ok ((ret, ghs_host rsp) :: answers, lb)
  end.

Lemma choices_app n m lb :
  choices (n + m) lb =
    ('(a1, lb) ← choices n lb; '(a2, lb) ← choices m lb; Ok (a1 ++ a2, lb)).
Proof.
  revert lb. induction n as [|n IH]; intros lb; cbn.
  - by destruct (choices m lb) as [[]|].
  - destruct (choice_one_host cfg GetHostResponse_new lb) as [[[ret rsp] lb1]|]; cbn; [|done].
    rewrite IH. destruct (choices n lb1) as [[a1 lb2]|]; cbn; [|done].
    by destruct (choices m lb2) as [[]|].
Qed.

Definition served (h : host_info) : Z * option HostInfo := (RET_SUCC, Some (host_answer h)).

(** The state after [n] answers from the idle list. *)
Definition after_idle (n : nat) (lb : load_balance) : load_balance :=
  lb_set_lists (rotate n (lb_idle lb)) (lb_over lb)
    (lb_set_cnt (match lb_over lb with [] => lb_access_cnt lb
                 | _ => lb_access_cnt lb + Z.of_nat n end) lb).

Lemma rotate_O {A} (l : list A) : rotate 0 l = l.
Proof. unfold rotate. destruct l; [done|]. rewrite Nat.Div0.mod_0_l. apply app_nil_r. Qed.

Lemma rotate_S {A} (p : A) l n : rotate (S n) (p :: l) = rotate n (l ++ [p]).
Proof.
  unfold rotate. rewrite length_app. cbn [length]. replace (length l + 1)%nat with (S (length l)) by lia.
  set (m := S (length l)).
  assert (n mod m < m)%nat as Hlt by (apply Nat.mod_upper_bound; lia).
  destruct (decide (n mod m = length l)%nat) as [He|Hne].
  - assert (S n mod m = 0)%nat as ->.
    { symmetry. apply (Nat.mod_unique _ _ (S (n / m)) 0); [lia|].
      pose proof (Nat.div_mod_eq n m). lia. }
    rewrite He, drop_app_length, take_app_length. cbn. by rewrite app_nil_r.
  - assert (S n mod m = S (n mod m))%nat as ->.
    { symmetry. apply (Nat.mod_unique _ _ (n / m)%nat _); [lia|].
      pose proof (Nat.div_mod_eq n m). lia. }
    cbn. rewrite drop_app_le, take_app_le by lia. by rewrite <-app_assoc.
Qed.

Lemma rotate_lookup_S {A} (p : A) l i :
  (p :: l) !! (S i mod S (length l))%nat = (l ++ [p]) !! (i mod S (length l))%nat.
Proof.
  set (m := S (length l)).
  assert (i mod m < m)%nat as Hlt by (apply Nat.mod_upper_bound; lia).
  destruct (decide (i mod m = length l)%nat) as [He|Hne].
  - assert (S i mod m = 0)%nat as ->.
    { symmetry. apply (Nat.mod_unique _ _ (S (i / m)) 0); [lia|].
      pose proof (Nat.div_mod_eq i m). lia. }
    rewrite He, lookup_app_r by lia. by rewrite Nat.sub_diag.
  - assert (S i mod m = S (i mod m))%nat as ->.
    { symmetry. apply (Nat.mod_unique _ _ (i / m)%nat _); [lia|].
      pose proof (Nat.div_mod_eq i m). lia. }
    change ((p :: l) !! S (i mod m)%nat) with (l !! (i mod m)%nat).
    rewrite lookup_app_l; [done|]. assert (m = S (length l)) by done. lia.
Qed.

(** [n] requests in a row that the idle list serves. *)
Lemma choices_idle n lb :
  lb_wf lb -> lb_idle lb <> [] ->
  lb_over lb = [] \/ lb_access_cnt lb + Z.of_nat n <= probe_num cfg ->
  exists answers, choices n lb = Ok (answers, after_idle n lb) /\ length answers = n /\
    forall i, (i < n)%nat -> exists p h,
      lb_idle lb !! (i mod length (lb_idle lb))%nat = Some p /\ lb_heap lb !! p = Some h /\
      answers !! i = Some (served h).
Proof.
  revert lb. induction n as [|n IH]; intros lb Hwf Hne Hc.
  { exists []. split; [|split; [done|lia]]. cbn. unfold after_idle. do 2 f_equal.
    rewrite rotate_O, Z.add_0_r. destruct lb as [???? over]; cbn. by destruct over. }
  destruct (lb_idle lb) as [|p l] eqn:Hi; [done|].
  destruct (wf_idle lb Hwf p) as (h & Hp & _); [rewrite Hi; by left|].
  cbn [choices]. rewrite (choice_serves_idle _ _ _ p l h) by (done || (destruct Hc; [by left|right; lia])). cbn [mbind res_bind ghs_host ghs_set_host].
  set (lb1 := lb_set_lists _ _ _).
  assert (lb_wf lb1) as Hwf1.
  { pose proof (wf_cnt _ Hwf). apply wf_reorder; [apply wf_set_cnt; [|done]|cbn|done].
    - destruct (lb_over lb); lia.
    - rewrite Hi. apply Permutation_app_comm. }
  destruct (IH lb1 Hwf1) as (answers & -> & Hlen & Hans).
  { cbn. by destruct l. }
  { cbn. destruct (lb_over lb) eqn:Ho; [by left|right]. destruct Hc; [done|lia]. }
  cbn [mbind res_bind]. exists (served h :: answers). split; [|split; [cbn; by rewrite Hlen|]].
  - unfold after_idle, lb1. cbn. rewrite Hi, rotate_S.
    destruct (lb_over lb); [done|]. unfold lb_set_lists, lb_set_cnt. cbn. do 3 f_equal. lia.
  - intros [|i] Hlt; [exists p, h; by rewrite Nat.Div0.mod_0_l|].
    destruct (Hans i) as (q & hq & Hq & Hhq & Ha); [lia|]. exists q, hq. split; [|done].
    cbn in Hq. rewrite length_app, Nat.add_1_r in Hq. cbn [length]. by rewrite rotate_lookup_S.
Qed.

(** [n] requests in a row that are refused. *)
Lemma choices_refused n lb :
  lb_idle lb = [] -> lb_access_cnt lb + Z.of_nat n <= probe_num cfg ->
  choices n lb = Ok (replicate n (RET_OVERLOAD, None),
                     lb_set_cnt (lb_access_cnt lb + Z.of_nat n) lb).
Proof.
  revert lb. induction n as [|n IH]; intros lb Hi Hc.
  { cbn. rewrite Z.add_0_r. by destruct lb. }
  cbn [choices]. rewrite choice_refuses by (split; [done|lia]). cbn.
  rewrite IH by (cbn; done || lia).
  by replace (lb_access_cnt lb + Z.of_nat (S n)) with (lb_access_cnt lb + 1 + Z.of_nat n) by lia.
Qed.
End serving.

(** ** One report

    The automaton of one host, on its own: nothing below uses the functions the model of
    the code is made of.  A report counts, and then the host is judged by its counters
    and the two time stamps. *)

Section automaton.
Context (cfg : load_balance_config).
Implicit Types h c : host_info.



(** The share of [part] in the two counters is above a [float] limit, as the C++
    expression [part * 1.0 / (succ + err)] has it: the sum wraps, and the rest is IEEE
    double arithmetic. *)
Definition above (part : Z) c (limit : spec_float) : Prop :=
  let double z := binary_normalize 53 1024 z 0 false in
  let whole := (h_vsucc c + h_verr c) mod 2 ^ 32 in
  let promoted := match limit with
    | S754_finite s m e => binary_normalize 53 1024 (if s then Z.neg m else Z.pos m) e s
    | f => f
    end in
  SFltb promoted (SFdiv 53 1024 (SFmul 53 1024 (double part) (double 1)) (double whole)) = true.

Definition failing c : Prop := above (h_verr c) c (err_rate cfg) \/ contin_err_limit cfg mod 2 ^ 32 <= h_contin_err c.







End automaton.

Section report_properties.
Context `{Clock} (cfg : load_balance_config).


(** Failing reports that leave an idle host idle within one time window. *)
Inductive tolerated : nat -> host_info -> host_info -> Prop :=
| tolerated_0 h : tolerated 0 h h
| tolerated_S n h h1 h2 t0 t1 rc :
    rc <> RET_SUCC -> host_step cfg t0 t1 rc h h1 -> h_overload h1 = false ->
    t0 - h_idle_ts h < idle_timeout cfg -> tolerated n h1 h2 ->
    tolerated (S n) h h2.

(** An idle host survives fewer than [contin_err_limit] failures in a
    row: as long as its time window lasts, the failure that brings the counter
    to the limit moves it to the overload list, whatever its failure rate. *)
Theorem consecutive_failures_bounded n h h' :
  tolerated n h h' -> h_overload h = false -> 0 <= h_contin_err h ->
  h_contin_err h + Z.of_nat n < 2 ^ 32 -> (0 < n)%nat ->
  h_contin_err h' = h_contin_err h + Z.of_nat n /\
  h_contin_err h + Z.of_nat n < u32 (contin_err_limit cfg).
Proof.
  induction 1 as [|n h h1 h2 t0 t1 rc Hrc Hs Hf1 Hwin Ht IH]; [lia|]. intros Hf Hc Hb _.
  assert (h1 = count_result rc h /\ becomes_overload cfg (count_result rc h) = false) as [-> Hno].
  { inversion Hs as [| | |? _ Hor _| |]; subst; cbn in Hf1; try discriminate; try congruence; [exfalso; lia|].
    split; [done|]. by destruct Hor. }
  unfold becomes_overload in Hno. apply orb_false_iff in Hno as [_ Hno%Z.leb_gt].
  assert (h_contin_err (count_result rc h) = h_contin_err h + 1) as Hcnt.
  { unfold count_result. destruct (Z.eqb_spec rc RET_SUCC); [done|]. cbn.
    apply u32_id. unfold is_u32. lia. }
  destruct n as [|n]; [inversion Ht; subst; lia|].
  autorewrite with lars_rw in IH. destruct IH as [IH1 IH2]; try done; lia.
Qed.
End report_properties.

(** ** Choosing hosts *)

Section choice_properties.
Context (cfg : load_balance_config).

(** C31: Round robin: when no host is overloaded, [n] consecutive requests are
    answered by the idle hosts in turn, starting with the first of the list, so
    any [length idle] requests in a row reach every host exactly once; the list
    is left rotated by [n] and nothing else changes. *)
Theorem choice_round_robin lb n :
  lb_wf lb -> lb_idle lb <> [] -> lb_over lb = [] ->
  exists answers, choices cfg n lb = Ok (answers, lb_set_lists (rotate n (lb_idle lb)) [] lb) /\
    length answers = n /\
    forall i, (i < n)%nat -> exists p h,
      lb_idle lb !! (i mod length (lb_idle lb))%nat = Some p /\ lb_heap lb !! p = Some h /\
      answers !! i = Some (served h).
Proof.
  intros Hwf Hne Ho. destruct (choices_idle cfg n lb Hwf Hne (or_introl Ho)) as (ans & -> & ? & ?).
  exists ans. unfold after_idle. rewrite Ho. split; [by destruct lb|done].
Qed.

(** C32: Probing: with both kinds of hosts and a fresh access counter, the first
    [probe_num] requests go to the idle hosts in turn, the next one goes to the
    overloaded host waiting longest, and the counter is fresh again. *)
Theorem choice_probe_period lb p l h :
  lb_wf lb -> lb_idle lb <> [] -> lb_over lb = p :: l -> lb_heap lb !! p = Some h ->
  lb_access_cnt lb = 0 -> 0 <= probe_num cfg ->
  let n := Z.to_nat (probe_num cfg) in
  exists answers, length answers = n /\
    (forall i, (i < n)%nat -> exists q hq,
      lb_idle lb !! (i mod length (lb_idle lb))%nat = Some q /\ lb_heap lb !! q = Some hq /\
      answers !! i = Some (served hq)) /\
    choices cfg (n + 1) lb
      = Ok (answers ++ [served h], lb_set_lists (rotate n (lb_idle lb)) (l ++ [p]) lb).
Proof.
  intros Hwf Hne Ho Hp Hc Hpos n.
  destruct (choices_idle cfg n lb Hwf Hne) as (ans & Hans & Hlen & Hall); [right; lia|].
  exists ans. split; [done|]. split; [done|].
  rewrite choices_app, Hans. cbn [mbind res_bind choices].
  rewrite (choice_probes cfg _ _ p l h) by (unfold after_idle; cbn; rewrite ?Ho; done || lia).
  cbn. unfold after_idle. rewrite Ho. by destruct lb; cbn in *; subst.
Qed.

(** When every host is overloaded and the counter is fresh, [probe_num]
    requests are answered RET_OVERLOAD without a host, then one request is sent
    to the overloaded host waiting longest. *)
Theorem choice_all_overloaded lb p l h :
  lb_wf lb -> lb_idle lb = [] -> lb_over lb = p :: l -> lb_heap lb !! p = Some h ->
  lb_access_cnt lb = 0 -> 0 <= probe_num cfg ->
  let n := Z.to_nat (probe_num cfg) in
  choices cfg (n + 1) lb
    = Ok (replicate n (RET_OVERLOAD, None) ++ [served h], lb_set_lists [] (l ++ [p]) lb).
Proof.
  intros Hwf Hi Ho Hp Hc Hpos n. rewrite choices_app, choices_refused by (done || lia).
  cbn [mbind res_bind choices].
  rewrite (choice_probes cfg _ (lb_set_cnt _ lb) p l h) by (cbn; done || lia).
  cbn. rewrite Hi. by destruct lb; cbn in *; subst.
Qed.
End choice_properties.

(** ** Updating and committing *)

Definition listed_keys (lb : load_balance) : gset Z :=
  list_to_set (omap (fun p => host_key <$> lb_heap lb !! p) (lb_idle lb ++ lb_over lb)).

(** The hosts on the two lists are the hosts that are alive. *)
Lemma listed_live lb : lb_wf lb -> listed_keys lb = live_keys lb.
Proof.
  intros Hwf. apply set_eq. intros k. unfold listed_keys.
  rewrite elem_of_list_to_set, list_elem_of_omap, elem_of_live_keys. split.
  - intros (p & Hp & (h & Hh & ->)%fmap_Some). exists h. apply host_at_Some. exists p.
    split; [by apply wf_mapped|done].
  - intros [h (p & Hk & Hp)%host_at_Some]. exists p. split; [by eapply wf_listed|].
    rewrite Hp. cbn. f_equal. by eapply heap_key.
Qed.

Lemma listed_count lb : lb_wf lb -> size (live_keys lb) = length (lb_idle lb ++ lb_over lb).
Proof.
  intros Hwf. assert (forall p, p ∈ lb_idle lb ++ lb_over lb -> is_Some (lb_heap lb !! p)) as Hl.
  { intros p [Hp|Hp]%elem_of_app.
    - destruct (wf_idle _ Hwf _ Hp) as (? & -> & _). done.
    - destruct (wf_over _ Hwf _ Hp) as (? & -> & _). done. }
  rewrite <-listed_live by done. unfold listed_keys. rewrite size_list_to_set.
  - apply length_omap. intros p Hp. destruct (Hl p Hp) as [h ->]. done.
  - apply NoDup_omap; [|apply Hwf]. intros p q k _ _ (h1 & H1 & ->)%fmap_Some (h2 & H2 & Heq)%fmap_Some.
    apply (wf_mapped _ Hwf) in H1, H2. congruence.
Qed.

(** The lines [commit] reports for the hosts of a list. *)
Definition call_result (overload : bool) (h : host_info) : HostCallResult :=
  {| hcr_ip := i32 (h_ip h); hcr_port := h_port h; hcr_succ := h_rsucc h; hcr_err := h_rerr h;
     hcr_overload := overload |}.

Definition hosts_of (lb : load_balance) (l : list loc) : list host_info :=
  omap (fun p => lb_heap lb !! p) l.

Lemma commit_hosts lb b l req :
  (forall p, p ∈ l -> is_Some (lb_heap lb !! p)) ->
  foldM (commit_host lb b) req l = Ok
    {| rsr_modid := rsr_modid req; rsr_cmdid := rsr_cmdid req; rsr_caller := rsr_caller req;
       rsr_results := rsr_results req ++ (call_result b <$> hosts_of lb l); rsr_ts := rsr_ts req |}.
Proof.
  revert req. induction l as [|p l IH]; intros req Hl; cbn.
  { rewrite app_nil_r. by destruct req. }
  destruct (Hl p) as [h Hp]; [by left|]. rewrite Hp.
  assert (commit_host lb b req p = Ok (rsr_add_results (call_result b h) req)) as ->
    by (unfold commit_host, deref; by rewrite Hp).
  cbn. rewrite IH by (intros; apply Hl; by right). cbn. by rewrite <-app_assoc.
Qed.

Lemma commit_outcome `{Clock} lb w :
  lb_wf lb -> lb_host_map lb <> ∅ ->
  commit lb w = Ok (w_send_report {|
    rsr_modid := lb_modid lb; rsr_cmdid := lb_cmdid lb; rsr_caller := 127;
    rsr_results := (call_result false <$> hosts_of lb (lb_idle lb))
                ++ (call_result true <$> hosts_of lb (lb_over lb));
    rsr_ts := u32 (time_at (w_ticks w)) |} (time_now w).2).
Proof.
  intros Hwf Hne. unfold commit, lb_empty. rewrite bool_decide_false by done. cbn [time_now].
  rewrite commit_hosts by (intros p Hp; destruct (wf_idle _ Hwf p Hp) as (h & -> & _); done).
  cbn [mbind res_bind].
  rewrite commit_hosts by (intros p Hp; destruct (wf_over _ Hwf p Hp) as (h & -> & _); done).
  done.
Qed.

Section update_properties.
Context `{Clock} (cfg : load_balance_config).

(** C18: Reconciliation: an update of an intact module succeeds whenever the
    answer names a host; afterwards the hosts on the two lists are exactly the
    remote hosts, the hosts that stay keep their record (counters, state, time
    stamps), and the module is NEW with the current time. *)
Theorem update_reconciles rsp lb w :
  lb_wf lb -> lb_intact lb -> grs_host rsp <> [] ->
  exists lb' w', update cfg rsp lb w = Ok (lb', w') /\ lb_wf lb' /\
    listed_keys lb' = remote_keys (grs_host rsp) /\
    (forall k, k ∈ live_keys lb -> k ∈ remote_keys (grs_host rsp) -> host_at lb' k = host_at lb k) /\
    lb_status lb' = NEW /\ lb_last_update lb' = time_at (w_ticks w).
Proof.
  intros Hwf Hint Hne. pose proof (update_outcome cfg rsp lb w Hwf Hne) as Hu.
  rewrite decide_True in Hu by (rewrite Hint; set_solver).
  destruct Hu as (lb' & w' & -> & _ & [Hwf' _ Hst Ht _ Hlive Hkeep]).
  exists lb', w'. split; [done|]. split; [done|].
  split; [rewrite listed_live, Hlive by done; rewrite keys_of_domain, Hint; apply intersection_split|].
  split; [intros; apply Hkeep; set_solver|done].
Qed.

(** A host that an update drops stays in [_host_map] as a pointer to a
    deleted object: a report for it, and any later update that does not name it
    either, access freed memory; and an update that names it again does not bring
    it back. *)
Theorem update_dropped_host rsp lb w lb' w' k :
  lb_wf lb -> update cfg rsp lb w = Ok (lb', w') ->
  k ∈ live_keys lb -> k ∉ remote_keys (grs_host rsp) ->
  (k ∈ dom (lb_host_map lb')) /\ (k ∉ listed_keys lb') /\
  (forall ip port rc w1, pack_key ip port = k -> report cfg ip port rc lb' w1 = Err UseAfterFree) /\
  (forall rsp1 w1, grs_host rsp1 <> [] -> k ∉ remote_keys (grs_host rsp1) ->
     update cfg rsp1 lb' w1 = Err UseAfterFree) /\
  (forall rsp1 w1 lb1 w2, k ∈ remote_keys (grs_host rsp1) ->
     update cfg rsp1 lb' w1 = Ok (lb1, w2) -> k ∉ listed_keys lb1).
Proof.
  intros Hwf Hu Hk HR.
  assert (grs_host rsp <> []) as Hne by (intros He; unfold update in Hu; by rewrite He in Hu).
  pose proof (update_outcome cfg rsp lb w Hwf Hne) as Ho.
  destruct (decide _); [|congruence]. destruct Ho as (lb0 & w0 & Hu' & _ & Hup).
  rewrite Hu in Hu'. injection Hu' as <- <-. destruct Hup as [Hwf' _ _ _ Hdom Hlive _].
  assert (k ∈ dom (lb_host_map lb)) as Hin by (rewrite keys_of_domain; set_solver).
  assert (k ∈ dead_keys lb') as Hdead.
  { unfold dead_keys. rewrite elem_of_difference, Hdom, Hlive. set_solver. }
  split; [set_solver|]. split; [rewrite listed_live by done; set_solver|].
  split; [intros ip port rc w1 <-; by apply report_dead|]. split.
  - intros rsp1 w1 Hne1 HR1. pose proof (update_outcome cfg rsp1 lb' w1 Hwf' Hne1) as Ho1.
    by rewrite decide_False in Ho1 by set_solver.
  - intros rsp1 w1 lb1 w2 HR1 Hu1. pose proof (update_outcome cfg rsp1 lb' w1 Hwf') as Ho1.
    specialize (Ho1 ltac:(intros He; by rewrite He in HR1)).
    destruct (decide _); [|congruence]. destruct Ho1 as (lb2 & w3 & Hu2 & _ & [Hwf2 _ _ _ _ Hl2 _]).
    rewrite Hu1 in Hu2. injection Hu2 as <- <-.
    rewrite listed_live, Hl2 by done. unfold dead_keys in Hdead. set_solver.
Qed.

(** [commit] puts one message on the report queue: caller 127, the time, and
    one line per live host, idle hosts first, each with its real counters and the
    flag of its list; with an empty [_host_map] it sends nothing. *)
Theorem commit_reports_all lb w :
  lb_wf lb ->
  exists w', commit lb w = Ok w' /\
    if bool_decide (lb_host_map lb = ∅) then w' = w
    else w_report_queue w' = w_report_queue w ++ [{|
           rsr_modid := lb_modid lb; rsr_cmdid := lb_cmdid lb; rsr_caller := 127;
           rsr_results := (call_result false <$> hosts_of lb (lb_idle lb))
                       ++ (call_result true <$> hosts_of lb (lb_over lb));
           rsr_ts := u32 (time_at (w_ticks w)) |}] /\
         w_dns_queue w' = w_dns_queue w /\
         (length (hosts_of lb (lb_idle lb)) + length (hosts_of lb (lb_over lb))
           = size (live_keys lb))%nat.
Proof.
  intros Hwf. case_bool_decide as He.
  { exists w. unfold commit, lb_empty. by rewrite bool_decide_true. }
  eexists. split; [by apply commit_outcome|]. split; [done|]. split; [done|].
  rewrite listed_count, length_app by done. unfold hosts_of. f_equal; apply length_omap; intros p Hp.
  - destruct (wf_idle _ Hwf _ Hp) as (? & -> & _). done.
  - destruct (wf_over _ Hwf _ Hp) as (? & -> & _). done.
Qed.
End update_properties.

(** ** Concrete modules *)

Module Demo.
#[local] Instance demo_clock : Clock := clock_const 1000.

(** 192.168.1.177:7777 and 192.168.1.178:7776, as [int32] fields. *)
Definition host1 : HostInfo := {| hi_ip := i32 3232235953; hi_port := 7777 |}.
Definition host2 : HostInfo := {| hi_ip := i32 3232235954; hi_port := 7776 |}.
Definition rsp12 : GetRouteResponse := {| grs_modid := 1; grs_cmdid := 1; grs_host := [host1; host2] |}.
Definition rsp1 : GetRouteResponse := {| grs_modid := 1; grs_cmdid := 1; grs_host := [host1] |}.
Definition w0 : world := World 0 [] [].

Definition or_new (m : res (load_balance * world)) : load_balance :=
  match m with Ok (lb, _) => lb | Err _ => LB 1 1 ∅ [] [] 0 NEW 0 ∅ 1%positive end.

Definition lb_0 : load_balance := LB 1 1 ∅ [] [] 0 NEW 0 ∅ 1%positive.
(** Both hosts idle. *)
Definition lb_12 : load_balance := or_new (update lb_agent_ini rsp12 lb_0 w0).

Fixpoint failures (n : nat) (lb : load_balance) : load_balance :=
  match n with
  | O => lb
  | S n => failures n (or_new (report lb_agent_ini (hi_ip host1) (hi_port host1) 2 lb w0))
  end.
(** host1 overloaded by fifteen failures in a row, host2 idle; host1 alone, overloaded. *)
Definition lb_over1 : load_balance := failures 15 lb_12.
Definition lb_only_over : load_balance := failures 15 (or_new (update lb_agent_ini rsp1 lb_0 w0)).

Lemma wf_update rsp lb : lb_wf lb -> lb_wf (or_new (update lb_agent_ini rsp lb w0)).
Proof.
  intros Hwf. destruct (decide (grs_host rsp = [])) as [He|Hne].
  { unfold update. rewrite He. apply wf_new. }
  pose proof (update_outcome lb_agent_ini rsp lb w0 Hwf Hne) as Hu.
  destruct (decide _); [|rewrite Hu; apply wf_new]. destruct Hu as (lb' & w' & -> & _ & []). done.
Qed.

Lemma wf_failures n lb : lb_wf lb -> lb_wf (failures n lb).
Proof.
  revert lb. induction n as [|n IH]; intros lb Hwf; cbn [failures]; [done|]. apply IH.
  pose proof (report_cases lb_agent_ini lb w0 (hi_ip host1) (hi_port host1) 2 Hwf) as Hr.
  destruct (decide _); [rewrite Hr; apply wf_new|]. destruct Hr as (lb' & w' & -> & ? & _). done.
Qed.

Lemma wf_12 : lb_wf lb_12.
Proof. apply wf_update, wf_new. Qed.
Lemma wf_over1 : lb_wf lb_over1.
Proof. apply wf_failures, wf_12. Qed.
Lemma wf_only_over : lb_wf lb_only_over.
Proof. apply wf_failures, wf_update, wf_new. Qed.

(** The shipped limits: of 180 initial successes, 20 failures are still a tenth, 21 are
    more; the 15th failure in a row is too many. *)
Definition with_counts (succ err run : Z) : host_info :=
  {| h_ip := 0; h_port := 0; h_vsucc := succ; h_verr := err; h_rsucc := 0; h_rerr := 0; h_contin_succ := 0; h_contin_err := run;
     h_idle_ts := 0; h_overload_ts := None; h_overload := false |}.
Example shipped_limits :
  ~ failing lb_agent_ini (with_counts 180 20 14) /\ failing lb_agent_ini (with_counts 180 21 0) /\ failing lb_agent_ini (with_counts 180 15 15).
Proof.
  unfold failing, above. cbn -[SFltb SFdiv SFmul binary_normalize Z.pow Z.modulo Z.add].
  split; [intros [Ha|Hc]; vm_compute in *; congruence|]. split; [left|right]; by vm_compute.
Qed.


Lemma consecutive_failures_bounded_witness : exists h',
  h_contin_err h' = 0 + Z.of_nat 1 /\ 0 + Z.of_nat 1 < u32 (contin_err_limit lb_agent_ini).
Proof.
  set (h := host_info_new 1000 5 6 180). exists (count_result 2 h).
  apply (consecutive_failures_bounded lb_agent_ini 1 h (count_result 2 h)); try (cbn; lia).
  eapply (tolerated_S lb_agent_ini 0 h (count_result 2 h) _ 1000 1000 2);
    [discriminate| |reflexivity|cbn; lia|constructor].
  apply hs_stay_idle; [done|right; vm_compute; reflexivity|cbn; lia].
Defined.

Lemma choice_round_robin_witness : exists answers,
  choices lb_agent_ini 5 lb_12
    = Ok (answers, lb_set_lists [2%positive; 1%positive] [] lb_12) /\ length answers = 5%nat.
Proof.
  destruct (choice_round_robin lb_agent_ini lb_12 5 wf_12) as (answers & Hc & Hl & _).
  { vm_compute. discriminate. }
  { vm_compute. reflexivity. }
  exists answers. split; [|exact Hl]. rewrite Hc. vm_compute. reflexivity.
Defined.

Lemma choice_probe_period_witness : exists answers h,
  choices lb_agent_ini 11 lb_over1 = Ok (answers ++ [served h], lb_set_lists [2%positive] [1%positive] lb_over1).
Proof.
  destruct (choice_probe_period lb_agent_ini lb_over1 1%positive []
    (default (host_info_new 0 0 0 0) (lb_heap lb_over1 !! 1%positive)) wf_over1)
    as (answers & _ & _ & Hc).
  1: vm_compute; discriminate. 1,2,3: vm_compute; reflexivity. 1: vm_compute; discriminate.
  exists answers, (default (host_info_new 0 0 0 0) (lb_heap lb_over1 !! 1%positive)).
  assert (Z.to_nat (probe_num lb_agent_ini) = 10%nat) as Hn by (vm_compute; reflexivity).
  assert (rotate 10 (lb_idle lb_over1) = [2%positive]) as Hi by (vm_compute; reflexivity).
  rewrite Hn, Hi in Hc. exact Hc.
Defined.

Lemma choice_all_overloaded_witness : exists h,
  choices lb_agent_ini 11 lb_only_over
    = Ok (replicate 10 (RET_OVERLOAD, None) ++ [served h], lb_set_lists [] [1%positive] lb_only_over).
Proof.
  exists (default (host_info_new 0 0 0 0) (lb_heap lb_only_over !! 1%positive)).
  pose proof (choice_all_overloaded lb_agent_ini lb_only_over 1%positive []
    (default (host_info_new 0 0 0 0) (lb_heap lb_only_over !! 1%positive)) wf_only_over) as Hc.
  assert (Z.to_nat (probe_num lb_agent_ini) = 10%nat) as Hn by (vm_compute; reflexivity).
  rewrite Hn in Hc. apply Hc; vm_compute; reflexivity || discriminate.
Defined.

Lemma update_reconciles_witness : exists lb' w',
  update lb_agent_ini rsp1 lb_12 w0 = Ok (lb', w') /\ listed_keys lb' = remote_keys [host1].
Proof.
  destruct (update_reconciles lb_agent_ini rsp1 lb_12 w0 wf_12) as (lb' & w' & Hu & _ & Hl & _).
  { vm_compute. reflexivity. }
  { discriminate. }
  exists lb', w'. split; [exact Hu|exact Hl].
Defined.

Lemma update_dropped_host_witness :
  report lb_agent_ini (i32 3232235954) 7776 0 (or_new (update lb_agent_ini rsp1 lb_12 w0)) w0
    = Err UseAfterFree.
Proof.
  destruct (update lb_agent_ini rsp1 lb_12 w0) as [[lb' w']|f] eqn:Hu; [|vm_compute in Hu; discriminate].
  destruct (update_dropped_host lb_agent_ini rsp1 lb_12 w0 lb' w' (pack_key (i32 3232235954) 7776) wf_12 Hu)
    as (_ & _ & Hr & _).
  { apply (bool_decide_unpack _). vm_compute. exact I. }
  { apply (bool_decide_unpack _). vm_compute. exact I. }
  apply Hr. reflexivity.
Defined.

Lemma commit_reports_all_witness : exists w', commit lb_over1 w0 = Ok w' /\ length (w_report_queue w') = 1%nat.
Proof.
  destruct (commit_reports_all lb_over1 w0 wf_over1) as (w' & Hc & Hq).
  exists w'. split; [exact Hc|].
  rewrite bool_decide_false in Hq by (vm_compute; discriminate). destruct Hq as (-> & _). reflexivity.
Defined.
End Demo.
