(* ===== verification/RouteLb.v ===== *)
(** * RouteLb: the modules of one agent thread (lars_lb_agent, route_lb)

    The class of include/route_lb.h with the operations of src/route_lb.cpp.
    Each operation runs under [_mutex], so it is one atomic step on the map of
    load_balance objects; [_route_lb_map] is the only owner of the objects it
    points to, so the map holds them by value. *)

From S2P Require Import Prelude Keys Proto HostNode LoadBalance.
From stdpp Require Import base numbers list gmap fin_maps.
From Stdlib Require Import ZArith Lia.
Open Scope Z_scope.

Record route_lb := RouteLB {
  rl_map : gmap Z load_balance;
  rl_id : Z
}.

(** [route_lb(int id)] *)
Definition route_lb_new (id : Z) : route_lb := RouteLB ∅ id.

Definition rl_set_map (m : gmap Z load_balance) (r : route_lb) : route_lb := RouteLB m (rl_id r).
Definition rl_set (mod_ : Z) (lb : load_balance) (r : route_lb) : route_lb :=
  rl_set_map (<[mod_:=lb]> (rl_map r)) r.

Section operations.
Context `{Clock} `{HashOrder} (cfg : load_balance_config).

(** [int update_host(int modid, int cmdid, GetRouteResponse &rsp)] *)
Definition update_host (modid cmdid : Z) (rsp : GetRouteResponse) (r : route_lb) (w : world)
    : res (Z * route_lb * world) :=
  let mod_ := pack_key modid cmdid in
  match rl_map r !! mod_ with
  | Some lb =>
      if Nat.eqb (length (grs_host rsp)) 0 then Ok (0, rl_set_map (delete mod_ (rl_map r)) r, w)
      else '(lb, w) ← update cfg rsp lb w; Ok (0, rl_set mod_ lb r, w)
  | None => Ok (0, r, w)
  end.

(** The refresh that [get_host] and [get_route] end with:
    [if (lb->status == NEW && time(NULL) - lb->last_update_time > update_timeout) lb->pull();] *)
Definition refresh (lb : load_balance) (w : world) : load_balance * world :=
  match lb_status lb with
  | NEW =>
      let '(t, w) := time_now w in
      if update_timeout cfg <? t - lb_last_update lb then pull lb w else (lb, w)
  | PULLING => (lb, w)
  end.

(** The branch of both for a module that is not known yet. *)
Definition create_module (modid cmdid : Z) (r : route_lb) (w : world) : route_lb * world :=
  let '(lb, w) := load_balance_new modid cmdid w in
  let '(lb, w) := pull lb w in
  (rl_set (pack_key modid cmdid) lb r, w).

(** [int get_host(int modid, int cmdid, GetHostResponse &rsp)] *)
Definition get_host (modid cmdid : Z) (rsp : GetHostResponse) (r : route_lb) (w : world)
    : res (Z * GetHostResponse * route_lb * world) :=
  let ret := RET_SUCC in
  let mod_ := pack_key modid cmdid in
  match rl_map r !! mod_ with
  | Some lb =>
      if lb_empty lb then Ok (ret, ghs_set_retcode RET_NOEXIST rsp, r, w)
      else
        '(ret, rsp, lb) ← choice_one_host cfg rsp lb;
        let rsp := ghs_set_retcode ret rsp in
        let '(lb, w) := refresh lb w in
        Ok (ret, rsp, rl_set mod_ lb r, w)
  | None =>
      let '(r, w) := create_module modid cmdid r w in
      Ok (RET_NOEXIST, ghs_set_retcode RET_NOEXIST rsp, r, w)
  end.

(** One entry of the loop of [get_route]: a [HostInfo] with the ip and port of the
    host is added to the response. *)
Definition get_route_host (lb : load_balance) (rsp : GetRouteResponse) (p : loc) : res GetRouteResponse :=
  hi ← deref lb p;
  Ok (grs_add_host {| hi_ip := i32 (h_ip hi); hi_port := h_port hi |} rsp).

(** [int get_route(int modid, int cmdid, GetRouteResponse &rsp)] *)
Definition get_route (modid cmdid : Z) (rsp : GetRouteResponse) (r : route_lb) (w : world)
    : res (Z * GetRouteResponse * route_lb * world) :=
  let mod_ := pack_key modid cmdid in
  match rl_map r !! mod_ with
  | Some lb =>
      let vec := get_all_hosts lb in
      rsp ← foldM (get_route_host lb) rsp vec;
      let '(lb, w) := refresh lb w in
      Ok (RET_SUCC, rsp, rl_set mod_ lb r, w)
  | None =>
      let '(r, w) := create_module modid cmdid r w in
      Ok (RET_NOEXIST, rsp, r, w)
  end.

(** [void report_host(ReportRequest &req)] *)
Definition report_host (req : ReportRequest) (r : route_lb) (w : world) : res (route_lb * world) :=
  let modid := rrq_modid req in
  let cmdid := rrq_cmdid req in
  let retcode := rrq_retcode req in
  let ip := hi_ip (rrq_host_get req) in
  let port := hi_port (rrq_host_get req) in
  let mod_ := pack_key modid cmdid in
  match rl_map r !! mod_ with
  | Some lb =>
      '(lb, w) ← report cfg ip port retcode lb w;
      w ← commit lb w;
      Ok (rl_set mod_ lb r, w)
  | None => Ok (r, w)
  end.
End operations.

(** [void reset_lb_status()] *)
Definition reset_lb_status (r : route_lb) : route_lb :=
  rl_set_map (lb_set_status NEW <$> rl_map r) r.

(** ** Calls and runs

    What the udp server thread and the dns client thread ask of a route_lb. *)
Inductive call :=
| GetHost (modid cmdid : Z)
| GetRoute (modid cmdid : Z)
| UpdateHost (modid cmdid : Z) (rsp : GetRouteResponse)
| ReportHost (req : ReportRequest)
| ResetStatus.

Section runs.
Context `{Clock} `{HashOrder} (cfg : load_balance_config).

Definition exec (st : route_lb * world) (c : call) : res (route_lb * world) :=
  let '(r, w) := st in
  match c with
  | GetHost m c => '(_, _, r, w) ← get_host cfg m c GetHostResponse_new r w; Ok (r, w)
  | GetRoute m c => '(_, _, r, w) ← get_route cfg m c GetRouteResponse_new r w; Ok (r, w)
  | UpdateHost m c rsp => '(_, r, w) ← update_host cfg m c rsp r w; Ok (r, w)
  | ReportHost req => report_host cfg req r w
  | ResetStatus => Ok (reset_lb_status r, w)
  end.
End runs.
