(* ===== verification/RouteSpec.v ===== *)
(** * RouteSpec: what a route_lb promises

    Lemmas on the operations of RouteLb, and the theorems: runs in which no
    update drops a host are free of faults, a run in which one does can crash,
    requests to the dns service are made once, and modules do not interfere. *)

From S2P Require Import Prelude Keys Proto HostNode LoadBalance BalanceSpec RouteLb.
From stdpp Require Import base numbers list gmap fin_maps.
From Stdlib Require Import ZArith Lia.
Open Scope Z_scope.

(** ** The invariant of an undamaged route_lb *)

Record lb_good (k : Z) (lb : load_balance) : Prop := {
  lg_wf : lb_wf lb;
  lg_intact : lb_intact lb;
  lg_key : lb_key lb = k
}.

Definition rl_good (r : route_lb) : Prop := map_Forall lb_good (rl_map r).

(** An update names every host its module knows (or none at all). *)
Definition covers (r : route_lb) (c : call) : Prop :=
  match c with
  | UpdateHost m cm rsp =>
      forall lb, rl_map r !! pack_key m cm = Some lb ->
        grs_host rsp = [] \/ live_keys lb ⊆ remote_keys (grs_host rsp)
  | _ => True
  end.

Lemma good_key lb lb' k : same_module lb lb' -> lb_key lb = k -> lb_key lb' = k.
Proof. unfold lb_key. by intros [-> ->]. Qed.

Lemma good_set_status k lb s : lb_good k lb -> lb_good k (lb_set_status s lb).
Proof. intros []. split; [by apply wf_set_status|done|done]. Qed.

Lemma good_new m c t : lb_good (pack_key m c) (LB m c ∅ [] [] 0 NEW t ∅ 1%positive).
Proof. split; [apply wf_new|done|done]. Qed.

Lemma good_created m c t : lb_good (pack_key m c) (LB m c ∅ [] [] 0 PULLING t ∅ 1%positive).
Proof. apply (good_set_status _ (LB m c ∅ [] [] 0 NEW t ∅ 1%positive) PULLING), good_new. Qed.

Lemma rl_good_set r k lb : rl_good r -> lb_good k lb -> rl_good (rl_set k lb r).
Proof. intros. by apply map_Forall_insert_2. Qed.

(** The same keys are alive when neither the map nor the heap changed. *)
Lemma live_keys_eq lb lb' :
  lb_host_map lb' = lb_host_map lb -> lb_heap lb' = lb_heap lb -> dead_keys lb' = dead_keys lb.
Proof.
  intros Hm Hh. apply set_eq. intros k. by rewrite !elem_of_dead_keys, Hm, Hh.
Qed.

(** A module with a host has one on a list. *)
Lemma intact_lists lb :
  lb_wf lb -> lb_intact lb -> lb_host_map lb <> ∅ -> lb_idle lb ++ lb_over lb <> [].
Proof.
  intros Hwf Hint Hne Hnil.
  pose proof (listed_count lb Hwf) as Hc. rewrite Hnil in Hc. cbn in Hc.
  apply size_empty_inv, leibniz_equiv in Hc. pose proof (keys_of_domain lb) as Hd.
  rewrite Hc, Hint, (left_id_L ∅ (∪)) in Hd. by apply dom_empty_inv_L in Hd.
Qed.

(** The pointers of [_host_map] are those of the two lists. *)
Lemma all_hosts_perm `{HashOrder} lb :
  lb_wf lb -> lb_intact lb -> get_all_hosts lb ≡ₚ lb_idle lb ++ lb_over lb.
Proof.
  intros Hwf Hint. unfold get_all_hosts. rewrite hm_elements_perm.
  apply NoDup_Permutation; [|apply Hwf|].
  - apply NoDup_fmap_2_strong; [|apply NoDup_map_to_list].
    intros [k1 p1] [k2 p2] H1%elem_of_map_to_list H2%elem_of_map_to_list. cbn. intros ->.
    f_equal. by eapply (wf_inj lb Hwf).
  - intros p. rewrite list_elem_of_fmap. split.
    + intros ([k q] & -> & Hk%elem_of_map_to_list). cbn.
      destruct (lb_heap lb !! q) as [h|] eqn:Hq; [by eapply wf_listed|].
      assert (k ∈ dead_keys lb) as Hd by (apply elem_of_dead_keys; eauto). rewrite Hint in Hd. set_solver.
    + intros Hp. assert (exists h, lb_heap lb !! p = Some h) as [h Hh].
      { apply elem_of_app in Hp as [Hp|Hp].
        - destruct (wf_idle _ Hwf _ Hp) as (h & ? & _). eauto.
        - destruct (wf_over _ Hwf _ Hp) as (h & ? & _). eauto. }
      exists (host_key h, p). split; [done|]. apply elem_of_map_to_list. by apply wf_mapped.
Qed.

Lemma get_route_hosts lb rsp l :
  (forall p, p ∈ l -> is_Some (lb_heap lb !! p)) ->
  foldM (get_route_host lb) rsp l = Ok {| grs_modid := grs_modid rsp; grs_cmdid := grs_cmdid rsp;
    grs_host := grs_host rsp ++ (host_answer <$> hosts_of lb l) |}.
Proof.
  revert rsp. induction l as [|p l IH]; intros rsp Hl; cbn.
  { rewrite app_nil_r. by destruct rsp. }
  destruct (Hl p) as [h Hp]; [by left|]. rewrite Hp.
  assert (get_route_host lb rsp p = Ok (grs_add_host (host_answer h) rsp)) as ->
    by (unfold get_route_host, deref; by rewrite Hp).
  cbn. rewrite IH by (intros; apply Hl; by right). cbn. by rewrite <-app_assoc.
Qed.

Section steps.
Context `{Clock} `{HashOrder} (cfg : load_balance_config).

(** Whether [refresh] sends a request. *)
Definition due (lb : load_balance) (w : world) : bool :=
  match lb_status lb with
  | NEW => update_timeout cfg <? time_at (w_ticks w) - lb_last_update lb
  | PULLING => false
  end.

Definition lb_request (lb : load_balance) : GetRouteRequest :=
  {| grq_modid := lb_modid lb; grq_cmdid := lb_cmdid lb |}.

Lemma refresh_spec lb w :
  exists w', refresh cfg lb w = (if due lb w then lb_set_status PULLING lb else lb, w') /\
    w_dns_queue w' = w_dns_queue w ++ (if due lb w then [lb_request lb] else []) /\
    w_report_queue w' = w_report_queue w.
Proof.
  unfold refresh, due. destruct (lb_status lb) eqn:Hs.
  - exists w. by rewrite app_nil_r.
  - cbn. destruct (update_timeout cfg <? _).
    + eexists. split; [done|]. done.
    + eexists. split; [done|]. by rewrite app_nil_r.
Qed.

Lemma good_refresh k lb w : lb_good k lb -> lb_good k (refresh cfg lb w).1.
Proof.
  intros Hg. destruct (refresh_spec lb w) as (w' & -> & _). cbn.
  destruct (due lb w); [by apply good_set_status|done].
Qed.

Lemma create_module_spec m c r w :
  exists w', create_module m c r w = (rl_set (pack_key m c)
      (LB m c ∅ [] [] 0 PULLING (time_at (w_ticks w)) ∅ 1%positive) r, w') /\
    w_dns_queue w' = w_dns_queue w ++ [{| grq_modid := m; grq_cmdid := c |}] /\
    w_report_queue w' = w_report_queue w.
Proof. eexists. split; [done|]. done. Qed.

Lemma exec_get_host_ok m c rsp r w :
  rl_good r -> exists ret rsp' r' w',
    get_host cfg m c rsp r w = Ok (ret, rsp', r', w') /\ rl_good r'.
Proof.
  intros Hr. unfold get_host. destruct (rl_map r !! pack_key m c) as [lb|] eqn:Hlb.
  - destruct (Hr _ _ Hlb) as [Hwf Hint Hkey]. unfold lb_empty. case_bool_decide as He; [by eauto 10|].
    destruct (choice_safe cfg rsp lb Hwf (intact_lists lb Hwf Hint He))
      as (ret & rsp' & lb' & -> & Hwf' & Hm & Hh & _ & _ & Hs). cbn.
    assert (lb_good (pack_key m c) lb') as Hg.
    { split; [done| |by eapply good_key]. unfold lb_intact. by rewrite (live_keys_eq lb lb' Hm Hh). }
    pose proof (good_refresh _ lb' w Hg) as Hg'. destruct (refresh cfg lb' w) as [lb'' w'].
    do 4 eexists. split; [done|]. by apply rl_good_set.
  - destruct (create_module_spec m c r w) as (w' & -> & _).
    do 4 eexists. split; [done|]. apply rl_good_set; [done|]. apply good_created.
Qed.

Lemma exec_get_route_ok m c rsp r w :
  rl_good r -> exists ret rsp' r' w',
    get_route cfg m c rsp r w = Ok (ret, rsp', r', w') /\ rl_good r'.
Proof.
  intros Hr. unfold get_route. destruct (rl_map r !! pack_key m c) as [lb|] eqn:Hlb.
  - destruct (Hr _ _ Hlb) as [Hwf Hint Hkey].
    rewrite get_route_hosts. 2:{ intros p. rewrite all_hosts_perm by done. intros [Hp|Hp]%elem_of_app.
      - destruct (wf_idle _ Hwf _ Hp) as (? & -> & _). done.
      - destruct (wf_over _ Hwf _ Hp) as (? & -> & _). done. }
    cbn. pose proof (good_refresh _ lb w (Build_lb_good _ _ Hwf Hint Hkey)) as Hg'.
    destruct (refresh cfg lb w) as [lb'' w']. do 4 eexists. split; [done|]. by apply rl_good_set.
  - destruct (create_module_spec m c r w) as (w' & -> & _).
    do 4 eexists. split; [done|]. apply rl_good_set; [done|]. apply good_created.
Qed.

Lemma exec_update_ok m c rsp r w :
  rl_good r -> covers r (UpdateHost m c rsp) -> exists ret r' w',
    update_host cfg m c rsp r w = Ok (ret, r', w') /\ rl_good r'.
Proof.
  intros Hr Hcov. unfold update_host. destruct (rl_map r !! pack_key m c) as [lb|] eqn:Hlb; [|by eauto 10].
  destruct (Hr _ _ Hlb) as [Hwf Hint Hkey].
  destruct (Nat.eqb_spec (length (grs_host rsp)) 0) as [Hz|Hz].
  - do 3 eexists. split; [done|]. by apply map_Forall_delete.
  - destruct (Hcov _ Hlb) as [He|Hsub]; [by rewrite He in Hz|].
    pose proof (update_outcome cfg rsp lb w Hwf) as Hu. specialize (Hu ltac:(by intros He; rewrite He in Hz)).
    rewrite decide_True in Hu by (rewrite Hint; set_solver).
    destruct Hu as (lb' & w' & -> & _ & [Hwf' Hk _ _ Hdom Hlive _]). cbn.
    do 3 eexists. split; [done|]. apply rl_good_set; [done|]. split; [done| |].
    + unfold lb_intact, dead_keys. rewrite Hdom, Hlive, keys_of_domain, Hint.
      by apply reconcile_nothing_lost.
    + destruct Hk as [H1 H2 _]. by eapply good_key.
Qed.

Lemma exec_report_ok req r w :
  rl_good r -> exists r' w', report_host cfg req r w = Ok (r', w') /\ rl_good r'.
Proof.
  intros Hr. unfold report_host.
  destruct (rl_map r !! _) as [lb|] eqn:Hlb; [|by eauto 10].
  destruct (Hr _ _ Hlb) as [Hwf Hint Hkey].
  pose proof (report_cases cfg lb w (hi_ip (rrq_host_get req)) (hi_port (rrq_host_get req)) (rrq_retcode req) Hwf) as Hc.
  rewrite decide_False in Hc by (rewrite Hint; set_solver).
  destruct Hc as (lb' & w' & -> & Hwf' & _ & Hd & Hm & _ & _ & Hs). cbn.
  assert (exists w1, commit lb' w' = Ok w1) as [w1 ->].
  { destruct (decide (lb_host_map lb' = ∅)) as [He|Hne].
    - unfold commit, lb_empty. rewrite bool_decide_true by done. eauto.
    - eexists. by apply commit_outcome. }
  cbn. do 2 eexists. split; [done|]. apply rl_good_set; [done|].
  split; [done|by unfold lb_intact; rewrite Hd|by eapply good_key].
Qed.

Lemma exec_ok r w c :
  rl_good r -> covers r c -> exists r' w', exec cfg (r, w) c = Ok (r', w') /\ rl_good r'.
Proof.
  intros Hr Hc. destruct c as [m c|m c|m c rsp|req|]; cbn.
  - destruct (exec_get_host_ok m c GetHostResponse_new r w Hr) as (? & ? & r' & w' & -> & ?). by eauto.
  - destruct (exec_get_route_ok m c GetRouteResponse_new r w Hr) as (? & ? & r' & w' & -> & ?). by eauto.
  - destruct (exec_update_ok m c rsp r w Hr Hc) as (? & r' & w' & -> & ?). by eauto.
  - by apply exec_report_ok.
  - do 2 eexists. split; [done|]. apply map_Forall_fmap. intros k lb Hk. by apply good_set_status, Hr.
Qed.
End steps.

(** ** The effect of one call on the modules and on the dns queue *)

Definition call_key (c : call) : option Z :=
  match c with
  | GetHost m c | GetRoute m c | UpdateHost m c _ => Some (pack_key m c)
  | ReportHost req => Some (pack_key (rrq_modid req) (rrq_cmdid req))
  | ResetStatus => None
  end.

Definition request_key (q : GetRouteRequest) : Z := pack_key (grq_modid q) (grq_cmdid q).

(** The requests for one module that were put on the dns queue. *)
Definition dns_requests (k : Z) (w : world) : nat :=
  length (filter (fun q => request_key q = k) (w_dns_queue w)).

Definition pulling (r : route_lb) (k : Z) : bool :=
  match rl_map r !! k with
  | Some lb => bool_decide (lb_status lb = PULLING)
  | None => false
  end.

Definition is_update (c : call) : bool := match c with UpdateHost _ _ _ => true | _ => false end.

(** A call for the module [k]: only that module changes; at most one request is
    made, for that module, only if it is not being pulled, and then it is. *)
Record effect (k : Z) (c : call) (r : route_lb) (w : world) (r' : route_lb) (w' : world) : Prop := {
  ef_others k' : k' <> k -> rl_map r' !! k' = rl_map r !! k';
  ef_requests : exists reqs, w_dns_queue w' = w_dns_queue w ++ reqs /\
    (reqs = [] \/ (exists q, reqs = [q] /\ request_key q = k /\ pulling r k = false /\ pulling r' k = true));
  ef_pulling : is_update c = false -> pulling r k = true -> pulling r' k = true
}.

Lemma pulling_set r k lb : pulling (rl_set k lb r) k = bool_decide (lb_status lb = PULLING).
Proof. unfold pulling. cbn. by rewrite lookup_insert_eq. Qed.

(** A call that sends no request and sets its own module. *)
Lemma effect_quiet k c r w w' lb lb' :
  rl_map r !! k = Some lb -> w_dns_queue w' = w_dns_queue w ->
  (is_update c = false -> lb_status lb' = lb_status lb) ->
  effect k c r w (rl_set k lb' r) w'.
Proof.
  intros Hlb Hq Hs. split.
  - intros k' Hk'. cbn. by rewrite lookup_insert_ne.
  - exists []. rewrite app_nil_r. auto.
  - intros Hu. rewrite pulling_set, (Hs Hu). unfold pulling. by rewrite Hlb.
Qed.

Lemma effect_none k c r w : effect k c r w r w.
Proof. split; [done| |done]. exists []. rewrite app_nil_r. auto. Qed.

(** Requests counted over one call. *)
Lemma effect_count k c r w r' w' k' :
  effect k c r w r' w' ->
  (dns_requests k' w' + (if pulling r' k then 0 else 1)
     <= dns_requests k' w + (if pulling r k then 0 else 1))%nat \/
  is_update c = true \/ k' <> k.
Proof.
  intros [_ (reqs & Hq & Hreqs) Hp]. destruct (is_update c) eqn:Hu; [tauto|].
  destruct (decide (k' = k)) as [->|]; [left|tauto]. unfold dns_requests. rewrite Hq, filter_app, length_app.
  destruct Hreqs as [->|(q & -> & Hqk & Hpr & Hpr')].
  - rewrite filter_nil. cbn. destruct (pulling r k); [rewrite Hp by done|destruct (pulling r' k)]; lia.
  - rewrite filter_cons_True, filter_nil by done. rewrite Hpr, Hpr'. cbn. lia.
Qed.

Section effects.
Context `{Clock} `{HashOrder} (cfg : load_balance_config).

(** Both [get_host] and [get_route] end by refreshing the module. *)
Lemma effect_refresh k c r w lb lb0 :
  rl_map r !! k = Some lb0 -> lb_status lb = lb_status lb0 -> lb_key lb = k ->
  effect k c r w (rl_set k (refresh cfg lb w).1 r) (refresh cfg lb w).2.
Proof.
  intros Hlb Hs Hkey. destruct (refresh_spec cfg lb w) as (w' & -> & Hq & _). cbn. split.
  - intros k' Hk'. cbn. by rewrite lookup_insert_ne.
  - eexists. split; [exact Hq|]. destruct (due cfg lb w) eqn:Hd; [|by left].
    right. exists (lb_request lb). split; [done|]. split; [done|]. rewrite pulling_set.
    split; [|by case_bool_decide]. unfold pulling. rewrite Hlb, <-Hs.
    unfold due in Hd. by destruct (lb_status lb).
  - intros _. rewrite pulling_set. unfold pulling. rewrite Hlb, <-Hs.
    destruct (due cfg lb w); [by case_bool_decide|done].
Qed.

Lemma effect_create m c cl r w :
  rl_map r !! pack_key m c = None ->
  effect (pack_key m c) cl r w (create_module m c r w).1 (create_module m c r w).2.
Proof.
  intros Hr. destruct (create_module_spec m c r w) as (w' & -> & Hq & _). cbn. split.
  - intros k' Hk'. cbn. by rewrite lookup_insert_ne.
  - eexists. split; [exact Hq|]. right. eexists. split; [done|]. split; [done|].
    rewrite pulling_set. unfold pulling. by rewrite Hr.
  - intros _. unfold pulling. by rewrite Hr.
Qed.

Lemma effect_get_host m c rsp r w ret rsp' r' w' :
  rl_good r -> get_host cfg m c rsp r w = Ok (ret, rsp', r', w') ->
  effect (pack_key m c) (GetHost m c) r w r' w'.
Proof.
  intros Hr. unfold get_host. destruct (rl_map r !! pack_key m c) as [lb|] eqn:Hlb.
  - destruct (Hr _ _ Hlb) as [Hwf Hint Hkey]. unfold lb_empty. case_bool_decide as He.
    { intros [= <- <- <- <-]. apply effect_none. }
    destruct (choice_safe cfg rsp lb Hwf (intact_lists lb Hwf Hint He))
      as (ret0 & rsp0 & lb' & -> & _ & _ & _ & Hst & _ & Hs). cbn.
    destruct (refresh cfg lb' w) as [lb'' w''] eqn:Hf. intros [= <- <- <- <-].
    pose proof (effect_refresh _ (GetHost m c) r w lb' lb Hlb Hst (good_key _ _ _ Hs Hkey)) as He'.
    by rewrite Hf in He'.
  - pose proof (effect_create m c (GetHost m c) r w Hlb) as He.
    destruct (create_module m c r w). by intros [= <- <- <- <-].
Qed.

Lemma effect_get_route m c rsp r w ret rsp' r' w' :
  rl_good r -> get_route cfg m c rsp r w = Ok (ret, rsp', r', w') ->
  effect (pack_key m c) (GetRoute m c) r w r' w'.
Proof.
  intros Hr. unfold get_route. destruct (rl_map r !! pack_key m c) as [lb|] eqn:Hlb.
  - intros (rsp0 & _ & Heq)%bind_ok. destruct (Hr _ _ Hlb) as [_ _ Hkey].
    pose proof (effect_refresh _ (GetRoute m c) r w lb lb Hlb eq_refl Hkey) as He.
    destruct (refresh cfg lb w) as [lb'' w'']. by injection Heq as <- <- <- <-.
  - pose proof (effect_create m c (GetRoute m c) r w Hlb) as He.
    destruct (create_module m c r w). by intros [= <- <- <- <-].
Qed.

Lemma effect_update m c rsp r w ret r' w' :
  rl_good r -> update_host cfg m c rsp r w = Ok (ret, r', w') ->
  effect (pack_key m c) (UpdateHost m c rsp) r w r' w'.
Proof.
  intros Hr. unfold update_host. destruct (rl_map r !! pack_key m c) as [lb|] eqn:Hlb.
  2:{ intros [= <- <- <-]. apply effect_none. }
  destruct (Nat.eqb_spec (length (grs_host rsp)) 0) as [Hz|Hz].
  - intros [= <- <- <-]. split; [|exists []; rewrite app_nil_r; by auto|done].
    intros k' Hk'. cbn. by rewrite lookup_delete_ne.
  - intros ([lb' w1] & Hu & Heq)%bind_ok. injection Heq as <- <- <-.
    destruct (Hr _ _ Hlb) as [Hwf Hint _].
    pose proof (update_outcome cfg rsp lb w Hwf) as Ho. specialize (Ho ltac:(by intros He; rewrite He in Hz)).
    rewrite decide_True in Ho by (rewrite Hint; set_solver).
    destruct Ho as (lb2 & w2 & Hu' & [Hq _] & _). rewrite Hu in Hu'. injection Hu' as <- <-.
    by eapply effect_quiet.
Qed.

Lemma effect_report req r w r' w' :
  rl_good r -> report_host cfg req r w = Ok (r', w') ->
  effect (pack_key (rrq_modid req) (rrq_cmdid req)) (ReportHost req) r w r' w'.
Proof.
  intros Hr. unfold report_host. set (k := pack_key _ _).
  destruct (rl_map r !! k) as [lb|] eqn:Hlb; [|intros [= <- <-]; apply effect_none].
  intros ([lb' w1] & Hrep & Heq)%bind_ok. cbn in Heq. apply bind_ok in Heq as (w2 & Hc & Heq).
  injection Heq as <- <-. destruct (Hr _ _ Hlb) as [Hwf Hint _].
  pose proof (report_cases cfg lb w (hi_ip (rrq_host_get req)) (hi_port (rrq_host_get req)) (rrq_retcode req) Hwf) as Ho.
  rewrite decide_False in Ho by (rewrite Hint; set_solver).
  destruct Ho as (lb2 & w3 & Hrep' & Hwf' & [Hq _] & _ & _ & Hst & _). rewrite Hrep in Hrep'.
  injection Hrep' as <- <-. eapply effect_quiet; [done| |done].
  destruct (decide (lb_host_map lb' = ∅)) as [He|Hne].
  - unfold commit, lb_empty in Hc. rewrite bool_decide_true in Hc by done. by injection Hc as <-.
  - rewrite commit_outcome in Hc by done. by injection Hc as <-.
Qed.

Lemma exec_effect c k r w r' w' :
  rl_good r -> call_key c = Some k -> exec cfg (r, w) c = Ok (r', w') -> effect k c r w r' w'.
Proof.
  intros Hr Hk He. destruct c as [m c|m c|m c rsp|req|]; cbn in *; [injection Hk as <-..|done].
  - apply bind_ok in He as ([[[ret rsp'] r1] w1] & Hg & Heq). injection Heq as <- <-. by eapply effect_get_host.
  - apply bind_ok in He as ([[[ret rsp'] r1] w1] & Hg & Heq). injection Heq as <- <-. by eapply effect_get_route.
  - apply bind_ok in He as ([[ret r1] w1] & Hg & Heq). injection Heq as <- <-. by eapply effect_update.
  - by apply effect_report.
Qed.
End effects.

(** ** Runs *)

Section run_lemmas.
Context `{Clock} `{HashOrder} (cfg : load_balance_config).

(** Every update met along the run names the hosts its module knows. *)
Inductive covering : route_lb * world -> list call -> Prop :=
| covering_nil st : covering st []
| covering_cons r w c cs :
    covers r c -> (forall st, exec cfg (r, w) c = Ok st -> covering st cs) -> covering (r, w) (c :: cs).

Definition run (st : route_lb * world) (cs : list call) : res (route_lb * world) := foldM (exec cfg) st cs.

Lemma run_cons r w c cs r2 w2 :
  rl_good r -> covering (r, w) (c :: cs) -> run (r, w) (c :: cs) = Ok (r2, w2) ->
  exists r1 w1, exec cfg (r, w) c = Ok (r1, w1) /\ rl_good r1 /\ covering (r1, w1) cs /\
    run (r1, w1) cs = Ok (r2, w2).
Proof.
  intros Hr Hcov Hrun. inversion Hcov as [|??? cs0 Hc Hnext]; subst.
  destruct (exec_ok cfg r w c Hr Hc) as (r1 & w1 & He & Hr1). exists r1, w1.
  split; [done|]. split; [done|]. split; [by apply Hnext|]. unfold run in Hrun. cbn [foldM] in Hrun.
  by rewrite He in Hrun.
Qed.

Lemma run_ok r w cs :
  rl_good r -> covering (r, w) cs -> exists r' w', run (r, w) cs = Ok (r', w') /\ rl_good r'.
Proof.
  revert r w. induction cs as [|c cs IH]; intros r w Hr Hcov; [by exists r, w|].
  inversion Hcov as [|??? cs0 Hc Hnext]; subst.
  destruct (exec_ok cfg r w c Hr Hc) as (r1 & w1 & He & Hr1).
  destruct (IH r1 w1 Hr1 (Hnext _ He)) as (r' & w' & Hrun & ?). exists r', w'.
  split; [|done]. unfold run. cbn [foldM]. by rewrite He.
Qed.

(** A call about another module. *)
Lemma effect_other k k' c r w r' w' :
  effect k' c r w r' w' -> k <> k' ->
  dns_requests k w' = dns_requests k w /\ rl_map r' !! k = rl_map r !! k.
Proof.
  intros [Ho (reqs & Hq & Hreqs) _] Hne. split; [|by apply Ho].
  unfold dns_requests. rewrite Hq, filter_app, length_app.
  destruct Hreqs as [->|(q & -> & Hqk & _)]; [rewrite filter_nil; cbn; lia|].
  rewrite filter_cons_False, filter_nil by congruence. cbn. lia.
Qed.

(** The requests still allowed for a module. *)
Definition credit (r : route_lb) (k : Z) : nat := if pulling r k then 0 else 1.

Lemma exec_credit k c r w r' w' :
  rl_good r -> exec cfg (r, w) c = Ok (r', w') -> c <> ResetStatus ->
  (call_key c = Some k -> is_update c = false) ->
  (dns_requests k w' + credit r' k <= dns_requests k w + credit r k)%nat.
Proof.
  intros Hr He Hnr Hnu. destruct (call_key c) as [k'|] eqn:Hk; [|by destruct c].
  pose proof (exec_effect cfg c k' r w r' w' Hr Hk He) as Heff.
  destruct (decide (k = k')) as [<-|Hne].
  - destruct (effect_count k c r w r' w' k Heff) as [?|[Hu|?]]; [done| |done].
    by rewrite (Hnu eq_refl) in Hu.
  - destruct (effect_other k k' c r w r' w' Heff Hne) as [-> Hm]. unfold credit, pulling. by rewrite Hm.
Qed.
End run_lemmas.

(** ** Properties *)

Section route_properties.
Context `{Clock} `{HashOrder} (cfg : load_balance_config).

(** C7: A thread's route_lb never faults along a run in which every answer of the
    dns service names all the hosts the module has (or none): no dangling pointer,
    no empty list, no failed assert, whatever the interleaving of requests,
    reports, updates and resets; and it stays undamaged. *)
Theorem covering_runs_safe w cs id :
  covering cfg (route_lb_new id, w) cs ->
  exists r' w', run cfg (route_lb_new id, w) cs = Ok (r', w') /\ rl_good r'.
Proof. intros Hcov. by apply run_ok. Qed.

(** C33: Between two resets or updates of a module at most one request for it is
    put on the dns queue, and none if one is already in flight, however many
    lookups and reports the module and its neighbours receive. *)
Theorem one_request_in_flight k r w cs r' w' :
  rl_good r -> covering cfg (r, w) cs ->
  Forall (fun c => c <> ResetStatus /\ (call_key c = Some k -> is_update c = false)) cs ->
  run cfg (r, w) cs = Ok (r', w') ->
  (dns_requests k w' <= dns_requests k w + (if pulling r k then 0 else 1))%nat.
Proof.
  intros Hr Hcov Hall Hrun.
  enough (dns_requests k w' + credit r' k <= dns_requests k w + credit r k)%nat by (unfold credit in *; lia).
  revert r w Hr Hcov Hrun. induction Hall as [|c cs [Hc1 Hc2] Hall IH]; intros r w Hr Hcov Hrun.
  - by injection Hrun as <- <-.
  - destruct (run_cons cfg r w c cs r' w' Hr Hcov Hrun) as (r1 & w1 & He & Hr1 & Hcov1 & Hrun1).
    pose proof (exec_credit cfg k c r w r1 w1 Hr He Hc1 Hc2).
    pose proof (IH r1 w1 Hr1 Hcov1 Hrun1). lia.
Qed.

(** Modules do not interfere: a lookup, report or update for one module
    leaves every other modid/cmdid of the thread as it was and makes no request
    for it. *)
Theorem modules_isolated c m cm m' cm' r w r' w' :
  rl_good r -> exec cfg (r, w) c = Ok (r', w') -> call_key c = Some (pack_key m cm) ->
  is_i32 m -> is_i32 cm -> is_i32 m' -> is_i32 cm' -> (m, cm) <> (m', cm') ->
  rl_map r' !! pack_key m' cm' = rl_map r !! pack_key m' cm' /\
  dns_requests (pack_key m' cm') w' = dns_requests (pack_key m' cm') w.
Proof.
  intros Hr He Hk H1 H2 H3 H4 Hne. pose proof (exec_effect cfg c _ r w r' w' Hr Hk He) as Heff.
  destruct (effect_other (pack_key m' cm') _ c r w r' w' Heff) as [? ?]; [|done].
  intros Heq. apply Hne. by apply pack_key_inj in Heq as [-> ->].
Qed.

(** C30: [get_host], case by case: an unknown module is created, pulled and
    answered RET_NOEXIST; one without hosts is answered RET_NOEXIST while the
    call itself returns RET_SUCC, and nothing is pulled; any other is answered with
    the choice of its load_balance and refreshed when it is NEW and stale. *)
Theorem get_host_outcome m c rsp r w :
  rl_good r -> exists ret rsp' r' w', get_host cfg m c rsp r w = Ok (ret, rsp', r', w') /\
  match rl_map r !! pack_key m c with
  | None => ret = RET_NOEXIST /\ rsp' = ghs_set_retcode RET_NOEXIST rsp /\ pulling r' (pack_key m c) = true /\
      w_dns_queue w' = w_dns_queue w ++ [{| grq_modid := m; grq_cmdid := c |}]
  | Some lb =>
      if bool_decide (lb_host_map lb = ∅)
      then ret = RET_SUCC /\ rsp' = ghs_set_retcode RET_NOEXIST rsp /\ r' = r /\ w' = w
      else exists rsp0 lb', choice_one_host cfg rsp lb = Ok (ret, rsp0, lb') /\
        rsp' = ghs_set_retcode ret rsp0 /\ (ret = RET_SUCC \/ ret = RET_OVERLOAD) /\
        rl_map r' !! pack_key m c = Some (if due cfg lb w then lb_set_status PULLING lb' else lb') /\
        w_dns_queue w' = w_dns_queue w ++ (if due cfg lb w then [lb_request lb] else [])
  end.
Proof.
  intros Hr. unfold get_host. destruct (rl_map r !! pack_key m c) as [lb|] eqn:Hlb.
  - destruct (Hr _ _ Hlb) as [Hwf Hint Hkey]. unfold lb_empty.
    case_bool_decide as He; [by do 4 eexists|].
    destruct (choice_safe cfg rsp lb Hwf (intact_lists lb Hwf Hint He))
      as (ret & rsp0 & lb' & Hc & _ & _ & _ & Hst & Hlu & Hm1 & Hm2).
    rewrite Hc. cbn. destruct (refresh_spec cfg lb' w) as (w' & Hf & Hq & _). rewrite Hf.
    assert (due cfg lb' w = due cfg lb w) as Hd by (unfold due; by rewrite Hst, Hlu).
    assert (lb_request lb' = lb_request lb) as Hreq by (unfold lb_request; by rewrite Hm1, Hm2).
    do 4 eexists. split; [done|]. exists rsp0, lb'. split; [done|]. split; [done|].
    split; [by eapply choice_retcode|]. rewrite <-Hd, <-Hreq. split; [cbn; apply lookup_insert_eq|done].
  - destruct (create_module_spec m c r w) as (w' & -> & Hq & _).
    do 4 eexists. split; [done|]. split; [done|]. split; [done|]. by rewrite pulling_set.
Qed.

(** [get_route] on a known undamaged module answers every host of the
    module once, in the order of the hash table. *)
Theorem get_route_complete m c rsp r w lb :
  rl_good r -> rl_map r !! pack_key m c = Some lb -> grs_host rsp = [] ->
  exists rsp' r' w', get_route cfg m c rsp r w = Ok (RET_SUCC, rsp', r', w') /\
    grs_modid rsp' = grs_modid rsp /\ grs_cmdid rsp' = grs_cmdid rsp /\
    grs_host rsp' ≡ₚ host_answer <$> (hosts_of lb (lb_idle lb) ++ hosts_of lb (lb_over lb)) /\
    length (grs_host rsp') = size (live_keys lb).
Proof.
  intros Hr Hlb Hnil. destruct (Hr _ _ Hlb) as [Hwf Hint Hkey].
  pose proof (all_hosts_perm lb Hwf Hint) as Hperm.
  assert (forall p, p ∈ get_all_hosts lb -> is_Some (lb_heap lb !! p)) as Hin.
  { intros p. rewrite Hperm. intros [Hp|Hp]%elem_of_app.
    - destruct (wf_idle _ Hwf _ Hp) as (? & -> & _). done.
    - destruct (wf_over _ Hwf _ Hp) as (? & -> & _). done. }
  unfold get_route. rewrite Hlb, get_route_hosts by done. cbn.
  destruct (refresh cfg lb w) as [lb' w'].
  do 3 eexists. split; [done|]. cbn. rewrite Hnil. split; [done|]. split; [done|]. cbn. split.
  - unfold hosts_of. rewrite <-omap_app. by rewrite Hperm.
  - unfold hosts_of. rewrite length_fmap, length_omap by done. rewrite listed_count by done. by rewrite Hperm.
Qed.

(** C40: A module that has no host is never pulled again by [get_host]: lookups
    and reports for it and status resets leave it without hosts and put nothing
    on the dns queue for it, however often they are repeated and however much time
    passes. *)
Theorem empty_module_starves m c r w cs r' w' :
  rl_good r -> (exists lb, rl_map r !! pack_key m c = Some lb /\ lb_host_map lb = ∅) ->
  Forall (fun cl => cl = ResetStatus \/ cl = GetHost m c \/
    exists req, cl = ReportHost req /\ pack_key (rrq_modid req) (rrq_cmdid req) = pack_key m c) cs ->
  run cfg (r, w) cs = Ok (r', w') ->
  (exists lb, rl_map r' !! pack_key m c = Some lb /\ lb_host_map lb = ∅) /\
  w_dns_queue w' = w_dns_queue w.
Proof.
  intros Hr He Hall. revert r w Hr He. unfold run.
  induction Hall as [|cl cs Hcl Hall IH]; intros r w Hr (lb & Hlb & Hm) Hrun; cbn [foldM] in Hrun.
  { injection Hrun as <- <-. eauto. }
  apply bind_ok in Hrun as ([r1 w1] & Hex & Hrun).
  assert (rl_good r1 /\ (exists lb, rl_map r1 !! pack_key m c = Some lb /\ lb_host_map lb = ∅) /\
          w_dns_queue w1 = w_dns_queue w) as (Hr1 & He1 & Hq1).
  2:{ destruct (IH r1 w1 Hr1 He1 Hrun) as [? Hq]. split; [done|congruence]. }
  assert (covers r cl) as Hcov by (destruct Hcl as [->|[->|(? & -> & _)]]; done).
  destruct (exec_ok cfg r w cl Hr Hcov) as (r2 & w2 & Hex2 & Hr2).
  rewrite Hex in Hex2. injection Hex2 as <- <-. split; [done|].
  destruct Hcl as [->|[->|(req & -> & Hreq)]]; cbn in Hex.
  - injection Hex as <- <-. split; [|done]. exists (lb_set_status NEW lb). cbn.
    by rewrite lookup_fmap, Hlb.
  - unfold get_host in Hex. rewrite Hlb in Hex. unfold lb_empty in Hex.
    rewrite bool_decide_true in Hex by done. injection Hex as <- <-. eauto.
  - unfold report_host in Hex. rewrite Hreq, Hlb in Hex.
    rewrite report_unknown in Hex by (rewrite Hm; apply lookup_empty). cbn in Hex.
    unfold commit, lb_empty in Hex. rewrite bool_decide_true in Hex by done. injection Hex as <- <-.
    split; [|done]. exists lb. cbn. by rewrite lookup_insert_eq.
Qed.
End route_properties.

(** ** Concrete runs *)

Module RouteDemo.
Import Demo.
#[local] Existing Instance demo_clock.
#[local] Instance demo_order : HashOrder := hash_order_list.

Definition answer (l : list HostInfo) : call :=
  UpdateHost 1 1 {| grs_modid := 1; grs_cmdid := 1; grs_host := l |}.
Definition start : route_lb * world := (route_lb_new 1, w0).
Definition final (cs : list call) : route_lb * world :=
  match run lb_agent_ini start cs with Ok st => st | Err _ => start end.

(** The dns service dropping a host makes the agent fault with the shipped
    configuration: after the answers (h1, h2) and (h1), repeating the answer (h1),
    asking for the whole route and a report for h2 each access freed memory; and
    after the answers (h1), (h2), (h1) the module has no host on its lists, refuses
    ten lookups and reads the front of an empty list at the eleventh. *)
Theorem dropped_host_faults :
  run lb_agent_ini start [GetHost 1 1; answer [host1; host2]; answer [host1]; answer [host1]]
    = Err UseAfterFree /\
  run lb_agent_ini start [GetHost 1 1; answer [host1; host2]; answer [host1]; GetRoute 1 1]
    = Err UseAfterFree /\
  run lb_agent_ini start [GetHost 1 1; answer [host1; host2]; answer [host1];
      ReportHost {| rrq_modid := 1; rrq_cmdid := 1; rrq_host := Some host2; rrq_retcode := RET_SUCC |}]
    = Err UseAfterFree /\
  run lb_agent_ini start ([GetHost 1 1; answer [host1]; answer [host2]; answer [host1]]
      ++ replicate 11 (GetHost 1 1)) = Err OutOfBounds.
Proof. split_and!; vm_compute; reflexivity. Qed.

Definition demo_calls : list call :=
  [GetHost 1 1; answer [host1]; GetHost 1 1; answer [host1; host2]; GetRoute 1 1].

Lemma demo_covering : covering lb_agent_ini start demo_calls.
Proof.
  unfold demo_calls, start.
  constructor; [done|]. intros [r1 w1] H1. vm_compute in H1. injection H1 as <- <-.
  constructor; [intros lb Hlb; right; vm_compute in Hlb; injection Hlb as <-; by apply (bool_decide_unpack _); vm_compute|].
  intros [r2 w2] H2. vm_compute in H2. injection H2 as <- <-.
  constructor; [done|]. intros [r3 w3] H3. vm_compute in H3. injection H3 as <- <-.
  constructor; [intros lb Hlb; right; vm_compute in Hlb; injection Hlb as <-; by apply (bool_decide_unpack _); vm_compute|].
  intros [r4 w4] H4. vm_compute in H4. injection H4 as <- <-.
  constructor; [done|]. intros [r5 w5] _. constructor.
Qed.

Lemma good_start : rl_good (route_lb_new 1).
Proof. done. Qed.

Lemma good_final : rl_good (final demo_calls).1.
Proof.
  destruct (run_ok lb_agent_ini (route_lb_new 1) w0 demo_calls good_start demo_covering) as (r' & w' & Hr & Hg).
  unfold final. unfold start. rewrite Hr. exact Hg.
Qed.

Lemma covering_runs_safe_witness : exists r' w', run lb_agent_ini start demo_calls = Ok (r', w') /\ rl_good r'.
Proof. exact (covering_runs_safe lb_agent_ini w0 demo_calls 1 demo_covering). Defined.

Lemma one_request_in_flight_witness :
  (dns_requests (pack_key 1 1) (World 1 [{| grq_modid := 1; grq_cmdid := 1 |}] []) <= 0 + 1)%nat.
Proof.
  apply (one_request_in_flight lb_agent_ini (pack_key 1 1) (route_lb_new 1) w0 [GetHost 1 1] (final [GetHost 1 1]).1).
  - exact good_start.
  - constructor; [done|]. intros [? ?] _. constructor.
  - repeat constructor; discriminate.
  - vm_compute. reflexivity.
Defined.

Lemma modules_isolated_witness :
  rl_map (final [GetHost 2 2]).1 !! pack_key 1 1 = None.
Proof.
  destruct (modules_isolated lb_agent_ini (GetHost 2 2) 2 2 1 1 (route_lb_new 1) w0
    (final [GetHost 2 2]).1 (final [GetHost 2 2]).2 good_start) as [Hm _].
  1: vm_compute; reflexivity. 1: reflexivity. 1,2,3,4: unfold is_i32; lia. 1: discriminate.
  exact Hm.
Defined.

Lemma get_host_outcome_witness : exists ret rsp' r' w',
  get_host lb_agent_ini 7 8 GetHostResponse_new (final demo_calls).1 w0 = Ok (ret, rsp', r', w').
Proof.
  destruct (get_host_outcome lb_agent_ini 7 8 GetHostResponse_new (final demo_calls).1 w0 good_final)
    as (ret & rsp' & r' & w' & Hg & _). exists ret, rsp', r', w'. exact Hg.
Defined.

Lemma get_route_complete_witness : exists rsp' r' w',
  get_route lb_agent_ini 1 1 GetRouteResponse_new (final demo_calls).1 w0 = Ok (RET_SUCC, rsp', r', w') /\
  length (grs_host rsp') = 2%nat.
Proof.
  set (lb := default lb_0 (rl_map (final demo_calls).1 !! pack_key 1 1)).
  destruct (get_route_complete lb_agent_ini 1 1 GetRouteResponse_new (final demo_calls).1 w0 lb good_final)
    as (rsp' & r' & w' & Hg & _ & _ & _ & Hl).
  1: vm_compute; reflexivity. 1: reflexivity.
  exists rsp', r', w'. split; [exact Hg|]. etransitivity; [exact Hl|]. vm_compute. reflexivity.
Defined.

Lemma empty_module_starves_witness :
  w_dns_queue (final [GetHost 1 1; ResetStatus; GetHost 1 1; GetHost 1 1]).2
    = w_dns_queue (final [GetHost 1 1]).2.
Proof.
  destruct (empty_module_starves lb_agent_ini 1 1 (final [GetHost 1 1]).1 (final [GetHost 1 1]).2
    [ResetStatus; GetHost 1 1; GetHost 1 1] (final [GetHost 1 1; ResetStatus; GetHost 1 1; GetHost 1 1]).1
    (final [GetHost 1 1; ResetStatus; GetHost 1 1; GetHost 1 1]).2) as [_ Hq].
  - destruct (run_ok lb_agent_ini (route_lb_new 1) w0 [GetHost 1 1] good_start) as (r' & w' & Hr & Hg).
    { constructor; [done|]. intros [? ?] _. constructor. }
    unfold final, start. rewrite Hr. exact Hg.
  - eexists. split; [vm_compute; reflexivity|reflexivity].
  - constructor; [by left|]. constructor; [right; by left|]. constructor; [right; by left|constructor].
  - vm_compute. reflexivity.
  - exact Hq.
Defined.
End RouteDemo.
