(* ===== verification/Bytes.v ===== *)
(** * Bytes: memory, message heads and message routing (lars_reactor, message.h)

    A [char] array is a partial map from offsets to bytes ([memory]): an offset
    that was never written has no value.  A message on the wire is the struct
    [msg_head] as the x86-64 compiler lays it out (two little-endian [int]s)
    followed by the body. *)

From S2P Require Import Prelude.
From stdpp Require Import base numbers list gmap fin_maps.
From coqutil Require Byte Word.LittleEndianList.
From Stdlib Require Import ZArith Lia.
Open Scope Z_scope.

Abbreviation byte := Init.Byte.byte.
Abbreviation bytes := (list byte).

Coercion Z.of_nat : nat >-> Z.

#[export] Instance byte_eq_dec : EqDecision byte.
Proof. intros x y. destruct (Byte.byte_eq_dec x y); [by left|by right]. Defined.

(** ** Memory *)

Abbreviation memory := (gmap Z byte).

(** [memcpy(m + off, bs, length bs)] *)
Definition mem_write (off : Z) (bs : bytes) (m : memory) : memory := map_seqZ off bs ∪ m.

(** [n] bytes read at [off]; [None] when one of them was never written. *)
Definition mem_read (off n : Z) (m : memory) : option bytes := mapM (fun i => m !! i) (seqZ off n).

(** [m] holds the bytes [bs] at [off]. *)
Definition mem_holds (m : memory) (off : Z) (bs : bytes) : Prop :=
  forall (i : nat) b, bs !! i = Some b -> m !! (off + i) = Some b.

Section memory_lemmas.
Implicit Types m : memory.
Implicit Types bs : bytes.

Lemma mem_read_holds m off n bs :
  0 <= n -> mem_read off n m = Some bs <-> Z.of_nat (length bs) = n /\ mem_holds m off bs.
Proof.
  intros Hn. unfold mem_read. rewrite mapM_Some, Forall2_lookup. split.
  - intros Hf. assert (length bs = Z.to_nat n) as Hl.
    { rewrite <-(length_seqZ off n). symmetry. apply Forall2_length with (P := fun i b => m !! i = Some b).
      by apply Forall2_lookup. }
    split; [lia|]. intros i b Hb. specialize (Hf i). rewrite Hb in Hf.
    rewrite lookup_seqZ_lt in Hf by (apply lookup_lt_Some in Hb; lia).
    by inversion Hf.
  - intros [Hl Hh] i. destruct (bs !! i) as [b|] eqn:Hb.
    + rewrite lookup_seqZ_lt by (apply lookup_lt_Some in Hb; lia). constructor. by apply Hh.
    + rewrite lookup_seqZ_ge by (apply lookup_ge_None in Hb; lia). constructor.
Qed.

Lemma holds_nil m off : mem_holds m off [].
Proof. intros i b Hb. by rewrite lookup_nil in Hb. Qed.

Lemma holds_app m off bs1 bs2 :
  mem_holds m off (bs1 ++ bs2) <-> mem_holds m off bs1 /\ mem_holds m (off + length bs1) bs2.
Proof.
  split.
  - intros Hh. split; intros i b Hb.
    + apply Hh. by apply lookup_app_l_Some.
    + replace (off + length bs1 + i) with (off + (length bs1 + i)%nat) by lia.
      apply Hh. rewrite lookup_app_r by lia. rewrite <-Hb. f_equal. lia.
  - intros [H1 H2] i b [Hb|[Hi Hb]]%lookup_app_Some; [by apply H1|].
    replace (off + i) with (off + length bs1 + (i - length bs1)%nat) by lia. by apply H2.
Qed.

Lemma holds_drop m off bs (n : nat) :
  (n <= length bs)%nat -> mem_holds m off bs -> mem_holds m (off + n) (drop n bs).
Proof.
  intros Hn Hh. rewrite <-(take_drop n bs) in Hh. apply holds_app in Hh as [_ Hh].
  by rewrite length_take, Nat.min_l in Hh by lia.
Qed.

Lemma holds_take m off bs (n : nat) : mem_holds m off bs -> mem_holds m off (take n bs).
Proof. intros Hh. rewrite <-(take_drop n bs) in Hh. by apply holds_app in Hh as [? _]. Qed.

Lemma holds_write m off bs : mem_holds (mem_write off bs m) off bs.
Proof.
  intros i b Hb. unfold mem_write. apply lookup_union_Some_l.
  rewrite lookup_map_seqZ_Some. split; [lia|]. by replace (Z.to_nat (off + i - off)) with i by lia.
Qed.

Lemma holds_write_below m off off' bs bs' :
  off + length bs <= off' -> mem_holds m off bs -> mem_holds (mem_write off' bs' m) off bs.
Proof.
  intros Ho Hh i b Hb. unfold mem_write. pose proof (lookup_lt_Some _ _ _ Hb).
  rewrite lookup_union_r; [by apply Hh|]. apply lookup_map_seqZ_None. left. lia.
Qed.

Lemma holds_write_append m off bs bs' :
  mem_holds m off bs -> mem_holds (mem_write (off + length bs) bs' m) off (bs ++ bs').
Proof.
  intros Hh. apply holds_app. split; [by apply holds_write_below|apply holds_write].
Qed.
End memory_lemmas.

(** ** struct msg_head *)

(** [memcpy(buf + off, bs, length bs)]. *)
Definition overwrite (off : nat) (bs buf : bytes) : res bytes :=
  ensure Nat.leb (off + length bs) (length buf) or OutOfBounds;
  Ok (take off buf ++ bs ++ drop (off + length bs) buf).

Lemma overwrite_length off bs buf buf' : overwrite off bs buf = Ok buf' -> length buf' = length buf.
Proof.
  unfold overwrite. destruct (Nat.leb _ _) eqn:E; [|done]. intros [= <-]. apply Nat.leb_le in E.
  rewrite !length_app, length_take, length_drop. lia.
Qed.

Record msg_head := { msgid : Z; msglen : Z }.

Definition MESSAGE_HEAD_LEN := 8.
Definition MESSAGE_LENGTH_LIMIT := 65535 - MESSAGE_HEAD_LEN.

Definition int_bytes (z : Z) : bytes := LittleEndianList.le_split 4 z.
Definition int_of_bytes (bs : bytes) : Z := i32 (LittleEndianList.le_combine bs).

(** The object representation of a [msg_head], and reading it back. *)
Definition head_bytes (h : msg_head) : bytes := int_bytes (msgid h) ++ int_bytes (msglen h).
Definition head_of_bytes (bs : bytes) : msg_head :=
  {| msgid := int_of_bytes (take 4 bs); msglen := int_of_bytes (take 4 (drop 4 bs)) |}.

(** A message as it goes over the wire. *)
Definition frame (mid : Z) (body : bytes) : bytes :=
  head_bytes {| msgid := mid; msglen := length body |} ++ body.

Lemma length_int_bytes z : length (int_bytes z) = 4%nat.
Proof. apply LittleEndianList.length_le_split. Qed.

Lemma length_head_bytes h : length (head_bytes h) = 8%nat.
Proof. unfold head_bytes. by rewrite length_app, !length_int_bytes. Qed.

Lemma length_frame mid body : length (frame mid body) = (8 + length body)%nat.
Proof. unfold frame. by rewrite length_app, length_head_bytes. Qed.

Lemma int_of_int_bytes z : int_of_bytes (int_bytes z) = i32 z.
Proof.
  unfold int_of_bytes, int_bytes. rewrite LittleEndianList.le_combine_split.
  change (2 ^ (Z.of_nat 4 * 8)) with (2 ^ 32). apply i32_u32.
Qed.

(** A head written by one side is the head the other side reads, for every
    message id and length that fit an [int], whatever follows it; and 8 bytes
    determine the head they stand for. *)
Theorem head_roundtrip h rest :
  is_i32 (msgid h) -> is_i32 (msglen h) ->
  head_of_bytes (head_bytes h ++ rest) = h /\
  (forall bs, length bs = 8%nat -> head_of_bytes bs = h -> bs = head_bytes h).
Proof.
  destruct h as [i n]. cbn. intros Hi Hn. split.
  - unfold head_of_bytes, head_bytes. cbn [msgid msglen]. rewrite <-app_assoc.
    rewrite take_app_length', drop_app_length' by by rewrite length_int_bytes.
    rewrite take_app_length' by by rewrite length_int_bytes. rewrite !int_of_int_bytes. by rewrite !i32_id.
  - intros bs Hl [= Hid Hlen]. unfold head_bytes. cbn [msgid msglen].
    rewrite <-(take_drop 4 bs). unfold int_of_bytes in Hid, Hlen.
    assert (length (take 4 bs) = 4%nat) as H1 by (rewrite length_take; lia).
    assert (length (drop 4 bs) = 4%nat) as H2 by (rewrite length_drop; lia).
    rewrite (take_ge (drop 4 bs)) in Hlen by lia.
    assert (forall b : bytes, length b = 4%nat -> int_bytes (i32 (LittleEndianList.le_combine b)) = b) as Hb.
    { intros b Hb. unfold int_bytes. rewrite LittleEndianList.le_split_mod.
      change (2 ^ (Z.of_nat 4 * 8)) with (2 ^ 32). fold (u32 (i32 (LittleEndianList.le_combine b))). rewrite u32_i32.
      unfold u32. change (2 ^ 32) with (2 ^ (Z.of_nat 4 * 8)).
      rewrite <-LittleEndianList.le_split_mod. by rewrite <-Hb, LittleEndianList.split_le_combine. }
    rewrite <-Hid, <-Hlen. by rewrite !Hb.
Qed.

Lemma head_roundtrip_witness :
  head_of_bytes (head_bytes {| msgid := -3; msglen := 65527 |} ++ [Init.Byte.x00]) = {| msgid := -3; msglen := 65527 |}.
Proof.
  apply (head_roundtrip {| msgid := -3; msglen := 65527 |} [Init.Byte.x00]); unfold is_i32; cbn; lia.
Defined.

(** ** msg_router *)

Section router.
(** Callbacks and their [void *user_data]. *)
Context {C A : Type}.

Record msg_router := Router {
  router_map : gmap Z C;
  router_args : gmap Z A
}.
Definition msg_router_new : msg_router := Router ∅ ∅.

(** [int register_msg_router(int msgid, msg_callback *msg_cb, void *user_data)] *)
Definition register_msg_router (mid : Z) (cb : C) (user_data : A) (r : msg_router) : Z * msg_router :=
  match router_map r !! mid with
  | Some _ => (-1, r)
  | None => (0, Router (<[mid:=cb]> (router_map r)) (<[mid:=user_data]> (router_args r)))
  end.

(** [void call(int msgid, uint32_t msglen, const char *data, net_connection *conn)]: the
    callback with its user data, or nothing. [_args[msgid]] of a key that is
    absent is a null pointer, here [None]. *)
Definition router_call (mid : Z) (r : msg_router) : option (C * option A) :=
  match router_map r !! mid with
  | None => None
  | Some cb => Some (cb, router_args r !! mid)
  end.

(** Registrations in order, as a server does them at start. *)
Definition register_all (l : list (Z * C * A)) (r : msg_router) : msg_router :=
  fold_left (fun r '(i, cb, a) => (register_msg_router i cb a r).2) l r.

Lemma register_keeps mid cb a r i x : router_call i r = Some x -> router_call i (register_msg_router mid cb a r).2 = Some x.
Proof.
  unfold router_call, register_msg_router. destruct (router_map r !! mid) eqn:Hm; [done|].
  cbn. destruct (decide (i = mid)) as [->|]; [by rewrite Hm|]. by rewrite !lookup_insert_ne.
Qed.
End router.
Arguments msg_router : clear implicits.

Lemma register_all_keeps {C A} (l : list (Z * C * A)) r i x :
  router_call i r = Some x -> router_call i (register_all l r) = Some x.
Proof.
  revert r. induction l as [|[[j cb] a] l IH]; intros r Hr; cbn; [done|].
  apply IH. by apply register_keeps.
Qed.

(** Dispatch goes to the first registration of an id with its own user data:
    later registrations of the same id are refused and change nothing, and an id
    never registered reaches no callback. *)
Theorem dispatch_first_registration {C A} (l : list (Z * C * A)) mid :
  router_call mid (register_all l msg_router_new) =
    (fun x => (x.1.2, Some x.2)) <$> head (filter (fun x => x.1.1 = mid) l).
Proof.
  enough (forall r, router_map r !! mid = None ->
    router_call mid (register_all l r) = (fun x => (x.1.2, Some x.2)) <$> head (filter (fun x => x.1.1 = mid) l)) as Hg
    by (by apply Hg).
  induction l as [|[[j cb] a] l IH]; intros r Hr.
  { cbn. unfold router_call. by rewrite Hr. }
  cbn [register_all fold_left]. destruct (decide (j = mid)) as [->|Hj].
  - rewrite filter_cons_True by done. cbn. apply register_all_keeps.
    unfold router_call, register_msg_router. rewrite Hr. cbn. by rewrite !lookup_insert_eq.
  - rewrite filter_cons_False by done. apply IH. unfold register_msg_router.
    destruct (router_map r !! j); [done|]. cbn. by rewrite lookup_insert_ne.
Qed.
