(* ===== verification/Wire.v ===== *)
(** * Wire: the wire format of the messages (base/proto, lars.pb.cc)

    What the generated classes do to write a message and to read one back.  The
    primitives of the protobuf library they call are the interface [WireFormat];
    [Codec] is what the services rely on, and every message class has one. *)

From S2P Require Import Prelude Bytes Proto.
From stdpp Require Import base numbers list.
From coqutil Require Import Byte.
From Stdlib Require Import ZArith Lia.
Open Scope Z_scope.

(** ** The library

    Varints, the payload of a length-delimited field, and skipping a field.
    [read_delimited] gives the payload, what follows it, and whether all of the
    announced length was there. *)
Class WireFormat := {
  write_varint : Z -> bytes;
  read_varint : bytes -> option (Z * bytes);
  read_delimited : bytes -> option (bool * bytes * bytes);
  skip_field : Z -> bytes -> option bytes;
  varint_roundtrip z rest : is_u64 z -> read_varint (write_varint z ++ rest) = Some (z, rest);
  varint_size z k : 0 <= z < 2 ^ (7 * k) -> 0 < k -> 0 < length (write_varint z) <= k;
  delimited_roundtrip body rest :
    length body < 2 ^ 31 -> read_delimited (write_varint (length body) ++ body ++ rest) = Some (true, body, rest);
  read_varint_shorter bs z rest : read_varint bs = Some (z, rest) -> (length rest < length bs)%nat;
  read_delimited_shorter bs all body rest : read_delimited bs = Some (all, body, rest) -> (length rest <= length bs)%nat;
  skip_field_shorter tag bs rest : skip_field tag bs = Some rest -> (length rest <= length bs)%nat
}.

(** What a message class offers: writing a message, and reading whatever bytes, with
    the result of [ParseFromArray] and the message it leaves. *)
Class Codec (M : Type) := {
  msg_ok : M -> Prop;
  msg_encode : M -> bytes;
  msg_parse : bytes -> res (bool * M);
  msg_parse_roundtrip m : msg_ok m -> msg_parse (msg_encode m) = Ok (true, m);
  msg_parse_total bs : exists ok m, msg_parse bs = Ok (ok, m);
  msg_parse_ok bs ok m : msg_parse bs = Ok (ok, m) -> msg_ok m
}.

(** The services do not look at the result. *)
Definition msg_decode {M} `{!Codec M} (bs : bytes) : res M := '(_, m) ← msg_parse bs; Ok m.

Lemma msg_roundtrip {M} `{!Codec M} (m : M) : msg_ok m -> msg_decode (msg_encode m) = Ok m.
Proof. intros Hm. unfold msg_decode. by rewrite msg_parse_roundtrip. Qed.

Lemma msg_decode_total {M} `{!Codec M} bs : exists m : M, msg_decode bs = Ok m.
Proof. destruct (msg_parse_total (M := M) bs) as (ok & m & Hm). exists m. unfold msg_decode. by rewrite Hm. Qed.

(** Whatever bytes are read, the fields have the range of their types. *)
Lemma msg_decode_ok {M} `{!Codec M} bs (m : M) : msg_decode bs = Ok m -> msg_ok m.
Proof. unfold msg_decode. intros Hm. apply bind_ok in Hm as ([ok m'] & Hp & [= ->]). by eapply msg_parse_ok. Qed.

Section wire.
Context `{WireFormat}.

(** The end of the input reads as tag 0; a tag 0 that is written, and a broken varint,
    are left unread, since the input does not count as consumed then. *)
Definition read_tag (bs : bytes) : Z * bytes :=
  match bs with
  | [] => (0, [])
  | _ => match read_varint bs with
         | Some (tag, rest) => if u32 tag =? 0 then (0, bs) else (u32 tag, rest)
         | None => (0, bs)
         end
  end.

(** The outcome of reading: whether it succeeded, the message as far as it was
    merged, and what was not read. *)
Abbreviation outcome M := (bool * M * bytes)%type.
Abbreviation field_reader M := (M -> bytes -> res (outcome M)).
(** The [switch] of a message class: the reader for a tag. *)
Abbreviation fields M := (Z -> option (field_reader M)).

(** [ReadPrimitive] *)
Definition read_prim {M} (conv : Z -> Z) (set : Z -> M -> M) : field_reader M := fun m bs =>
  match read_varint bs with
  | Some (v, bs) => Ok (true, set (conv v) m, bs)
  | None => Ok (false, m, bs)
  end.
Definition bool_of (v : Z) : Z := if v =? 0 then 0 else 1.

(** The [for (;;)] of [MergePartialFromCodedStream], the same in every class. *)
Fixpoint merge_fields {M} (case : fields M) (fuel : nat) (m : M) (bs : bytes) : res (outcome M) :=
  match fuel with
  | O => Err OutOfFuel
  | S fuel =>
      let '(tag, bs) := read_tag bs in
      match (if tag <=? 127 then case tag else None) with
      | Some field =>
          '(ok, m, bs) ← field m bs;
          if (ok : bool) then merge_fields case fuel m bs else Ok (false, m, bs)
      | None =>
          if tag =? 0 then Ok (true, m, bs)
          else match skip_field tag bs with
               | Some bs => merge_fields case fuel m bs
               | None => Ok (false, m, bs)
               end
      end
  end.
Definition merge_from {M} (case : fields M) (m : M) (bs : bytes) : res (outcome M) := merge_fields case (S (length bs)) m bs.

(** [ReadMessage(input, sub)] where [sub] is a part of the message being read. *)
Definition read_message {M N} (case : fields N) (get : M -> N) (put : N -> M -> M) : field_reader M := fun m bs =>
  match read_delimited bs with
  | None => Ok (false, put (get m) m, bs)
  | Some (all, body, rest) =>
      '(ok, sub, unread) ← merge_from case (get m) body;
      Ok (ok && bool_decide (unread = []) && all, put sub m, rest)
  end.

(** [WriteInt32], [WriteUInt32], [WriteBool]; an [int32] is extended to 64 bits. *)
Definition write_prim (field v : Z) : bytes := write_varint (Z.shiftl field 3) ++ write_varint (u64 v).
(** [Int32Size], [UInt32Size], and a bool's 1 *)
Definition prim_size (v : Z) : Z := length (write_varint (u64 v)).
(** [WriteMessage] with the cached size, and [MessageSize] *)
Definition write_message (field size : Z) (body : bytes) : bytes :=
  write_varint (Z.shiftl field 3 + 2) ++ write_varint size ++ body.
Definition message_size (size : Z) : Z := length (write_varint size) + size.

(** [ParseFromArray]: whether all of the input was read as a message, and the message,
    which starts [new] (the call clears it). *)
Definition parse_from {M} (case : fields M) (new : M) (bs : bytes) : res (bool * M) :=
  '(ok, m, unread) ← merge_from case new bs; Ok (ok && bool_decide (unread = []), m).

(** ** Reading always ends *)

Definition reader_ok {M} (f : field_reader M) : Prop :=
  forall m bs, exists ok m' bs', f m bs = Ok (ok, m', bs') /\ (length bs' <= length bs)%nat.
Definition case_ok {M} (case : fields M) : Prop :=
  case 0 = None /\ forall tag f, case tag = Some f -> reader_ok f.

Lemma read_tag_shorter bs tag rest : read_tag bs = (tag, rest) -> tag <> 0 -> (length rest < length bs)%nat.
Proof.
  unfold read_tag. destruct bs as [|b bs]; [intros [= <- <-]; done|].
  destruct (read_varint (b :: bs)) as [[t r]|] eqn:E; [|by intros [= <- <-]].
  destruct (_ =? 0); intros [= <- <-]; [done|]. intros _. by apply read_varint_shorter in E.
Qed.

Lemma merge_fields_total {M} (case : fields M) fuel m bs :
  case_ok case -> (length bs < fuel)%nat ->
  exists ok m' bs', merge_fields case fuel m bs = Ok (ok, m', bs') /\ (length bs' <= length bs)%nat.
Proof.
  intros [H0 Hc]. revert m bs. induction fuel as [|fuel IH]; intros m bs Hl; [lia|]. cbn [merge_fields].
  destruct (read_tag bs) as [tag rest] eqn:Ht.
  assert ((length rest <= length bs)%nat) as Hle.
  { unfold read_tag in Ht. destruct bs as [|b bs]; [by injection Ht as <- <-|].
    destruct (read_varint (b :: bs)) as [[t r]|] eqn:E; [|by injection Ht as <- <-].
    destruct (_ =? 0); injection Ht as <- <-; [done|]. apply read_varint_shorter in E. lia. }
  destruct (if tag <=? 127 then case tag else None) as [f|] eqn:Hf.
  - destruct (tag <=? 127); [|done]. assert (tag <> 0) as Hne by (intros ->; congruence).
    apply (read_tag_shorter _ _ _ Ht) in Hne. destruct (Hc tag f Hf m rest) as (ok & m' & bs' & -> & Hl').
    cbn [mbind res_bind]. destruct ok; [|exists false, m', bs'; split; [done|lia]].
    destruct (IH m' bs') as (ok & m2 & bs2 & -> & Hl2); [lia|]. exists ok, m2, bs2. split; [done|lia].
  - destruct (Z.eqb_spec tag 0) as [->|Hne]; [exists true, m, rest; done|].
    apply (read_tag_shorter _ _ _ Ht) in Hne. destruct (skip_field tag rest) as [bs'|] eqn:Hs.
    + apply skip_field_shorter in Hs. destruct (IH m bs') as (ok & m2 & bs2 & -> & Hl2); [lia|].
      exists ok, m2, bs2. split; [done|lia].
    + exists false, m, rest. done.
Qed.

Lemma merge_fields_mono {M} (case : fields M) f1 f2 m bs r :
  merge_fields case f1 m bs = Ok r -> (f1 <= f2)%nat -> merge_fields case f2 m bs = Ok r.
Proof.
  revert f2 m bs. induction f1 as [|f1 IH]; intros f2 m bs Hr Hle; [discriminate|].
  destruct f2 as [|f2]; [lia|]. cbn [merge_fields] in *. destruct (read_tag bs) as [tag rest].
  destruct (if tag <=? 127 then case tag else None) as [f|].
  - apply bind_ok in Hr as ([[ok m'] bs'] & -> & Hr). cbn [mbind res_bind].
    destruct ok; [|done]. apply IH; [done|lia].
  - destruct (tag =? 0); [done|]. destruct (skip_field tag rest); [apply IH; [done|lia]|done].
Qed.

Lemma read_prim_ok {M} conv (set : Z -> M -> M) : reader_ok (read_prim conv set).
Proof.
  intros m bs. unfold read_prim. destruct (read_varint bs) as [[v r]|] eqn:E.
  - apply read_varint_shorter in E. exists true, (set (conv v) m), r. split; [done|lia].
  - by exists false, m, bs.
Qed.

Lemma read_message_ok {M N} (case : fields N) (get : M -> N) put : case_ok case -> reader_ok (read_message case get put).
Proof.
  intros Hc m bs. unfold read_message. destruct (read_delimited bs) as [[[all body] rest]|] eqn:E.
  - apply read_delimited_shorter in E.
    destruct (merge_fields_total case (S (length body)) (get m) body Hc) as (ok & sub & l & Hm & _); [lia|].
    unfold merge_from. rewrite Hm. cbn [mbind res_bind]. eexists _, _, rest. done.
  - by exists false, (put (get m) m), bs.
Qed.

(** ** Reading keeps what every field keeps *)

Definition reader_keeps {M} (P : M -> Prop) (f : field_reader M) : Prop :=
  forall m bs ok m' rest, P m -> f m bs = Ok (ok, m', rest) -> P m'.
Definition case_keeps {M} (P : M -> Prop) (case : fields M) : Prop :=
  forall tag f, case tag = Some f -> reader_keeps P f.

Lemma merge_fields_keeps {M} (P : M -> Prop) (case : fields M) fuel : case_keeps P case -> reader_keeps P (merge_fields case fuel).
Proof.
  intros Hc. induction fuel as [|fuel IH]; intros m bs ok m' rest Hm Hr; [done|]. cbn [merge_fields] in Hr.
  destruct (read_tag bs) as [tag bs']. destruct (if tag <=? 127 then case tag else None) as [f|] eqn:Hf.
  - destruct (tag <=? 127); [|done]. apply bind_ok in Hr as ([[ok1 m1] bs1] & Hf1 & Hr).
    pose proof (Hc tag f Hf _ _ _ _ _ Hm Hf1) as Hm1. destruct ok1; [by eapply IH|by injection Hr as _ <- _].
  - destruct (tag =? 0); [by injection Hr as _ <- _|]. destruct (skip_field tag bs'); [by eapply IH|by injection Hr as _ <- _].
Qed.

Lemma read_prim_keeps {M} (P : M -> Prop) conv set :
  (forall v m, P m -> P (set (conv v) m)) -> reader_keeps P (read_prim conv set).
Proof.
  intros Hs m bs ok m' rest Hm. unfold read_prim. destruct (read_varint bs) as [[v r]|]; intros [= _ <- _]; [by apply Hs|done].
Qed.

Lemma read_message_keeps {M N} (P : M -> Prop) (Q : N -> Prop) (case : fields N) get put :
  case_keeps Q case -> (forall m, P m -> Q (get m)) -> (forall s m, Q s -> P m -> P (put s m)) ->
  reader_keeps P (read_message case get put).
Proof.
  intros Hc Hg Hp m bs ok m' rest Hm. unfold read_message. destruct (read_delimited bs) as [[[all body] r]|].
  - intros Hr. apply bind_ok in Hr as ([[ok1 sub] unread] & Hs & [= _ <- _]). apply Hp; [|done].
    eapply (merge_fields_keeps Q); [exact Hc|by apply Hg|exact Hs].
  - intros [= _ <- _]. apply Hp; [by apply Hg|done].
Qed.

Lemma parse_keeps {M} (P : M -> Prop) (case : fields M) new bs ok m :
  case_keeps P case -> P new -> parse_from case new bs = Ok (ok, m) -> P m.
Proof.
  intros Hc Hn Hp. unfold parse_from in Hp. apply bind_ok in Hp as ([[ok1 m1] unread] & Hm & [= _ <-]).
  by eapply (merge_fields_keeps P).
Qed.

(** ** Reading back what was written *)

(** With enough fuel, merging [bs] into [m] gives [r]. *)
Definition merges {M} (case : fields M) (m : M) (bs : bytes) (r : outcome M) : Prop :=
  exists fuel, merge_fields case fuel m bs = Ok r.

Lemma merges_from {M} (case : fields M) m bs r : case_ok case -> merges case m bs r -> merge_from case m bs = Ok r.
Proof.
  intros Hc [fuel Hf]. destruct (merge_fields_total case (S (length bs)) m bs Hc) as (ok & m' & bs' & Hm & _); [lia|].
  unfold merge_from. rewrite Hm.
  apply (merge_fields_mono case fuel (Nat.max fuel (S (length bs)))) in Hf; [|lia].
  apply (merge_fields_mono case _ (Nat.max fuel (S (length bs)))) in Hm; [|lia]. congruence.
Qed.

Lemma merges_end {M} (case : fields M) m : case 0 = None -> merges case m [] (true, m, []).
Proof. intros H0. exists 1%nat. cbn. by rewrite H0. Qed.

Lemma read_tag_write tag rest : 0 < tag <= 127 -> read_tag (write_varint tag ++ rest) = (tag, rest).
Proof.
  intros Ht. unfold read_tag. pose proof (varint_size tag 1 ltac:(cbn; lia) ltac:(lia)) as Hs.
  destruct (write_varint tag ++ rest) as [|b l] eqn:E; [destruct (write_varint tag); [cbn in Hs; lia|discriminate]|].
  rewrite <-E, varint_roundtrip by (unfold is_u64; lia). rewrite u32_id by (unfold is_u32; lia).
  by destruct (Z.eqb_spec tag 0); [lia|].
Qed.

(** One field whose reader succeeds. *)
Lemma merges_field {M} (case : fields M) tag f m bs m' rest r :
  0 < tag <= 127 -> case tag = Some f -> f m bs = Ok (true, m', rest) -> merges case m' rest r ->
  merges case m (write_varint tag ++ bs) r.
Proof.
  intros Ht Hc Hf [fuel Hr]. exists (S fuel). cbn [merge_fields]. rewrite (read_tag_write _ _ Ht).
  destruct (Z.leb_spec tag 127) as [_|?]; [|lia]. by rewrite Hc, Hf.
Qed.

(** A primitive field, which is not written when it has its default value. *)
Lemma merges_prim {M} (case : fields M) field conv set m v rest r :
  0 < field < 16 -> case (Z.shiftl field 3) = Some (read_prim conv set) ->
  conv (u64 v) = v -> (v = 0 -> set v m = m) ->
  merges case (set v m) rest r ->
  merges case m ((if v =? 0 then [] else write_prim field v) ++ rest) r.
Proof.
  intros Hfield Hc Hconv H0 Hr. destruct (Z.eqb_spec v 0) as [Hv|Hv].
  - by rewrite H0 in Hr.
  - unfold write_prim. rewrite <-app_assoc.
    eapply merges_field; [rewrite Z.shiftl_mul_pow2; lia|exact Hc| |exact Hr].
    unfold read_prim. rewrite varint_roundtrip by apply u64_range. by rewrite Hconv.
Qed.

(** A sub-message. *)
Lemma merges_message {M N} (case : fields M) (sub_case : fields N) field get put m (sub : N) body rest r :
  0 < field < 15 -> case (Z.shiftl field 3 + 2) = Some (read_message sub_case get put) -> case_ok sub_case ->
  length body < 2 ^ 31 -> merges sub_case (get m) body (true, sub, []) ->
  merges case (put sub m) rest r ->
  merges case m (write_message field (length body) body ++ rest) r.
Proof.
  intros Hfield Hc Hok Hl Hsub Hr. unfold write_message. rewrite <-!app_assoc.
  eapply merges_field; [rewrite Z.shiftl_mul_pow2; lia|exact Hc| |exact Hr].
  unfold read_message. rewrite delimited_roundtrip by done.
  by rewrite (merges_from _ _ _ _ Hok Hsub).
Qed.
End wire.

(** ** The encoding protobuf documents

    Seven bits a byte, least significant first; fixed-size fields of 8 and 4 bytes;
    groups, which no message of lars.proto has, are refused. *)

Fixpoint varint_bytes (fuel : nat) (z : Z) : bytes :=
  match fuel with
  | O => []
  | S fuel => if z <? 128 then [byte.of_Z z] else byte.of_Z (128 + z mod 128) :: varint_bytes fuel (z / 128)
  end.

Fixpoint varint_of_bytes (fuel : nat) (bs : bytes) : option (Z * bytes) :=
  match fuel, bs with
  | S fuel, b :: bs =>
      if byte.unsigned b <? 128 then Some (byte.unsigned b, bs)
      else '(z, rest) ← varint_of_bytes fuel bs; Some (byte.unsigned b - 128 + 128 * z, rest)
  | _, _ => None
  end.

Definition delimited_of_bytes (bs : bytes) : option (bool * bytes * bytes) :=
  '(n, bs) ← varint_of_bytes 10 bs;
  if n <? 2 ^ 31 then Some (n <=? length bs, take (Z.to_nat n) bs, drop (Z.to_nat n) bs) else None.

Definition skip_bytes (tag : Z) (bs : bytes) : option bytes :=
  match Z.land tag 7 with
  | 0 => snd <$> varint_of_bytes 10 bs
  | 1 => if Z.of_nat (length bs) <? 8 then None else Some (drop 8 bs)
  | 2 => match delimited_of_bytes bs with Some (true, _, rest) => Some rest | _ => None end
  | 5 => if Z.of_nat (length bs) <? 4 then None else Some (drop 4 bs)
  | _ => None
  end.

Lemma unsigned_of_byte z : 0 <= z < 256 -> byte.unsigned (byte.of_Z z) = z.
Proof. intros Hz. rewrite byte.unsigned_of_Z. unfold byte.wrap. by apply Z.mod_small. Qed.

Lemma varint_of_varint (fuel : nat) z rest :
  (0 < fuel)%nat -> 0 <= z < 128 ^ fuel -> varint_of_bytes fuel (varint_bytes fuel z ++ rest) = Some (z, rest).
Proof.
  revert z. induction fuel as [|fuel IH]; intros z Hf Hz; [lia|]. cbn [varint_bytes].
  destruct (Z.ltb_spec z 128) as [Hlt|Hge].
  - cbn. rewrite unsigned_of_byte by lia. by destruct (Z.ltb_spec z 128); [|lia].
  - pose proof (Z.mod_pos_bound z 128). cbn -[Z.mul]. rewrite unsigned_of_byte by lia.
    destruct (Z.ltb_spec (128 + z mod 128) 128); [lia|].
    rewrite Nat2Z.inj_succ, Z.pow_succ_r in Hz by lia.
    assert (z / 128 < 128 ^ fuel) by (apply Z.div_lt_upper_bound; lia).
    assert (1 <= z / 128) by (apply Z.div_le_lower_bound; lia).
    rewrite IH; [|destruct fuel; [cbn in *; lia|lia]|lia]. cbn. do 2 f_equal. pose proof (Z.div_mod z 128). lia.
Qed.

Lemma varint_bytes_length (fuel : nat) z k :
  0 <= z < 2 ^ (7 * k) -> 0 < k <= fuel -> 0 < length (varint_bytes fuel z) <= k.
Proof.
  revert z k. induction fuel as [|fuel IH]; intros z k Hz Hk; [lia|]. cbn [varint_bytes].
  destruct (Z.ltb_spec z 128) as [Hlt|Hge]; [cbn; lia|].
  assert (1 < k) as Hk1. { destruct (Z.eq_dec k 1) as [->|]; [|lia]. change (2 ^ (7 * 1)) with 128 in Hz. lia. }
  assert (z / 128 < 2 ^ (7 * (k - 1))) as Hlt.
  { apply Z.div_lt_upper_bound; [lia|]. change 128 with (2 ^ 7). rewrite <-Z.pow_add_r by lia.
    replace (7 + 7 * (k - 1)) with (7 * k) by lia. lia. }
  pose proof (Z.div_pos z 128). cbn [length]. specialize (IH (z / 128) (k - 1)). lia.
Qed.

Lemma varint_shorter fuel bs z rest : varint_of_bytes fuel bs = Some (z, rest) -> (length rest < length bs)%nat.
Proof.
  revert bs z. induction fuel as [|fuel IH]; intros bs z Hr; [by destruct bs|]. destruct bs as [|b bs]; [done|].
  cbn in Hr. destruct (_ <? 128); [injection Hr as _ <-; cbn; lia|].
  destruct (varint_of_bytes fuel bs) as [[z' r]|] eqn:E; [|done]. cbn in Hr. injection Hr as _ ->.
  apply IH in E. cbn. lia.
Qed.

Lemma delimited_shorter bs all body rest : delimited_of_bytes bs = Some (all, body, rest) -> (length rest <= length bs)%nat.
Proof.
  unfold delimited_of_bytes. destruct (varint_of_bytes 10 bs) as [[n r]|] eqn:E; [|done]. apply varint_shorter in E.
  cbn [mbind option_bind]. destruct (n <? 2 ^ 31); [|done]. intros [= _ _ <-]. rewrite length_drop. lia.
Qed.

Program Definition wire_varint : WireFormat :=
  {| write_varint := varint_bytes 10; read_varint := varint_of_bytes 10;
     read_delimited := delimited_of_bytes; skip_field := skip_bytes |}.
Next Obligation. intros z rest Hz. apply varint_of_varint; [lia|]. unfold is_u64 in Hz. cbn. lia. Qed.
Next Obligation.
  intros z k Hz Hk. destruct (Z.le_gt_cases k 10); [by apply varint_bytes_length|].
  assert (forall f z, (length (varint_bytes f z) <= f)%nat) as Hle.
  { induction f as [|f IH]; intros z'; cbn; [lia|]. destruct (z' <? 128); cbn; [lia|]. specialize (IH (z' / 128)). lia. }
  specialize (Hle 10%nat z). split; [|lia]. cbn [varint_bytes]. destruct (z <? 128); cbn; lia.
Qed.
Next Obligation.
  intros body rest Hl. unfold delimited_of_bytes. rewrite varint_of_varint by (cbn; lia). cbn [mbind option_bind].
  destruct (Z.ltb_spec (length body) (2 ^ 31)); [|lia]. rewrite Nat2Z.id, take_app_length, drop_app_length.
  destruct (Z.leb_spec (length body) (length (body ++ rest))) as [_|Hn]; [done|]. rewrite length_app in Hn. lia.
Qed.
Next Obligation. intros bs z rest. apply varint_shorter. Qed.
Next Obligation. intros bs all body rest. apply delimited_shorter. Qed.
Next Obligation.
  intros tag bs rest. unfold skip_bytes. repeat case_match; try done.
  - destruct (varint_of_bytes 10 bs) as [[z r]|] eqn:E; [|done]. apply varint_shorter in E. intros [= <-]. lia.
  - intros [= <-]. rewrite length_drop. lia.
  - intros [= <-]. match goal with E : delimited_of_bytes _ = _ |- _ => by apply delimited_shorter in E end.
  - intros [= <-]. rewrite length_drop. lia.
Qed.
