(* ===== verification/Messages.v ===== *)
(** * Messages: every message class of lars.proto can be written and read back

    Per class: its [switch] ([_case], MergePartialFromCodedStream), ByteSizeLong
    ([_size]), SerializeWithCachedSizes ([_serialize]) and its [Codec]. *)

From S2P Require Import Prelude Bytes Proto Wire.
From stdpp Require Import base numbers list.
From Stdlib Require Import ZArith Lia.
Open Scope Z_scope.

(** The low byte of a tag, which a case compares with the tag it expects. *)
Definition tag_is (tag expected : Z) : bool := Z.land tag 255 =? Z.land expected 255.

Section messages.
Context `{WireFormat}.

Abbreviation int32_field := (read_prim i32).
Abbreviation uint32_field := (read_prim u32).
Abbreviation bool_field := (read_prim bool_of).

(** *** HostInfo *)

Definition HostInfo_case (tag : Z) :=
  match Z.shiftr tag 3 with
  | 1 => if tag_is tag 8 then Some (int32_field (fun v m => {| hi_ip := v; hi_port := hi_port m |})) else None
  | 2 => if tag_is tag 16 then Some (int32_field (fun v m => {| hi_ip := hi_ip m; hi_port := v |})) else None
  | _ => None
  end.

Definition HostInfo_size (m : HostInfo) : Z :=
  (if hi_ip m =? 0 then 0 else 1 + prim_size (hi_ip m)) +
  (if hi_port m =? 0 then 0 else 1 + prim_size (hi_port m)).

Definition HostInfo_serialize (m : HostInfo) : bytes :=
  (if hi_ip m =? 0 then [] else write_prim 1 (hi_ip m)) ++
  (if hi_port m =? 0 then [] else write_prim 2 (hi_port m)).

(** *** GetRouteRequest *)

Definition GetRouteRequest_case (tag : Z) :=
  match Z.shiftr tag 3 with
  | 1 => if tag_is tag 8 then Some (int32_field (fun v m => {| grq_modid := v; grq_cmdid := grq_cmdid m |})) else None
  | 2 => if tag_is tag 16 then Some (int32_field (fun v m => {| grq_modid := grq_modid m; grq_cmdid := v |})) else None
  | _ => None
  end.

Definition GetRouteRequest_size (m : GetRouteRequest) : Z :=
  (if grq_modid m =? 0 then 0 else 1 + prim_size (grq_modid m)) +
  (if grq_cmdid m =? 0 then 0 else 1 + prim_size (grq_cmdid m)).

Definition GetRouteRequest_serialize (m : GetRouteRequest) : bytes :=
  (if grq_modid m =? 0 then [] else write_prim 1 (grq_modid m)) ++
  (if grq_cmdid m =? 0 then [] else write_prim 2 (grq_cmdid m)).

(** *** GetRouteResponse *)

Definition GetRouteResponse_case (tag : Z) :=
  match Z.shiftr tag 3 with
  | 1 => if tag_is tag 8 then Some (int32_field (fun v m => {| grs_modid := v; grs_cmdid := grs_cmdid m; grs_host := grs_host m |})) else None
  | 2 => if tag_is tag 16 then Some (int32_field (fun v m => {| grs_modid := grs_modid m; grs_cmdid := v; grs_host := grs_host m |})) else None
  | 3 => if tag_is tag 26 then Some (read_message HostInfo_case (fun _ => HostInfo_new) grs_add_host) else None
  | _ => None
  end.

Definition GetRouteResponse_size (m : GetRouteResponse) : Z :=
  (1 * length (grs_host m) + foldr Z.add 0 ((fun h => message_size (HostInfo_size h)) <$> grs_host m)) +
  (if grs_modid m =? 0 then 0 else 1 + prim_size (grs_modid m)) +
  (if grs_cmdid m =? 0 then 0 else 1 + prim_size (grs_cmdid m)).

Definition GetRouteResponse_serialize (m : GetRouteResponse) : bytes :=
  (if grs_modid m =? 0 then [] else write_prim 1 (grs_modid m)) ++
  (if grs_cmdid m =? 0 then [] else write_prim 2 (grs_cmdid m)) ++
  concat ((fun h => write_message 3 (HostInfo_size h) (HostInfo_serialize h)) <$> grs_host m).

(** *** HostCallResult *)

Definition HostCallResult_case (tag : Z) :=
  match Z.shiftr tag 3 with
  | 1 => if tag_is tag 8 then Some (int32_field (fun v m =>
           {| hcr_ip := v; hcr_port := hcr_port m; hcr_succ := hcr_succ m; hcr_err := hcr_err m; hcr_overload := hcr_overload m |})) else None
  | 2 => if tag_is tag 16 then Some (int32_field (fun v m =>
           {| hcr_ip := hcr_ip m; hcr_port := v; hcr_succ := hcr_succ m; hcr_err := hcr_err m; hcr_overload := hcr_overload m |})) else None
  | 3 => if tag_is tag 24 then Some (uint32_field (fun v m =>
           {| hcr_ip := hcr_ip m; hcr_port := hcr_port m; hcr_succ := v; hcr_err := hcr_err m; hcr_overload := hcr_overload m |})) else None
  | 4 => if tag_is tag 32 then Some (uint32_field (fun v m =>
           {| hcr_ip := hcr_ip m; hcr_port := hcr_port m; hcr_succ := hcr_succ m; hcr_err := v; hcr_overload := hcr_overload m |})) else None
  | 5 => if tag_is tag 40 then Some (bool_field (fun v m =>
           {| hcr_ip := hcr_ip m; hcr_port := hcr_port m; hcr_succ := hcr_succ m; hcr_err := hcr_err m; hcr_overload := negb (v =? 0) |})) else None
  | _ => None
  end.

Definition HostCallResult_size (m : HostCallResult) : Z :=
  (if hcr_ip m =? 0 then 0 else 1 + prim_size (hcr_ip m)) +
  (if hcr_port m =? 0 then 0 else 1 + prim_size (hcr_port m)) +
  (if hcr_succ m =? 0 then 0 else 1 + prim_size (hcr_succ m)) +
  (if hcr_err m =? 0 then 0 else 1 + prim_size (hcr_err m)) +
  (if Z.b2z (hcr_overload m) =? 0 then 0 else 1 + 1).

Definition HostCallResult_serialize (m : HostCallResult) : bytes :=
  (if hcr_ip m =? 0 then [] else write_prim 1 (hcr_ip m)) ++
  (if hcr_port m =? 0 then [] else write_prim 2 (hcr_port m)) ++
  (if hcr_succ m =? 0 then [] else write_prim 3 (hcr_succ m)) ++
  (if hcr_err m =? 0 then [] else write_prim 4 (hcr_err m)) ++
  (if Z.b2z (hcr_overload m) =? 0 then [] else write_prim 5 (Z.b2z (hcr_overload m))).

(** *** ReportStatusRequest *)

Definition ReportStatusRequest_case (tag : Z) :=
  match Z.shiftr tag 3 with
  | 1 => if tag_is tag 8 then Some (int32_field (fun v m =>
           {| rsr_modid := v; rsr_cmdid := rsr_cmdid m; rsr_caller := rsr_caller m; rsr_results := rsr_results m; rsr_ts := rsr_ts m |})) else None
  | 2 => if tag_is tag 16 then Some (int32_field (fun v m =>
           {| rsr_modid := rsr_modid m; rsr_cmdid := v; rsr_caller := rsr_caller m; rsr_results := rsr_results m; rsr_ts := rsr_ts m |})) else None
  | 3 => if tag_is tag 24 then Some (int32_field (fun v m =>
           {| rsr_modid := rsr_modid m; rsr_cmdid := rsr_cmdid m; rsr_caller := v; rsr_results := rsr_results m; rsr_ts := rsr_ts m |})) else None
  | 4 => if tag_is tag 34 then Some (read_message HostCallResult_case (fun _ => HostCallResult_new) rsr_add_results) else None
  | 5 => if tag_is tag 40 then Some (uint32_field (fun v m =>
           {| rsr_modid := rsr_modid m; rsr_cmdid := rsr_cmdid m; rsr_caller := rsr_caller m; rsr_results := rsr_results m; rsr_ts := v |})) else None
  | _ => None
  end.

Definition ReportStatusRequest_size (m : ReportStatusRequest) : Z :=
  (1 * length (rsr_results m) + foldr Z.add 0 ((fun h => message_size (HostCallResult_size h)) <$> rsr_results m)) +
  (if rsr_modid m =? 0 then 0 else 1 + prim_size (rsr_modid m)) +
  (if rsr_cmdid m =? 0 then 0 else 1 + prim_size (rsr_cmdid m)) +
  (if rsr_caller m =? 0 then 0 else 1 + prim_size (rsr_caller m)) +
  (if rsr_ts m =? 0 then 0 else 1 + prim_size (rsr_ts m)).

Definition ReportStatusRequest_serialize (m : ReportStatusRequest) : bytes :=
  (if rsr_modid m =? 0 then [] else write_prim 1 (rsr_modid m)) ++
  (if rsr_cmdid m =? 0 then [] else write_prim 2 (rsr_cmdid m)) ++
  (if rsr_caller m =? 0 then [] else write_prim 3 (rsr_caller m)) ++
  concat ((fun h => write_message 4 (HostCallResult_size h) (HostCallResult_serialize h)) <$> rsr_results m) ++
  (if rsr_ts m =? 0 then [] else write_prim 5 (rsr_ts m)).

(** *** GetHostRequest *)

Definition GetHostRequest_case (tag : Z) :=
  match Z.shiftr tag 3 with
  | 1 => if tag_is tag 8 then Some (uint32_field (fun v m => {| ghq_seq := v; ghq_modid := ghq_modid m; ghq_cmdid := ghq_cmdid m |})) else None
  | 2 => if tag_is tag 16 then Some (int32_field (fun v m => {| ghq_seq := ghq_seq m; ghq_modid := v; ghq_cmdid := ghq_cmdid m |})) else None
  | 3 => if tag_is tag 24 then Some (int32_field (fun v m => {| ghq_seq := ghq_seq m; ghq_modid := ghq_modid m; ghq_cmdid := v |})) else None
  | _ => None
  end.

Definition GetHostRequest_size (m : GetHostRequest) : Z :=
  (if ghq_seq m =? 0 then 0 else 1 + prim_size (ghq_seq m)) +
  (if ghq_modid m =? 0 then 0 else 1 + prim_size (ghq_modid m)) +
  (if ghq_cmdid m =? 0 then 0 else 1 + prim_size (ghq_cmdid m)).

Definition GetHostRequest_serialize (m : GetHostRequest) : bytes :=
  (if ghq_seq m =? 0 then [] else write_prim 1 (ghq_seq m)) ++
  (if ghq_modid m =? 0 then [] else write_prim 2 (ghq_modid m)) ++
  (if ghq_cmdid m =? 0 then [] else write_prim 3 (ghq_cmdid m)).

(** *** GetHostResponse *)

Definition GetHostResponse_case (tag : Z) :=
  match Z.shiftr tag 3 with
  | 1 => if tag_is tag 8 then Some (uint32_field (fun v m =>
           {| ghs_seq := v; ghs_modid := ghs_modid m; ghs_cmdid := ghs_cmdid m; ghs_retcode := ghs_retcode m; ghs_host := ghs_host m |})) else None
  | 2 => if tag_is tag 16 then Some (int32_field (fun v m =>
           {| ghs_seq := ghs_seq m; ghs_modid := v; ghs_cmdid := ghs_cmdid m; ghs_retcode := ghs_retcode m; ghs_host := ghs_host m |})) else None
  | 3 => if tag_is tag 24 then Some (int32_field (fun v m =>
           {| ghs_seq := ghs_seq m; ghs_modid := ghs_modid m; ghs_cmdid := v; ghs_retcode := ghs_retcode m; ghs_host := ghs_host m |})) else None
  | 4 => if tag_is tag 32 then Some (int32_field (fun v m => ghs_set_retcode v m)) else None
  | 5 => if tag_is tag 42 then Some (read_message HostInfo_case ghs_host_get ghs_set_host) else None
  | _ => None
  end.

Definition GetHostResponse_size (m : GetHostResponse) : Z :=
  match ghs_host m with None => 0 | Some h => 1 + message_size (HostInfo_size h) end +
  (if ghs_seq m =? 0 then 0 else 1 + prim_size (ghs_seq m)) +
  (if ghs_modid m =? 0 then 0 else 1 + prim_size (ghs_modid m)) +
  (if ghs_cmdid m =? 0 then 0 else 1 + prim_size (ghs_cmdid m)) +
  (if ghs_retcode m =? 0 then 0 else 1 + prim_size (ghs_retcode m)).

Definition GetHostResponse_serialize (m : GetHostResponse) : bytes :=
  (if ghs_seq m =? 0 then [] else write_prim 1 (ghs_seq m)) ++
  (if ghs_modid m =? 0 then [] else write_prim 2 (ghs_modid m)) ++
  (if ghs_cmdid m =? 0 then [] else write_prim 3 (ghs_cmdid m)) ++
  (if ghs_retcode m =? 0 then [] else write_prim 4 (ghs_retcode m)) ++
  match ghs_host m with None => [] | Some h => write_message 5 (HostInfo_size h) (HostInfo_serialize h) end.

(** *** ReportRequest *)

Definition rrq_set_host (h : HostInfo) (m : ReportRequest) : ReportRequest :=
  {| rrq_modid := rrq_modid m; rrq_cmdid := rrq_cmdid m; rrq_host := Some h; rrq_retcode := rrq_retcode m |}.

Definition ReportRequest_case (tag : Z) :=
  match Z.shiftr tag 3 with
  | 1 => if tag_is tag 8 then Some (int32_field (fun v m =>
           {| rrq_modid := v; rrq_cmdid := rrq_cmdid m; rrq_host := rrq_host m; rrq_retcode := rrq_retcode m |})) else None
  | 2 => if tag_is tag 16 then Some (int32_field (fun v m =>
           {| rrq_modid := rrq_modid m; rrq_cmdid := v; rrq_host := rrq_host m; rrq_retcode := rrq_retcode m |})) else None
  | 3 => if tag_is tag 26 then Some (read_message HostInfo_case rrq_host_get rrq_set_host) else None
  | 4 => if tag_is tag 32 then Some (int32_field (fun v m =>
           {| rrq_modid := rrq_modid m; rrq_cmdid := rrq_cmdid m; rrq_host := rrq_host m; rrq_retcode := v |})) else None
  | _ => None
  end.

Definition ReportRequest_size (m : ReportRequest) : Z :=
  match rrq_host m with None => 0 | Some h => 1 + message_size (HostInfo_size h) end +
  (if rrq_modid m =? 0 then 0 else 1 + prim_size (rrq_modid m)) +
  (if rrq_cmdid m =? 0 then 0 else 1 + prim_size (rrq_cmdid m)) +
  (if rrq_retcode m =? 0 then 0 else 1 + prim_size (rrq_retcode m)).

Definition ReportRequest_serialize (m : ReportRequest) : bytes :=
  (if rrq_modid m =? 0 then [] else write_prim 1 (rrq_modid m)) ++
  (if rrq_cmdid m =? 0 then [] else write_prim 2 (rrq_cmdid m)) ++
  match rrq_host m with None => [] | Some h => write_message 3 (HostInfo_size h) (HostInfo_serialize h) end ++
  (if rrq_retcode m =? 0 then [] else write_prim 4 (rrq_retcode m)).

(** ** Lemmas *)

Lemma i32_u64 v : is_i32 v -> i32 (u64 v) = v.
Proof.
  intros Hv. rewrite <-(i32_id v Hv) at 2. unfold i32, u64. f_equal.
  rewrite <-(Zplus_mod_idemp_l (v mod 2 ^ 64)), <-(Zplus_mod_idemp_l v). f_equal. f_equal.
  apply Z.mod_mod_divide. by exists (2 ^ 32).
Qed.
Lemma u32_u64 v : is_u32 v -> u32 (u64 v) = v.
Proof. intros Hv. rewrite u64_id by (unfold is_u64, is_u32 in *; lia). by apply u32_id. Qed.
Lemma bool_u64 b : bool_of (u64 (Z.b2z b)) = Z.b2z b.
Proof. by destruct b. Qed.

(** The sizes are the lengths of what is written. *)
Lemma length_write_prim field v :
  0 < field < 16 -> (if v =? 0 then 0 else 1 + prim_size v) = length (if v =? 0 then [] else write_prim field v).
Proof.
  intros Hf. destruct (v =? 0); [done|]. unfold write_prim, prim_size. rewrite length_app.
  pose proof (varint_size (Z.shiftl field 3) 1) as Hs. rewrite Z.shiftl_mul_pow2 in * by lia. lia.
Qed.

Lemma length_write_message field (body : bytes) :
  0 < field < 15 -> 1 + message_size (length body) = length (write_message field (length body) body).
Proof.
  intros Hf. unfold write_message, message_size. rewrite !length_app.
  pose proof (varint_size (Z.shiftl field 3 + 2) 1) as Hs. rewrite Z.shiftl_mul_pow2 in * by lia. lia.
Qed.

Lemma prim_at_most v : (if v =? 0 then 0 else 1 + prim_size v) <= 11.
Proof.
  destruct (v =? 0); [lia|]. unfold prim_size. pose proof (u64_range v) as Hu. unfold is_u64 in Hu.
  pose proof (varint_size (u64 v) 10). lia.
Qed.

Lemma HostInfo_size_length m : HostInfo_size m = length (HostInfo_serialize m).
Proof.
  unfold HostInfo_size, HostInfo_serialize. rewrite length_app.
  rewrite (length_write_prim 1), (length_write_prim 2) by lia. lia.
Qed.

Lemma HostCallResult_size_length m : HostCallResult_size m = length (HostCallResult_serialize m).
Proof.
  unfold HostCallResult_size, HostCallResult_serialize. rewrite !length_app.
  assert ((if Z.b2z (hcr_overload m) =? 0 then 0 else 1 + 1) =
    length (if Z.b2z (hcr_overload m) =? 0 then [] else write_prim 5 (Z.b2z (hcr_overload m)))) as ->.
  { rewrite <-length_write_prim by lia. destruct (hcr_overload m); [|done]. unfold prim_size. cbn [Z.b2z Z.eqb].
    pose proof (varint_size (u64 1) 1) as Hs. change (u64 1) with 1 in *. lia. }
  rewrite (length_write_prim 1), (length_write_prim 2), (length_write_prim 3), (length_write_prim 4) by lia. lia.
Qed.

(** Fields that repeat: every sub-message is added at the end. *)
Lemma merges_repeated {M N} (case : Z -> option (M -> bytes -> res (bool * M * bytes))) (sub_case : Z -> option (N -> bytes -> res (bool * N * bytes)))
    field new put (size : N -> Z) (ser : N -> bytes) m (subs : list N) rest r :
  0 < field < 15 -> case (Z.shiftl field 3 + 2) = Some (read_message sub_case (fun _ => new) put) -> case_ok sub_case ->
  Forall (fun s => size s = length (ser s) /\ size s < 2 ^ 31 /\ merges sub_case new (ser s) (true, s, [])) subs ->
  merges case (fold_left (fun m s => put s m) subs m) rest r ->
  merges case m (concat ((fun s => write_message field (size s) (ser s)) <$> subs) ++ rest) r.
Proof.
  intros Hf Hc Hok Hs. revert m. induction Hs as [|s subs (Hsz & Hlt & Hm) _ IH]; intros m Hr; [done|].
  cbn [fmap list_fmap concat]. rewrite <-app_assoc, Hsz.
  eapply merges_message; [done|exact Hc|done|lia|exact Hm|]. by apply IH.
Qed.

Ltac solve_case_ok :=
  split; [done|]; intros tag f; cbv beta delta [HostInfo_case GetRouteRequest_case GetRouteResponse_case HostCallResult_case
    ReportStatusRequest_case GetHostRequest_case GetHostResponse_case ReportRequest_case];
  repeat case_match; intros [= <-]; try apply read_prim_ok; by apply read_message_ok.

Ltac prim_step :=
  eapply merges_prim; [lia|reflexivity|first [by apply i32_u64|by apply u32_u64|apply bool_u64]|intros Hz; by rewrite ?Hz|].

Lemma HostInfo_case_ok : case_ok HostInfo_case.
Proof. solve_case_ok. Qed.
Lemma HostCallResult_case_ok : case_ok HostCallResult_case.
Proof. solve_case_ok. Qed.
#[local] Hint Resolve HostInfo_case_ok HostCallResult_case_ok : core.
Lemma GetRouteRequest_case_ok : case_ok GetRouteRequest_case.
Proof. solve_case_ok. Qed.
Lemma GetRouteResponse_case_ok : case_ok GetRouteResponse_case.
Proof. solve_case_ok. Qed.
Lemma ReportStatusRequest_case_ok : case_ok ReportStatusRequest_case.
Proof. solve_case_ok. Qed.
Lemma GetHostRequest_case_ok : case_ok GetHostRequest_case.
Proof. solve_case_ok. Qed.
Lemma GetHostResponse_case_ok : case_ok GetHostResponse_case.
Proof. solve_case_ok. Qed.
Lemma ReportRequest_case_ok : case_ok ReportRequest_case.
Proof. solve_case_ok. Qed.

(** The fields of a C++ object are in the range of their type. *)
Definition HostInfo_ok (m : HostInfo) : Prop := is_i32 (hi_ip m) /\ is_i32 (hi_port m).
Definition HostCallResult_ok (m : HostCallResult) : Prop :=
  is_i32 (hcr_ip m) /\ is_i32 (hcr_port m) /\ is_u32 (hcr_succ m) /\ is_u32 (hcr_err m).

Lemma HostInfo_merges m : HostInfo_ok m -> merges HostInfo_case HostInfo_new (HostInfo_serialize m) (true, m, []).
Proof.
  intros [H1 H2]. rewrite <-(app_nil_r (HostInfo_serialize m)). unfold HostInfo_serialize. rewrite <-!app_assoc.
  prim_step. prim_step. destruct m. by apply merges_end.
Qed.

Lemma HostCallResult_merges m :
  HostCallResult_ok m -> merges HostCallResult_case HostCallResult_new (HostCallResult_serialize m) (true, m, []).
Proof.
  intros (H1 & H2 & H3 & H4). rewrite <-(app_nil_r (HostCallResult_serialize m)). unfold HostCallResult_serialize.
  rewrite <-!app_assoc. do 4 prim_step. destruct m as [ip port succ err ovl].
  eapply merges_prim; [lia|reflexivity|apply bool_u64|by destruct ovl|]. destruct ovl; by apply merges_end.
Qed.

Lemma HostInfo_bound m : HostInfo_size m <= 22.
Proof. unfold HostInfo_size. pose proof (prim_at_most (hi_ip m)). pose proof (prim_at_most (hi_port m)). lia. Qed.
Lemma HostCallResult_bound m : HostCallResult_size m <= 46.
Proof.
  unfold HostCallResult_size. pose proof (prim_at_most (hcr_ip m)). pose proof (prim_at_most (hcr_port m)).
  pose proof (prim_at_most (hcr_succ m)). pose proof (prim_at_most (hcr_err m)). destruct (_ =? 0) at 5; lia.
Qed.

Lemma hosts_merge hosts : Forall HostInfo_ok hosts ->
  Forall (fun s => HostInfo_size s = length (HostInfo_serialize s) /\ HostInfo_size s < 2 ^ 31 /\
    merges HostInfo_case HostInfo_new (HostInfo_serialize s) (true, s, [])) hosts.
Proof.
  intros Hh. eapply Forall_impl; [exact Hh|]. intros s Hs. split; [apply HostInfo_size_length|].
  pose proof (HostInfo_bound s). split; [lia|]. by apply HostInfo_merges.
Qed.

Lemma results_merge rs : Forall HostCallResult_ok rs ->
  Forall (fun s => HostCallResult_size s = length (HostCallResult_serialize s) /\ HostCallResult_size s < 2 ^ 31 /\
    merges HostCallResult_case HostCallResult_new (HostCallResult_serialize s) (true, s, [])) rs.
Proof.
  intros Hh. eapply Forall_impl; [exact Hh|]. intros s Hs. split; [apply HostCallResult_size_length|].
  pose proof (HostCallResult_bound s). split; [lia|]. by apply HostCallResult_merges.
Qed.

Lemma fold_add_hosts hosts m :
  fold_left (fun m h => grs_add_host h m) hosts m =
    {| grs_modid := grs_modid m; grs_cmdid := grs_cmdid m; grs_host := grs_host m ++ hosts |}.
Proof.
  revert m. induction hosts as [|h hosts IH]; intros m; cbn [fold_left].
  - rewrite app_nil_r. by destruct m.
  - rewrite IH. unfold grs_add_host. cbn. by rewrite <-app_assoc.
Qed.

Lemma fold_add_results rs m :
  fold_left (fun m h => rsr_add_results h m) rs m =
    {| rsr_modid := rsr_modid m; rsr_cmdid := rsr_cmdid m; rsr_caller := rsr_caller m;
       rsr_results := rsr_results m ++ rs; rsr_ts := rsr_ts m |}.
Proof.
  revert m. induction rs as [|h rs IH]; intros m; cbn [fold_left].
  - rewrite app_nil_r. by destruct m.
  - rewrite IH. unfold rsr_add_results. cbn. by rewrite <-app_assoc.
Qed.

(** The classes that hold others. *)
Ltac start_merges ser :=
  match goal with |- merges _ _ (ser ?m) _ => rewrite <-(app_nil_r (ser m)) end; unfold ser; rewrite <-!app_assoc.

Lemma GetRouteRequest_merges m : is_i32 (grq_modid m) -> is_i32 (grq_cmdid m) ->
  merges GetRouteRequest_case GetRouteRequest_new (GetRouteRequest_serialize m) (true, m, []).
Proof. intros H1 H2. start_merges GetRouteRequest_serialize. do 2 prim_step. destruct m. by apply merges_end. Qed.

Definition GetRouteResponse_ok (m : GetRouteResponse) : Prop :=
  is_i32 (grs_modid m) /\ is_i32 (grs_cmdid m) /\ Forall HostInfo_ok (grs_host m).

Lemma GetRouteResponse_merges m : GetRouteResponse_ok m ->
  merges GetRouteResponse_case GetRouteResponse_new (GetRouteResponse_serialize m) (true, m, []).
Proof.
  intros (H1 & H2 & H3). start_merges GetRouteResponse_serialize. do 2 prim_step.
  eapply merges_repeated; [lia|reflexivity|done|by apply hosts_merge|].
  rewrite fold_add_hosts. destruct m. by apply merges_end.
Qed.

Definition ReportStatusRequest_ok (m : ReportStatusRequest) : Prop :=
  is_i32 (rsr_modid m) /\ is_i32 (rsr_cmdid m) /\ is_i32 (rsr_caller m) /\ Forall HostCallResult_ok (rsr_results m) /\ is_u32 (rsr_ts m).

Lemma ReportStatusRequest_merges m : ReportStatusRequest_ok m ->
  merges ReportStatusRequest_case ReportStatusRequest_new (ReportStatusRequest_serialize m) (true, m, []).
Proof.
  intros (H1 & H2 & H3 & H4 & H5). start_merges ReportStatusRequest_serialize. do 3 prim_step.
  eapply merges_repeated; [lia|reflexivity|done|by apply results_merge|].
  rewrite fold_add_results. prim_step. destruct m. by apply merges_end.
Qed.

Definition GetHostRequest_ok (m : GetHostRequest) : Prop := is_u32 (ghq_seq m) /\ is_i32 (ghq_modid m) /\ is_i32 (ghq_cmdid m).

Lemma GetHostRequest_merges m : GetHostRequest_ok m ->
  merges GetHostRequest_case GetHostRequest_new (GetHostRequest_serialize m) (true, m, []).
Proof. intros (H1 & H2 & H3). start_merges GetHostRequest_serialize. do 3 prim_step. destruct m. by apply merges_end. Qed.

Definition GetHostResponse_ok (m : GetHostResponse) : Prop :=
  is_u32 (ghs_seq m) /\ is_i32 (ghs_modid m) /\ is_i32 (ghs_cmdid m) /\ is_i32 (ghs_retcode m) /\
  (forall h, ghs_host m = Some h -> HostInfo_ok h).

(** A singular sub-message, which may be absent. *)
Lemma merges_host {M} (case : Z -> option (M -> bytes -> res (bool * M * bytes))) field get put m (o : option HostInfo) m' rest r :
  0 < field < 15 -> case (Z.shiftl field 3 + 2) = Some (read_message HostInfo_case get put) ->
  get m = HostInfo_new -> (forall h, o = Some h -> HostInfo_ok h) ->
  m' = match o with Some h => put h m | None => m end ->
  merges case m' rest r ->
  merges case m (match o with None => [] | Some h => write_message field (HostInfo_size h) (HostInfo_serialize h) end ++ rest) r.
Proof.
  intros Hf Hc Hg Ho -> Hr. destruct o as [h|]; [|done]. rewrite HostInfo_size_length.
  pose proof (HostInfo_bound h) as Hb. rewrite HostInfo_size_length in Hb.
  eapply merges_message; [done|exact Hc|done|lia| |exact Hr]. rewrite Hg. by apply HostInfo_merges, Ho.
Qed.

Lemma GetHostResponse_merges m : GetHostResponse_ok m ->
  merges GetHostResponse_case GetHostResponse_new (GetHostResponse_serialize m) (true, m, []).
Proof.
  intros (H1 & H2 & H3 & H4 & H5). start_merges GetHostResponse_serialize. do 4 prim_step.
  eapply merges_host; [lia|reflexivity|reflexivity|done|reflexivity|].
  destruct m as [seq modid cmdid ret [h|]]; by apply merges_end.
Qed.

Definition ReportRequest_ok (m : ReportRequest) : Prop :=
  is_i32 (rrq_modid m) /\ is_i32 (rrq_cmdid m) /\ is_i32 (rrq_retcode m) /\ (forall h, rrq_host m = Some h -> HostInfo_ok h).

Lemma ReportRequest_merges m : ReportRequest_ok m ->
  merges ReportRequest_case ReportRequest_new (ReportRequest_serialize m) (true, m, []).
Proof.
  intros (H1 & H2 & H3 & H4). start_merges ReportRequest_serialize. do 2 prim_step.
  eapply merges_host; [lia|reflexivity|reflexivity|done|reflexivity|].
  destruct m as [modid cmdid [h|] ret]; prim_step; by apply merges_end.
Qed.

(** ** Reading gives each field a value of its type *)

Definition GetRouteRequest_ok (m : GetRouteRequest) : Prop := is_i32 (grq_modid m) /\ is_i32 (grq_cmdid m).

Create HintDb message_ok.
#[local] Hint Unfold HostInfo_ok HostCallResult_ok GetRouteRequest_ok GetRouteResponse_ok ReportStatusRequest_ok GetHostRequest_ok
  GetHostResponse_ok ReportRequest_ok : message_ok.

(** A message in the range of its types stays in it when one field is set. *)
Ltac solve_field_ok := autounfold with message_ok in *; cbn in *; intuition (auto using i32_range, u32_range).

Ltac solve_case_keeps :=
  intros tag f; cbv beta delta [HostInfo_case GetRouteRequest_case GetRouteResponse_case HostCallResult_case
    ReportStatusRequest_case GetHostRequest_case GetHostResponse_case ReportRequest_case];
  repeat case_match; intros [= <-];
  first [apply read_prim_keeps; intros v m Hm; solve [solve_field_ok]|idtac].

Lemma HostInfo_case_keeps : case_keeps HostInfo_ok HostInfo_case.
Proof. solve_case_keeps. Qed.
Lemma HostCallResult_case_keeps : case_keeps HostCallResult_ok HostCallResult_case.
Proof. solve_case_keeps. Qed.
Lemma HostInfo_new_ok : HostInfo_ok HostInfo_new.
Proof. by split. Qed.
Lemma HostCallResult_new_ok : HostCallResult_ok HostCallResult_new.
Proof. by split_and!. Qed.

Lemma default_host_ok (o : option HostInfo) : (forall h, o = Some h -> HostInfo_ok h) -> HostInfo_ok (default HostInfo_new o).
Proof. destruct o; cbn; intros Ho; [by apply Ho|apply HostInfo_new_ok]. Qed.

Lemma GetRouteRequest_case_keeps : case_keeps GetRouteRequest_ok GetRouteRequest_case.
Proof. solve_case_keeps. Qed.
Lemma GetRouteResponse_case_keeps : case_keeps GetRouteResponse_ok GetRouteResponse_case.
Proof.
  solve_case_keeps. apply (read_message_keeps _ HostInfo_ok); [apply HostInfo_case_keeps|intros m _; apply HostInfo_new_ok|].
  intros s m Hs (Ho1 & Ho2 & Ho3). split_and!; cbn; [done|done|]. by apply Forall_app_2; [|constructor].
Qed.
Lemma ReportStatusRequest_case_keeps : case_keeps ReportStatusRequest_ok ReportStatusRequest_case.
Proof.
  solve_case_keeps. apply (read_message_keeps _ HostCallResult_ok); [apply HostCallResult_case_keeps|intros m _; apply HostCallResult_new_ok|].
  intros s m Hs (Ho1 & Ho2 & Ho3 & Ho4 & Ho5). split_and!; cbn; [done|done|done| |done]. by apply Forall_app_2; [|constructor].
Qed.
Lemma GetHostRequest_case_keeps : case_keeps GetHostRequest_ok GetHostRequest_case.
Proof. solve_case_keeps. Qed.
Lemma GetHostResponse_case_keeps : case_keeps GetHostResponse_ok GetHostResponse_case.
Proof.
  solve_case_keeps. apply (read_message_keeps _ HostInfo_ok); [apply HostInfo_case_keeps|intros m (_ & _ & _ & _ & Hh); by apply default_host_ok|].
  intros s m Hs (Ho1 & Ho2 & Ho3 & Ho4 & _). split_and!; cbn; [done..|]. by intros h [= <-].
Qed.
Lemma ReportRequest_case_keeps : case_keeps ReportRequest_ok ReportRequest_case.
Proof.
  solve_case_keeps. apply (read_message_keeps _ HostInfo_ok); [apply HostInfo_case_keeps|intros m (_ & _ & _ & Hh); by apply default_host_ok|].
  intros s m Hs (Ho1 & Ho2 & Ho3 & _). split_and!; cbn; [done..|]. by intros h [= <-].
Qed.

(** ** Codecs *)

Lemma parse_merges {M} (case : Z -> option (M -> bytes -> res (bool * M * bytes))) new bs m :
  case_ok case -> merges case new bs (true, m, []) -> parse_from case new bs = Ok (true, m).
Proof. intros Hc Hm. unfold parse_from. by rewrite (merges_from _ _ _ _ Hc Hm). Qed.

Lemma parse_total {M} (case : Z -> option (M -> bytes -> res (bool * M * bytes))) new bs :
  case_ok case -> exists ok m, parse_from case new bs = Ok (ok, m).
Proof.
  intros Hc. destruct (merge_fields_total case (S (length bs)) new bs Hc) as (ok & m & bs' & Hm & _); [lia|].
  eexists _, m. unfold parse_from, merge_from. by rewrite Hm.
Qed.

#[export] Program Instance GetRouteRequest_codec : Codec GetRouteRequest :=
  {| msg_ok := GetRouteRequest_ok; msg_encode := GetRouteRequest_serialize;
     msg_parse := parse_from GetRouteRequest_case GetRouteRequest_new |}.
Next Obligation. intros m [H1 H2]. apply parse_merges; [apply GetRouteRequest_case_ok|by apply GetRouteRequest_merges]. Qed.
Next Obligation. intros bs. apply parse_total, GetRouteRequest_case_ok. Qed.
Next Obligation. intros bs ok m. apply parse_keeps; [apply GetRouteRequest_case_keeps|by split_and!; try constructor]. Qed.

#[export] Program Instance GetRouteResponse_codec : Codec GetRouteResponse :=
  {| msg_ok := GetRouteResponse_ok; msg_encode := GetRouteResponse_serialize;
     msg_parse := parse_from GetRouteResponse_case GetRouteResponse_new |}.
Next Obligation. intros m Hm. apply parse_merges; [apply GetRouteResponse_case_ok|by apply GetRouteResponse_merges]. Qed.
Next Obligation. intros bs. apply parse_total, GetRouteResponse_case_ok. Qed.
Next Obligation. intros bs ok m. apply parse_keeps; [apply GetRouteResponse_case_keeps|by split_and!; try constructor]. Qed.

#[export] Program Instance ReportStatusRequest_codec : Codec ReportStatusRequest :=
  {| msg_ok := ReportStatusRequest_ok; msg_encode := ReportStatusRequest_serialize;
     msg_parse := parse_from ReportStatusRequest_case ReportStatusRequest_new |}.
Next Obligation. intros m Hm. apply parse_merges; [apply ReportStatusRequest_case_ok|by apply ReportStatusRequest_merges]. Qed.
Next Obligation. intros bs. apply parse_total, ReportStatusRequest_case_ok. Qed.
Next Obligation. intros bs ok m. apply parse_keeps; [apply ReportStatusRequest_case_keeps|by split_and!; try constructor]. Qed.

#[export] Program Instance GetHostRequest_codec : Codec GetHostRequest :=
  {| msg_ok := GetHostRequest_ok; msg_encode := GetHostRequest_serialize;
     msg_parse := parse_from GetHostRequest_case GetHostRequest_new |}.
Next Obligation. intros m Hm. apply parse_merges; [apply GetHostRequest_case_ok|by apply GetHostRequest_merges]. Qed.
Next Obligation. intros bs. apply parse_total, GetHostRequest_case_ok. Qed.
Next Obligation. intros bs ok m. apply parse_keeps; [apply GetHostRequest_case_keeps|by split_and!; try constructor]. Qed.

#[export] Program Instance GetHostResponse_codec : Codec GetHostResponse :=
  {| msg_ok := GetHostResponse_ok; msg_encode := GetHostResponse_serialize;
     msg_parse := parse_from GetHostResponse_case GetHostResponse_new |}.
Next Obligation. intros m Hm. apply parse_merges; [apply GetHostResponse_case_ok|by apply GetHostResponse_merges]. Qed.
Next Obligation. intros bs. apply parse_total, GetHostResponse_case_ok. Qed.
Next Obligation. intros bs ok m. apply parse_keeps; [apply GetHostResponse_case_keeps|by split_and!; try constructor]. Qed.

#[export] Program Instance ReportRequest_codec : Codec ReportRequest :=
  {| msg_ok := ReportRequest_ok; msg_encode := ReportRequest_serialize;
     msg_parse := parse_from ReportRequest_case ReportRequest_new |}.
Next Obligation. intros m Hm. apply parse_merges; [apply ReportRequest_case_ok|by apply ReportRequest_merges]. Qed.
Next Obligation. intros bs. apply parse_total, ReportRequest_case_ok. Qed.
Next Obligation. intros bs ok m. apply parse_keeps; [apply ReportRequest_case_keeps|by split_and!; try constructor]. Qed.
(** ** Properties *)

(** C14: Every message a service writes is read back as it was, field by field, by the
    class it is an instance of: requests and responses of hosts and routes,
    reports, with all their repeated and optional parts. *)
Theorem messages_roundtrip a b c d e f :
  msg_ok a -> msg_ok b -> msg_ok c -> msg_ok d -> msg_ok e -> msg_ok f ->
  parse_from GetRouteRequest_case GetRouteRequest_new (GetRouteRequest_serialize a) = Ok (true, a) /\
  parse_from GetRouteResponse_case GetRouteResponse_new (GetRouteResponse_serialize b) = Ok (true, b) /\
  parse_from ReportStatusRequest_case ReportStatusRequest_new (ReportStatusRequest_serialize c) = Ok (true, c) /\
  parse_from GetHostRequest_case GetHostRequest_new (GetHostRequest_serialize d) = Ok (true, d) /\
  parse_from GetHostResponse_case GetHostResponse_new (GetHostResponse_serialize e) = Ok (true, e) /\
  parse_from ReportRequest_case ReportRequest_new (ReportRequest_serialize f) = Ok (true, f).
Proof.
  intros Ha Hb Hc Hd He Hf.
  exact (conj (msg_parse_roundtrip a Ha) (conj (msg_parse_roundtrip b Hb) (conj (msg_parse_roundtrip c Hc)
    (conj (msg_parse_roundtrip d Hd) (conj (msg_parse_roundtrip e He) (msg_parse_roundtrip f Hf)))))).
Qed.

(** C36: Reading ends on every input, whatever bytes a peer sends: merging into any
    message returns, with some message (complete or not) and without reading
    past the end. *)
Theorem reading_terminates bs :
  (forall m, exists ok m' rest, merge_from GetRouteRequest_case m bs = Ok (ok, m', rest) /\ (length rest <= length bs)%nat) /\
  (forall m, exists ok m' rest, merge_from GetRouteResponse_case m bs = Ok (ok, m', rest) /\ (length rest <= length bs)%nat) /\
  (forall m, exists ok m' rest, merge_from ReportStatusRequest_case m bs = Ok (ok, m', rest) /\ (length rest <= length bs)%nat) /\
  (forall m, exists ok m' rest, merge_from GetHostRequest_case m bs = Ok (ok, m', rest) /\ (length rest <= length bs)%nat) /\
  (forall m, exists ok m' rest, merge_from GetHostResponse_case m bs = Ok (ok, m', rest) /\ (length rest <= length bs)%nat) /\
  (forall m, exists ok m' rest, merge_from ReportRequest_case m bs = Ok (ok, m', rest) /\ (length rest <= length bs)%nat).
Proof.
  split_and!; intros m; (apply merge_fields_total; [|lia]).
  - apply GetRouteRequest_case_ok.
  - apply GetRouteResponse_case_ok.
  - apply ReportStatusRequest_case_ok.
  - apply GetHostRequest_case_ok.
  - apply GetHostResponse_case_ok.
  - apply ReportRequest_case_ok.
Qed.

(** The size of each written message: constant but for the lists. *)
Lemma length_prim field v : 0 < field < 16 -> length (if v =? 0 then [] else write_prim field v) <= 11.
Proof. intros Hf. rewrite <-length_write_prim by done. apply prim_at_most. Qed.

Lemma length_message field (size : Z) body :
  0 < field < 15 -> size = length body -> size < 128 -> length (write_message field size body) <= size + 2.
Proof.
  intros Hf -> Hs. rewrite <-length_write_message by done. unfold message_size.
  pose proof (varint_size (length body) 1). lia.
Qed.

Lemma length_concat {A} (f : A -> bytes) (n : Z) l : (forall x, length (f x) <= n) -> length (concat (f <$> l)) <= n * length l.
Proof.
  intros Hf. induction l as [|x l IH]; cbn [fmap list_fmap concat length]; [lia|]. rewrite length_app. specialize (Hf x). lia.
Qed.

Lemma GetHostRequest_length m : length (GetHostRequest_serialize m) <= 33.
Proof.
  unfold GetHostRequest_serialize. rewrite !length_app.
  pose proof (length_prim 1 (ghq_seq m)). pose proof (length_prim 2 (ghq_modid m)). pose proof (length_prim 3 (ghq_cmdid m)). lia.
Qed.

Lemma GetHostResponse_length m : length (GetHostResponse_serialize m) <= 68.
Proof.
  unfold GetHostResponse_serialize. rewrite !length_app.
  pose proof (length_prim 1 (ghs_seq m)). pose proof (length_prim 2 (ghs_modid m)).
  pose proof (length_prim 3 (ghs_cmdid m)). pose proof (length_prim 4 (ghs_retcode m)).
  destruct (ghs_host m) as [h|]; [|cbn; lia].
  pose proof (HostInfo_bound h). pose proof (length_message 5 _ _ ltac:(lia) (HostInfo_size_length h)). lia.
Qed.

Lemma GetRouteResponse_length m : length (GetRouteResponse_serialize m) <= 22 + 24 * length (grs_host m).
Proof.
  unfold GetRouteResponse_serialize. rewrite !length_app.
  pose proof (length_prim 1 (grs_modid m)). pose proof (length_prim 2 (grs_cmdid m)).
  pose proof (length_concat (fun h => write_message 3 (HostInfo_size h) (HostInfo_serialize h)) 24 (grs_host m)) as Hl.
  assert (forall h, length (write_message 3 (HostInfo_size h) (HostInfo_serialize h)) <= 24) as Hh.
  { intros h. pose proof (HostInfo_bound h). pose proof (length_message 3 _ _ ltac:(lia) (HostInfo_size_length h)). lia. }
  specialize (Hl Hh). lia.
Qed.

Lemma ReportRequest_length m : length (ReportRequest_serialize m) <= 4088.
Proof.
  unfold ReportRequest_serialize. rewrite !length_app.
  pose proof (length_prim 1 (rrq_modid m)). pose proof (length_prim 2 (rrq_cmdid m)). pose proof (length_prim 4 (rrq_retcode m)).
  destruct (rrq_host m) as [h|]; [|cbn; lia].
  pose proof (HostInfo_bound h). pose proof (length_message 3 _ _ ltac:(lia) (HostInfo_size_length h)). lia.
Qed.

Lemma ReportStatusRequest_length m : length (ReportStatusRequest_serialize m) <= 44 + 48 * length (rsr_results m).
Proof.
  unfold ReportStatusRequest_serialize. rewrite !length_app.
  pose proof (length_prim 1 (rsr_modid m)). pose proof (length_prim 2 (rsr_cmdid m)).
  pose proof (length_prim 3 (rsr_caller m)). pose proof (length_prim 5 (rsr_ts m)).
  pose proof (length_concat (fun h => write_message 4 (HostCallResult_size h) (HostCallResult_serialize h)) 48 (rsr_results m)) as Hl.
  assert (forall h, length (write_message 4 (HostCallResult_size h) (HostCallResult_serialize h)) <= 48) as Hh.
  { intros h. pose proof (HostCallResult_bound h). pose proof (length_message 4 _ _ ltac:(lia) (HostCallResult_size_length h)). lia. }
  specialize (Hl Hh). lia.
Qed.
End messages.

Module WireDemo.
#[local] Existing Instance wire_varint.

Definition host0 : HostInfo := {| hi_ip := i32 3232235953; hi_port := 7777 |}.

Lemma messages_roundtrip_witness :
  parse_from GetRouteResponse_case GetRouteResponse_new
    (GetRouteResponse_serialize {| grs_modid := 1; grs_cmdid := -2; grs_host := [host0; host0] |}) =
    Ok (true, {| grs_modid := 1; grs_cmdid := -2; grs_host := [host0; host0] |}).
Proof.
  destruct (messages_roundtrip {| grq_modid := 1; grq_cmdid := 2 |} {| grs_modid := 1; grs_cmdid := -2; grs_host := [host0; host0] |}
    {| rsr_modid := 1; rsr_cmdid := 2; rsr_caller := 3; rsr_results := []; rsr_ts := 4 |}
    {| ghq_seq := 7; ghq_modid := 1; ghq_cmdid := 2 |}
    {| ghs_seq := 7; ghs_modid := 1; ghs_cmdid := 2; ghs_retcode := 0; ghs_host := None |}
    {| rrq_modid := 1; rrq_cmdid := 2; rrq_host := None; rrq_retcode := 0 |}) as (_ & Hr & _); [..|exact Hr];
    split_and?; cbn; unfold is_i32, is_u32; try lia; try done; by apply (bool_decide_unpack _).
Defined.
End WireDemo.
