(* ===== verification/EventLoop.v ===== *)
(** * EventLoop: the epoll reactor (lars_reactor, event_loop and event_base.h)

    The callbacks ([io_callback *]) and their [void *] arguments are abstract
    types; the kernel's side of epoll is the interface [Epoll]. *)

From S2P Require Import Prelude.
From stdpp Require Import base numbers list gmap fin_maps.
From Stdlib Require Import ZArith Lia.
Open Scope Z_scope.

Definition EPOLLIN := 1.
Definition EPOLLOUT := 4.
Definition EPOLLERR := 8.
Definition EPOLLHUP := 16.
Definition MAXEVENTS := 10.

(** [x & m] as a condition. *)
Definition has (x m : Z) : bool := negb (Z.land x m =? 0).

(** ** The kernel *)

Inductive ctl_op := EPOLL_CTL_ADD | EPOLL_CTL_MOD | EPOLL_CTL_DEL.

(** What epoll_ctl(2) documents: a call that succeeds changes the interest list as
    asked, one that fails leaves it; removing a registered descriptor
    succeeds. *)
Class Epoll (K : Type) := {
  interest : K -> gmap Z Z;
  epoll_ctl : ctl_op -> Z -> Z -> K -> bool * K;
  epoll_ctl_effect op fd ev k :
    interest (epoll_ctl op fd ev k).2 =
      if (epoll_ctl op fd ev k).1 then
        match op with
        | EPOLL_CTL_DEL => delete fd (interest k)
        | _ => <[fd:=ev]> (interest k)
        end
      else interest k;
  epoll_ctl_del fd ev k : (epoll_ctl EPOLL_CTL_DEL fd ev k).1 = false -> interest k !! fd = None
}.

(** An epoll instance that knows its interest list, to evaluate the definitions:
    adding a registered descriptor and modifying an unknown one fail. *)
Definition epoll_map_ctl (op : ctl_op) (fd ev : Z) (k : gmap Z Z) : bool * gmap Z Z :=
  match op, k !! fd with
  | EPOLL_CTL_ADD, None => (true, <[fd:=ev]> k)
  | EPOLL_CTL_MOD, Some _ => (true, <[fd:=ev]> k)
  | EPOLL_CTL_DEL, Some _ => (true, delete fd k)
  | _, _ => (false, k)
  end.

#[program] Definition epoll_map : Epoll (gmap Z Z) :=
  {| interest := id; epoll_ctl := epoll_map_ctl |}.
Next Obligation. intros op fd ev k. unfold epoll_map_ctl. by destruct op, (k !! fd). Qed.
Next Obligation. intros fd ev k. unfold epoll_map_ctl. by destruct (k !! fd) eqn:E. Qed.

Section event_loop.
(** [io_callback *], [task_func] and the [void *] arguments. *)
Context {C T A : Type}.

(** [struct io_event] *)
Record io_event := IoEvent {
  ev_mask : Z;
  ev_read : option C;
  ev_write : option C;
  ev_rargs : option A;
  ev_wargs : option A
}.
Definition io_event_new : io_event := IoEvent 0 None None None None.

Section with_kernel.
Context {K : Type} `{Epoll K}.

Record event_loop := EventLoop {
  el_evs : gmap Z io_event;       (* _io_evs *)
  el_listen : gset Z;             (* listen_fds *)
  el_epoll : K;                   (* _epfd *)
  el_tasks : list (T * A)         (* _ready_tasks *)
}.

(** [event_loop()] on a fresh epoll instance. *)
Definition event_loop_new (k : K) : event_loop := EventLoop ∅ ∅ k [].

Definition ev_set_mask (m : Z) (e : io_event) : io_event :=
  IoEvent m (ev_read e) (ev_write e) (ev_rargs e) (ev_wargs e).
Definition ev_set_read (c : C) (a : A) (e : io_event) : io_event :=
  IoEvent (ev_mask e) (Some c) (ev_write e) (Some a) (ev_wargs e).
Definition ev_set_write (c : C) (a : A) (e : io_event) : io_event :=
  IoEvent (ev_mask e) (ev_read e) (Some c) (ev_rargs e) (Some a).

(** [void add_io_event(int fd, io_callback *proc, int mask, void *args)] *)
Definition add_io_event (fd : Z) (proc : C) (mask : Z) (args : A) (l : event_loop) : event_loop :=
  let '(op, final_mask) :=
    match el_evs l !! fd with
    | None => (EPOLL_CTL_ADD, mask)
    | Some ev => (EPOLL_CTL_MOD, Z.lor (ev_mask ev) mask)
    end in
  let ev := default io_event_new (el_evs l !! fd) in
  let ev := if has mask EPOLLIN then ev_set_read proc args ev
            else if has mask EPOLLOUT then ev_set_write proc args ev
            else ev in
  let evs := <[fd:=ev_set_mask final_mask ev]> (el_evs l) in
  let '(ok, k) := epoll_ctl op fd final_mask (el_epoll l) in
  if ok then EventLoop evs ({[fd]} ∪ el_listen l) k (el_tasks l)
  else EventLoop evs (el_listen l) k (el_tasks l).

(** [void del_io_event(int fd)] *)
Definition del_io_event (fd : Z) (l : event_loop) : event_loop :=
  EventLoop (delete fd (el_evs l)) (el_listen l ∖ {[fd]})
    (epoll_ctl EPOLL_CTL_DEL fd 0 (el_epoll l)).2 (el_tasks l).

(** [void del_io_event(int fd, int mask)] *)
Definition del_io_event_mask (fd mask : Z) (l : event_loop) : event_loop :=
  match el_evs l !! fd with
  | None => l
  | Some ev =>
      let o_mask := Z.land (ev_mask ev) (Z.lnot mask) in
      let l := EventLoop (<[fd:=ev_set_mask o_mask ev]> (el_evs l)) (el_listen l) (el_epoll l) (el_tasks l) in
      if o_mask =? 0 then del_io_event fd l
      else EventLoop (el_evs l) (el_listen l) (epoll_ctl EPOLL_CTL_MOD fd o_mask (el_epoll l)).2 (el_tasks l)
  end.

(** [void add_task(task_func func, void *args)] *)
Definition add_task (func : T) (args : A) (l : event_loop) : event_loop :=
  EventLoop (el_evs l) (el_listen l) (el_epoll l) (el_tasks l ++ [(func, args)]).

(** [void get_listen_fds(listen_fd_set &fds)] *)
Definition get_listen_fds (l : event_loop) : gset Z := el_listen l.

(** What the loop does with one fired event: it calls a read or write callback
    (which may be null), or deletes the descriptor, or nothing. *)
Inductive reaction :=
| CallBack (c : C) (fd : Z) (args : option A)
| DeleteFd (fd : Z)
| Ignore.

(** The body of the [for] of [event_process]: [_io_evs.find] may be [end()], whose
    dereference is undefined. *)
Definition react (fd events : Z) (l : event_loop) : res reaction :=
  ev ← of_option OutOfBounds (el_evs l !! fd);
  if has events EPOLLIN then
    c ← of_option NullDeref (ev_read ev); Ok (CallBack c fd (ev_rargs ev))
  else if has events EPOLLOUT then
    c ← of_option NullDeref (ev_write ev); Ok (CallBack c fd (ev_wargs ev))
  else if has events (Z.lor EPOLLHUP EPOLLERR) then
    match ev_read ev, ev_write ev with
    | Some c, _ => Ok (CallBack c fd (ev_rargs ev))
    | None, Some c => Ok (CallBack c fd (ev_wargs ev))
    | None, None => Ok (DeleteFd fd)
    end
  else Ok Ignore.

(** One turn of the loop on a process state [S] that contains it, with the meaning
    of callbacks and tasks given. *)
Section turn.
Context {S : Type} (get_loop : S -> event_loop) (set_loop : event_loop -> S -> S).
Context (run_callback : C -> Z -> option A -> S -> res S) (run_task : T -> A -> S -> res S).

Definition fire (s : S) (fev : Z * Z) : res S :=
  r ← react fev.1 fev.2 (get_loop s);
  match r with
  | CallBack c fd args => run_callback c fd args s
  | DeleteFd fd => Ok (set_loop (del_io_event fd (get_loop s)) s)
  | Ignore => Ok s
  end.

(** [void execute_ready_tasks()]: a task that adds a task while the vector is being
    walked invalidates the iterator. *)
Definition run_ready_task (s : S) (t : T * A) : res S :=
  s' ← run_task t.1 t.2 s;
  ensure Nat.eqb (length (el_tasks (get_loop s'))) (length (el_tasks (get_loop s))) or UseAfterFree;
  Ok s'.
Definition execute_ready_tasks (s : S) : res S :=
  s ← foldM run_ready_task s (el_tasks (get_loop s));
  let l := get_loop s in
  Ok (set_loop (EventLoop (el_evs l) (el_listen l) (el_epoll l) []) s).

(** [void event_process()], one turn: the events epoll_wait fired (at most
    [MAXEVENTS]), then the tasks. *)
Definition event_turn (fired : list (Z * Z)) (s : S) : res S :=
  s ← foldM fire s fired;
  execute_ready_tasks s.
End turn.
End with_kernel.
End event_loop.

Arguments io_event : clear implicits.
Arguments event_loop : clear implicits.
Arguments reaction : clear implicits.

(** ** Consistency *)

Inductive loop_call {C A : Type} :=
| AddEvent (fd : Z) (proc : C) (mask : Z) (args : A)
| DelEvent (fd : Z)
| DelMask (fd mask : Z).
Arguments loop_call : clear implicits.

Section consistency.
Context {C T A K : Type} `{Epoll K}.
Abbreviation loop := (event_loop C T A K).

(** The map, the set and the kernel agree, and every kind of event asked for has
    its callback. *)
Record loop_inv (l : loop) : Prop := {
  li_epoll : interest (el_epoll l) = ev_mask <$> el_evs l;
  li_listen : el_listen l = dom (el_evs l);
  li_read fd ev : el_evs l !! fd = Some ev -> has (ev_mask ev) EPOLLIN = true -> is_Some (ev_read ev);
  li_write fd ev : el_evs l !! fd = Some ev -> has (ev_mask ev) EPOLLOUT = true -> is_Some (ev_write ev)
}.

Definition loop_exec (l : loop) (c : loop_call C A) : loop :=
  match c with
  | AddEvent fd proc mask args => add_io_event fd proc mask args l
  | DelEvent fd => del_io_event fd l
  | DelMask fd mask => del_io_event_mask fd mask l
  end.

(** The calls the program makes: one kind at a time, and epoll_ctl accepts. *)
Definition call_ok (l : loop) (c : loop_call C A) : Prop :=
  match c with
  | AddEvent fd _ mask _ =>
      (mask = EPOLLIN \/ mask = EPOLLOUT) /\
      match el_evs l !! fd with
      | None => (epoll_ctl EPOLL_CTL_ADD fd mask (el_epoll l)).1 = true
      | Some ev => (epoll_ctl EPOLL_CTL_MOD fd (Z.lor (ev_mask ev) mask) (el_epoll l)).1 = true
      end
  | DelEvent _ => True
  | DelMask fd mask =>
      match el_evs l !! fd with
      | None => True
      | Some ev => (epoll_ctl EPOLL_CTL_MOD fd (Z.land (ev_mask ev) (Z.lnot mask)) (el_epoll l)).1 = true
      end
  end.

Fixpoint calls_ok (l : loop) (cs : list (loop_call C A)) : Prop :=
  match cs with
  | [] => True
  | c :: cs => call_ok l c /\ calls_ok (loop_exec l c) cs
  end.

Lemma has_lor a b m : has (Z.lor a b) m = has a m || has b m.
Proof.
  unfold has. rewrite Z.land_comm, Z.land_lor_distr_r, !(Z.land_comm m).
  destruct (Z.land a m =? 0) eqn:E1, (Z.land b m =? 0) eqn:E2; cbn.
  - apply Z.eqb_eq in E1 as ->. by rewrite Z.lor_0_l, E2.
  - apply Z.eqb_eq in E1 as ->. by rewrite Z.lor_0_l, E2.
  - apply Z.eqb_eq in E2 as ->. by rewrite Z.lor_0_r, E1.
  - destruct (Z.lor (Z.land a m) (Z.land b m) =? 0) eqn:E; [|done].
    apply Z.eqb_eq in E. apply Z.lor_eq_0_iff in E as [E _]. by rewrite E in E1.
Qed.

Ltac masks := change (has EPOLLIN EPOLLIN) with true in *; change (has EPOLLIN EPOLLOUT) with false in *;
  change (has EPOLLOUT EPOLLIN) with false in *; change (has EPOLLOUT EPOLLOUT) with true in *; cbn in *.

Lemma has_land a b m : has (Z.land a b) m = true -> has a m = true.
Proof.
  unfold has. rewrite !negb_true_iff, !Z.eqb_neq. intros Hn Ha. apply Hn.
  rewrite <-Z.land_assoc, (Z.land_comm b), Z.land_assoc, Ha. apply Z.land_0_l.
Qed.

Lemma loop_inv_del fd (l : loop) : loop_inv l -> loop_inv (del_io_event fd l).
Proof.
  intros [He Hl Hr Hw]. unfold del_io_event. constructor; cbn.
  - pose proof (epoll_ctl_effect EPOLL_CTL_DEL fd 0 (el_epoll l)) as Hef.
    pose proof (epoll_ctl_del fd 0 (el_epoll l)) as Hdel.
    destruct (epoll_ctl EPOLL_CTL_DEL fd 0 (el_epoll l)) as [[] k]; cbn in *; rewrite Hef.
    + by rewrite He, fmap_delete.
    + rewrite He in *. specialize (Hdel eq_refl). rewrite lookup_fmap in Hdel.
      rewrite delete_id; [done|]. by destruct (el_evs l !! fd).
  - rewrite Hl. set_solver.
  - intros fd' ev (_ & Hev)%lookup_delete_Some. by eapply Hr.
  - intros fd' ev (_ & Hev)%lookup_delete_Some. by eapply Hw.
Qed.

Lemma loop_inv_exec l c : loop_inv l -> call_ok l c -> loop_inv (loop_exec l c).
Proof.
  intros Hi Hc. destruct c as [fd proc mask args|fd|fd mask]; cbn in *; [|by apply loop_inv_del|].
  - destruct Hc as [Hmask Hok]. destruct Hi as [He Hl Hr Hw]. unfold add_io_event.
    destruct (el_evs l !! fd) as [ev|] eqn:Hev; cbn in *.
    + pose proof (epoll_ctl_effect EPOLL_CTL_MOD fd (Z.lor (ev_mask ev) mask) (el_epoll l)) as Hef.
      destruct (epoll_ctl EPOLL_CTL_MOD fd _ (el_epoll l)) as [ok k]. cbn in *. subst ok.
      constructor; cbn.
      * by rewrite Hef, He, fmap_insert.
      * rewrite dom_insert_L. by rewrite Hl.
      * intros fd' ev' [[<- <-]|[Hne Hev']]%lookup_insert_Some; [|by eapply Hr].
        cbn. rewrite has_lor. intros [Hm|Hm]%orb_true_iff.
        -- destruct Hmask as [->| ->]; masks; [by eexists|by eapply Hr].
        -- destruct Hmask as [->| ->]; masks; [by eexists|done].
      * intros fd' ev' [[<- <-]|[Hne Hev']]%lookup_insert_Some; [|by eapply Hw].
        cbn. rewrite has_lor. intros [Hm|Hm]%orb_true_iff.
        -- destruct Hmask as [->| ->]; masks; [by eapply Hw|by eexists].
        -- destruct Hmask as [->| ->]; masks; [done|by eexists].
    + pose proof (epoll_ctl_effect EPOLL_CTL_ADD fd mask (el_epoll l)) as Hef.
      destruct (epoll_ctl EPOLL_CTL_ADD fd mask (el_epoll l)) as [ok k]. cbn in *. subst ok.
      constructor; cbn.
      * by rewrite Hef, He, fmap_insert.
      * rewrite dom_insert_L. by rewrite Hl.
      * intros fd' ev' [[<- <-]|[Hne Hev']]%lookup_insert_Some; [|by eapply Hr].
        cbn. intros Hm. destruct Hmask as [->| ->]; masks; [by eexists|done].
      * intros fd' ev' [[<- <-]|[Hne Hev']]%lookup_insert_Some; [|by eapply Hw].
        cbn. intros Hm. destruct Hmask as [->| ->]; masks; [done|by eexists].
  - unfold del_io_event_mask. destruct (el_evs l !! fd) as [ev|] eqn:Hev; [|done].
    set (o_mask := Z.land (ev_mask ev) (Z.lnot mask)) in *.
    destruct (o_mask =? 0) eqn:Hz.
    + assert (del_io_event fd (EventLoop (<[fd:=ev_set_mask o_mask ev]> (el_evs l)) (el_listen l) (el_epoll l) (el_tasks l))
        = del_io_event fd l) as -> by (unfold del_io_event; cbn; by rewrite delete_insert_eq).
      by apply loop_inv_del.
    + destruct Hi as [He Hl Hr Hw]. cbn.
      pose proof (epoll_ctl_effect EPOLL_CTL_MOD fd o_mask (el_epoll l)) as Hef. rewrite Hc in Hef.
      constructor; cbn.
      * by rewrite Hef, He, fmap_insert.
      * rewrite dom_insert_L, Hl. apply elem_of_dom_2 in Hev. set_solver.
      * intros fd' ev' [[<- <-]|[Hne Hev']]%lookup_insert_Some; [|by eapply Hr].
        cbn. intros Hm%has_land. by eapply Hr.
      * intros fd' ev' [[<- <-]|[Hne Hev']]%lookup_insert_Some; [|by eapply Hw].
        cbn. intros Hm%has_land. by eapply Hw.
Qed.

Lemma loop_inv_new k : interest k = ∅ -> loop_inv (event_loop_new k).
Proof.
  intros Hk. constructor; cbn; [by rewrite Hk, fmap_empty|by rewrite dom_empty_L| |];
    intros fd ev Hev; by rewrite lookup_empty in Hev.
Qed.

(** C27: As long as epoll_ctl accepts the calls, the events map, the set of listening
    descriptors and the kernel's interest list never disagree, and whatever event
    the kernel reports for a descriptor it watches finds its entry and a
    callback that is not null. *)
Theorem reported_events_are_handled k cs fd events :
  interest k = ∅ -> calls_ok (event_loop_new k) cs ->
  let l := fold_left loop_exec cs (event_loop_new k) in
  interest (el_epoll l) = ev_mask <$> el_evs l /\ get_listen_fds l = dom (interest (el_epoll l)) /\
  forall mask, interest (el_epoll l) !! fd = Some mask ->
    (has events EPOLLIN = true -> has mask EPOLLIN = true) ->
    (has events EPOLLOUT = true -> has mask EPOLLOUT = true) ->
    exists r, react fd events l = Ok r /\
      (has events EPOLLIN = true -> exists ev c, el_evs l !! fd = Some ev /\ ev_read ev = Some c /\
         r = CallBack c fd (ev_rargs ev)) /\
      (has events EPOLLIN = false -> has events EPOLLOUT = true ->
         exists ev c, el_evs l !! fd = Some ev /\ ev_write ev = Some c /\ r = CallBack c fd (ev_wargs ev)).
Proof.
  intros Hk Hcs. cbn zeta.
  assert (forall (l0 : loop), loop_inv l0 -> calls_ok l0 cs -> loop_inv (fold_left loop_exec cs l0)) as Hg.
  { clear. induction cs as [|c cs IH]; intros l0 Hi Hc; cbn; [done|].
    destruct Hc as [Hc Hcs]. apply IH; [by apply loop_inv_exec|done]. }
  pose proof (Hg _ (loop_inv_new k Hk) Hcs) as [He Hl Hr Hw].
  set (l := fold_left loop_exec cs (event_loop_new k)) in *. split; [done|].
  split; [unfold get_listen_fds; by rewrite He, dom_fmap_L|].
  intros mask Hm Hin Hout. rewrite He, lookup_fmap in Hm. apply fmap_Some in Hm as (ev & Hev & ->).
  unfold react. rewrite Hev. cbn.
  destruct (has events EPOLLIN) eqn:EI.
  { destruct (Hr _ _ Hev) as [c Hc]; [auto|]. rewrite Hc. cbn. eexists. split; [done|].
    split; [intros _; by exists ev, c|done]. }
  destruct (has events EPOLLOUT) eqn:EO.
  { destruct (Hw _ _ Hev) as [c Hc]; [auto|]. rewrite Hc. cbn. eexists. split; [done|].
    split; [done|]. intros _ _. by exists ev, c. }
  destruct (has events (Z.lor EPOLLHUP EPOLLERR)), (ev_read ev), (ev_write ev); by eexists.
Qed.
End consistency.

Lemma reported_events_are_handled_witness :
  exists r, react 5 EPOLLOUT (fold_left (loop_exec (H := epoll_map) (T := unit))
    [AddEvent 5 1%nat EPOLLIN 10; AddEvent 5 2%nat EPOLLOUT 20; DelMask 5 EPOLLIN] (event_loop_new ∅)) = Ok r.
Proof.
  destruct (reported_events_are_handled (H := epoll_map) (T := unit) ∅
    [AddEvent 5 1%nat EPOLLIN 10; AddEvent 5 2%nat EPOLLOUT 20; DelMask 5 EPOLLIN] 5 EPOLLOUT) as (_ & _ & Hm).
  - reflexivity.
  - cbn. split; [split; [by left|reflexivity]|]. split; [split; [by right|reflexivity]|]. split; [reflexivity|done].
  - destruct (Hm EPOLLOUT) as (r & Hr & _); [vm_compute; reflexivity|discriminate|reflexivity|].
    exists r. exact Hr.
Defined.
