(* ===== verification/BufPool.v ===== *)
(** * BufPool: io_buf and the buffer pool (lars_reactor: io_buf, buf_pool)

    Every [io_buf] lives in one heap; the pool threads the free ones of a size
    class into a linked list through their [next] field, exactly as buf_pool.cpp
    does.  Buffers in use are owned by a [reactor_buf] (file ReactorBuf). *)

From S2P Require Import Prelude Bytes.
From stdpp Require Import base numbers list gmap fin_maps.
From Stdlib Require Import ZArith Lia.
Open Scope Z_scope.

Abbreviation ptr := positive.

(** ** class io_buf *)

Record io_buf := IoBuf {
  b_capacity : Z;
  b_length : Z;
  b_head : Z;
  b_data : memory;
  b_next : option ptr
}.

(** [io_buf(int size)]: [data] is a fresh uninitialised array of [size] bytes. *)
Definition io_buf_new (size : Z) : io_buf := IoBuf size 0 0 ∅ None.

Definition b_set_next (n : option ptr) (b : io_buf) : io_buf :=
  IoBuf (b_capacity b) (b_length b) (b_head b) (b_data b) n.

(** A read or write of [n] bytes at [off] of [data] that stays inside the array. *)
Definition in_array (off n : Z) (b : io_buf) : bool :=
  (0 <=? off) && (0 <=? n) && (off + n <=? b_capacity b).
Definition b_read (off n : Z) (b : io_buf) : res bytes :=
  ensure in_array off n b or OutOfBounds;
  of_option Uninit (mem_read off n (b_data b)).
Definition b_write (off : Z) (bs : bytes) (b : io_buf) : res io_buf :=
  ensure in_array off (length bs) b or OutOfBounds;
  Ok (IoBuf (b_capacity b) (b_length b) (b_head b) (mem_write off bs (b_data b)) (b_next b)).

(** [void clear()] *)
Definition b_clear (b : io_buf) : io_buf := IoBuf (b_capacity b) 0 0 (b_data b) (b_next b).

(** [void pop(int len)] *)
Definition b_pop (len : Z) (b : io_buf) : io_buf :=
  IoBuf (b_capacity b) (b_length b - len) (b_head b + len) (b_data b) (b_next b).

Definition b_set_head (h : Z) (b : io_buf) : io_buf :=
  IoBuf (b_capacity b) (b_length b) h (b_data b) (b_next b).
Definition b_set_length (n : Z) (b : io_buf) : io_buf :=
  IoBuf (b_capacity b) n (b_head b) (b_data b) (b_next b).

(** [void adjust()] *)
Definition b_adjust (b : io_buf) : res io_buf :=
  if negb (b_head b =? 0) then
    b ← (if negb (b_length b =? 0) then
           bs ← b_read (b_head b) (b_length b) b; b_write 0 bs b
         else Ok b);
    Ok (b_set_head 0 b)
  else Ok b.

(** [void copy(const io_buf *other)] *)
Definition b_copy (other b : io_buf) : res io_buf :=
  bs ← b_read (b_head other) (b_length other) other;
  b ← b_write 0 bs b;
  Ok (b_set_length (b_length other) (b_set_head 0 b)).

(** ** class buf_pool *)

(** [enum MEM_CAP] and the memory limit, in KB. *)
Definition m4K := 4096.
Definition m16K := 16384.
Definition m64K := 65536.
Definition m256K := 262144.
Definition m1M := 1048576.
Definition m4M := 4194304.
Definition m8M := 8388608.
Definition MEM_LIMIT := u32 (5 * 1024 * 1024).

Record buf_pool := BufPool {
  bp_heap : gmap ptr io_buf;       (* every io_buf ever created *)
  bp_pool : gmap Z (option ptr);   (* _pool: capacity -> first free buffer *)
  bp_total : Z;                    (* _total_mem, in KB *)
  bp_fresh : ptr                   (* the address of the next [new io_buf] *)
}.

Definition bp_set_heap (h : gmap ptr io_buf) (p : buf_pool) : buf_pool :=
  BufPool h (bp_pool p) (bp_total p) (bp_fresh p).
Definition bp_set_pool (k : Z) (q : option ptr) (p : buf_pool) : buf_pool :=
  BufPool (bp_heap p) (<[k:=q]> (bp_pool p)) (bp_total p) (bp_fresh p).
Definition bp_add_total (n : Z) (p : buf_pool) : buf_pool :=
  BufPool (bp_heap p) (bp_pool p) (u64 (bp_total p + n)) (bp_fresh p).

Definition get_buf (p : buf_pool) (q : ptr) : res io_buf := of_option UseAfterFree (bp_heap p !! q).
Definition put_buf (q : ptr) (b : io_buf) (p : buf_pool) : buf_pool :=
  bp_set_heap (<[q:=b]> (bp_heap p)) p.

(** [new io_buf(cap)] *)
Definition new_io_buf (cap : Z) (p : buf_pool) : ptr * buf_pool :=
  (bp_fresh p,
   BufPool (<[bp_fresh p:=io_buf_new cap]> (bp_heap p)) (bp_pool p) (bp_total p) (Pos.succ (bp_fresh p))).

Definition set_next (q : ptr) (n : option ptr) (p : buf_pool) : res buf_pool :=
  b ← get_buf p q; Ok (put_buf q (b_set_next n b) p).

(** The loop of [make_io_buf_list]: [n] more buffers linked after [prev]. *)
Fixpoint link_bufs (n : nat) (cap : Z) (prev : ptr) (p : buf_pool) : res (ptr * buf_pool) :=
  match n with
  | O => Ok (prev, p)
  | S n =>
      let '(q, p) := new_io_buf cap p in
      p ← set_next prev (Some q) p;
      link_bufs n cap q p
  end.

(** [void make_io_buf_list(int cap, int num)] *)
Definition make_io_buf_list (cap num : Z) (p : buf_pool) : res buf_pool :=
  let '(head, p) := new_io_buf cap p in
  let p := bp_set_pool cap (Some head) p in
  '(prev, p) ← link_bufs (Z.to_nat (num - 1)) cap head p;
  p ← set_next prev None p;
  Ok (bp_add_total (cap / 1024 * num) p).

(** [buf_pool()] *)
Definition buf_pool_init : buf_pool := BufPool ∅ ∅ 0 1%positive.
Definition buf_pool_new : res buf_pool :=
  foldM (fun p '(cap, num) => make_io_buf_list cap num p) buf_pool_init
    [(m4K, 5000); (m16K, 1000); (m64K, 500); (m256K, 200); (m1M, 50); (m4M, 20); (m8M, 10)].

(** The size class for [N] bytes, the if-chain of [alloc_buf]. *)
Definition size_class (N : Z) : option Z :=
  if N <=? m4K then Some m4K
  else if N <=? m16K then Some m16K
  else if N <=? m64K then Some m64K
  else if N <=? m256K then Some m256K
  else if N <=? m1M then Some m1M
  else if N <=? m4M then Some m4M
  else if N <=? m8M then Some m8M
  else None.

(** [_pool[index]]: an absent key is inserted with a null pointer. *)
Definition pool_slot (index : Z) (p : buf_pool) : option ptr * buf_pool :=
  match bp_pool p !! index with
  | Some q => (q, p)
  | None => (None, bp_set_pool index None p)
  end.

(** [io_buf *alloc_buf(int N)]; [None] is the null pointer. *)
Definition alloc_buf (N : Z) (p : buf_pool) : res (option ptr * buf_pool) :=
  match size_class N with
  | None => Ok (None, p)
  | Some index =>
      let '(slot, p) := pool_slot index p in
      match slot with
      | None =>
          ensure negb (MEM_LIMIT <=? u64 (bp_total p + index / 1024)) or ExitFailure;
          let '(new_buf, p) := new_io_buf index p in
          Ok (Some new_buf, bp_add_total (index / 1024) p)
      | Some target =>
          b ← get_buf p target;
          let p := bp_set_pool index (b_next b) p in
          p ← set_next target None p;
          Ok (Some target, p)
      end
  end.

(** [void revert(io_buf *buffer)] *)
Definition revert (buffer : ptr) (p : buf_pool) : res buf_pool :=
  b ← get_buf p buffer;
  let index := b_capacity b in
  let p := put_buf buffer (b_clear b) p in
  ensure bool_decide (is_Some (bp_pool p !! index)) or AssertFail;
  let '(slot, p) := pool_slot index p in
  p ← set_next buffer slot p;
  Ok (bp_set_pool index (Some buffer) p).

(** ** The pool invariant

    [F] is the list of free buffers of each class [C], as the linked lists hold
    them. *)

Definition classes : list Z := [m4K; m16K; m64K; m256K; m1M; m4M; m8M].

Fixpoint chain (heap : gmap ptr io_buf) (h : option ptr) (l : list ptr) : Prop :=
  match l with
  | [] => h = None
  | q :: l => h = Some q /\ exists b, heap !! q = Some b /\ chain heap (b_next b) l
  end.

(** What the heap holds in KB: what [_total_mem] counts. *)
Definition heap_kb (heap : gmap ptr io_buf) : Z := map_fold (fun _ b s => b_capacity b / 1024 + s) 0 heap.

Record pool_inv (C : list Z) (F : gmap Z (list ptr)) (p : buf_pool) : Prop := {
  pi_slots k : k ∈ C -> exists h, bp_pool p !! k = Some h /\ chain (bp_heap p) h (F !!! k);
  pi_none k : k ∉ C -> F !!! k = [];
  pi_free k q : q ∈ F !!! k -> exists b, bp_heap p !! q = Some b /\ b_capacity b = k /\ b_length b = 0 /\ b_head b = 0;
  pi_nodup k : NoDup (F !!! k);
  pi_all q b : bp_heap p !! q = Some b -> b_capacity b ∈ C;
  pi_fresh q b : bp_heap p !! q = Some b -> (q < bp_fresh p)%positive;
  pi_total : bp_total p = heap_kb (bp_heap p);
  pi_limit : 0 <= bp_total p < MEM_LIMIT
}.

Definition free (F : gmap Z (list ptr)) (q : ptr) : Prop := exists k, q ∈ F !!! k.

(** Buffer [q] is out of the pool: its owner may use it. *)
Definition used (F : gmap Z (list ptr)) (p : buf_pool) (q : ptr) : Prop :=
  is_Some (bp_heap p !! q) /\ ~ free F q.

(** What a step leaves alone: the buffers in use other than those of [own]. *)
Definition frame_step (own : ptr -> Prop) (F : gmap Z (list ptr)) (p : buf_pool)
    (F' : gmap Z (list ptr)) (p' : buf_pool) : Prop :=
  forall r, used F p r -> ~ own r -> used F' p' r /\ bp_heap p' !! r = bp_heap p !! r.

(** ** Lemmas *)

Lemma heap_kb_insert heap q b :
  heap !! q = None -> heap_kb (<[q:=b]> heap) = b_capacity b / 1024 + heap_kb heap.
Proof. intros Hq. unfold heap_kb. rewrite map_fold_insert_L; [done| |done]. intros. lia. Qed.

Lemma heap_kb_update heap q b b' :
  heap !! q = Some b -> b_capacity b' = b_capacity b -> heap_kb (<[q:=b']> heap) = heap_kb heap.
Proof.
  intros Hq Hc. rewrite <-insert_delete_eq, heap_kb_insert by apply lookup_delete_eq.
  rewrite <-(insert_delete_id heap q b) at 2 by done. rewrite heap_kb_insert by apply lookup_delete_eq.
  by rewrite Hc.
Qed.

Lemma heap_kb_nonneg heap :
  (forall q b, heap !! q = Some b -> 0 <= b_capacity b) -> 0 <= heap_kb heap.
Proof.
  induction heap as [|q b heap Hq IH] using map_ind; [done|]. intros Hc.
  rewrite heap_kb_insert by done. pose proof (Hc q b (lookup_insert_eq _ _ _)).
  assert (0 <= heap_kb heap).
  { apply IH. intros r b' Hr. apply (Hc r). rewrite lookup_insert_ne; [done|]. congruence. }
  pose proof (Z.div_pos (b_capacity b) 1024). lia.
Qed.

Lemma chain_ext heap heap' h l :
  (forall q, q ∈ l -> b_next <$> heap' !! q = b_next <$> heap !! q) -> chain heap h l -> chain heap' h l.
Proof.
  revert h. induction l as [|q l IH]; intros h He; cbn; [done|].
  intros (-> & b & Hb & Hc). split; [done|].
  assert (b_next <$> heap' !! q = Some (b_next b)) as Hn by (rewrite He, Hb by (by left); done).
  apply fmap_Some in Hn as (b' & Hb' & Hn). exists b'. split; [done|]. rewrite <-Hn.
  apply IH; [|done]. intros r Hr. apply He. by right.
Qed.

Lemma size_class_spec N k :
  size_class N = Some k -> k ∈ classes /\ N <= k /\ (forall k', k' ∈ classes -> N <= k' -> k <= k').
Proof.
  unfold size_class, classes. intros Hs.
  repeat match goal with H : context [if ?b then _ else _] |- _ => destruct b eqn:?; cbn in H end;
    try discriminate; injection Hs as <-; (split; [set_solver|]); (split; [lia|]);
    intros k' Hk'; repeat (apply elem_of_cons in Hk' as [->|Hk']); try (by apply elem_of_nil in Hk');
    unfold m4K, m16K, m64K, m256K, m1M, m4M, m8M in *; lia.
Qed.

Lemma classes_size k : k ∈ classes -> size_class k = Some k /\ 0 < k /\ 0 < k / 1024 <= 8192.
Proof. intros Hk. unfold classes in Hk. repeat (apply elem_of_cons in Hk as [->|Hk]); try done. by apply elem_of_nil in Hk. Qed.

Lemma classes_max k : k ∈ classes -> k <= m8M.
Proof.
  intros Hk. unfold classes in Hk. repeat (apply elem_of_cons in Hk as [->|Hk]); try (by apply (bool_decide_unpack _)).
  by apply elem_of_nil in Hk.
Qed.

Section invariant.
Context (C : list Z).
Implicit Types F : gmap Z (list ptr).

Lemma pool_free_class F p q k :
  pool_inv C F p -> q ∈ F !!! k -> exists b, bp_heap p !! q = Some b /\ b_capacity b = k /\ k ∈ C.
Proof.
  intros Hp Hq. destruct (pi_free _ _ _ Hp _ _ Hq) as (b & Hb & Hk & _).
  exists b. split; [done|]. split; [done|]. rewrite <-Hk. by eapply pi_all.
Qed.

(** Writing a buffer in use does not disturb the pool. *)
Lemma pool_inv_put F p q b b' :
  pool_inv C F p -> used F p q -> bp_heap p !! q = Some b -> b_capacity b' = b_capacity b ->
  pool_inv C F (put_buf q b' p).
Proof.
  intros Hp [_ Hf] Hb Hc. constructor; cbn; try apply Hp.
  - intros k Hk. destruct (pi_slots _ _ _ Hp k Hk) as (h & Hh & Hch). exists h. split; [done|].
    eapply chain_ext, Hch. intros r Hr. rewrite lookup_insert_ne; [done|]. intros ->. apply Hf. by exists k.
  - intros k r Hr. rewrite lookup_insert_ne by (intros ->; apply Hf; by exists k). by eapply pi_free.
  - intros r b0 Hr. destruct (decide (r = q)) as [->|].
    + rewrite lookup_insert_eq in Hr. injection Hr as <-. rewrite Hc. by eapply pi_all.
    + rewrite lookup_insert_ne in Hr by done. by eapply pi_all.
  - intros r b0 Hr. destruct (decide (r = q)) as [->|].
    + by eapply pi_fresh.
    + rewrite lookup_insert_ne in Hr by done. by eapply pi_fresh.
  - erewrite heap_kb_update by done. apply Hp.
Qed.

Lemma used_put F p q r b :
  used F p q -> used F (put_buf q b p) r <-> used F p r.
Proof.
  intros Hq. unfold used. cbn. destruct (decide (r = q)) as [->|].
  - rewrite lookup_insert_eq. destruct Hq. naive_solver.
  - by rewrite lookup_insert_ne.
Qed.

Lemma frame_put F p q b : used F p q -> frame_step (fun r => r = q) F p F (put_buf q b p).
Proof.
  intros Hq r Hr Hne. split; [by apply used_put|]. cbn. by rewrite lookup_insert_ne.
Qed.

Lemma frame_trans own F1 p1 F2 p2 F3 p3 :
  frame_step own F1 p1 F2 p2 -> frame_step own F2 p2 F3 p3 -> frame_step own F1 p1 F3 p3.
Proof.
  intros H12 H23 r Hr Hn. destruct (H12 r Hr Hn) as [H2 He]. destruct (H23 r H2 Hn) as [H3 He'].
  split; [done|]. congruence.
Qed.

Lemma frame_weaken (own own' : ptr -> Prop) F1 p1 F2 p2 :
  (forall r, own r -> own' r) -> frame_step own F1 p1 F2 p2 -> frame_step own' F1 p1 F2 p2.
Proof. intros Hi Hf r Hr Hn. apply Hf; auto. Qed.

Lemma frame_refl own F p : frame_step own F p F p.
Proof. by intros r Hr _. Qed.

(** A new buffer of a known class, not linked anywhere. *)
Lemma pool_inv_new F p cap :
  pool_inv C F p -> cap ∈ C -> 0 <= cap -> bp_total p + cap / 1024 < MEM_LIMIT ->
  pool_inv C F (bp_add_total (cap / 1024) (new_io_buf cap p).2).
Proof.
  intros Hp Hk Hc Hlim.
  assert (bp_heap p !! bp_fresh p = None) as Hn.
  { destruct (bp_heap p !! bp_fresh p) eqn:He; [|done]. apply (pi_fresh _ _ _ Hp) in He. lia. }
  pose proof (pi_limit _ _ _ Hp) as Hl. pose proof (Z.div_pos cap 1024 Hc).
  assert (MEM_LIMIT = 5242880) as Hm by done.
  assert (u64 (bp_total p + cap / 1024) = bp_total p + cap / 1024) as Hu by (apply u64_id; unfold is_u64; lia).
  constructor; cbn; try apply Hp; rewrite ?Hu; try lia.
  - intros k Hk'. destruct (pi_slots _ _ _ Hp k Hk') as (h & Hh & Hch). exists h. split; [done|].
    eapply chain_ext, Hch. intros r Hr. rewrite lookup_insert_ne; [done|].
    intros <-. destruct (pi_free _ _ _ Hp _ _ Hr) as (? & ? & _). congruence.
  - intros k r Hr. destruct (pi_free _ _ _ Hp _ _ Hr) as (b & Hb & ?).
    exists b. rewrite lookup_insert_ne; [done|]. congruence.
  - intros r b Hr. destruct (decide (r = bp_fresh p)) as [->|].
    + rewrite lookup_insert_eq in Hr. by injection Hr as <-.
    + rewrite lookup_insert_ne in Hr by done. by eapply pi_all.
  - intros r b Hr. destruct (decide (r = bp_fresh p)) as [->|]; [lia|].
    rewrite lookup_insert_ne in Hr by done. apply (pi_fresh _ _ _ Hp) in Hr. lia.
  - rewrite heap_kb_insert by done. cbn. rewrite (pi_total _ _ _ Hp). lia.
Qed.
End invariant.

(** What [link_bufs] builds: [n] fresh buffers [l] chained after [prev]. *)
Record linked (cap : Z) (prev : ptr) (p : buf_pool) (l : list ptr) (last : ptr) (p' : buf_pool) : Prop := {
  ln_pool : bp_pool p' = bp_pool p;
  ln_total : bp_total p' = bp_total p;
  ln_fresh q b : bp_heap p' !! q = Some b -> (q < bp_fresh p')%positive;
  ln_mono : (bp_fresh p <= bp_fresh p')%positive;
  ln_chain : chain (bp_heap p') (Some prev) (prev :: l);
  ln_new q : q ∈ prev :: l -> exists b, bp_heap p' !! q = Some b /\ b_capacity b = cap /\ b_length b = 0 /\ b_head b = 0;
  ln_above q : q ∈ l -> (bp_fresh p <= q)%positive;
  ln_nodup : NoDup l;
  ln_old r : (r < bp_fresh p)%positive -> r <> prev -> bp_heap p' !! r = bp_heap p !! r;
  ln_dom r : (bp_fresh p <= r)%positive -> is_Some (bp_heap p' !! r) -> r ∈ l;
  ln_kb : heap_kb (bp_heap p') = heap_kb (bp_heap p) + length l * (cap / 1024);
  ln_last : exists b, bp_heap p' !! last = Some b /\ b_next b = None
}.

Lemma link_bufs_spec n cap prev p b :
  bp_heap p !! prev = Some b -> b_capacity b = cap -> b_length b = 0 -> b_head b = 0 -> b_next b = None ->
  (forall q b, bp_heap p !! q = Some b -> (q < bp_fresh p)%positive) ->
  exists l last p', link_bufs n cap prev p = Ok (last, p') /\ length l = n /\ linked cap prev p l last p'.
Proof.
  revert prev p b. induction n as [|n IH]; intros prev p b Hb Hc Hl Hh Hn Hf.
  { exists [], prev, p. split; [done|]. split; [done|].
    constructor; try done.
    - split; [done|]. exists b. by rewrite Hn.
    - intros q ->%list_elem_of_singleton. by exists b.
    - by intros q ?%elem_of_nil.
    - constructor.
    - intros r Hr [b' Hb']. apply Hf in Hb'. lia.
    - cbn. lia.
    - by exists b. }
  cbn [link_bufs new_io_buf]. set (q := bp_fresh p). unfold set_next, get_buf. cbn.
  assert (prev <> q) as Hne by (apply Hf in Hb; unfold q; intros ->; lia).
  assert (bp_heap p !! q = None) as Hq0.
  { destruct (bp_heap p !! q) eqn:E; [|done]. apply Hf in E. unfold q in E. lia. }
  rewrite lookup_insert_ne, Hb by done. cbn.
  set (p1 := put_buf prev (b_set_next (Some q) b) _).
  destruct (IH q p1 (io_buf_new cap)) as (l & last & p' & Heq & Hlen & Hlk); try done.
  { cbn. by rewrite lookup_insert_ne, lookup_insert_eq. }
  { intros r b' Hr. cbn in Hr |- *. destruct (decide (r = prev)) as [->|].
    - apply Hf in Hb. lia.
    - rewrite lookup_insert_ne in Hr by done. destruct (decide (r = q)) as [->|]; [unfold q; lia|].
      rewrite lookup_insert_ne in Hr by done. apply Hf in Hr. lia. }
  assert ((prev < q)%positive) as Hlt by (apply Hf in Hb; done).
  assert (bp_heap p' !! prev = Some (b_set_next (Some q) b)) as Hprev.
  { rewrite (ln_old _ _ _ _ _ _ Hlk) by (cbn; lia || done). cbn. apply lookup_insert_eq. }
  exists (q :: l), last, p'. split; [exact Heq|]. split; [by cbn; rewrite Hlen|].
  destruct Hlk as [Hpool Htot Hfr Hmono Hch Hnew Habove Hnd Hold Hdom Hkb Hlast].
  constructor; try done.
  - cbn in Hmono. unfold q in Hmono. lia.
  - split; [done|]. exists (b_set_next (Some q) b). split; [done|]. exact Hch.
  - intros r [->|Hr]%elem_of_cons; [|by apply Hnew]. exists (b_set_next (Some q) b). done.
  - intros r [->|Hr]%elem_of_cons; [unfold q; lia|]. apply Habove in Hr. cbn in Hr. unfold q in *. lia.
  - constructor; [|done]. intros Hr. apply Habove in Hr. cbn in Hr. unfold q in *. lia.
  - intros r Hr Hr'. rewrite Hold by (cbn; unfold q in *; lia). cbn. rewrite lookup_insert_ne by done.
    apply lookup_insert_ne. unfold q. lia.
  - intros r Hr Hs. destruct (decide (r = q)) as [->|]; [by left|]. right. apply Hdom; [|done].
    cbn. unfold q in *. lia.
  - rewrite Hkb. cbn. rewrite (heap_kb_update _ _ b) by (done || by rewrite lookup_insert_ne by done).
    rewrite heap_kb_insert by done. cbn. lia.
Qed.

(** A pool with one more size class, whose buffers [l] are new. *)
Lemma pool_inv_added C F p cap l h p' :
  pool_inv C F p -> cap ∉ C -> bp_pool p' = <[cap:=h]> (bp_pool p) -> chain (bp_heap p') h l -> NoDup l ->
  (forall r, r ∈ l -> exists b, bp_heap p' !! r = Some b /\ b_capacity b = cap /\ b_length b = 0 /\ b_head b = 0) ->
  (forall r b, bp_heap p !! r = Some b -> bp_heap p' !! r = Some b) ->
  (forall r b, bp_heap p' !! r = Some b -> bp_heap p !! r = Some b \/ r ∈ l) ->
  (forall r b, bp_heap p' !! r = Some b -> (r < bp_fresh p')%positive) ->
  bp_total p' = heap_kb (bp_heap p') -> 0 <= bp_total p' < MEM_LIMIT ->
  pool_inv (cap :: C) (<[cap:=l]> F) p' /\ (forall q, used (<[cap:=l]> F) p' q -> used F p q).
Proof.
  intros Hp HC Hpool Hch Hnd Hnew Hold Hcase Hfr Ht Hlim. split; [constructor; try done|].
  - intros k [->|Hk]%elem_of_cons; rewrite Hpool.
    + exists h. by rewrite lookup_insert_eq, lookup_total_insert_eq.
    + assert (k <> cap) by (intros ->; done). rewrite lookup_insert_ne, lookup_total_insert_ne by done.
      destruct (pi_slots _ _ _ Hp k Hk) as (h' & Hh & Hc). exists h'. split; [done|]. eapply chain_ext, Hc.
      intros r Hr. destruct (pi_free _ _ _ Hp _ _ Hr) as (b & Hbr & _). by rewrite Hbr, (Hold _ _ Hbr).
  - intros k [Hk1 Hk2]%not_elem_of_cons. rewrite lookup_total_insert_ne by done. by apply (pi_none _ _ _ Hp).
  - intros k r Hr. destruct (decide (k = cap)) as [->|]; [rewrite lookup_total_insert_eq in Hr; by apply Hnew|].
    rewrite lookup_total_insert_ne in Hr by done. destruct (pi_free _ _ _ Hp _ _ Hr) as (b & Hbr & ?). exists b. by rewrite (Hold _ _ Hbr).
  - intros k. destruct (decide (k = cap)) as [->|]; [by rewrite lookup_total_insert_eq|rewrite lookup_total_insert_ne by done; apply Hp].
  - intros r b Hr. destruct (Hcase r b Hr) as [Hlt|Hin]; [right; by eapply pi_all|].
    destruct (Hnew r Hin) as (b' & Hb' & <- & _). rewrite Hr in Hb'. injection Hb' as ->. by left.
  - intros r [[b Hr] Hnf]. destruct (Hcase r b Hr) as [Hlt|Hin]; [|destruct Hnf; exists cap; by rewrite lookup_total_insert_eq].
    split; [by eexists|]. intros [k Hk]. apply Hnf. exists k. rewrite lookup_total_insert_ne; [done|]. intros <-.
    rewrite (pi_none _ _ _ Hp) in Hk by done. set_solver.
Qed.

(** [make_io_buf_list] sets up one more size class. *)
Lemma make_io_buf_list_spec C F p cap num :
  pool_inv C F p -> cap ∉ C -> 0 < cap -> 0 < num -> bp_total p + cap / 1024 * num < MEM_LIMIT ->
  exists l p', make_io_buf_list cap num p = Ok p' /\ pool_inv (cap :: C) (<[cap:=l]> F) p' /\
    length l = Z.to_nat num /\ bp_total p' = bp_total p + cap / 1024 * num /\
    (forall q, used (<[cap:=l]> F) p' q -> used F p q).
Proof.
  intros Hp HC Hcap Hnum Hlim. unfold make_io_buf_list. cbn [new_io_buf]. set (q := bp_fresh p).
  assert (forall r b, bp_heap p !! r = Some b -> (r < q)%positive) as Hlt by (intros r b; apply (pi_fresh _ _ _ Hp)).
  set (p1 := bp_set_pool cap (Some q) _).
  destruct (link_bufs_spec (Z.to_nat (num - 1)) cap q p1 (io_buf_new cap)) as (l & last & p' & Heq & Hlen & Hlk); try done.
  { apply lookup_insert_eq. }
  { intros r b Hr. cbn in Hr |- *. apply lookup_insert_Some in Hr as [[<- _]|[_ Hr]]; [lia|]. apply Hlt in Hr. lia. }
  rewrite Heq. cbn. destruct Hlk as [Hpool Htot Hfr Hmono Hch Hnew Habove Hnd Hold Hdom Hkb (bl & Hbl & Hnl)].
  unfold set_next, get_buf. rewrite Hbl. cbn.
  assert (put_buf last (b_set_next None bl) p' = p') as ->.
  { unfold put_buf, bp_set_heap, b_set_next. rewrite <-Hnl. destruct bl. cbn. rewrite insert_id by done. by destruct p'. }
  assert (forall r, (r < q)%positive -> bp_heap p' !! r = bp_heap p !! r) as Hold'.
  { intros r Hr. rewrite Hold by (cbn; unfold q in *; lia). cbn. apply lookup_insert_ne. lia. }
  assert (length (q :: l) = Z.to_nat num) as Hl by (cbn; rewrite Hlen; lia).
  pose proof (pi_limit _ _ _ Hp) as Hb. pose proof (Z.div_pos cap 1024). assert (0 <= cap / 1024 * num) as Hnn by nia.
  assert (u64 (bp_total p' + cap / 1024 * num) = bp_total p + cap / 1024 * num) as Hu.
  { rewrite Htot. cbn. assert (MEM_LIMIT = 5242880) as HM by done. apply u64_id. unfold is_u64. lia. }
  destruct (pool_inv_added C F p cap (q :: l) (Some q) (bp_add_total (cap / 1024 * num) p') Hp HC) as [Hinv Hused].
  - cbn. by rewrite Hpool.
  - done.
  - constructor; [|done]. intros Hr%Habove. cbn in Hr. unfold q in Hr. lia.
  - done.
  - intros r b Hr. cbn. rewrite Hold'; [done|by eapply Hlt].
  - intros r b Hr. cbn in Hr. destruct (decide (r < q)%positive); [left; by rewrite <-Hold'|right].
    destruct (decide (r = q)) as [->|]; [by left|]. right. apply Hdom; [cbn; unfold q in *; lia|by eexists].
  - done.
  - cbn. rewrite Hu, Hkb. cbn. rewrite heap_kb_insert by (destruct (bp_heap p !! q) eqn:E; [apply Hlt in E; lia|done]).
    cbn. rewrite <-(pi_total _ _ _ Hp), Hlen, Z2Nat.id by lia. ring.
  - cbn. rewrite Hu. lia.
  - exists (q :: l), (bp_add_total (cap / 1024 * num) p'). split; [done|]. split; [done|]. split; [done|]. split; [by cbn; rewrite Hu|done].
Qed.

Arguments make_io_buf_list : simpl never.

Lemma pool_inv_init : pool_inv [] ∅ buf_pool_init.
Proof.
  constructor; cbn; try done; try (intros; set_solver).
  - intros k q. rewrite lookup_total_empty. intros []%elem_of_nil.
  - intros k. rewrite lookup_total_empty. constructor.
Qed.

(** The constructor: every class is set up, nothing is in use, and the pool
    starts at 334240 KB. *)
Lemma buf_pool_new_spec :
  exists F p, buf_pool_new = Ok p /\ pool_inv (rev classes) F p /\ bp_total p = 334240 /\
    (forall q, ~ used F p q).
Proof.
  assert (forall l C F p,
    pool_inv C F p -> (forall q, ~ used F p q) -> NoDup (l.*1 ++ C) ->
    Forall (fun x => 0 < x.1 /\ 0 < x.2) l ->
    bp_total p + foldr (fun x s => x.1 / 1024 * x.2 + s) 0 l < MEM_LIMIT ->
    exists F' p', foldM (fun p '(cap, num) => make_io_buf_list cap num p) p l = Ok p' /\
      pool_inv (rev l.*1 ++ C) F' p' /\ (forall q, ~ used F' p' q) /\
      bp_total p' = bp_total p + foldr (fun x s => x.1 / 1024 * x.2 + s) 0 l) as Hg.
  { induction l as [|[cap num] l IH]; intros C F p Hp Hu Hnd Hpos Hlim.
    { exists F, p. cbn. split; [done|]. split; [done|]. split; [done|lia]. }
    inversion Hpos as [|? ? [Hc Hn] Hpos']; subst. cbn in *. apply NoDup_cons in Hnd as [Hni Hnd].
    assert (0 <= foldr (fun x s => x.1 / 1024 * x.2 + s) 0 l) as Hge.
    { clear -Hpos'. induction Hpos' as [|[c n] l [Hc Hn] _ IH]; cbn in *; [lia|].
      pose proof (Z.div_pos c 1024). nia. }
    destruct (make_io_buf_list_spec C F p cap num Hp) as (l0 & p1 & -> & Hp1 & _ & Ht1 & Hu1); try done; [set_solver|lia|].
    cbn. destruct (IH (cap :: C) (<[cap:=l0]> F) p1) as (F' & p' & -> & Hp' & Hu' & Ht'); try done.
    - intros q Hq. by apply (Hu q), Hu1.
    - rewrite <-Permutation_middle. by constructor.
    - lia.
    - exists F', p'. split; [done|]. rewrite <-app_assoc. split; [done|]. split; [done|]. lia. }
  destruct (Hg [(m4K, 5000); (m16K, 1000); (m64K, 500); (m256K, 200); (m1M, 50); (m4M, 20); (m8M, 10)]
    [] ∅ buf_pool_init) as (F & p & Hn & Hp & Hu & Ht).
  - exact pool_inv_init.
  - intros q [[b Hb] _]. cbn in Hb. by rewrite lookup_empty in Hb.
  - by apply (bool_decide_unpack _).
  - repeat constructor.
  - done.
  - exists F, p. rewrite app_nil_r in Hp. split; [exact Hn|]. split; [exact Hp|]. by split.
Qed.

Lemma used_slot C F p q : pool_inv C F p -> used F p q -> exists b, bp_heap p !! q = Some b /\ b_capacity b ∈ C.
Proof. intros Hp [[b Hb] _]. exists b. split; [done|]. by eapply pi_all. Qed.

(** What an allocation of class [k] gives: a buffer [q] that nobody uses, empty. *)
Record allocated (k : Z) (F : gmap Z (list ptr)) (p : buf_pool) (q : ptr)
    (F' : gmap Z (list ptr)) (p' : buf_pool) : Prop := {
  al_unused : ~ used F p q;
  al_used r : used F' p' r <-> r = q \/ used F p r;
  al_buf : exists b, bp_heap p' !! q = Some b /\ b_capacity b = k /\ b_length b = 0 /\ b_head b = 0;
  al_frame : frame_step (fun _ => False) F p F' p'
}.

Section operations.
Context (C : list Z).
Implicit Types F : gmap Z (list ptr).

(** Buffer [q] of class [k] and the free list of its class change together. *)
Lemma pool_inv_relist F p k q b b' h' l' :
  pool_inv C F p -> k ∈ C -> bp_heap p !! q = Some b -> b_capacity b = k -> b_capacity b' = k ->
  (forall k', k' <> k -> q ∉ F !!! k') -> chain (<[q:=b']> (bp_heap p)) h' l' -> NoDup l' ->
  (forall r, r ∈ l' -> r = q /\ b_length b' = 0 /\ b_head b' = 0 \/ r <> q /\ r ∈ F !!! k) ->
  pool_inv C (<[k:=l']> F) (put_buf q b' (bp_set_pool k h' p)).
Proof.
  intros Hp Hk Hb Hcap Hcap' Hother Hch Hnd Hl'. constructor; cbn; try apply Hp.
  - intros k' Hk'. destruct (decide (k' = k)) as [->|Hne].
    + rewrite lookup_insert_eq, lookup_total_insert_eq. by eexists.
    + rewrite lookup_insert_ne, lookup_total_insert_ne by done.
      destruct (pi_slots _ _ _ Hp k' Hk') as (h & Hh & Hc). exists h. split; [done|]. eapply chain_ext, Hc.
      intros r Hr. rewrite lookup_insert_ne; [done|]. intros <-. by apply (Hother k').
  - intros k' Hk'. rewrite lookup_total_insert_ne by (intros ->; done). by apply Hp.
  - intros k' r Hr. destruct (decide (k' = k)) as [->|Hne].
    + rewrite lookup_total_insert_eq in Hr. destruct (Hl' r Hr) as [(-> & ? & ?)|[Hrq Hrk]].
      * exists b'. by rewrite lookup_insert_eq.
      * rewrite lookup_insert_ne by done. by eapply pi_free.
    + rewrite lookup_total_insert_ne in Hr by done. rewrite lookup_insert_ne by (intros <-; by apply (Hother k')). by eapply pi_free.
  - intros k'. destruct (decide (k' = k)) as [->|]; [by rewrite lookup_total_insert_eq|].
    rewrite lookup_total_insert_ne by done. apply Hp.
  - intros r b0 [[<- <-]|[_ Hr]]%lookup_insert_Some; [by rewrite Hcap'|by eapply pi_all].
  - intros r b0 [[<- <-]|[_ Hr]]%lookup_insert_Some; by eapply pi_fresh.
  - erewrite heap_kb_update by (done || congruence). apply Hp.
Qed.

(** A buffer is on the list of its own class only. *)
Lemma pool_one_list F p k k' q b :
  pool_inv C F p -> bp_heap p !! q = Some b -> b_capacity b = k -> q ∈ F !!! k' -> k' = k.
Proof. intros Hp Hb Hc Hq. destruct (pi_free _ _ _ Hp _ _ Hq) as (b2 & Hb2 & Hc2 & _). congruence. Qed.

Lemma free_insert F k l r : free (<[k:=l]> F) r <-> r ∈ l \/ exists k', k' <> k /\ r ∈ F !!! k'.
Proof.
  split.
  - intros [k' Hr]. destruct (decide (k' = k)) as [->|Hne]; [left; by rewrite lookup_total_insert_eq in Hr|right].
    exists k'. by rewrite lookup_total_insert_ne in Hr.
  - intros [Hr|(k' & Hne & Hr)]; [exists k; by rewrite lookup_total_insert_eq|exists k'; by rewrite lookup_total_insert_ne].
Qed.

Lemma free_split F k r : free F r <-> r ∈ F !!! k \/ exists k', k' <> k /\ r ∈ F !!! k'.
Proof.
  split; [|intros [Hr|(k' & _ & Hr)]; by eexists]. intros [k' Hr]. destruct (decide (k' = k)) as [->|Hne]; [by left|right; by exists k'].
Qed.

Lemma alloc_reuse F p k q l :
  pool_inv C F p -> k ∈ C -> F !!! k = q :: l ->
  exists b p', bp_heap p !! q = Some b /\
    bp_pool p !! k = Some (Some q) /\
    p' = put_buf q (b_set_next None b) (bp_set_pool k (b_next b) p) /\
    pool_inv C (<[k:=l]> F) p' /\ allocated k F p q (<[k:=l]> F) p'.
Proof.
  intros Hp Hk Hq. destruct (pi_slots _ _ _ Hp k Hk) as (h & Hh & Hch). rewrite Hq in Hch.
  destruct Hch as (-> & b & Hb & Hch). destruct (pi_free _ _ _ Hp k q) as (b' & Hb' & Hcap & Hlen & Hhd).
  { rewrite Hq. by left. }
  rewrite Hb in Hb'. injection Hb' as <-.
  pose proof (pi_nodup _ _ _ Hp k) as Hnd. rewrite Hq in Hnd. apply NoDup_cons in Hnd as [Hql Hnd].
  assert (forall k', k' <> k -> q ∉ F !!! k') as Hother by (intros k' Hne Hin; by eapply Hne, pool_one_list).
  assert (forall r, r ∈ l -> r <> q) as Hne by (intros r Hr ->; done).
  exists b. eexists. split; [done|]. split; [done|]. split; [done|]. split.
  { eapply pool_inv_relist; try done.
    - eapply chain_ext, Hch. intros r Hr. rewrite lookup_insert_ne; [done|]. intros ->. done.
    - intros r Hr. right. split; [by apply Hne|]. rewrite Hq. by right. }
  assert (forall r, free F r <-> r = q \/ free (<[k:=l]> F) r) as Hfr.
  { intros r. rewrite free_insert, (free_split F k r), Hq, elem_of_cons. tauto. }
  assert (~ free (<[k:=l]> F) q) as Hqf.
  { rewrite free_insert. intros [Hin|(k' & Hk' & Hin)]; [done|by apply (Hother k')]. }
  constructor.
  - intros [_ Hn]. apply Hn, Hfr. by left.
  - intros r. unfold used. cbn. destruct (decide (r = q)) as [->|Hnq].
    + rewrite lookup_insert_eq. split; [by left|]. intros _. split; [by eexists|done].
    + rewrite lookup_insert_ne by done. rewrite Hfr. intuition congruence.
  - exists (b_set_next None b). cbn. by rewrite lookup_insert_eq.
  - intros r [Hs Hn] _. assert (r <> q) by (intros ->; apply Hn, Hfr; by left).
    unfold used. cbn. rewrite lookup_insert_ne by done. split; [|done]. split; [done|].
    intros ?. apply Hn, Hfr. by right.
Qed.

Lemma alloc_fresh F p k :
  pool_inv C F p -> k ∈ C -> 0 <= k -> bp_total p + k / 1024 < MEM_LIMIT ->
  allocated k F p (bp_fresh p) F (bp_add_total (k / 1024) (new_io_buf k p).2).
Proof.
  intros Hp Hk Hc Hlim.
  assert (bp_heap p !! bp_fresh p = None) as Hn.
  { destruct (bp_heap p !! bp_fresh p) eqn:He; [|done]. apply (pi_fresh _ _ _ Hp) in He. lia. }
  assert (~ free F (bp_fresh p)) as Hnf.
  { intros [k' Hr]. destruct (pi_free _ _ _ Hp _ _ Hr) as (b & Hb & _). congruence. }
  constructor; cbn.
  - intros [[b Hb] _]. congruence.
  - intros r. unfold used. cbn. destruct (decide (r = bp_fresh p)) as [->|Hne].
    + rewrite lookup_insert_eq. split; [by left|]. intros _. split; [by eexists|done].
    + rewrite lookup_insert_ne by done. intuition congruence.
  - exists (io_buf_new k). by rewrite lookup_insert_eq.
  - intros r [[b Hb] Hfr] _. assert (bp_fresh p <> r) by congruence. unfold used. cbn. by rewrite lookup_insert_ne.
Qed.

(** [alloc_buf], every branch. *)
Lemma alloc_buf_spec F p N :
  (forall k, size_class N = Some k -> k ∈ C) -> pool_inv C F p ->
  match size_class N with
  | None => alloc_buf N p = Ok (None, p)
  | Some k =>
      match F !!! k with
      | q :: l => exists p', alloc_buf N p = Ok (Some q, p') /\ pool_inv C (<[k:=l]> F) p' /\
          bp_total p' = bp_total p /\ allocated k F p q (<[k:=l]> F) p'
      | [] =>
          if MEM_LIMIT <=? bp_total p + k / 1024 then alloc_buf N p = Err ExitFailure
          else exists q p', alloc_buf N p = Ok (Some q, p') /\ pool_inv C F p' /\
            bp_total p' = bp_total p + k / 1024 /\ allocated k F p q F p'
      end
  end.
Proof.
  intros HC Hp. unfold alloc_buf. destruct (size_class N) as [k|] eqn:Hs; [|done].
  specialize (HC k eq_refl). apply size_class_spec in Hs as (Hk & _).
  apply classes_size in Hk as (_ & Hpos & Hkb).
  pose proof (pi_limit _ _ _ Hp) as Hlim. assert (MEM_LIMIT = 5242880) as HM by done.
  unfold pool_slot. destruct (F !!! k) as [|q l] eqn:Hf.
  - destruct (pi_slots _ _ _ Hp k HC) as (h & Hh & Hch). rewrite Hf in Hch. cbn in Hch. subst h.
    rewrite Hh. cbn [bp_total]. rewrite u64_id by (unfold is_u64; lia).
    destruct (MEM_LIMIT <=? bp_total p + k / 1024) eqn:Hle; cbn [negb]; [done|].
    do 2 eexists. split; [done|]. split; [apply pool_inv_new; try done; lia|].
    split; [cbn; apply u64_id; unfold is_u64; lia|]. apply alloc_fresh; try done; lia.
  - destruct (alloc_reuse F p k q l Hp HC Hf) as (b & p' & Hb & Hh & Hp' & Hinv & Hal).
    rewrite Hh. unfold get_buf, set_next. rewrite Hb. cbn [mbind res_bind of_option].
    unfold get_buf. cbn [bp_heap bp_set_pool]. rewrite Hb. cbn [mbind res_bind of_option].
    exists p'. rewrite Hp' at 1. split; [done|]. split; [done|]. split; [by rewrite Hp'|done].
Qed.

(** [revert] of a buffer in use: it heads the free list of its class, nothing
    else in use changes, and the assert holds. *)
Lemma revert_spec F p q :
  pool_inv C F p -> used F p q ->
  exists b F' p', bp_heap p !! q = Some b /\ F' = <[b_capacity b := q :: F !!! b_capacity b]> F /\
    revert q p = Ok p' /\ pool_inv C F' p' /\ bp_total p' = bp_total p /\
    (forall r, used F' p' r <-> r <> q /\ used F p r) /\ frame_step (fun r => r = q) F p F' p'.
Proof.
  intros Hp Hu. destruct (used_slot C F p q Hp Hu) as (b & Hb & Hk). set (k := b_capacity b) in *.
  destruct Hu as [_ Hnf]. destruct (pi_slots _ _ _ Hp k Hk) as (h & Hh & Hch).
  set (F' := <[k := q :: F !!! k]> F).
  set (b' := b_set_next h (b_clear b)).
  set (p' := bp_set_pool k (Some q) (put_buf q b' p)).
  assert (revert q p = Ok p') as Hr.
  { unfold revert, get_buf. rewrite Hb. cbn [mbind res_bind of_option]. fold k.
    rewrite bool_decide_true by (cbn; by eexists). unfold pool_slot. cbn [bp_pool put_buf bp_set_heap].
    rewrite Hh. unfold set_next, get_buf. cbn [bp_heap put_buf bp_set_heap]. rewrite lookup_insert_eq.
    cbn. unfold p', b', put_buf, bp_set_pool, bp_set_heap. cbn. by rewrite insert_insert_eq. }
  assert (forall r, free F' r <-> r = q \/ free F r) as Hfr.
  { intros r. unfold F'. rewrite free_insert, (free_split F k r), elem_of_cons. tauto. }
  exists b, F', p'. split; [done|]. split; [done|]. split; [done|]. split; [|split; [done|split]].
  - eapply (pool_inv_relist F p k q b b' (Some q)); try done.
    + intros k' _ Hin. apply Hnf. by exists k'.
    + split; [done|]. exists b'. rewrite lookup_insert_eq. split; [done|]. cbn. eapply chain_ext, Hch.
      intros r Hr'. rewrite lookup_insert_ne; [done|]. intros ->. apply Hnf. by exists k.
    + constructor; [|apply Hp]. intros ?. apply Hnf. by exists k.
    + intros r [->|Hr']%elem_of_cons; [by left|right]. split; [|done]. intros ->. apply Hnf. by exists k.
  - intros r. unfold used. cbn. rewrite Hfr. destruct (decide (r = q)) as [->|Hne].
    + rewrite lookup_insert_eq. intuition congruence.
    + rewrite lookup_insert_ne by done. intuition congruence.
  - intros r [Hs Hn] Hne. unfold used. cbn. rewrite lookup_insert_ne by done. rewrite Hfr.
    split; [|done]. split; [done|]. by intros [->|?].
Qed.
End operations.

(** ** Clients of the pool

    A client asks for buffers and gives back ones it holds, in any order; [i]
    picks which. *)
Inductive pool_call :=
| Alloc (N : Z)
| Release (i : nat).

Definition pool_exec (st : list ptr * buf_pool) (c : pool_call) : res (list ptr * buf_pool) :=
  let '(own, p) := st in
  match c with
  | Alloc N =>
      '(r, p) ← alloc_buf N p;
      Ok (match r with Some q => q :: own | None => own end, p)
  | Release i =>
      match own !! i with
      | Some q => p ← revert q p; Ok (delete i own, p)
      | None => Ok (own, p)
      end
  end.

Definition clients_ok (st : list ptr * buf_pool) : Prop :=
  exists F, pool_inv (rev classes) F st.2 /\ NoDup st.1 /\ (forall q, q ∈ st.1 <-> used F st.2 q).

Lemma elem_of_classes k : k ∈ rev classes <-> k ∈ classes.
Proof. rewrite !list_elem_of_In. symmetry. apply in_rev. Qed.

Lemma class_known N k : size_class N = Some k -> k ∈ rev classes.
Proof. intros (Hk & _)%size_class_spec. by apply elem_of_classes. Qed.

Lemma pool_exec_ok st c :
  clients_ok st -> match pool_exec st c with Ok st' => clients_ok st' | Err f => f = ExitFailure end.
Proof.
  destruct st as [own p]. intros (F & Hp & Hnd & Hown). cbn in Hp, Hown.
  assert (forall k q p' F', pool_inv (rev classes) F' p' -> allocated k F p q F' p' -> clients_ok (q :: own, p')) as Hg.
  { intros k q p' F' Hp' Hal. exists F'. split; [done|]. split.
    - cbn. constructor; [|done]. intros Hq%Hown. by apply (al_unused _ _ _ _ _ _ Hal).
    - intros r. cbn. rewrite elem_of_cons, Hown. symmetry. apply Hal. }
  destruct c as [N|i]; cbn.
  - pose proof (alloc_buf_spec (rev classes) F p N (class_known N) Hp) as Ha.
    destruct (size_class N) as [k|]; [|rewrite Ha; by exists F].
    destruct (F !!! k) as [|q l].
    + destruct (MEM_LIMIT <=? bp_total p + k / 1024); [by rewrite Ha|].
      destruct Ha as (q & p' & -> & Hp' & _ & Hal). cbn. by eapply Hg.
    + destruct Ha as (p' & -> & Hp' & _ & Hal). cbn. by eapply Hg.
  - destruct (own !! i) as [q|] eqn:Hi; [|by exists F].
    destruct (revert_spec (rev classes) F p q Hp) as (b & F' & p' & _ & _ & -> & Hp' & _ & Hu & _).
    { apply Hown. by eapply list_elem_of_lookup_2. }
    cbn. exists F'. pose proof (delete_Permutation _ _ _ Hi) as Hperm. cbn. rewrite Hperm in Hnd.
    apply NoDup_cons in Hnd as [Hq Hnd]. split; [done|]. split; [done|].
    intros r. rewrite Hu, <-Hown. clear -Hq Hperm. set (l := delete i own) in *. clearbody l.
    rewrite Hperm, elem_of_cons. split; [|tauto]. intros Hr. split; [by intros ->|by right].
Qed.

(** The first allocation of a process succeeds. *)
Lemma first_alloc N k :
  size_class N = Some k -> exists F p q F' p', buf_pool_new = Ok p /\ pool_inv (rev classes) F p /\
    alloc_buf N p = Ok (Some q, p') /\ pool_inv (rev classes) F' p' /\ allocated k F p q F' p'.
Proof.
  intros Hk. destruct buf_pool_new_spec as (F & p & Hnew & Hp & Ht & _).
  pose proof (alloc_buf_spec (rev classes) F p N (class_known N) Hp) as Hs. rewrite Hk, Ht in Hs.
  destruct (size_class_spec N k Hk) as (Hc & _). apply classes_size in Hc as (_ & _ & Hc).
  destruct (F !!! k) as [|q l].
  - destruct (MEM_LIMIT <=? 334240 + k / 1024) eqn:E.
    { apply Z.leb_le in E. change MEM_LIMIT with 5242880 in E. lia. }
    destruct Hs as (q & p' & Ha & Hp' & _ & Hal). exists F, p, q, F, p'.
    exact (conj Hnew (conj Hp (conj Ha (conj Hp' Hal)))).
  - destruct Hs as (p' & Ha & Hp' & _ & Hal). exists F, p, q, (<[k:=l]> F), p'.
    exact (conj Hnew (conj Hp (conj Ha (conj Hp' Hal)))).
Qed.

(** ** Properties *)

(** C13: However many buffers the connections of a process take from the pool and
    give back, in whatever order, no buffer is ever held twice, every buffer held
    has one of the seven capacities, [_total_mem] is what the buffers occupy and
    stays below the limit, and the only way to fail is the exit at the limit. *)
Theorem pool_clients_safe cs :
  match (p ← buf_pool_new; foldM pool_exec ([], p) cs) with
  | Ok (own, p) =>
      NoDup own /\
      (forall q, q ∈ own -> exists b, bp_heap p !! q = Some b /\ b_capacity b ∈ classes) /\
      bp_total p = heap_kb (bp_heap p) /\ bp_total p < MEM_LIMIT
  | Err f => f = ExitFailure
  end.
Proof.
  destruct buf_pool_new_spec as (F0 & p0 & -> & Hp0 & _ & Hnone). cbn [mbind res_bind].
  assert (clients_ok ([], p0)) as H0.
  { exists F0. split; [done|]. split; [constructor|]. intros q. cbn. rewrite elem_of_nil.
    split; [done|]. apply Hnone. }
  revert H0. generalize ([] : list ptr, p0) as st. induction cs as [|c cs IH]; intros st Hst.
  - destruct st as [own p]. destruct Hst as (F & Hp & Hnd & Hown). cbn in *. split; [done|]. split.
    + intros q Hq. apply Hown in Hq. destruct (used_slot _ F p q Hp Hq) as (b & Hb & Hc).
      exists b. split; [done|]. by apply elem_of_classes.
    + split; apply Hp.
  - cbn [foldM]. pose proof (pool_exec_ok st c Hst) as Hok.
    destruct (pool_exec st c) as [st'|f]; cbn [mbind res_bind]; [by apply IH|done].
Qed.

(** [alloc_buf] answers null exactly above 8M; otherwise the buffer it gives
    was not in use, is empty, and has the least capacity of the pool that holds
    [N] bytes; giving it back and asking for as much again yields the same
    buffer. *)
Theorem alloc_buf_fits F p N r p' :
  pool_inv (rev classes) F p -> alloc_buf N p = Ok (r, p') ->
  match r with
  | None => m8M < N /\ p' = p
  | Some q => ~ used F p q /\ N <= m8M /\
      (exists b, bp_heap p' !! q = Some b /\ N <= b_capacity b /\ b_length b = 0 /\ b_head b = 0 /\
        forall k, k ∈ classes -> N <= k -> b_capacity b <= k) /\
      exists p2 p3, revert q p' = Ok p2 /\ alloc_buf N p2 = Ok (Some q, p3)
  end.
Proof.
  intros Hp Ha. pose proof (alloc_buf_spec (rev classes) F p N (class_known N) Hp) as Hs.
  destruct (size_class N) as [k|] eqn:Hk.
  2:{ rewrite Ha in Hs. injection Hs as -> ->. split; [|done]. unfold size_class in Hk.
      destruct (N <=? m8M) eqn:Hle; [|lia]. by repeat case_match. }
  destruct (size_class_spec N k Hk) as (Hkc & HN & Hmin).
  assert (exists q F', r = Some q /\ pool_inv (rev classes) F' p' /\ allocated k F p q F' p') as (q & F' & -> & Hp' & Hal).
  { destruct (F !!! k) as [|q l].
    - destruct (MEM_LIMIT <=? bp_total p + k / 1024); [congruence|].
      destruct Hs as (q & p1 & Heq & Hp1 & _ & Hal). rewrite Ha in Heq. injection Heq as -> ->. by exists q, F.
    - destruct Hs as (p1 & Heq & Hp1 & _ & Hal). rewrite Ha in Heq. injection Heq as -> ->. by exists q, (<[k:=l]> F). }
  destruct Hal as [Hun Hus (b & Hb & Hc & Hl & Hh) _]. split; [done|].
  split; [unfold classes in Hkc; set_unfold; unfold m4K, m16K, m64K, m256K, m1M, m4M, m8M in *; lia|].
  split; [exists b; rewrite Hc; done|].
  destruct (revert_spec (rev classes) F' p' q Hp') as (b1 & F2 & p2 & Hb1 & HF2 & Hr & Hp2 & _); [apply Hus; by left|].
  pose proof (alloc_buf_spec (rev classes) F2 p2 N (class_known N) Hp2) as Hs2. rewrite Hk in Hs2.
  rewrite Hb in Hb1. injection Hb1 as <-. rewrite HF2, Hc, lookup_total_insert_eq in Hs2.
  destruct Hs2 as (p3 & Heq & _). by exists p2, p3.
Qed.

Lemma alloc_buf_fits_witness : exists p q p', buf_pool_new = Ok p /\ alloc_buf 4097 p = Ok (Some q, p') /\
  exists b, bp_heap p' !! q = Some b /\ 4097 <= b_capacity b.
Proof.
  destruct (first_alloc 4097 m16K eq_refl) as (F & p & q & F' & p' & Hnew & Hp & Ha & _).
  destruct (alloc_buf_fits F p 4097 (Some q) p' Hp Ha) as (_ & _ & (b & Hb & Hcap & _) & _).
  exists p, q, p'. split; [exact Hnew|]. split; [exact Ha|]. exists b. split; [exact Hb|exact Hcap].
Defined.
