(* ===== verification/ReactorBuf.v ===== *)
(** * ReactorBuf: the input and output buffers of a connection (lars_reactor, reactor_buf)

    A [reactor_buf] is its field [_buf]: a pointer into the pool, or null.  The
    operations take and return the pool.  What the kernel answers to a system
    call is an argument: the sequence of results the retry loops see. *)

From S2P Require Import Prelude Bytes BufPool.
From stdpp Require Import base numbers list gmap fin_maps.
From Stdlib Require Import ZArith Lia.
Open Scope Z_scope.

Definition reactor_buf := option ptr.

(** [void clear()] *)
Definition rb_clear (rb : reactor_buf) (p : buf_pool) : res (reactor_buf * buf_pool) :=
  match rb with
  | Some q => p ← revert q p; Ok (None, p)
  | None => Ok (None, p)
  end.

(** [void pop(int len)] *)
Definition rb_pop (len : Z) (rb : reactor_buf) (p : buf_pool) : res (reactor_buf * buf_pool) :=
  match rb with
  | None => Err AssertFail
  | Some q =>
      b ← get_buf p q;
      ensure len <=? b_length b or AssertFail;
      let b := b_pop len b in
      let p := put_buf q b p in
      if b_length b =? 0 then rb_clear rb p else Ok (rb, p)
  end.

(** [int length()] *)
Definition rb_length (rb : reactor_buf) (p : buf_pool) : res Z :=
  match rb with
  | None => Ok 0
  | Some q => b ← get_buf p q; Ok (b_length b)
  end.

(** ** class input_buf *)

(** [n] bytes read through the pointer [data()] returns. *)
Definition rb_peek (n : Z) (rb : reactor_buf) (p : buf_pool) : res bytes :=
  match rb with
  | None => Err NullDeref
  | Some q => b ← get_buf p q; b_read (b_head b) n b
  end.

(** [void adjust()] *)
Definition rb_adjust (rb : reactor_buf) (p : buf_pool) : res buf_pool :=
  match rb with
  | None => Ok p
  | Some q => b ← get_buf p q; b ← b_adjust b; Ok (put_buf q b p)
  end.

(** What one [read(2)] meets: a signal, another error, or the bytes [bs] waiting
    in the socket (none at the end of the stream), of which it takes at most as
    many as it is asked for. *)
Inductive read_result :=
| ReadEintr
| ReadError
| ReadData (bs : bytes).

(** The kernel's side of one [read_data]: the answer of [ioctl(FIONREAD)] and the
    results of the [read]s. *)
Record read_io := { io_nread : option Z; io_reads : list read_result }.

(** [do { ... read ... } while (already_read == -1 && errno == EINTR)] *)
Fixpoint read_retry (rs : list read_result) : res (option bytes) :=
  match rs with
  | [] => Err Blocked
  | ReadEintr :: rs => read_retry rs
  | ReadError :: _ => Ok None
  | ReadData bs :: _ => Ok (Some bs)
  end.

(** The count given to [read]. *)
Definition read_count (need_read : Z) : Z := if need_read =? 0 then m4K else need_read.

(** The end of [read_data]: the bytes go behind the ones the buffer holds. *)
Definition read_into (need_read : Z) (rs : list read_result) (q : ptr) (p : buf_pool)
    : res (Z * reactor_buf * buf_pool) :=
  r ← read_retry rs;
  match r with
  | None => Ok (-1, Some q, p)
  | Some avail =>
      let bs := take (Z.to_nat (read_count need_read)) avail in
      let already_read := Z.of_nat (length bs) in
      if 0 <? already_read then
        b ← get_buf p q;
        b ← b_write (b_length b) bs b;
        ensure (need_read =? 0) || (already_read =? need_read) or AssertFail;
        Ok (already_read, Some q, put_buf q (b_set_length (b_length b + already_read) b) p)
      else Ok (0, Some q, p)
  end.

(** The move to a larger buffer, in [read_data] and in [send_data]: copy, give the
    old one back. *)
Definition move_buf (old new : ptr) (p : buf_pool) : res buf_pool :=
  o ← get_buf p old;
  n ← get_buf p new;
  n ← b_copy o n;
  revert old (put_buf new n p).

(** [int read_data(int fd)] *)
Definition read_data (io : read_io) (rb : reactor_buf) (p : buf_pool) : res (Z * reactor_buf * buf_pool) :=
  match io_nread io with
  | None => Ok (-1, rb, p)
  | Some need_read =>
      match rb with
      | None =>
          '(r, p) ← alloc_buf need_read p;
          match r with
          | None => Ok (-1, None, p)
          | Some q => read_into need_read (io_reads io) q p
          end
      | Some q =>
          b ← get_buf p q;
          ensure b_head b =? 0 or AssertFail;
          if b_capacity b - b_length b <? need_read then
            '(r, p) ← alloc_buf (i32 (need_read + b_length b)) p;
            match r with
            | None => Ok (-1, rb, p)
            | Some new_buf =>
                p ← move_buf q new_buf p;
                read_into need_read (io_reads io) new_buf p
            end
          else read_into need_read (io_reads io) q p
      end
  end.

(** ** class output_buf *)

(** What one [write(2)] meets: a signal, a full socket buffer, another error, or
    room for [n] bytes. *)
Inductive write_result :=
| WriteEintr
| WriteEagain
| WriteError
| WriteRoom (n : nat).

Fixpoint write_retry (ws : list write_result) : res (option (option nat) * list write_result) :=
  match ws with
  | [] => Err Blocked
  | WriteEintr :: ws => write_retry ws
  | WriteEagain :: ws => Ok (Some None, ws)
  | WriteError :: ws => Ok (None, ws)
  | WriteRoom n :: ws => Ok (Some (Some n), ws)
  end.

(** [int write2fd(int fd)]: the result, the bytes that went to the kernel and the
    results of later [write]s. *)
Definition write2fd (ws : list write_result) (rb : reactor_buf) (p : buf_pool)
    : res (Z * bytes * list write_result * buf_pool) :=
  match rb with
  | None => Err AssertFail
  | Some q =>
      b ← get_buf p q;
      ensure b_head b =? 0 or AssertFail;
      bs ← b_read 0 (b_length b) b;
      '(r, ws) ← write_retry ws;
      match r with
      | None => Ok (-1, [], ws, p)
      | Some None => Ok (0, [], ws, p)
      | Some (Some n) =>
          let out := take n bs in
          let already_write := Z.of_nat (length out) in
          if 0 <? already_write then
            b ← b_adjust (b_pop already_write b);
            Ok (already_write, out, ws, put_buf q b p)
          else Ok (already_write, out, ws, p)
      end
  end.

(** The end of [send_data]: [memcpy] behind the bytes the buffer holds. *)
Definition append_data (data : bytes) (q : ptr) (p : buf_pool) : res (Z * reactor_buf * buf_pool) :=
  b ← get_buf p q;
  b ← b_write (b_length b) data b;
  Ok (0, Some q, put_buf q (b_set_length (b_length b + length data) b) p).

(** [int send_data(const char *data, int datalen)] *)
Definition send_data (data : bytes) (rb : reactor_buf) (p : buf_pool) : res (Z * reactor_buf * buf_pool) :=
  let datalen := Z.of_nat (length data) in
  match rb with
  | None =>
      '(r, p) ← alloc_buf datalen p;
      match r with
      | None => Ok (-1, None, p)
      | Some q => append_data data q p
      end
  | Some q =>
      b ← get_buf p q;
      ensure b_head b =? 0 or AssertFail;
      if b_capacity b - b_length b <? datalen then
        '(r, p) ← alloc_buf (i32 (datalen + b_length b)) p;
        match r with
        | None => Ok (-1, rb, p)
        | Some new_buf =>
            p ← move_buf q new_buf p;
            append_data data new_buf p
        end
      else append_data data q p
  end.

(** ** Abstraction: a buffer is a queue of bytes *)

Abbreviation pool_ok := (pool_inv (rev classes)).

(** [b] holds exactly the bytes [bs] between [head] and [head + length]. *)
Record buf_holds (b : io_buf) (bs : bytes) : Prop := {
  bh_length : b_length b = length bs;
  bh_head : 0 <= b_head b;
  bh_fits : b_head b + length bs <= b_capacity b;
  bh_data : mem_holds (b_data b) (b_head b) bs
}.

Definition holds_bytes (p : buf_pool) (rb : reactor_buf) (bs : bytes) : Prop :=
  match rb with
  | None => bs = []
  | Some q => exists b, bp_heap p !! q = Some b /\ buf_holds b bs
  end.

(** The read position is at the start, as between two events. *)
Definition at_start (p : buf_pool) (rb : reactor_buf) : Prop :=
  match rb with
  | None => True
  | Some q => exists b, bp_heap p !! q = Some b /\ b_head b = 0
  end.

(** The pool is sound and [rb] owns its buffer. *)
Record owns (F : gmap Z (list ptr)) (p : buf_pool) (rb : reactor_buf) : Prop := {
  ow_pool : pool_ok F p;
  ow_used q : rb = Some q -> used F p q
}.

(** What an operation on [rb] may do to the rest of the process: the buffers of
    the others stay theirs and unchanged, a new buffer was nobody's, and no
    buffer leaks. *)
Record rb_step (F : gmap Z (list ptr)) (p : buf_pool) (rb : reactor_buf)
    (F' : gmap Z (list ptr)) (p' : buf_pool) (rb' : reactor_buf) : Prop := {
  rs_owns : owns F' p' rb';
  rs_new q : rb' = Some q -> rb = Some q \/ ~ used F p q;
  rs_frame : frame_step (fun r => rb = Some r) F p F' p';
  rs_noleak r : used F' p' r -> rb' = Some r \/ (used F p r /\ rb <> Some r)
}.

Section abstraction.
Implicit Types F : gmap Z (list ptr).

Lemma rb_step_refl F p rb : owns F p rb -> rb_step F p rb F p rb.
Proof.
  intros Ho. constructor; [done|by left|apply frame_refl|].
  intros r Hr. destruct (decide (rb = Some r)); [by left|by right].
Qed.

Lemma rb_step_trans F1 p1 rb1 F2 p2 rb2 F3 p3 rb3 :
  rb_step F1 p1 rb1 F2 p2 rb2 -> rb_step F2 p2 rb2 F3 p3 rb3 -> rb_step F1 p1 rb1 F3 p3 rb3.
Proof.
  intros [_ N1 R1 L1] [O2 N2 R2 L2]. constructor; [done| | |].
  - intros q Hq. destruct (decide (rb1 = Some q)) as [|Hne]; [by left|right]. intros Hu.
    destruct (N2 q Hq) as [H2|H2].
    + by destruct (N1 q H2).
    + apply H2. by apply (R1 q).
  - intros r Hr Hne. destruct (R1 r Hr Hne) as [Hr2 He2].
    destruct (R2 r Hr2) as [Hr3 He3]; [|by rewrite He3].
    intros H2. by destruct (N1 r H2).
  - intros r Hr. destruct (L2 r Hr) as [|[H2 Hne]]; [by left|right]. destruct (L1 r H2) as [|]; done.
Qed.

Lemma rb_step_put F p q b b' :
  owns F p (Some q) -> bp_heap p !! q = Some b -> b_capacity b' = b_capacity b ->
  rb_step F p (Some q) F (put_buf q b' p) (Some q).
Proof.
  intros [Hp Hu] Hb Hc. pose proof (Hu q eq_refl) as Hq. constructor.
  - constructor; [by eapply pool_inv_put|]. intros r [= <-]. by apply used_put.
  - by left.
  - eapply frame_weaken, frame_put; [|done]. by intros r ->.
  - intros r Hr. destruct (decide (r = q)) as [->|]; [by left|right].
    apply used_put in Hr; [|done]. split; [done|congruence].
Qed.

Lemma rb_step_alloc k F p q F' p' :
  pool_ok F' p' -> allocated k F p q F' p' -> rb_step F p None F' p' (Some q).
Proof.
  intros Hp Hal. constructor.
  - constructor; [done|]. intros r [= <-]. apply Hal. by left.
  - intros r [= <-]. right. apply Hal.
  - eapply frame_weaken, Hal. done.
  - intros r Hr. apply (al_used _ _ _ _ _ _ Hal) in Hr as [->|Hr]; [by left|by right].
Qed.

Lemma holds_length p rb bs : holds_bytes p rb bs -> rb_length rb p = Ok (Z.of_nat (length bs)).
Proof.
  destruct rb as [q|]; cbn; [|by intros ->]. intros (b & Hb & Hh).
  unfold get_buf. rewrite Hb. cbn. by rewrite (bh_length _ _ Hh).
Qed.

Lemma buf_read_holds b bs (n : nat) :
  buf_holds b bs -> (n <= length bs)%nat -> b_read (b_head b) n b = Ok (take n bs).
Proof.
  intros [Hl Hh Hf Hd] Hn. unfold b_read, in_array.
  destruct (0 <=? b_head b) eqn:E1; [|lia]. destruct (0 <=? Z.of_nat n) eqn:E2; [|lia].
  destruct (b_head b + n <=? b_capacity b) eqn:E3; [|lia]. cbn.
  replace (mem_read (b_head b) n (b_data b)) with (Some (take n bs)); [done|].
  symmetry. apply mem_read_holds; [lia|]. split; [rewrite length_take; lia|by apply holds_take].
Qed.

Lemma peek_holds p rb bs (n : nat) :
  holds_bytes p rb bs -> (0 < n <= length bs)%nat -> rb_peek n rb p = Ok (take n bs).
Proof.
  destruct rb as [q|]; cbn; [|intros ->; cbn; lia]. intros (b & Hb & Hh) Hn.
  unfold get_buf. rewrite Hb. cbn. apply buf_read_holds; [done|lia].
Qed.

(** What others hold is what they held. *)
Lemma holds_frame F p rb F' p' rb' rb0 bs :
  rb_step F p rb F' p' rb' -> owns F p rb0 -> (forall q, rb0 = Some q -> rb <> Some q) ->
  holds_bytes p rb0 bs -> holds_bytes p' rb0 bs /\ (at_start p rb0 -> at_start p' rb0) /\
    owns F' p' rb0 /\ (forall q, rb0 = Some q -> rb' <> Some q).
Proof.
  intros Hs Ho Hne Hh. destruct rb0 as [q|]; cbn in *.
  - destruct (rs_frame _ _ _ _ _ _ Hs q) as [Hu He]; [by apply Ho|by apply Hne|].
    rewrite He. split; [done|]. split; [done|]. split.
    + constructor; [apply Hs|]. by intros ? [= <-].
    + intros ? [= <-] Hq. destruct (rs_new _ _ _ _ _ _ Hs q Hq) as [H|H]; [by apply (Hne q)|].
      apply H. by apply Ho.
  - split; [done|]. split; [done|]. split; [|done]. constructor; [apply Hs|done].
Qed.
End abstraction.

Lemma take_length_take {A} n (l : list A) : take n l = take (length (take n l)) l.
Proof. rewrite length_take. rewrite <-take_take. by rewrite (take_ge l (length l)) by lia. Qed.

Section specs.
Implicit Types F : gmap Z (list ptr).

Lemma alloc_cases F p N :
  pool_ok F p ->
  alloc_buf N p = Err ExitFailure \/ (m8M < N /\ alloc_buf N p = Ok (None, p)) \/
  exists q k F' p', alloc_buf N p = Ok (Some q, p') /\ pool_ok F' p' /\ N <= k /\ allocated k F p q F' p'.
Proof.
  intros Hp. pose proof (alloc_buf_spec (rev classes) F p N (class_known N) Hp) as Hs.
  destruct (size_class N) as [k|] eqn:Hk.
  2:{ right. left. split; [|done]. unfold size_class in Hk. destruct (N <=? m8M) eqn:Hle; [by repeat case_match|lia]. }
  apply size_class_spec in Hk as (_ & HN & _). destruct (F !!! k) as [|q l].
  - destruct (MEM_LIMIT <=? bp_total p + k / 1024); [by left|].
    destruct Hs as (q & p' & Heq & Hp' & _ & Hal). right. right. by exists q, k, F, p'.
  - destruct Hs as (p' & Heq & Hp' & _ & Hal). right. right. by exists q, k, (<[k:=l]> F), p'.
Qed.

Lemma allocated_holds k F p q F' p' :
  allocated k F p q F' p' -> 0 <= k ->
  exists b, bp_heap p' !! q = Some b /\ b_capacity b = k /\ b_head b = 0 /\ buf_holds b [].
Proof.
  intros Hal Hk. destruct (al_buf _ _ _ _ _ _ Hal) as (b & Hb & Hc & Hl & Hh).
  exists b. split; [done|]. split; [done|]. split; [done|].
  constructor; cbn; [done|lia|lia|apply holds_nil].
Qed.

Lemma rb_clear_spec F p rb :
  owns F p rb -> exists F' p', rb_clear rb p = Ok (None, p') /\ rb_step F p rb F' p' None.
Proof.
  intros Ho. destruct rb as [q|]; cbn; [|exists F, p; split; [done|by apply rb_step_refl]].
  destruct (revert_spec _ F p q (ow_pool _ _ _ Ho)) as (b & F' & p' & _ & _ & -> & Hp' & _ & Hu & Hf).
  { by apply (ow_used _ _ _ Ho). }
  cbn. exists F', p'. split; [done|]. constructor; try done.
  - eapply frame_weaken, Hf. by intros r ->.
  - intros r [Hne Hr]%Hu. right. split; [done|]. congruence.
Qed.

Lemma rb_pop_spec F p rb bs (n : nat) :
  owns F p rb -> holds_bytes p rb bs -> (n <= length bs)%nat -> rb <> None ->
  exists F' p' rb', rb_pop n rb p = Ok (rb', p') /\ rb_step F p rb F' p' rb' /\
    holds_bytes p' rb' (drop n bs) /\ (rb' = None <-> n = length bs) /\ (forall q, rb' = Some q -> rb = Some q).
Proof.
  intros Ho Hh Hn Hne. destruct rb as [q|]; [|done]. cbn in Hh. destruct Hh as (b & Hb & Hbs).
  unfold rb_pop, get_buf. rewrite Hb. cbn [mbind res_bind of_option]. rewrite (bh_length _ _ Hbs).
  destruct (Z.of_nat n <=? Z.of_nat (length bs)) eqn:E; [|lia].
  assert (rb_step F p (Some q) F (put_buf q (b_pop n b) p) (Some q)) as Hs by (by eapply rb_step_put).
  cbn [b_length b_pop]. rewrite (bh_length _ _ Hbs).
  destruct (Z.of_nat (length bs) - n =? 0) eqn:E0.
  - destruct (rb_clear_spec F _ _ (rs_owns _ _ _ _ _ _ Hs)) as (F' & p' & Hc & Hs2).
    exists F', p', None. split; [done|]. split; [by eapply rb_step_trans|].
    assert (n = length bs) as -> by lia. rewrite drop_all. done.
  - exists F, (put_buf q (b_pop n b) p), (Some q). split; [done|]. split; [done|]. split.
    + exists (b_pop n b). cbn. rewrite lookup_insert_eq. split; [done|].
      destruct Hbs as [Hl Hhd Hf Hd]. constructor; cbn; rewrite ?length_drop; try lia. by apply holds_drop.
    + split; [|done]. split; [done|]. lia.
Qed.

Lemma rb_adjust_spec F p rb bs :
  owns F p rb -> holds_bytes p rb bs ->
  exists p', rb_adjust rb p = Ok p' /\ rb_step F p rb F p' rb /\ holds_bytes p' rb bs /\ at_start p' rb.
Proof.
  intros Ho Hh. destruct rb as [q|]; cbn; [|exists p; split; [done|]; split; [by apply rb_step_refl|done]].
  cbn in Hh. destruct Hh as (b & Hb & Hbs). unfold get_buf. rewrite Hb. cbn.
  assert (exists b', b_adjust b = Ok b' /\ b_capacity b' = b_capacity b /\ buf_holds b' bs /\ b_head b' = 0)
    as (b' & -> & Hc & Hbs' & Hh').
  { unfold b_adjust. destruct (b_head b =? 0) eqn:E; cbn.
    { exists b. split; [done|]. split; [done|]. split; [done|lia]. }
    destruct Hbs as [Hl Hhd Hf Hd]. rewrite Hl. destruct (Z.of_nat (length bs) =? 0) eqn:E0; cbn.
    - eexists. split; [done|]. split; [done|]. split; [|done].
      destruct bs; [|discriminate]. constructor; cbn; [done|lia|cbn in *; lia|apply holds_nil].
    - rewrite (buf_read_holds b bs) by (constructor || lia; done). rewrite take_ge by lia. cbn.
      unfold b_write, in_array. destruct (0 <=? Z.of_nat (length bs)) eqn:E1; [|lia].
      destruct (0 + length bs <=? b_capacity b) eqn:E2; [|lia]. cbn.
      eexists. split; [done|]. split; [done|]. split; [|done]. constructor; cbn; [done|lia|lia|apply holds_write]. }
  cbn. exists (put_buf q b' p). split; [done|]. split; [by eapply rb_step_put|].
  cbn. rewrite lookup_insert_eq. split; by exists b'.
Qed.

(** Appending inside the capacity. *)
Lemma b_append b bs data :
  buf_holds b bs -> b_head b = 0 -> length data <= b_capacity b - length bs ->
  exists b', b_write (b_length b) data b = Ok b' /\ b_capacity b' = b_capacity b /\ b_head b' = 0 /\
    buf_holds (b_set_length (b_length b' + length data) b') (bs ++ data).
Proof.
  intros [Hl Hh Hf Hd] Hz Hc. unfold b_write, in_array. rewrite Hl, Hz in *.
  destruct (0 <=? Z.of_nat (length bs)) eqn:E1; [|lia]. destruct (0 <=? Z.of_nat (length data)) eqn:E2; [|lia].
  destruct (length bs + length data <=? b_capacity b) eqn:E3; [|lia]. cbn.
  eexists. split; [done|]. split; [done|]. split; [done|].
  constructor; cbn; rewrite ?length_app, ?Hl, ?Hz; try lia. by apply (holds_write_append _ 0).
Qed.

Lemma append_data_spec F p q b bs data :
  owns F p (Some q) -> bp_heap p !! q = Some b -> buf_holds b bs -> b_head b = 0 ->
  length data <= b_capacity b - length bs ->
  exists p', append_data data q p = Ok (0, Some q, p') /\ rb_step F p (Some q) F p' (Some q) /\
    holds_bytes p' (Some q) (bs ++ data) /\ at_start p' (Some q).
Proof.
  intros Ho Hb Hbs Hz Hc. unfold append_data, get_buf. rewrite Hb. cbn [mbind res_bind of_option].
  destruct (b_append b bs data Hbs Hz Hc) as (b' & -> & Hcap & Hz' & Hbs'). cbn.
  eexists. split; [done|]. split; [by eapply rb_step_put|]. cbn. rewrite lookup_insert_eq.
  split; eexists; done.
Qed.

(** Growing: a buffer of at least [N] bytes takes over the content. *)
Lemma grow_spec F p q bs N :
  owns F p (Some q) -> holds_bytes p (Some q) bs -> length bs <= N ->
  alloc_buf N p = Err ExitFailure \/ (m8M < N /\ alloc_buf N p = Ok (None, p)) \/
  exists q' p1 F' p' b', alloc_buf N p = Ok (Some q', p1) /\ move_buf q q' p1 = Ok p' /\
    rb_step F p (Some q) F' p' (Some q') /\
    bp_heap p' !! q' = Some b' /\ buf_holds b' bs /\ b_head b' = 0 /\ N <= b_capacity b'.
Proof.
  intros Ho (b & Hb & Hbs) HN. destruct (alloc_cases F p N (ow_pool _ _ _ Ho)) as [|[|Ha]]; [by left|by right; left|].
  right; right. destruct Ha as (q' & k & F1 & p1 & Ha & Hp1 & Hk & Hal).
  pose proof (ow_used _ _ _ Ho q eq_refl) as Hq.
  assert (q <> q') as Hne by (intros ->; by apply (al_unused _ _ _ _ _ _ Hal)).
  destruct (al_frame _ _ _ _ _ _ Hal q Hq) as [Hq1 Hb1]; [by intros []|]. rewrite Hb in Hb1.
  destruct (allocated_holds _ _ _ _ _ _ Hal) as (n & Hn & Hcap & Hnh & Hns); [lia|].
  assert (used F1 p1 q') as Hq' by (apply Hal; by left).
  assert (exists n', b_copy b n = Ok n' /\ b_capacity n' = k /\ b_head n' = 0 /\ buf_holds n' bs)
    as (n' & Hcopy & Hcap' & Hh' & Hns').
  { unfold b_copy. destruct Hbs as [Hl Hhd Hf Hd]. rewrite Hl.
    rewrite (buf_read_holds b bs) by (constructor || lia; done). rewrite take_ge by lia. cbn.
    unfold b_write, in_array. destruct (0 <=? Z.of_nat (length bs)) eqn:E1; [|lia].
    destruct (0 + length bs <=? b_capacity n) eqn:E2; [|lia]. cbn.
    eexists. split; [done|]. split; [done|]. split; [done|]. constructor; cbn; [done|lia|lia|apply holds_write]. }
  set (p2 := put_buf q' n' p1).
  assert (pool_ok F1 p2) as Hp2 by (eapply pool_inv_put; [done|done|exact Hn|by rewrite Hcap, Hcap']).
  assert (used F1 p2 q) as Hq2 by (by apply used_put).
  destruct (revert_spec _ F1 p2 q Hp2 Hq2) as (b2 & F' & p' & Hb2 & _ & Hr & Hp' & _ & Hu & Hf).
  assert (used F1 p2 q') as Hq2' by (by apply used_put).
  destruct (Hf q' Hq2') as [_ He]; [by intros ->|].
  exists q', p1, F', p', n'. split; [done|]. split.
  { unfold move_buf, get_buf. rewrite Hb1. cbn [mbind res_bind of_option]. rewrite Hn.
    cbn [mbind res_bind of_option]. rewrite Hcopy. exact Hr. }
  split; [|split; [rewrite He; cbn; apply lookup_insert_eq|split; [done|split; [done|lia]]]].
  constructor.
  - constructor; [done|]. intros r [= <-]. by apply Hu.
  - intros r [= <-]. right. apply Hal.
  - intros r Hr' Hrne. destruct (al_frame _ _ _ _ _ _ Hal r Hr') as [H1 He1]; [by intros []|].
    assert (r <> q') by (intros ->; by apply (al_unused _ _ _ _ _ _ Hal)).
    destruct (Hf r) as [H2 He2]; [by apply used_put|congruence|]. split; [done|].
    rewrite He2. cbn. by rewrite lookup_insert_ne.
  - intros r [Hr1 Hr2]%Hu. apply used_put in Hr2; [|done].
    apply (al_used _ _ _ _ _ _ Hal) in Hr2 as [->|Hr2]; [by left|right]. split; [done|congruence].
Qed.

(** [send_data]: the bytes are queued behind the pending ones, or nothing happens
    (more than 8M pending), or the process exits at the memory limit. *)
Lemma send_data_spec F p rb bs data :
  owns F p rb -> holds_bytes p rb bs -> at_start p rb -> length bs + length data < 2 ^ 31 ->
  send_data data rb p = Err ExitFailure \/
  (m8M < length bs + length data /\ send_data data rb p = Ok (-1, rb, p)) \/
  exists F' p' rb', send_data data rb p = Ok (0, rb', p') /\ rb_step F p rb F' p' rb' /\
    holds_bytes p' rb' (bs ++ data) /\ at_start p' rb' /\ rb' <> None.
Proof.
  intros Ho Hh Hst Hmax. unfold send_data. destruct rb as [q|].
  - destruct Hh as (b & Hb & Hbs). destruct Hst as (? & Hb2 & Hz). rewrite Hb in Hb2. injection Hb2 as <-.
    unfold get_buf. rewrite Hb. cbn [mbind res_bind of_option]. rewrite Hz. cbn.
    rewrite (bh_length _ _ Hbs).
    destruct (b_capacity b - length bs <? length data) eqn:E.
    + rewrite i32_id by (unfold is_i32; lia).
      destruct (grow_spec F p q bs (length data + length bs) Ho) as [->|[[Hm ->]|Hg]]; [by exists b|lia| | |].
      * by left.
      * right. left. split; [lia|done].
      * right. right. destruct Hg as (q' & p1 & F' & p' & b' & -> & Hmv & Hs & Hb' & Hbs' & Hz' & Hcap).
        cbn [mbind res_bind]. rewrite Hmv. cbn [mbind res_bind].
        destruct (append_data_spec F' p' q' b' bs data) as (p2 & -> & Hs2 & Hh2 & Hst2); try done; [apply Hs|lia|].
        exists F', p2, (Some q'). split; [done|]. split; [by eapply rb_step_trans|done].
    + right. right. destruct (append_data_spec F p q b bs data) as (p2 & -> & Hs2 & Hh2 & Hst2); try done; [lia|].
      by exists F, p2, (Some q).
  - cbn in Hh. subst bs. destruct (alloc_cases F p (length data) (ow_pool _ _ _ Ho)) as [->|[[Hm ->]|Ha]].
    + by left.
    + right. left. cbn. split; [lia|done].
    + right. right. destruct Ha as (q & k & F' & p' & -> & Hp' & Hk & Hal). cbn [mbind res_bind].
      destruct (allocated_holds _ _ _ _ _ _ Hal) as (b & Hb & Hcap & Hz & Hbs); [lia|].
      pose proof (rb_step_alloc _ _ _ _ _ _ Hp' Hal) as Hs.
      destruct (append_data_spec F' p' q b [] data) as (p2 & -> & Hs2 & Hh2 & Hst2); try done; [apply Hs|cbn; lia|].
      exists F', p2, (Some q). split; [done|]. split; [by eapply rb_step_trans|done].
Qed.

Lemma write_retry_used ws r ws' :
  write_retry ws = Ok (r, ws') ->
  exists spent, ws = spent ++ ws' /\ spent <> [] /\ (r = None -> WriteError ∈ spent).
Proof.
  induction ws as [|w ws IH]; cbn; [done|]. destruct w; intros Hw.
  1: destruct (IH Hw) as (spent & -> & _ & He); exists (WriteEintr :: spent); split; [done|]; split; [done|];
     intros Hr; right; auto.
  all: injection Hw as <- <-; eexists [_]; split; [done|]; split; [done|]; intros [=]; by left.
Qed.

(** [write2fd]: what goes out is the front of the queue. *)
Lemma write2fd_spec F p rb bs ws :
  owns F p rb -> holds_bytes p rb bs -> at_start p rb -> rb <> None ->
  write2fd ws rb p = Err Blocked \/
  exists r out ws' p', write2fd ws rb p = Ok (r, out, ws', p') /\ rb_step F p rb F p' rb /\
    holds_bytes p' rb (drop (length out) bs) /\ at_start p' rb /\ out = take (length out) bs /\
    (r = -1 /\ out = [] /\ WriteError ∈ ws \/ r = Z.of_nat (length out)) /\
    exists spent, ws = spent ++ ws' /\ spent <> [].
Proof.
  intros Ho Hh Hst Hne. destruct rb as [q|]; [|done].
  destruct Hh as (b & Hb & Hbs). destruct Hst as (? & Hb2 & Hz). rewrite Hb in Hb2. injection Hb2 as <-.
  unfold write2fd, get_buf. rewrite Hb. cbn [mbind res_bind of_option]. rewrite Hz. cbn [Z.eqb].
  assert (b_read 0 (b_length b) b = Ok bs) as ->.
  { pose proof (buf_read_holds b bs (length bs) Hbs) as Hr. rewrite Hz, take_ge in Hr by lia.
    rewrite (bh_length _ _ Hbs). by apply Hr. }
  cbn [mbind res_bind].
  destruct (write_retry ws) as [[r ws']|f] eqn:Hw.
  2:{ left. clear -Hw. induction ws as [|w ws IH]; cbn in Hw; [by injection Hw as <-|].
      destruct w; try discriminate. auto. }
  destruct (write_retry_used _ _ _ Hw) as (spent & Hws & Hspent & Herr).
  assert (exists spent, ws = spent ++ ws' /\ spent <> []) as Hlen by (by exists spent).
  right. cbn [mbind res_bind].
  assert (holds_bytes p (Some q) bs /\ at_start p (Some q)) as [Hhp Hsp] by (split; by exists b).
  destruct r as [[n|]|].
  - set (out := take n bs). destruct (0 <? Z.of_nat (length out)) eqn:E.
    + assert (length out <= length bs)%nat as Hle by (unfold out; rewrite length_take; lia).
      set (b1 := b_pop (length out) b).
      assert (bp_heap (put_buf q b1 p) !! q = Some b1) as Hb1 by (cbn; apply lookup_insert_eq).
      assert (rb_step F p (Some q) F (put_buf q b1 p) (Some q)) as Hs1 by (by eapply rb_step_put).
      destruct (rb_adjust_spec F (put_buf q b1 p) (Some q) (drop (length out) bs)) as (p' & Hadj & Hs2 & Hh2 & Hst2).
      { apply Hs1. }
      { exists b1. split; [done|]. destruct Hbs as [Hl Hhd Hf Hd].
        constructor; cbn; rewrite ?length_drop; try lia. by apply holds_drop. }
      unfold rb_adjust, get_buf in Hadj. rewrite Hb1 in Hadj. cbn [mbind res_bind of_option] in Hadj.
      destruct (b_adjust b1) as [b2|] eqn:Hb2; [|discriminate]. cbn in Hadj. injection Hadj as <-.
      cbn [mbind res_bind]. do 4 eexists. split; [done|].
      assert (put_buf q b2 (put_buf q b1 p) = put_buf q b2 p) as Hpp
        by (unfold put_buf, bp_set_heap; cbn; by rewrite insert_insert_eq).
      rewrite Hpp in *. split; [by eapply rb_step_trans|]. split; [done|]. split; [done|].
      split; [apply take_length_take|].
      split; [by right|done].
    + assert (out = []) as Hout by (by destruct out).
      do 4 eexists. split; [done|]. split; [by apply rb_step_refl|]. rewrite Hout. cbn. rewrite drop_0.
      split; [done|]. split; [done|]. split; [done|]. split; [by right|done].
  - do 4 eexists. split; [done|]. split; [by apply rb_step_refl|]. cbn. rewrite drop_0.
    split; [done|]. split; [done|]. split; [done|]. split; [by right|done].
  - do 4 eexists. split; [done|]. split; [by apply rb_step_refl|]. cbn. rewrite drop_0.
    split; [done|]. split; [done|]. split; [done|]. split; [|done].
    left. split; [done|]. split; [done|]. rewrite Hws. apply elem_of_app. left. auto.
Qed.

(** What the kernel promises about a socket with one reader: the bytes [ioctl]
    announces are there when [read] comes, and a socket with nothing to read
    has nothing but the end of the stream. *)
Definition io_honest (io : read_io) : Prop :=
  forall need, io_nread io = Some need ->
    0 <= need < 2 ^ 30 /\
    forall bs, ReadData bs ∈ io_reads io -> need <= length bs /\ (need = 0 -> bs = []).

Lemma read_retry_in rs bs : read_retry rs = Ok (Some bs) -> ReadData bs ∈ rs.
Proof.
  induction rs as [|r rs IH]; cbn; [done|]. destruct r; [intros H; right; auto|done|].
  intros [= ->]. by left.
Qed.

Lemma read_retry_err rs f : read_retry rs = Err f -> f = Blocked.
Proof. induction rs as [|r rs IH]; cbn; [congruence|]. destruct r; [done|done|done]. Qed.

Lemma read_into_spec F p q b bs need rs :
  owns F p (Some q) -> bp_heap p !! q = Some b -> buf_holds b bs -> b_head b = 0 ->
  need <= b_capacity b - length bs -> 0 <= need ->
  (forall d, ReadData d ∈ rs -> need <= length d /\ (need = 0 -> d = [])) ->
  read_into need rs q p = Err Blocked \/
  exists r data p', read_into need rs q p = Ok (r, Some q, p') /\ rb_step F p (Some q) F p' (Some q) /\
    holds_bytes p' (Some q) (bs ++ data) /\ at_start p' (Some q) /\
    (r = -1 /\ data = [] /\ read_retry rs = Ok None \/ r = Z.of_nat (length data) /\
      exists avail, read_retry rs = Ok (Some avail) /\ data = take (Z.to_nat need) avail).
Proof.
  intros Ho Hb Hbs Hz Hc Hn Hrs. unfold read_into.
  destruct (read_retry rs) as [[avail|]|f] eqn:Hr; cbn [mbind res_bind].
  3:{ left. by rewrite (read_retry_err _ _ Hr). }
  2:{ right. exists (-1), [], p. rewrite app_nil_r. split; [done|]. split; [by apply rb_step_refl|].
      split; [by exists b|]. split; [by exists b|]. by left. }
  right. destruct (Hrs avail (read_retry_in _ _ Hr)) as [Hlen H0].
  assert (take (Z.to_nat (read_count need)) avail = take (Z.to_nat need) avail) as ->.
  { unfold read_count. destruct (need =? 0) eqn:E; [|done]. rewrite H0 by lia. by rewrite !take_nil. }
  set (data := take (Z.to_nat need) avail).
  assert (length data = Z.to_nat need) as Hd by (unfold data; rewrite length_take; lia).
  destruct (0 <? Z.of_nat (length data)) eqn:E.
  - unfold get_buf. rewrite Hb. cbn [mbind res_bind of_option].
    destruct (b_append b bs data Hbs Hz) as (b' & -> & Hcap & Hz' & Hbs'); [lia|]. cbn [mbind res_bind].
    replace (Z.of_nat (length data) =? need) with true by lia. rewrite orb_true_r.
    do 3 eexists. split; [done|]. split; [by eapply rb_step_put|].
    cbn. rewrite lookup_insert_eq. split; [eexists; done|]. split; [eexists; done|]. right. split; [done|].
    by exists avail.
  - assert (data = []) as Hnil by (by destruct data).
    exists 0, [], p. rewrite app_nil_r. split; [done|]. split; [by apply rb_step_refl|].
    split; [by exists b|]. split; [by exists b|]. right. split; [done|]. exists avail. by rewrite <-Hnil.
Qed.

(** Why a [read_data] answers -1 with [bs] buffered: one of the two system calls
    failed, or more than 8M would be buffered. *)
Definition read_fails (io : read_io) (bs : bytes) : Prop :=
  io_nread io = None \/ read_retry (io_reads io) = Ok None \/
  exists need, io_nread io = Some need /\ m8M < length bs + need.

(** [read_data] with an honest kernel: the announced bytes are appended; no assert
    fails and no write leaves the array. *)
Lemma read_data_spec F p rb bs io :
  owns F p rb -> holds_bytes p rb bs -> at_start p rb -> io_honest io -> length bs < 2 ^ 30 ->
  read_data io rb p = Err ExitFailure \/ read_data io rb p = Err Blocked \/
  exists r data F' p' rb', read_data io rb p = Ok (r, rb', p') /\ rb_step F p rb F' p' rb' /\
    holds_bytes p' rb' (bs ++ data) /\ at_start p' rb' /\
    (r = -1 /\ data = [] /\ read_fails io bs \/ r = Z.of_nat (length data) /\ rb' <> None /\
      exists need avail, io_nread io = Some need /\ read_retry (io_reads io) = Ok (Some avail) /\
        data = take (Z.to_nat need) avail).
Proof.
  intros Ho Hh Hst Hio Hmax. unfold read_data. destruct (io_nread io) as [need|] eqn:Hn.
  2:{ right. right. exists (-1), [], F, p, rb. rewrite app_nil_r. split; [done|].
      split; [by apply rb_step_refl|]. split; [done|]. split; [done|]. left. split; [done|]. split; [done|by left]. }
  destruct (Hio need Hn) as [[Hn0 Hn1] Hrs].
  assert (forall F0 p0 q b F1, rb_step F p rb F0 p0 (Some q) -> F1 = F0 -> bp_heap p0 !! q = Some b -> buf_holds b bs ->
    b_head b = 0 -> need <= b_capacity b - length bs ->
    read_into need (io_reads io) q p0 = Err Blocked \/
    exists r data F' p' rb', read_into need (io_reads io) q p0 = Ok (r, rb', p') /\ rb_step F p rb F' p' rb' /\
      holds_bytes p' rb' (bs ++ data) /\ at_start p' rb' /\
      (r = -1 /\ data = [] /\ read_fails io bs \/ r = Z.of_nat (length data) /\ rb' <> None /\
      exists need0 avail, Some need = Some need0 /\ read_retry (io_reads io) = Ok (Some avail) /\
        data = take (Z.to_nat need0) avail)) as Hinto.
  { intros F0 p0 q b F1 Hs _ Hb Hbs Hz Hc.
    destruct (read_into_spec F0 p0 q b bs need (io_reads io)) as [->|(r & data & p' & -> & Hs' & Hh' & Hst' & Hr)];
      try done; [apply Hs|by left|]. right. exists r, data, F0, p', (Some q). split; [done|].
    split; [by eapply rb_step_trans|]. split; [done|]. split; [done|].
    destruct Hr as [(-> & -> & Hr)|(Hr & avail & H1 & H2)].
    - left. split; [done|]. split; [done|]. by right; left.
    - right. split; [done|]. split; [done|]. by exists need, avail. }
  destruct rb as [q|].
  - destruct Hh as (b & Hb & Hbs). destruct Hst as (? & Hb2 & Hz). rewrite Hb in Hb2. injection Hb2 as <-.
    unfold get_buf. rewrite Hb. cbn [mbind res_bind of_option]. rewrite Hz. cbn [Z.eqb].
    rewrite (bh_length _ _ Hbs). destruct (b_capacity b - length bs <? need) eqn:E.
    + rewrite i32_id by (unfold is_i32; lia).
      destruct (grow_spec F p q bs (need + length bs) Ho) as [->|[[Hm ->]|Hg]]; [by exists b|lia| | |].
      * by left.
      * right. right. exists (-1), [], F, p, (Some q). rewrite app_nil_r. split; [done|].
        split; [by apply rb_step_refl|]. split; [by exists b|]. split; [by exists b|]. left. split; [done|]. split; [done|].
        right; right. exists need. split; [done|lia].
      * right. destruct Hg as (q' & p1 & F' & p' & b' & -> & Hmv & Hs & Hb' & Hbs' & Hz' & Hcap).
        cbn [mbind res_bind]. rewrite Hmv. cbn [mbind res_bind]. eapply Hinto; [done|done|done|done|done|lia].
    + right. eapply Hinto; [by apply rb_step_refl|done|done|done|done|lia].
  - cbn in Hh. subst bs. destruct (alloc_cases F p need (ow_pool _ _ _ Ho)) as [->|[[Hm ->]|Ha]].
    + by left.
    + right. right. cbn. exists (-1), [], F, p, None. split; [done|]. split; [by apply rb_step_refl|].
      split; [done|]. split; [done|]. left. split; [done|]. split; [done|]. right; right. exists need. split; [done|cbn; lia].
    + right. destruct Ha as (q & k & F' & p' & -> & Hp' & Hk & Hal). cbn [mbind res_bind].
      destruct (allocated_holds _ _ _ _ _ _ Hal) as (b & Hb & Hcap & Hz & Hbs); [lia|].
      eapply Hinto; [by eapply rb_step_alloc|done|done|done|done|cbn; lia].
Qed.
End specs.
