(* ===== verification/Stream.v ===== *)
(** * Stream: framed messages over a byte stream (lars_reactor, tcp_conn and tcp_client)

    [tcp_conn] and [tcp_client] send, receive and buffer messages with the same
    code; this file has that code over an [endpoint] (the object's buffers, its
    event loop and the pool), with the parts that differ as parameters:
    how a message is dispatched and what [clean_conn] does.  [parse] is the
    reference: which messages a byte stream contains. *)

From S2P Require Import Prelude Bytes BufPool ReactorBuf EventLoop.
From stdpp Require Import base numbers list gmap fin_maps.
From Equations Require Import Equations.
From Stdlib Require Import ZArith Lia.
Open Scope Z_scope.

(** ** The reference: messages of a stream *)

(** A header that do_read refuses. *)
Definition bad_head (h : msg_head) : bool := (MESSAGE_LENGTH_LIMIT <? msglen h) || (msglen h <? 0).

Inductive scan :=
| NeedMore
| BadHead
| Frame (mid : Z) (body rest : bytes).

(** What is at the front of a stream. *)
Definition scan_frame (bs : bytes) : scan :=
  if Z.of_nat (length bs) <? MESSAGE_HEAD_LEN then NeedMore
  else
    let h := head_of_bytes (take 8 bs) in
    if bad_head h then BadHead
    else if Z.of_nat (length bs) <? MESSAGE_HEAD_LEN + msglen h then NeedMore
    else Frame (msgid h) (take (Z.to_nat (msglen h)) (drop 8 bs)) (drop (Z.to_nat (msglen h)) (drop 8 bs)).

Inductive leftover := More (rest : bytes) | Malformed.

Lemma scan_frame_shorter bs mid body rest :
  scan_frame bs = Frame mid body rest ->
  (length rest < length bs)%nat /\ exists hd, length hd = 8%nat /\ bs = hd ++ body ++ rest /\
    mid = msgid (head_of_bytes hd) /\ msglen (head_of_bytes hd) = length body /\ bad_head (head_of_bytes hd) = false.
Proof.
  unfold scan_frame, MESSAGE_HEAD_LEN. intros Hs.
  destruct (Z.of_nat (length bs) <? 8) eqn:E1; [done|].
  destruct (bad_head _) eqn:E2; [done|].
  destruct (Z.of_nat (length bs) <? 8 + _) eqn:E3; [done|]. injection Hs as <- <- <-.
  unfold bad_head in E2. apply orb_false_iff in E2 as [E2 E2'].
  split; [rewrite !length_drop; lia|].
  exists (take 8 bs). rewrite !length_take, length_drop. split; [lia|]. rewrite !take_drop.
  split; [done|]. split; [done|]. unfold bad_head. rewrite E2, E2'. split; [|done].
  change (int_of_bytes _) with (msglen (head_of_bytes (take 8 bs))). lia.
Qed.

Definition inspect {A} (a : A) : {b | a = b} := exist _ a eq_refl.

Equations parse (bs : bytes) : list (Z * bytes) * leftover by wf (length bs) lt :=
  parse bs with inspect (scan_frame bs) => {
  | exist _ (Frame mid body rest) Hs => let r := parse rest in ((mid, body) :: r.1, r.2)
  | exist _ NeedMore _ => ([], More bs)
  | exist _ BadHead _ => ([], Malformed)
  }.
Next Obligation. by edestruct scan_frame_shorter as [? _]. Qed.

Section parsing.

Lemma parse_scan bs :
  parse bs = match scan_frame bs with
             | Frame mid body rest => ((mid, body) :: (parse rest).1, (parse rest).2)
             | NeedMore => ([], More bs)
             | BadHead => ([], Malformed)
             end.
Proof.
  rewrite parse_equation_1. destruct (inspect (scan_frame bs)) as [s Hs].
  pose proof Hs as E. destruct s; cbn; by rewrite E.
Qed.

(** What is decided about the front of a stream does not change when more arrives. *)
Lemma scan_frame_app bs more :
  match scan_frame bs with
  | Frame mid body rest => scan_frame (bs ++ more) = Frame mid body (rest ++ more)
  | BadHead => scan_frame (bs ++ more) = BadHead
  | NeedMore => True
  end.
Proof.
  unfold scan_frame, MESSAGE_HEAD_LEN. destruct (Z.of_nat (length bs) <? 8) eqn:E1; [done|].
  rewrite length_app, take_app_le by lia. destruct (Z.ltb_spec (Z.of_nat (length bs + length more)) 8); [lia|].
  set (h := head_of_bytes (take 8 bs)). destruct (bad_head h) eqn:E2; [done|].
  unfold bad_head in E2. apply orb_false_iff in E2 as [E2 E2'].
  destruct (Z.of_nat (length bs) <? 8 + msglen h) eqn:E3; [done|].
  destruct (Z.ltb_spec (Z.of_nat (length bs + length more)) (8 + msglen h)); [lia|].
  rewrite drop_app_le by lia. rewrite take_app_le, drop_app_le; [done| |]; rewrite length_drop; lia.
Qed.

Lemma parse_app bs more :
  parse (bs ++ more) =
    match (parse bs).2 with
    | More rest => ((parse bs).1 ++ (parse (rest ++ more)).1, (parse (rest ++ more)).2)
    | Malformed => parse bs
    end.
Proof.
  induction (Wf_nat.well_founded_ltof _ (@length byte) bs) as [bs _ IH].
  pose proof (scan_frame_app bs more) as Hs. rewrite (parse_scan bs).
  destruct (scan_frame bs) as [| |mid body rest] eqn:E; cbn.
  - by destruct (parse (bs ++ more)).
  - rewrite parse_scan, Hs. done.
  - rewrite parse_scan, Hs. apply scan_frame_shorter in E as [Hlt _]. rewrite (IH rest Hlt).
    by destruct (parse rest) as [ms [r|]].
Qed.

Lemma scan_frame_frame mid body rest :
  is_i32 mid -> length body <= MESSAGE_LENGTH_LIMIT -> scan_frame (frame mid body ++ rest) = Frame mid body rest.
Proof.
  intros Hm Hb. unfold MESSAGE_LENGTH_LIMIT, MESSAGE_HEAD_LEN in Hb. unfold scan_frame, frame, MESSAGE_HEAD_LEN.
  set (h := {| msgid := mid; msglen := length body |}).
  pose proof (length_head_bytes h) as Hl. rewrite !length_app, Hl.
  destruct (Z.ltb_spec (Z.of_nat (8 + length body + length rest)) 8); [lia|].
  rewrite <-app_assoc, take_app_length' by done.
  assert (head_of_bytes (head_bytes h) = h) as ->.
  { rewrite <-(app_nil_r (head_bytes h)). unfold head_of_bytes, head_bytes. cbn [msgid msglen h]. rewrite app_nil_r.
    rewrite take_app_length', drop_app_length' by by rewrite length_int_bytes.
    rewrite take_ge by by rewrite length_int_bytes. rewrite !int_of_int_bytes, !i32_id; [done| |done].
    unfold is_i32. lia. }
  assert (bad_head h = false) as ->.
  { unfold bad_head, MESSAGE_LENGTH_LIMIT, MESSAGE_HEAD_LEN. cbn [msglen h]. apply orb_false_iff.
    rewrite !Z.ltb_ge. lia. }
  change (msglen h) with (Z.of_nat (length body)). change (msgid h) with mid.
  destruct (Z.ltb_spec (Z.of_nat (8 + length body + length rest)) (8 + length body)); [lia|].
  rewrite drop_app_length' by done.
  rewrite Nat2Z.id, take_app_length, drop_app_length. done.
Qed.

(** Frames that were sent are the messages that are parsed. *)
Lemma parse_frames ms rest :
  Forall (fun m => is_i32 m.1 /\ length m.2 <= MESSAGE_LENGTH_LIMIT) ms ->
  parse (concat ((fun m => frame m.1 m.2) <$> ms) ++ rest) = (ms ++ (parse rest).1, (parse rest).2).
Proof.
  induction 1 as [|[mid body] ms [Hm Hb] _ IH]; cbn; [by destruct (parse rest)|].
  rewrite <-app_assoc, parse_scan, scan_frame_frame by done. by rewrite IH.
Qed.

(** An unfinished message is shorter than the largest message. *)
Lemma need_more_short bs : scan_frame bs = NeedMore -> length bs < 65535.
Proof.
  unfold scan_frame, MESSAGE_HEAD_LEN. destruct (Z.of_nat (length bs) <? 8) eqn:E1; [zlia|].
  destruct (bad_head _) eqn:E2; [done|]. unfold bad_head in E2. apply orb_false_iff in E2 as [E2 E2'].
  unfold MESSAGE_LENGTH_LIMIT, MESSAGE_HEAD_LEN in E2.
  destruct (Z.ltb_spec (Z.of_nat (length bs)) (8 + msglen (head_of_bytes (take 8 bs)))); [|done].
  apply Z.ltb_ge in E2. lia.
Qed.

Lemma parse_more_short bs rest : (parse bs).2 = More rest -> scan_frame rest = NeedMore.
Proof.
  induction (Wf_nat.well_founded_ltof _ (@length byte) bs) as [bs _ IH]. rewrite parse_scan.
  destruct (scan_frame bs) as [| |mid body r] eqn:E; cbn; [|done|].
  - by intros [= <-].
  - apply IH. by apply scan_frame_shorter in E as [? _].
Qed.
End parsing.

(** ** The endpoint *)

Section endpoint.
Context {C T A K X : Type} `{Epoll K}.

(** The object ([tcp_conn] or [tcp_client]), the event loop it is in, the pool, the
    rest of the process, and what can be observed of it: the bytes it wrote to
    its socket, the messages it dispatched, the descriptors it closed. *)
Record endpoint := Endpoint {
  e_fd : Z;                       (* _connfd, _sockfd *)
  e_self : A;                     (* this, as the void* of its callbacks *)
  e_ibuf : reactor_buf;
  e_obuf : reactor_buf;
  e_loop : event_loop C T A K;
  e_pool : buf_pool;
  e_env : X;
  e_wire : bytes;
  e_calls : list (Z * bytes);
  e_closed : list Z
}.

Definition set_ibuf (x : reactor_buf * buf_pool) (e : endpoint) : endpoint :=
  Endpoint (e_fd e) (e_self e) x.1 (e_obuf e) (e_loop e) x.2 (e_env e) (e_wire e) (e_calls e) (e_closed e).
Definition set_obuf (x : reactor_buf * buf_pool) (e : endpoint) : endpoint :=
  Endpoint (e_fd e) (e_self e) (e_ibuf e) x.1 (e_loop e) x.2 (e_env e) (e_wire e) (e_calls e) (e_closed e).
Definition set_loop (l : event_loop C T A K) (e : endpoint) : endpoint :=
  Endpoint (e_fd e) (e_self e) (e_ibuf e) (e_obuf e) l (e_pool e) (e_env e) (e_wire e) (e_calls e) (e_closed e).
Definition put_wire (bs : bytes) (e : endpoint) : endpoint :=
  Endpoint (e_fd e) (e_self e) (e_ibuf e) (e_obuf e) (e_loop e) (e_pool e) (e_env e) (e_wire e ++ bs) (e_calls e) (e_closed e).
Definition put_call (m : Z * bytes) (e : endpoint) : endpoint :=
  Endpoint (e_fd e) (e_self e) (e_ibuf e) (e_obuf e) (e_loop e) (e_pool e) (e_env e) (e_wire e) (e_calls e ++ [m]) (e_closed e).
Definition set_env (x : X) (e : endpoint) : endpoint :=
  Endpoint (e_fd e) (e_self e) (e_ibuf e) (e_obuf e) (e_loop e) (e_pool e) x (e_wire e) (e_calls e) (e_closed e).
Definition close_fd (fd : Z) (e : endpoint) : endpoint :=
  Endpoint (e_fd e) (e_self e) (e_ibuf e) (e_obuf e) (e_loop e) (e_pool e) (e_env e) (e_wire e) (e_calls e) (e_closed e ++ [fd]).

(** Where [tcp_conn] and [tcp_client] differ: the write callback they register, what
    [clean_conn] does, and the router that [call] asks. *)
Context (wt_callback : C) (clean_conn : endpoint -> res endpoint)
        (router_call : Z -> bytes -> endpoint -> res endpoint).

(** The call of the router with [ibuf.data()] and the length in the head; [data()] is
    a null pointer when the head was all there was. *)
Definition call_router (head : msg_head) (e : endpoint) : res endpoint :=
  data ← (if msglen head =? 0 then Ok [] else rb_peek (msglen head) (e_ibuf e) (e_pool e));
  router_call (msgid head) data (put_call (msgid head, data) e).

Definition ibuf_pop (n : Z) (e : endpoint) : res endpoint :=
  x ← rb_pop n (e_ibuf e) (e_pool e); Ok (set_ibuf x e).

(** The [while] of [do_read]: every turn but the last takes a header away. *)
Fixpoint read_messages (fuel : nat) (e : endpoint) : res endpoint :=
  match fuel with
  | O => Err OutOfFuel
  | S fuel =>
      len ← rb_length (e_ibuf e) (e_pool e);
      if len <? MESSAGE_HEAD_LEN then Ok e
      else
        hb ← rb_peek MESSAGE_HEAD_LEN (e_ibuf e) (e_pool e);
        let head := head_of_bytes hb in
        if (MESSAGE_LENGTH_LIMIT <? msglen head) || (msglen head <? 0) then clean_conn e
        else if len <? MESSAGE_HEAD_LEN + msglen head then Ok e
        else
          e ← ibuf_pop MESSAGE_HEAD_LEN e;
          e ← call_router head e;
          e ← ibuf_pop (msglen head) e;
          read_messages fuel e
  end.

(** [void do_read()]; the fuel is the length of what is buffered. *)
Definition ep_do_read (io : read_io) (e : endpoint) : res endpoint :=
  '(ret, ib, p) ← read_data io (e_ibuf e) (e_pool e);
  let e := set_ibuf (ib, p) e in
  if ret =? -1 then clean_conn e
  else
    e ← (if ret =? 0 then clean_conn e else Ok e);
    len ← rb_length (e_ibuf e) (e_pool e);
    e ← read_messages (S (Z.to_nat len)) e;
    p ← rb_adjust (e_ibuf e) (e_pool e);
    Ok (set_ibuf (e_ibuf e, p) e).

(** The [while] of [do_write]; the flag says whether it ended with the [return]
    after an error. *)
Fixpoint write_all (fuel : nat) (ws : list write_result) (e : endpoint) : res (bool * endpoint) :=
  match fuel with
  | O => Err OutOfFuel
  | S fuel =>
      len ← rb_length (e_obuf e) (e_pool e);
      if len =? 0 then Ok (false, e)
      else
        '(write_num, out, ws, p) ← write2fd ws (e_obuf e) (e_pool e);
        let e := put_wire out (set_obuf (e_obuf e, p) e) in
        if write_num =? -1 then
          e ← clean_conn e; Ok (true, e)
        else if write_num =? 0 then Ok (false, e)
        else write_all fuel ws e
  end.

(** [void do_write()]; every [write] takes a result from [ws], the fuel. *)
Definition ep_do_write (ws : list write_result) (e : endpoint) : res endpoint :=
  '(returned, e) ← write_all (S (length ws)) ws e;
  if (returned : bool) then Ok e
  else
    len ← rb_length (e_obuf e) (e_pool e);
    if len =? 0 then Ok (set_loop (del_io_event_mask (e_fd e) EPOLLOUT (e_loop e)) e)
    else Ok e.

(** [int send_message(const char *data, int msglen, int msgid)] *)
Definition ep_send_message (data : bytes) (mid : Z) (e : endpoint) : res (Z * endpoint) :=
  len ← rb_length (e_obuf e) (e_pool e);
  let active_epollout := len =? 0 in
  let head := {| msgid := mid; msglen := length data |} in
  '(ret, ob, p) ← send_data (head_bytes head) (e_obuf e) (e_pool e);
  let e := set_obuf (ob, p) e in
  if negb (ret =? 0) then Ok (-1, e)
  else
    '(ret, ob, p) ← send_data data (e_obuf e) (e_pool e);
    let e := set_obuf (ob, p) e in
    if negb (ret =? 0) then
      x ← rb_pop MESSAGE_HEAD_LEN (e_obuf e) (e_pool e);
      Ok (-1, set_obuf x e)
    else
      if active_epollout then
        Ok (0, set_loop (add_io_event (e_fd e) wt_callback EPOLLOUT (e_self e) (e_loop e)) e)
      else Ok (0, e).
End endpoint.
Arguments endpoint : clear implicits.
