(* ===== verification/StreamSpec.v ===== *)
(** * StreamSpec: an endpoint implements two queues of bytes

    Reading: whatever the chunks in which the kernel delivers a stream, the
    messages dispatched are those the reference [parse] finds in it.  Writing:
    what reached the socket followed by what is pending is what was sent, and
    EPOLLOUT is armed exactly while something is pending. *)

From S2P Require Import Prelude Bytes BufPool ReactorBuf EventLoop Stream.
From stdpp Require Import base numbers list gmap fin_maps.
From Stdlib Require Import ZArith Lia.
Open Scope Z_scope.

Section spec.
Context {C T A K X : Type} `{Epoll K}.
Abbreviation endpoint := (endpoint C T A K X).
(** An invariant of the rest of the process, as the connection on this descriptor
    needs it. *)
Context (I : Z -> X -> Prop).
Implicit Types e : endpoint.

(** *** Endpoints on the same pool *)

Definition apart (rb rb' : reactor_buf) : Prop := forall q, rb = Some q -> rb' <> Some q.

(** Between two events: [rb] has its own buffer, with [bs] at its start. *)
Record kept (F : gmap Z (list ptr)) (p : buf_pool) (rb : reactor_buf) (bs : bytes) : Prop := {
  kp_owns : owns F p rb;
  kp_holds : holds_bytes p rb bs;
  kp_start : at_start p rb
}.

Lemma kept_step F p rb F' p' rb' rb0 bs :
  rb_step F p rb F' p' rb' -> kept F p rb0 bs -> apart rb0 rb -> kept F' p' rb0 bs /\ apart rb0 rb'.
Proof.
  intros Hs [Ho Hh Hst] Ha. destruct (holds_frame _ _ _ _ _ _ rb0 bs Hs Ho Ha Hh) as (Hh' & Hst' & Ho' & Ha').
  split; [|done]. split; [done|done|by apply Hst'].
Qed.

(** Another endpoint: its descriptor, its buffers and what they hold. *)
Record tenant := Tenant {
  t_fd : Z;
  t_ibuf : reactor_buf;
  t_inb : bytes;
  t_obuf : reactor_buf;
  t_outb : bytes
}.

Record tenant_ok (F : gmap Z (list ptr)) e (t : tenant) : Prop := {
  tk_in : kept F (e_pool e) (t_ibuf t) (t_inb t);
  tk_out : kept F (e_pool e) (t_obuf t) (t_outb t);
  tk_apart : apart (t_ibuf t) (t_obuf t);
  tk_in_ibuf : apart (t_ibuf t) (e_ibuf e);
  tk_in_obuf : apart (t_ibuf t) (e_obuf e);
  tk_out_ibuf : apart (t_obuf t) (e_ibuf e);
  tk_out_obuf : apart (t_obuf t) (e_obuf e);
  tk_env : I (t_fd t) (e_env e)
}.

Lemma tenant_step_in F e F' rb' p' t :
  rb_step F (e_pool e) (e_ibuf e) F' p' rb' -> tenant_ok F e t -> tenant_ok F' (set_ibuf (rb', p') e) t.
Proof.
  intros Hs [Hi Ho Ha Hii Hio Hoi Hoo He]. destruct (kept_step _ _ _ _ _ _ _ _ Hs Hi Hii) as [Hi' Hii'].
  by destruct (kept_step _ _ _ _ _ _ _ _ Hs Ho Hoi) as [Ho' Hoi'].
Qed.

Lemma tenant_step_out F e F' rb' p' t :
  rb_step F (e_pool e) (e_obuf e) F' p' rb' -> tenant_ok F e t -> tenant_ok F' (set_obuf (rb', p') e) t.
Proof.
  intros Hs [Hi Ho Ha Hii Hio Hoi Hoo He]. destruct (kept_step _ _ _ _ _ _ _ _ Hs Hi Hio) as [Hi' Hio'].
  by destruct (kept_step _ _ _ _ _ _ _ _ Hs Ho Hoo) as [Ho' Hoo'].
Qed.

(** The other endpoints there are. *)
Context (others : list tenant).

(** The endpoint is sound: [inb] is buffered for reading, [outb] pending for
    writing, the two buffers are its own, and the others have theirs. *)
Record ep_ok (F : gmap Z (list ptr)) e (inb outb : bytes) : Prop := {
  eo_ibuf : owns F (e_pool e) (e_ibuf e);
  eo_in : holds_bytes (e_pool e) (e_ibuf e) inb;
  eo_obuf : owns F (e_pool e) (e_obuf e);
  eo_out : holds_bytes (e_pool e) (e_obuf e) outb;
  eo_start : at_start (e_pool e) (e_obuf e);
  eo_disj : apart (e_obuf e) (e_ibuf e);
  eo_env : I (e_fd e) (e_env e);
  eo_others : Forall (tenant_ok F e) others
}.

Lemma ep_ok_in F e inb outb F' rb' p' inb' :
  ep_ok F e inb outb -> rb_step F (e_pool e) (e_ibuf e) F' p' rb' -> holds_bytes p' rb' inb' ->
  ep_ok F' (set_ibuf (rb', p') e) inb' outb.
Proof.
  intros [Hi Hin Ho Hout Hst Hd He Hoth] Hs Hh.
  destruct (holds_frame _ _ _ _ _ _ (e_obuf e) outb Hs Ho) as (Hout' & Hst' & Ho' & Hd'); [done|done|].
  constructor; cbn; [apply Hs|done|done|done|by apply Hst'|done|done|].
  eapply Forall_impl; [exact Hoth|]. intros t. by apply tenant_step_in.
Qed.

Lemma ep_ok_out F e inb outb F' rb' p' outb' :
  ep_ok F e inb outb -> rb_step F (e_pool e) (e_obuf e) F' p' rb' -> holds_bytes p' rb' outb' -> at_start p' rb' ->
  ep_ok F' (set_obuf (rb', p') e) inb outb' /\
  (at_start (e_pool e) (e_ibuf e) -> at_start p' (e_ibuf e)).
Proof.
  intros [Hi Hin Ho Hout Hst Hd He Hoth] Hs Hh Hst0.
  destruct (holds_frame _ _ _ _ _ _ (e_ibuf e) inb Hs Hi) as (Hin' & Hst' & Hi' & Hd').
  { intros q Hq Hq'. by apply (Hd q). }
  { done. }
  split; [|done]. constructor; cbn; [done|done|apply Hs|done|done| |done|].
  - intros q Hq Hq'. by apply (Hd' q).
  - eapply Forall_impl; [exact Hoth|]. intros t. by apply tenant_step_out.
Qed.

(** The same buffers, pool and descriptor, in an environment that is as good. *)
Lemma ep_ok_same F e e' inb outb :
  ep_ok F e inb outb -> e_fd e' = e_fd e -> e_ibuf e' = e_ibuf e -> e_obuf e' = e_obuf e -> e_pool e' = e_pool e ->
  (forall fd, I fd (e_env e) -> I fd (e_env e')) -> ep_ok F e' inb outb.
Proof.
  intros [Hi Hin Ho Hout Hst Hd Henv Hoth] Hfd Hib Hob Hp He.
  constructor; rewrite ?Hp, ?Hib, ?Hob, ?Hfd; try done; [by apply He|].
  eapply Forall_impl; [exact Hoth|]. intros t [? ? ? ? ? ? ? ?].
  constructor; rewrite ?Hp, ?Hib, ?Hob; try done. by apply He.
Qed.

Local Ltac same_ep H := eapply ep_ok_same; [exact H|reflexivity|reflexivity|reflexivity|reflexivity|intros ? Hi; exact Hi].

(** A handler may do what it likes with the output side, the loop and the rest of
    the process; it never touches the input buffer.  What it does to the pending
    output and to the rest of the process is in the relation [reply]. *)
Definition replies_at (reply : bytes * X -> Prop) (h : Z -> bytes -> endpoint -> res endpoint) (inb outb : bytes) (x : X) (mid : Z) (data : bytes) : Prop :=
  forall F e, ep_ok F e inb outb -> e_env e = x ->
    match h mid data e with
    | Ok e' => (exists F' outb', ep_ok F' e' inb outb' /\ reply (outb', e_env e')) /\ e_ibuf e' = e_ibuf e /\ e_calls e' = e_calls e /\ e_fd e' = e_fd e
    | Err f => f = ExitFailure \/ f = Blocked
    end.
Definition handles_at (h : Z -> bytes -> endpoint -> res endpoint) (inb outb : bytes) (mid : Z) (data : bytes) : Prop :=
  forall F e, ep_ok F e inb outb ->
    match h mid data e with
    | Ok e' => (exists F' outb', ep_ok F' e' inb outb') /\ e_ibuf e' = e_ibuf e /\ e_calls e' = e_calls e /\ e_fd e' = e_fd e
    | Err f => f = ExitFailure \/ f = Blocked
    end.
Definition handler_ok (h : Z -> bytes -> endpoint -> res endpoint) : Prop :=
  forall inb outb mid data, handles_at h inb outb mid data.

(** A handler with a contract: [fits] says when it can answer a message, given the
    pending output and the rest of the process, [R] how the message changes both. *)
Definition handler_serves (h : Z -> bytes -> endpoint -> res endpoint) (fits : bytes * X -> Z -> bytes -> Prop)
    (R : Z -> bytes -> bytes * X -> bytes * X -> Prop) : Prop :=
  forall inb outb x mid data, fits (outb, x) mid data -> replies_at (R mid data (outb, x)) h inb outb x mid data.

Lemma handles_replies h inb outb x mid data : handles_at h inb outb mid data -> replies_at (fun _ => True) h inb outb x mid data.
Proof.
  intros Hh F e Hok _. specialize (Hh F e Hok). destruct (h mid data e); [|done]. destruct Hh as ((F' & outb' & Hok') & ?).
  split; [|done]. by exists F', outb'.
Qed.
Lemma replies_handles P h inb outb mid data : (forall x, replies_at (P x) h inb outb x mid data) -> handles_at h inb outb mid data.
Proof.
  intros Hh F e Hok. specialize (Hh _ F e Hok eq_refl). destruct (h mid data e); [|done]. destruct Hh as ((F' & outb' & Hok' & _) & ?).
  split; [|done]. by exists F', outb'.
Qed.
Lemma handler_ok_serves h : handler_ok h -> handler_serves h (fun _ _ _ => True) (fun _ _ _ _ => True).
Proof. intros Hh inb outb x mid data _. apply handles_replies, Hh. Qed.

Definition clean_ok (clean : endpoint -> res endpoint) : Prop :=
  forall F e inb outb, ep_ok F e inb outb ->
    match clean e with
    | Ok e' => (exists F' outb', ep_ok F' e' [] outb') /\ e_ibuf e' = None /\ e_calls e' = e_calls e /\ e_fd e' = e_fd e /\ e_fd e ∈ e_closed e'
    | Err f => f = ExitFailure \/ f = Blocked
    end.

(** *** A stream of messages, under the contract of its handler *)

(** The pending output and the rest of the process after the messages [ms]; whether each
    can be answered. *)
Inductive served (R : Z -> bytes -> bytes * X -> bytes * X -> Prop) : list (Z * bytes) -> bytes * X -> bytes * X -> Prop :=
| served_nil s : served R [] s s
| served_cons mid data ms s s1 s2 : R mid data s s1 -> served R ms s1 s2 -> served R ((mid, data) :: ms) s s2.
Fixpoint all_fit (fits : bytes * X -> Z -> bytes -> Prop) (R : Z -> bytes -> bytes * X -> bytes * X -> Prop) (ms : list (Z * bytes)) (s : bytes * X) : Prop :=
  match ms with
  | [] => True
  | (mid, data) :: ms => fits s mid data /\ forall s1, R mid data s s1 -> all_fit fits R ms s1
  end.

Lemma served_app R ms1 ms2 s s1 s2 : served R ms1 s s1 -> served R ms2 s1 s2 -> served R (ms1 ++ ms2) s s2.
Proof. intros H1 H2. induction H1; [done|]. by eapply served_cons; [|apply IHserved]. Qed.

Lemma all_fit_app fits R ms1 ms2 s :
  all_fit fits R (ms1 ++ ms2) s <-> all_fit fits R ms1 s /\ forall s1, served R ms1 s s1 -> all_fit fits R ms2 s1.
Proof.
  revert s. induction ms1 as [|[mid data] ms1 IH]; intros s; cbn.
  - split; [intros Hf; split; [done|]; intros s1 Hs; inversion Hs; by subst|intros [_ Hf]; apply Hf, served_nil].
  - split.
    + intros [Hf Hall]. split; [split; [done|]; intros s1 HR; by apply (IH s1), Hall|]. intros s2 Hs.
      inversion Hs; subst. eapply IH; [by apply Hall|done].
    + intros [[Hf H1] H2]. split; [done|]. intros s1 HR. apply IH. split; [by apply H1|]. intros s2 Hs. apply H2. by eapply served_cons.
Qed.

Lemma all_fit_true R ms s : all_fit (fun _ _ _ => True) R ms s.
Proof. revert s. induction ms as [|[mid data] ms IH]; intros s; [done|]. split; [done|]. by intros. Qed.

(** The common contract: a message is answered with bytes behind the pending ones, if
    they find room below the limit. *)
Definition answers (reply : Z -> bytes -> bytes) (mid : Z) (data : bytes) (s s' : bytes * X) : Prop := s'.1 = s.1 ++ reply mid data.
Definition has_room (reply : Z -> bytes -> bytes) (s : bytes * X) (mid : Z) (data : bytes) : Prop :=
  length s.1 + length (reply mid data) <= m8M.
Definition replies (reply : Z -> bytes -> bytes) (ms : list (Z * bytes)) : bytes := concat ((fun m => reply m.1 m.2) <$> ms).

Lemma served_answers reply ms s s' : served (answers reply) ms s s' -> s'.1 = s.1 ++ replies reply ms.
Proof.
  unfold replies, answers. induction 1 as [|mid data ms s s1 s2 Hr _ IH]; cbn; [by rewrite app_nil_r|]. by rewrite IH, Hr, <-app_assoc.
Qed.

Lemma all_fit_answers reply ms s : length s.1 + length (replies reply ms) <= m8M -> all_fit (has_room reply) (answers reply) ms s.
Proof.
  unfold replies, answers, has_room. revert s. induction ms as [|[mid data] ms IH]; intros s Hl; [done|].
  cbn [fmap list_fmap concat fst snd all_fit] in *. rewrite length_app in Hl. split; [lia|]. intros s1 Hs1. apply IH. rewrite Hs1, length_app. lia.
Qed.

Section reading.
Context (clean : endpoint -> res endpoint) (h : Z -> bytes -> endpoint -> res endpoint).
Context (fits : bytes * X -> Z -> bytes -> Prop) (R : Z -> bytes -> bytes * X -> bytes * X -> Prop).
Context (Hh : handler_serves h fits R).

(** A stream that does not end, for now, with a message without a body. *)
Definition no_empty_end (r : list (Z * bytes) * leftover) : Prop :=
  forall mid, last r.1 = Some (mid, []) -> r.2 <> More [].

(** One message: header off, handler, body off; the second [pop] fails its assert when
    there was nothing but the header. *)
Lemma one_message reply F e inb outb hd body rest :
  ep_ok F e inb outb -> inb = hd ++ body ++ rest -> length hd = 8%nat ->
  msglen (head_of_bytes hd) = length body -> replies_at reply h (body ++ rest) outb (e_env e) (msgid (head_of_bytes hd)) body ->
  match (e ← ibuf_pop MESSAGE_HEAD_LEN e; e ← call_router h (head_of_bytes hd) e; ibuf_pop (msglen (head_of_bytes hd)) e) with
  | Ok e' => (exists F' outb', ep_ok F' e' rest outb' /\ reply (outb', e_env e')) /\ e_calls e' = e_calls e ++ [(msgid (head_of_bytes hd), body)] /\
      e_fd e' = e_fd e /\ (body = [] -> rest <> [])
  | Err f => f = ExitFailure \/ f = Blocked \/ f = AssertFail /\ body = [] /\ rest = []
  end.
Proof.
  intros Hok -> Hl Hlen Hhere. unfold MESSAGE_HEAD_LEN.
  assert (e_ibuf e <> None) as Hne.
  { pose proof (eo_in _ _ _ _ Hok) as Hin. destruct (e_ibuf e); [done|]. cbn in Hin. by destruct hd. }
  destruct (rb_pop_spec F _ _ _ 8 (eo_ibuf _ _ _ _ Hok) (eo_in _ _ _ _ Hok))
    as (F1 & p1 & rb1 & Hpop & Hs1 & Hh1 & Hnone1 & _); [rewrite length_app; lia|done|].
  rewrite drop_app_length' in Hh1 by done.
  change (Z.of_nat 8) with 8 in Hpop.
  assert (ibuf_pop 8 e = Ok (set_ibuf (rb1, p1) e)) as -> by (unfold ibuf_pop; by rewrite Hpop). cbn [mbind res_bind].
  pose proof (ep_ok_in _ _ _ _ _ _ _ _ Hok Hs1 Hh1) as Hok1. set (e1 := set_ibuf (rb1, p1) e) in *.
  unfold call_router. rewrite Hlen.
  assert ((if Z.of_nat (length body) =? 0 then Ok [] else rb_peek (length body) (e_ibuf e1) (e_pool e1)) = Ok body) as ->.
  { destruct (Z.of_nat (length body) =? 0) eqn:E; [destruct body; [done|discriminate]|].
    rewrite (peek_holds _ _ _ _ (eo_in _ _ _ _ Hok1)) by (rewrite length_app; apply Z.eqb_neq in E; lia).
    by rewrite take_app_length. }
  cbn [mbind res_bind].
  assert (ep_ok F1 (put_call (msgid (head_of_bytes hd), body) e1) (body ++ rest) outb) as Hok2 by same_ep Hok1.
  pose proof (Hhere F1 _ Hok2 eq_refl) as Hcall.
  destruct (h _ _ _) as [e2|f]; cbn [mbind res_bind]; [|by destruct Hcall; [left|right; left]].
  destruct Hcall as ((F2 & outb2 & Hok3 & Hrep) & Hib & Hcalls & Hfd). unfold ibuf_pop.
  destruct (decide (rb1 = None)) as [->|Hne1].
  { rewrite Hib. cbn. right. right. split; [done|]. pose proof (proj1 Hnone1 eq_refl) as Hn. rewrite !length_app in Hn.
    destruct body; cbn in Hn; [|lia]. by destruct rest; [|cbn in Hn; lia]. }
  destruct (rb_pop_spec F2 _ _ _ (length body) (eo_ibuf _ _ _ _ Hok3) (eo_in _ _ _ _ Hok3))
    as (F3 & p3 & rb3 & Hpop3 & Hs3 & Hh3 & _); [rewrite length_app; lia|by rewrite Hib|].
  rewrite Hpop3. cbn [mbind res_bind]. rewrite drop_app_length in Hh3. split; [|split; [|split]].
  - exists F3, outb2. split; [by eapply ep_ok_in|done].
  - cbn. by rewrite Hcalls.
  - cbn. by rewrite Hfd.
  - intros -> ->. apply Hne1, Hnone1. rewrite !length_app. cbn. lia.
Qed.

Lemma no_empty_end_cons m ms t : no_empty_end (m :: ms, t) -> no_empty_end (ms, t).
Proof. intros Hn mid Hl. apply (Hn mid). cbn in *. rewrite last_cons, Hl. done. Qed.

Lemma no_empty_end_intro mid body rest :
  (body = [] -> rest <> []) -> no_empty_end (parse rest) -> no_empty_end ((mid, body) :: (parse rest).1, (parse rest).2).
Proof.
  intros Hb Hn mid' Hl Ht. cbn in Hl, Ht. rewrite parse_scan in Hl, Ht, Hn. destruct (scan_frame rest) as [| |mid1 body1 rest1]; cbn in Hl, Ht, Hn.
  - injection Hl as _ ->. injection Ht as ->. by apply Hb.
  - done.
  - by apply (Hn mid').
Qed.

(** The faults of reading a stream: the assert only fails at a message without a body. *)
Definition read_fault (r : list (Z * bytes) * leftover) (f : fault) : Prop :=
  f = ExitFailure \/ f = Blocked \/ f = AssertFail /\ ~ no_empty_end r.

(** The loop of [do_read] dispatches the messages of what is buffered. *)
Lemma read_messages_spec fuel F e inb outb :
  ep_ok F e inb outb -> (length inb < fuel)%nat -> all_fit fits R (parse inb).1 (outb, e_env e) ->
  ((parse inb).2 = Malformed -> clean_ok clean) ->
  match read_messages clean h fuel e with
  | Ok e' => e_calls e' = e_calls e ++ (parse inb).1 /\ e_fd e' = e_fd e /\ no_empty_end (parse inb) /\
      match (parse inb).2 with
      | More rest => exists F' outb', ep_ok F' e' rest outb' /\ served R (parse inb).1 (outb, e_env e) (outb', e_env e')
      | Malformed => (exists F' outb', ep_ok F' e' [] outb') /\ e_ibuf e' = None /\ e_fd e ∈ e_closed e'
      end
  | Err f => read_fault (parse inb) f
  end.
Proof.
  revert F e inb outb. induction fuel as [|fuel IH]; intros F e inb outb Hok Hfuel Hfit Hclean; [lia|].
  cbn [read_messages]. rewrite (holds_length _ _ _ (eo_in _ _ _ _ Hok)). cbn [mbind res_bind].
  rewrite (parse_scan inb) in Hfit, Hclean |- *. unfold MESSAGE_HEAD_LEN in *.
  destruct (Z.of_nat (length inb) <? 8) eqn:E1.
  { assert (scan_frame inb = NeedMore) as -> by (unfold scan_frame, MESSAGE_HEAD_LEN; by rewrite E1).
    cbn. rewrite app_nil_r. split; [done|]. split; [done|]. split; [done|]. exists F, outb. split; [done|constructor]. }
  apply Z.ltb_ge in E1 as E1'. pose proof (peek_holds _ _ _ 8 (eo_in _ _ _ _ Hok)) as Hpeek.
  change (Z.of_nat 8) with 8 in Hpeek. rewrite Hpeek by lia. cbn [mbind res_bind].
  set (hd := head_of_bytes (take 8 inb)). fold (bad_head hd).
  assert (scan_frame inb = if bad_head hd then BadHead else
     if Z.of_nat (length inb) <? 8 + msglen hd then NeedMore
     else Frame (msgid hd) (take (Z.to_nat (msglen hd)) (drop 8 inb)) (drop (Z.to_nat (msglen hd)) (drop 8 inb))) as Hscan.
  { unfold scan_frame, MESSAGE_HEAD_LEN. by rewrite E1. }
  destruct (bad_head hd) eqn:E2.
  { rewrite Hscan. cbn. rewrite app_nil_r. rewrite Hscan in Hclean. pose proof (Hclean eq_refl F e inb outb Hok) as Hc.
    destruct (clean e) as [e'|f] eqn:Hce; [|by destruct Hc; [left|right; left]]. by destruct Hc as (Hok' & Hib & -> & -> & Hcl). }
  destruct (Z.of_nat (length inb) <? 8 + msglen hd) eqn:E3.
  { rewrite Hscan. cbn. rewrite app_nil_r. split; [done|]. split; [done|]. split; [done|]. exists F, outb. split; [done|constructor]. }
  apply scan_frame_shorter in Hscan as Hparts. destruct Hparts as (Hlt & hb & Hhb & Hinb & _ & Hmsg & _).
  rewrite Hscan in Hfit, Hclean |- *. cbn [fst snd] in Hfit, Hclean. destruct Hfit as [Hfit1 Hfit]. set (body := take (Z.to_nat (msglen hd)) (drop 8 inb)) in *.
  set (rest := drop (Z.to_nat (msglen hd)) (drop 8 inb)) in *.
  assert (hd = head_of_bytes hb) as Hhd.
  { unfold hd. rewrite Hinb, take_app_length' by done. done. }
  cbn [fst snd].
  pose proof (one_message (R (msgid (head_of_bytes hb)) body (outb, e_env e)) F e inb outb hb body rest Hok Hinb Hhb Hmsg) as Hone.
  rewrite <-Hhd in Hone. specialize (Hone (Hh _ _ _ _ _ Hfit1)).
  assert (forall f, f = ExitFailure \/ f = Blocked \/ f = AssertFail /\ body = [] /\ rest = [] ->
    read_fault ((msgid hd, body) :: (parse rest).1, (parse rest).2) f) as Hfault.
  { intros f [->|[->|(-> & -> & ->)]]; [by left|by right; left|right; right]. split; [done|].
    rewrite parse_scan. cbn. intros Hn. by apply (Hn (msgid hd)). }
  destruct (ibuf_pop MESSAGE_HEAD_LEN e) as [e1|f] eqn:H1; unfold MESSAGE_HEAD_LEN in H1; rewrite H1;
    cbn [mbind res_bind] in Hone |- *; [|by apply Hfault].
  destruct (call_router h hd e1) as [e2|f]; cbn [mbind res_bind] in Hone |- *; [|by apply Hfault].
  destruct (ibuf_pop (msglen hd) e2) as [e3|f]; cbn [mbind res_bind] in Hone |- *; [|by apply Hfault].
  destruct Hone as ((F' & outb' & Hok' & Hrep) & Hcalls & Hfd & Hne).
  specialize (IH F' e3 rest outb' Hok' ltac:(lia) (Hfit _ Hrep) Hclean). destruct (read_messages clean h fuel e3) as [e'|f].
  - destruct IH as (Hc & Hfd' & Hn & Ht). rewrite Hfd in Ht. split; [by rewrite Hc, Hcalls, <-app_assoc|].
    rewrite Hfd', Hfd. split; [done|]. split; [by apply no_empty_end_intro|]. destruct (parse rest).2; [|done].
    destruct Ht as (F2 & outb2 & Hok2 & Hsv). exists F2, outb2. split; [done|]. by eapply served_cons.
  - destruct IH as [?|[?|[? Hn]]]; [by left|by right; left|right; right]. split; [done|].
    intros Hn'. apply Hn. eapply no_empty_end_cons. by destruct (parse rest).
Qed.

(** The kernel delivers [chunk] after [n] interruptions. *)
Definition deliver (c : nat * bytes) : read_io :=
  {| io_nread := Some (Z.of_nat (length c.2)); io_reads := replicate c.1 ReadEintr ++ [ReadData c.2] |}.

Lemma read_retry_deliver n bs : read_retry (replicate n ReadEintr ++ [ReadData bs]) = Ok (Some bs).
Proof. by induction n. Qed.

Lemma deliver_honest c : length c.2 < 2 ^ 30 -> io_honest (deliver c).
Proof.
  intros Hc need [= <-]. split; [lia|]. intros bs Hbs. cbn in Hbs. apply elem_of_app in Hbs as [Hr|Hr].
  - apply elem_of_replicate in Hr as [? _]. done.
  - apply list_elem_of_singleton in Hr as [= ->]. split; [lia|]. destruct c.2; [done|cbn; lia].
Qed.

(** The first half of [do_read]: the chunk is behind what was buffered. *)
Lemma read_chunk F e inb outb c :
  ep_ok F e inb outb -> at_start (e_pool e) (e_ibuf e) -> c.2 <> [] -> length inb + length c.2 <= m8M ->
  read_data (deliver c) (e_ibuf e) (e_pool e) = Err ExitFailure \/ read_data (deliver c) (e_ibuf e) (e_pool e) = Err Blocked \/
  exists F1 rb1 p1, read_data (deliver c) (e_ibuf e) (e_pool e) = Ok (Z.of_nat (length c.2), rb1, p1) /\
    ep_ok F1 (set_ibuf (rb1, p1) e) (inb ++ c.2) outb.
Proof.
  intros Hok Hst Hc Hmax. unfold m8M in Hmax.
  destruct (read_data_spec F _ _ inb (deliver c) (eo_ibuf _ _ _ _ Hok) (eo_in _ _ _ _ Hok) Hst)
    as [->|[->|(r & data & F1 & p1 & rb1 & -> & Hs1 & Hh1 & Hst1 & Hr)]]; [apply deliver_honest; lia|lia|by left|by right; left|].
  right. right. destruct Hr as [(_ & _ & Hf)|(-> & Hne & need & avail & [= <-] & Hav & ->)].
  { exfalso. destruct Hf as [?|[Hf|(need & [= <-] & Hm)]]; [done| |unfold m8M in Hm; lia].
    cbn in Hf. by rewrite read_retry_deliver in Hf. }
  cbn in Hav. rewrite read_retry_deliver in Hav. injection Hav as <-.
  rewrite Nat2Z.id, (take_ge c.2) in * by lia. exists F1, rb1, p1. split; [done|]. by eapply ep_ok_in.
Qed.

(** The second half, on the [n] bytes that were read. *)
Lemma do_read_chunk (n : nat) rb1 p1 e io :
  read_data io (e_ibuf e) (e_pool e) = Ok (Z.of_nat n, rb1, p1) -> (0 < n)%nat ->
  ep_do_read clean h io e = (len ← rb_length rb1 p1; e ← read_messages clean h (S (Z.to_nat len)) (set_ibuf (rb1, p1) e);
                             p ← rb_adjust (e_ibuf e) (e_pool e); Ok (set_ibuf (e_ibuf e, p) e)).
Proof.
  intros Hr Hn. unfold ep_do_read. rewrite Hr. cbn [mbind res_bind].
  destruct (Z.eqb_spec (Z.of_nat n) (-1)); [lia|]. destruct (Z.eqb_spec (Z.of_nat n) 0); [lia|]. done.
Qed.

(** One [do_read] of a chunk. *)
Lemma do_read_spec F e inb outb c :
  ep_ok F e inb outb -> at_start (e_pool e) (e_ibuf e) -> c.2 <> [] ->
  length inb + length c.2 <= m8M -> all_fit fits R (parse (inb ++ c.2)).1 (outb, e_env e) ->
  ((parse (inb ++ c.2)).2 = Malformed -> clean_ok clean) ->
  match ep_do_read clean h (deliver c) e with
  | Ok e' => e_calls e' = e_calls e ++ (parse (inb ++ c.2)).1 /\ e_fd e' = e_fd e /\ no_empty_end (parse (inb ++ c.2)) /\
      match (parse (inb ++ c.2)).2 with
      | More rest => exists F' outb', ep_ok F' e' rest outb' /\ at_start (e_pool e') (e_ibuf e') /\ served R (parse (inb ++ c.2)).1 (outb, e_env e) (outb', e_env e')
      | Malformed => (exists F' outb', ep_ok F' e' [] outb') /\ e_fd e ∈ e_closed e'
      end
  | Err f => read_fault (parse (inb ++ c.2)) f
  end.
Proof.
  intros Hok Hst Hc Hmax Hfit Hclean. destruct (read_chunk F e inb outb c Hok Hst Hc Hmax) as [Hr|[Hr|(F1 & rb1 & p1 & Hr & Hok1)]];
    [unfold ep_do_read; rewrite Hr; by left|unfold ep_do_read; rewrite Hr; by right; left|].
  rewrite (do_read_chunk _ _ _ _ _ Hr) by (destruct c.2; [done|cbn; lia]). set (e1 := set_ibuf (rb1, p1) e) in *.
  change (rb_length rb1 p1) with (rb_length (e_ibuf e1) (e_pool e1)).
  rewrite (holds_length _ _ _ (eo_in _ _ _ _ Hok1)). cbn [mbind res_bind].
  pose proof (read_messages_spec (S (Z.to_nat (Z.of_nat (length (inb ++ c.2))))) F1 e1 _ _ Hok1 ltac:(lia) Hfit Hclean) as Hread.
  destruct (read_messages _ _ _ e1) as [e2|f]; cbn [mbind res_bind]; [|apply Hread].
  destruct Hread as (Hcalls & Hfd & Hn & Ht). destruct (parse (inb ++ c.2)).2 as [rest|].
  - destruct Ht as (F2 & outb2 & Hok2 & Hsv).
    destruct (rb_adjust_spec _ _ _ _ (eo_ibuf _ _ _ _ Hok2) (eo_in _ _ _ _ Hok2)) as (p3 & -> & Hs3 & Hh3 & Hst3).
    cbn [mbind res_bind]. split_and!; [done..|]. exists F2, outb2. split; [by eapply ep_ok_in|]. by split.
  - destruct Ht as ((F2 & outb2 & Hok2) & Hib & Hcl). rewrite Hib. cbn. split_and!; [done..| |done].
    exists F2, outb2. eapply ep_ok_same; [exact Hok2|done..].
Qed.

(** One [do_read] when the peer has closed or the read fails. *)
Definition hangs_up (io : read_io) : Prop :=
  io_nread io = None \/ exists need, io_nread io = Some need /\ 0 <= need <= m4K /\
    (read_retry (io_reads io) = Ok None \/ read_retry (io_reads io) = Ok (Some [])).

Lemma do_read_hangup F e inb outb io :
  clean_ok clean ->
  ep_ok F e inb outb -> at_start (e_pool e) (e_ibuf e) -> io_honest io -> length inb < 65535 -> hangs_up io ->
  match ep_do_read clean h io e with
  | Ok e' => e_calls e' = e_calls e /\ e_fd e' = e_fd e /\ (exists F' outb', ep_ok F' e' [] outb') /\ e_fd e ∈ e_closed e'
  | Err f => f = ExitFailure \/ f = Blocked
  end.
Proof.
  intros Hclean Hok Hst Hio Hmax Hup. unfold ep_do_read.
  destruct (read_data_spec F _ _ inb io (eo_ibuf _ _ _ _ Hok) (eo_in _ _ _ _ Hok) Hst)
    as [->|[->|(r & data & F1 & p1 & rb1 & -> & Hs1 & Hh1 & Hst1 & Hr)]]; [done|lia|by left|by right|].
  cbn [mbind res_bind]. pose proof (ep_ok_in _ _ _ _ _ _ _ _ Hok Hs1 Hh1) as Hok1. set (e1 := set_ibuf (rb1, p1) e) in *.
  pose proof (Hclean F1 e1 _ _ Hok1) as Hc. destruct Hr as [(-> & _ & _)|(-> & _ & need & avail & Hn & Hav & ->)].
  { cbn. destruct (clean e1) as [e2|f]; [|done]. by destruct Hc as (Hok2 & _ & Hcalls & Hfd & Hcl). }
  destruct Hup as [Hup|(need' & Hn' & _ & [Hup|Hup])]; [congruence..|]. rewrite Hup in Hav. injection Hav as <-.
  rewrite take_nil. cbn [length].
  destruct (clean e1) as [e2|f]; cbn [mbind res_bind]; [|done]. destruct Hc as ((F2 & outb2 & Hok2) & Hib & Hcalls & Hfd & Hcl).
  change (Z.of_nat 0 =? -1) with false. change (Z.of_nat 0 =? 0) with true. cbn [mbind res_bind]. rewrite Hib. cbn [rb_length mbind res_bind]. change (S (Z.to_nat 0)) with 1%nat. cbn [read_messages]. rewrite Hib.
  cbn [rb_length mbind res_bind]. unfold MESSAGE_HEAD_LEN. cbn [Z.ltb Z.compare mbind res_bind]. rewrite Hib.
  cbn [rb_adjust mbind res_bind]. split; [done|]. split; [done|]. split; [|done].
  exists F2, outb2. eapply ep_ok_same; [exact Hok2|done..].
Qed.

(** Chunk after chunk. *)
Definition do_reads e (chunks : list (nat * bytes)) : res endpoint :=
  foldM (fun e c => ep_do_read clean h (deliver c) e) e chunks.

Lemma do_reads_spec F e inb outb chunks ms rest :
  ep_ok F e inb outb -> at_start (e_pool e) (e_ibuf e) -> scan_frame inb = NeedMore ->
  Forall (fun c => c.2 <> [] /\ length c.2 <= m8M - 65535) chunks ->
  parse (inb ++ concat (snd <$> chunks)) = (ms, More rest) -> Forall (fun m => m.2 <> []) ms -> all_fit fits R ms (outb, e_env e) ->
  match do_reads e chunks with
  | Ok e' => e_calls e' = e_calls e ++ ms /\
      exists F' outb', ep_ok F' e' rest outb' /\ at_start (e_pool e') (e_ibuf e') /\ served R ms (outb, e_env e) (outb', e_env e')
  | Err f => f = ExitFailure \/ f = Blocked
  end.
Proof.
  intros Hok Hst Hshort Hchunks. revert F e inb outb ms Hok Hst Hshort.
  induction Hchunks as [|c chunks [Hc Hmax] Hchunks IH]; intros F e inb outb ms Hok Hst Hshort Hparse Hms Hfit;
    unfold do_reads; cbn [foldM].
  { cbn in Hparse. rewrite app_nil_r, parse_scan, Hshort in Hparse. injection Hparse as <- <-.
    rewrite app_nil_r. split; [done|]. exists F, outb. split; [done|]. split; [done|constructor]. }
  cbn in Hparse. rewrite app_assoc, parse_app in Hparse.
  destruct (parse (inb ++ c.2)) as [ms1 [rest1|]] eqn:E1; cbn in Hparse; [|discriminate].
  destruct (parse (rest1 ++ concat (snd <$> chunks))) as [ms2 t2] eqn:E2. cbn in Hparse. injection Hparse as <- ->.
  apply Forall_app in Hms as [Hms1 Hms2]. apply all_fit_app in Hfit as [Hfit1 Hfit2].
  assert (forall f, read_fault (parse (inb ++ c.2)) f -> f = ExitFailure \/ f = Blocked) as Hend.
  { intros f [?|[?|[_ Hf]]]; [by left|by right|]. destruct Hf. rewrite E1. intros mid Hl. cbn in Hl. apply last_Some_elem_of in Hl.
    rewrite Forall_forall in Hms1. by apply Hms1 in Hl. }
  pose proof (do_read_spec F e inb outb c Hok Hst Hc) as Hread.
  assert (length inb < 65535) as Hlen by (by apply need_more_short).
  destruct (ep_do_read clean h (deliver c) e) as [e1|f]; cbn [mbind res_bind]; [|apply Hend, Hread; [lia|by rewrite E1|by rewrite E1]].
  destruct Hread as (Hcalls & _ & _ & Hrest); [lia|by rewrite E1|by rewrite E1|]. rewrite E1 in Hcalls, Hrest. cbn in Hcalls, Hrest.
  destruct Hrest as (F1 & outb1 & Hok1 & Hst1 & Hsv1).
  assert (scan_frame rest1 = NeedMore) as Hshort1 by (eapply parse_more_short; by rewrite E1).
  specialize (IH F1 e1 rest1 outb1 ms2 Hok1 Hst1 Hshort1 E2 Hms2 (Hfit2 _ Hsv1)). unfold do_reads in IH.
  destruct (foldM _ e1 chunks) as [e2|f]; [|done]. destruct IH as [Hc2 (F2 & outb2 & Hok2 & Hst2 & Hsv2)].
  split; [by rewrite Hc2, Hcalls, <-app_assoc|]. exists F2, outb2. split; [done|]. split; [done|]. by eapply served_app.
Qed.
End reading.

(** EPOLLOUT is asked for. *)
Definition armed e : bool :=
  match el_evs (e_loop e) !! e_fd e with Some ev => has (ev_mask ev) EPOLLOUT | None => false end.

Section writing.
Context (wt_callback : C) (clean : endpoint -> res endpoint).

(** What sending and writing leave alone. *)
Definition same_reader e e' : Prop :=
  e_ibuf e' = e_ibuf e /\ e_calls e' = e_calls e /\ e_fd e' = e_fd e /\ e_self e' = e_self e /\ e_closed e' = e_closed e /\
  e_env e' = e_env e.

Lemma same_reader_trans e1 e2 e3 : same_reader e1 e2 -> same_reader e2 e3 -> same_reader e1 e3.
Proof. unfold same_reader. intros (? & ? & ? & ? & ? & ?) (? & ? & ? & ? & ? & ?). repeat split; congruence. Qed.

Lemma armed_add (l : event_loop C T A K) fd c a ev :
  el_evs (add_io_event fd c EPOLLOUT a l) !! fd = Some ev -> has (ev_mask ev) EPOLLOUT = true.
Proof.
  unfold add_io_event. destruct (el_evs l !! fd) as [ev0|]; cbn.
  - destruct (epoll_ctl _ _ _ _) as [[] k]; cbn; rewrite lookup_insert_eq; intros [= <-]; cbn;
      by rewrite has_lor, orb_true_r.
  - destruct (epoll_ctl _ _ _ _) as [[] k]; cbn; rewrite lookup_insert_eq; by intros [= <-].
Qed.

Lemma add_event_found (l : event_loop C T A K) fd c m a : is_Some (el_evs (add_io_event fd c m a l) !! fd).
Proof.
  unfold add_io_event. destruct (el_evs l !! fd) as [ev0|]; cbn;
    destruct (epoll_ctl _ _ _ _) as [[] k]; cbn; rewrite lookup_insert_eq; by eexists.
Qed.

Lemma has_land_lnot m : has (Z.land m (Z.lnot EPOLLOUT)) EPOLLOUT = false.
Proof.
  unfold has. rewrite <-Z.land_assoc, (Z.land_comm (Z.lnot _)), Z.land_lnot_diag, Z.land_0_r. done.
Qed.

Lemma disarmed_del (l : event_loop C T A K) fd ev :
  el_evs (del_io_event_mask fd EPOLLOUT l) !! fd = Some ev -> has (ev_mask ev) EPOLLOUT = false.
Proof.
  unfold del_io_event_mask. destruct (el_evs l !! fd) as [ev0|] eqn:E; [|by rewrite E].
  destruct (_ =? 0); cbn.
  - by rewrite lookup_delete_eq.
  - rewrite lookup_insert_eq. intros [= <-]. cbn. apply has_land_lnot.
Qed.

(** [send_message] below the 8M of a buffer: the frame is queued, and EPOLLOUT is
    asked for if nothing was pending. *)
Lemma send_message_spec F e inb outb data mid :
  ep_ok F e inb outb -> length outb + 8 + length data <= m8M ->
  ep_send_message wt_callback data mid e = Err ExitFailure \/
  exists e' F', ep_send_message wt_callback data mid e = Ok (0, e') /\
    ep_ok F' e' inb (outb ++ frame mid data) /\ same_reader e e' /\ e_wire e' = e_wire e /\
    (at_start (e_pool e) (e_ibuf e) -> at_start (e_pool e') (e_ibuf e')) /\
    armed e' = (if decide (outb = []) then true else armed e).
Proof.
  intros Hok Hmax. unfold m8M in Hmax. unfold ep_send_message.
  rewrite (holds_length _ _ _ (eo_out _ _ _ _ Hok)). cbn [mbind res_bind].
  set (hd := head_bytes {| msgid := mid; msglen := length data |}).
  assert (length hd = 8%nat) as Hhd by apply length_head_bytes.
  destruct (send_data_spec F _ _ _ hd (eo_obuf _ _ _ _ Hok) (eo_out _ _ _ _ Hok) (eo_start _ _ _ _ Hok))
    as [->|[[Hm _]|(F1 & p1 & rb1 & -> & Hs1 & Hh1 & Hst1 & _)]]; [lia|by left|unfold m8M in Hm; lia|].
  cbn [mbind res_bind]. cbn [Z.eqb negb].
  destruct (ep_ok_out _ _ _ _ _ _ _ _ Hok Hs1 Hh1 Hst1) as [Hok1 Hib1]. set (e1 := set_obuf (rb1, p1) e) in *.
  destruct (send_data_spec F1 (e_pool e1) (e_obuf e1) (outb ++ hd) data (eo_obuf _ _ _ _ Hok1) (eo_out _ _ _ _ Hok1) (eo_start _ _ _ _ Hok1))
    as [->|[[Hm _]|(F2 & p2 & rb2 & -> & Hs2 & Hh2 & Hst2 & _)]];
    [rewrite length_app; lia|by left|unfold m8M in Hm; rewrite length_app in Hm; lia|].
  right. cbn [mbind res_bind]. cbn [Z.eqb negb].
  destruct (ep_ok_out _ _ _ _ _ _ _ _ Hok1 Hs2 Hh2 Hst2) as [Hok2 Hib2]. set (e2 := set_obuf (rb2, p2) e1) in *.
  rewrite <-app_assoc in Hok2. change (hd ++ data) with (frame mid data) in Hok2.
  destruct (Z.of_nat (length outb) =? 0) eqn:E.
  - assert (outb = []) as Ho by (apply Z.eqb_eq in E; destruct outb; [done|discriminate]).
    eexists _, F2. split; [done|]. split; [same_ep Hok2|]. split; [done|]. split; [done|].
    split; [intros Ha; by apply Hib2, Hib1|]. rewrite decide_True by done.
    unfold armed. cbn. destruct (add_event_found (e_loop e) (e_fd e) wt_callback EPOLLOUT (e_self e)) as [ev Hev].
    rewrite Hev. by apply armed_add in Hev.
  - apply Z.eqb_neq in E. exists e2, F2. split; [done|]. split; [done|]. split; [done|]. split; [done|].
    split; [intros Ha; by apply Hib2, Hib1|]. rewrite decide_False; [done|]. intros ->. done.
Qed.

(** A write that fails: [clean_conn] was called on the sound endpoint [e1]. *)
Definition cleaned e inb e1 : Prop :=
  exists F1 outb1, ep_ok F1 e1 inb outb1 /\ same_reader e e1 /\
    (at_start (e_pool e) (e_ibuf e) -> at_start (e_pool e1) (e_ibuf e1)).

Lemma cleaned_later e e1 inb e2 :
  same_reader e e1 -> (at_start (e_pool e) (e_ibuf e) -> at_start (e_pool e1) (e_ibuf e1)) ->
  cleaned e1 inb e2 -> cleaned e inb e2.
Proof.
  intros Hs Hst (F2 & outb2 & Hok & Hs2 & Hst2). exists F2, outb2. split; [done|]. split; [by eapply same_reader_trans|].
  intros Ha. by apply Hst2, Hst.
Qed.

Lemma write_all_spec fuel ws F e inb outb :
  ep_ok F e inb outb -> (length ws < fuel)%nat ->
  match write_all clean fuel ws e with
  | Ok (false, e') => exists out outb' F', outb = out ++ outb' /\ e_wire e' = e_wire e ++ out /\
      ep_ok F' e' inb outb' /\ same_reader e e' /\ e_loop e' = e_loop e /\
      (at_start (e_pool e) (e_ibuf e) -> at_start (e_pool e') (e_ibuf e'))
  | Ok (true, e') => WriteError ∈ ws /\ exists e1, cleaned e inb e1 /\ clean e1 = Ok e'
  | Err f => f = Blocked \/ WriteError ∈ ws /\ exists e1, cleaned e inb e1 /\ clean e1 = Err f
  end.
Proof.
  revert ws F e outb. induction fuel as [|fuel IH]; intros ws F e outb Hok Hfuel; [lia|].
  cbn [write_all]. rewrite (holds_length _ _ _ (eo_out _ _ _ _ Hok)). cbn [mbind res_bind].
  destruct (Z.of_nat (length outb) =? 0) eqn:E.
  { exists [], outb, F. rewrite app_nil_r. done. }
  assert (e_obuf e <> None) as Hne.
  { pose proof (eo_out _ _ _ _ Hok) as Hout. destruct (e_obuf e); [done|]. cbn in Hout. by subst outb. }
  destruct (write2fd_spec F _ _ _ ws (eo_obuf _ _ _ _ Hok) (eo_out _ _ _ _ Hok) (eo_start _ _ _ _ Hok) Hne)
    as [->|(r & out & ws' & p' & -> & Hs & Hh & Hst & Hout & Hr & spent & Hsp & Hspne)]; [by left|].
  cbn [mbind res_bind].
  destruct (ep_ok_out _ _ _ _ _ _ _ _ Hok Hs Hh Hst) as [Hok1 Hib].
  set (e1 := put_wire out (set_obuf (e_obuf e, p') e)).
  assert (ep_ok F e1 inb (drop (length out) outb)) as Hok1' by same_ep Hok1.
  assert (outb = out ++ drop (length out) outb) as Hsplit.
  { rewrite <-(take_drop (length out) outb) at 1. by rewrite <-Hout. }
  destruct Hr as [(-> & -> & Hwe)| ->].
  { cbn [Z.eqb Pos.eqb]. assert (cleaned e inb e1) as Hcl by (by exists F, (drop (length (@nil byte)) outb)).
    destruct (clean e1) as [e2|f] eqn:Hce; cbn [mbind res_bind]; [split; [done|]; by exists e1|right; split; [done|]; by exists e1]. }
  replace (Z.of_nat (length out) =? -1) with false by (symmetry; apply Z.eqb_neq; lia).
  destruct (Z.of_nat (length out) =? 0) eqn:E0.
  { by exists out, (drop (length out) outb), F. }
  assert (same_reader e e1) as Hsame1 by done.
  assert (WriteError ∈ ws' -> WriteError ∈ ws) as Hin by (intros Hw; rewrite Hsp; apply elem_of_app; by right).
  assert (length ws' < fuel)%nat as Hl by (rewrite Hsp, length_app in Hfuel; destruct spent; [done|cbn in Hfuel; lia]).
  specialize (IH ws' F e1 _ Hok1' Hl). destruct (write_all clean fuel ws' e1) as [[[] e']|f].
  - destruct IH as (Hw & e2 & Hc & Hce). split; [by apply Hin|]. exists e2. split; [by eapply cleaned_later|done].
  - destruct IH as (out2 & outb2 & F2 & Heq & Hw & Hok2 & Hsame & Hlo & Hst2).
    exists (out ++ out2), outb2, F2. split; [by rewrite <-app_assoc, <-Heq|].
    split; [rewrite Hw; cbn; by rewrite app_assoc|]. split; [done|]. split; [by eapply same_reader_trans|]. split; [by rewrite Hlo|].
    intros Ha. by apply Hst2, Hib.
  - destruct IH as [?|(Hw & e2 & Hc & Hce)]; [by left|right]. split; [by apply Hin|]. exists e2. split; [by eapply cleaned_later|done].
Qed.

(** [do_write], whatever the kernel answers: the connection goes on or is closed. *)
Lemma do_write_any ws F e inb outb :
  clean_ok clean -> ep_ok F e inb outb -> at_start (e_pool e) (e_ibuf e) ->
  match ep_do_write clean ws e with
  | Ok e' => e_calls e' = e_calls e /\ e_fd e' = e_fd e /\
      ((exists F' outb', ep_ok F' e' inb outb' /\ at_start (e_pool e') (e_ibuf e')) \/
       (exists F' outb', ep_ok F' e' [] outb') /\ e_fd e ∈ e_closed e')
  | Err f => f = ExitFailure \/ f = Blocked
  end.
Proof.
  intros Hclean Hok Hst. unfold ep_do_write. pose proof (write_all_spec (S (length ws)) ws F e inb outb Hok) as Hall.
  assert (forall e1, cleaned e inb e1 -> match clean e1 with
    | Ok e' => e_calls e' = e_calls e /\ e_fd e' = e_fd e /\ (exists F' outb', ep_ok F' e' [] outb') /\ e_fd e ∈ e_closed e'
    | Err f => f = ExitFailure \/ f = Blocked end) as Hcl.
  { intros e1 (F1 & outb1 & Hok1 & (_ & Hca & Hfd & _) & _). pose proof (Hclean F1 e1 _ _ Hok1) as Hc.
    rewrite Hca, Hfd in Hc. destruct (clean e1); [tauto|done]. }
  destruct (write_all clean (S (length ws)) ws e) as [[[] e1]|f]; cbn [mbind res_bind].
  - destruct Hall as (_ & e2 & Hc & Hce); [lia|]. apply Hcl in Hc. rewrite Hce in Hc. destruct Hc as (? & ? & ?). auto.
  - destruct Hall as (out & outb' & F' & Heq & Hw & Hok' & (Hib & Hca & Hfd & _) & Hl & Hst'); [lia|].
    rewrite (holds_length _ _ _ (eo_out _ _ _ _ Hok')). cbn [mbind res_bind].
    destruct (Z.of_nat (length outb') =? 0); (split; [done|]; split; [done|]; left; exists F', outb'; split; [|by apply Hst']); [same_ep Hok'|done].
  - destruct Hall as [->|(_ & e2 & Hc & Hce)]; [lia|by right|]. apply Hcl in Hc. by rewrite Hce in Hc.
Qed.

(** [do_write] when no write fails. *)
Lemma do_write_spec ws F e inb outb :
  ep_ok F e inb outb -> WriteError ∉ ws ->
  match ep_do_write clean ws e with
  | Ok e' => exists out outb' F', outb = out ++ outb' /\ e_wire e' = e_wire e ++ out /\
      ep_ok F' e' inb outb' /\ same_reader e e' /\ (at_start (e_pool e) (e_ibuf e) -> at_start (e_pool e') (e_ibuf e')) /\
      armed e' = (if decide (outb' = []) then false else armed e)
  | Err f => f = Blocked
  end.
Proof.
  intros Hok Hws. unfold ep_do_write. pose proof (write_all_spec (S (length ws)) ws F e inb outb Hok) as Hall.
  destruct (write_all clean (S (length ws)) ws e) as [[[] e1]|f]; cbn [mbind res_bind]; [by destruct Hall; [lia|]| |].
  2:{ by destruct Hall as [?|[? _]]; [lia| |]. }
  destruct Hall as (out & outb' & F' & Heq & Hw & Hok' & Hsame & Hl & Hst); [lia|].
  rewrite (holds_length _ _ _ (eo_out _ _ _ _ Hok')). cbn [mbind res_bind].
  destruct (Z.of_nat (length outb') =? 0) eqn:E.
  - assert (outb' = []) as -> by (apply Z.eqb_eq in E; destruct outb'; [done|discriminate]).
    exists out, [], F'. split; [done|]. split; [done|]. split; [same_ep Hok'|]. do 2 (split; [done|]).
    unfold armed. cbn. destruct (el_evs _ !! _) as [ev|] eqn:Hev; [|done]. by apply disarmed_del in Hev.
  - apply Z.eqb_neq in E. exists out, outb', F'. do 5 (split; [done|]).
    rewrite decide_False by (intros ->; done). unfold armed. destruct Hsame as (_ & _ & -> & _). by rewrite Hl.
Qed.

(** What the two do to the event loop. *)
Lemma send_message_loop F e inb outb data mid e' :
  ep_ok F e inb outb -> ep_send_message wt_callback data mid e = Ok (0, e') ->
  e_loop e' = (if decide (outb = []) then add_io_event (e_fd e) wt_callback EPOLLOUT (e_self e) (e_loop e) else e_loop e).
Proof.
  intros Hok. unfold ep_send_message. rewrite (holds_length _ _ _ (eo_out _ _ _ _ Hok)). cbn [mbind res_bind].
  intros Hs. apply bind_ok in Hs as ([[ret ob] p1] & _ & Hs). destruct (negb (ret =? 0)); [discriminate|].
  apply bind_ok in Hs as ([[ret2 ob2] p2] & _ & Hs). destruct (negb (ret2 =? 0)).
  { apply bind_ok in Hs as (x & _ & Hs). discriminate. }
  destruct (Z.of_nat (length outb) =? 0) eqn:E; injection Hs as <-.
  - apply Z.eqb_eq in E. destruct outb; [|discriminate]. done.
  - rewrite decide_False; [done|]. intros ->. done.
Qed.

Lemma do_write_loop ws F e inb outb e' :
  ep_ok F e inb outb -> WriteError ∉ ws -> ep_do_write clean ws e = Ok e' ->
  e_loop e' = e_loop e \/ e_loop e' = del_io_event_mask (e_fd e) EPOLLOUT (e_loop e).
Proof.
  intros Hok Hws. unfold ep_do_write. pose proof (write_all_spec (S (length ws)) ws F e inb outb Hok) as Hall.
  destruct (write_all clean (S (length ws)) ws e) as [[[] e1]|f]; cbn [mbind res_bind]; [by destruct Hall; [lia|]| |done].
  destruct Hall as (out & outb' & F' & _ & _ & Hok' & (_ & _ & Hfd & _) & Hl & _); [lia|].
  rewrite (holds_length _ _ _ (eo_out _ _ _ _ Hok')). cbn [mbind res_bind].
  destruct (Z.of_nat (length outb') =? 0); intros [= <-]; [right|by left]. cbn. by rewrite Hfd, Hl.
Qed.

(** What the owner of an endpoint does with its output side. *)
Inductive out_call :=
| Send (data : bytes) (mid : Z)
| Writable (ws : list write_result).

Definition out_exec e (c : out_call) : res endpoint :=
  match c with
  | Send data mid => '(_, e) ← ep_send_message wt_callback data mid e; Ok e
  | Writable ws => ep_do_write clean ws e
  end.

Definition sent (cs : list out_call) : bytes :=
  concat ((fun c => match c with Send data mid => frame mid data | Writable _ => [] end) <$> cs).

Lemma out_run_spec cs F e inb outb :
  ep_ok F e inb outb -> length outb + length (sent cs) <= m8M ->
  Forall (fun c => match c with Writable ws => WriteError ∉ ws | _ => True end) cs ->
  (armed e = true <-> outb <> []) ->
  match foldM out_exec e cs with
  | Ok e' => exists F' outb', ep_ok F' e' inb outb' /\ e_wire e ++ outb ++ sent cs = e_wire e' ++ outb' /\
      (armed e' = true <-> outb' <> []) /\ same_reader e e'
  | Err f => f = ExitFailure \/ f = Blocked
  end.
Proof.
  intros Hok Hmax Hcs. revert F e outb Hok Hmax. induction Hcs as [|c cs Hc Hcs IH]; intros F e outb Hok Hmax Harm.
  { cbn. exists F, outb. rewrite app_nil_r. done. }
  unfold sent in *. cbn [fmap list_fmap concat] in *. rewrite length_app in Hmax. cbn [foldM].
  destruct c as [data mid|ws]; cbn [out_exec].
  - rewrite length_frame in Hmax.
    destruct (send_message_spec F e inb outb data mid Hok) as [->|(e1 & F1 & -> & Hok1 & Hsame & Hw & _ & Harm1)];
      [lia|by left|].
    cbn [mbind res_bind]. specialize (IH F1 e1 (outb ++ frame mid data) Hok1).
    destruct (foldM out_exec e1 cs) as [e2|f].
    + destruct IH as (F2 & outb2 & Hok2 & Heq & Harm2 & Hsame2).
      * rewrite length_app, length_frame. lia.
      * rewrite Harm1. split; [intros _ Hn; by apply app_nil in Hn as [_ Hn]|]. intros _.
        destruct (decide (outb = [])); [done|]. by apply Harm.
      * exists F2, outb2. split; [done|]. split; [rewrite <-Heq, Hw; by rewrite <-!app_assoc|]. split; [done|].
        by eapply same_reader_trans.
    + apply IH.
      * rewrite length_app, length_frame. lia.
      * rewrite Harm1. split; [intros _ Hn; by apply app_nil in Hn as [_ Hn]|]. intros _.
        destruct (decide (outb = [])); [done|]. by apply Harm.
  - pose proof (do_write_spec ws F e inb outb Hok Hc) as Hw. cbn [length app] in Hmax |- *.
    destruct (ep_do_write clean ws e) as [e1|f]; cbn [mbind res_bind]; [|by right].
    destruct Hw as (out & outb1 & F1 & -> & Hwire & Hok1 & Hsame & _ & Harm1).
    specialize (IH F1 e1 outb1 Hok1). rewrite length_app in Hmax.
    assert (armed e1 = true <-> outb1 <> []) as Ha1.
    { rewrite Harm1. destruct (decide (outb1 = [])) as [->|Hne]; [done|]. split; [done|]. intros _. apply Harm.
      intros Hn. by apply app_nil in Hn as [_ ?]. }
    destruct (foldM out_exec e1 cs) as [e2|f].
    + destruct IH as (F2 & outb2 & Hok2 & Heq & Harm2 & Hsame2); [lia|done|].
      exists F2, outb2. split; [done|]. split; [rewrite <-Heq, Hwire; by rewrite <-!app_assoc|]. split; [done|].
      by eapply same_reader_trans.
    + apply IH; [lia|done].
Qed.
End writing.

(** ** Where the two sides go wrong *)

(** A message without a body that is the last thing buffered: taking its header away
    gives the buffer back to the pool, and taking the empty body away then fails
    the assert on the null buffer. *)
Lemma empty_message_aborts clean h F e outb n mid :
  ep_ok F e [] outb -> at_start (e_pool e) (e_ibuf e) -> is_i32 mid -> handles_at h [] outb mid [] ->
  match ep_do_read clean h (deliver (n, frame mid [])) e with
  | Ok _ => False
  | Err f => f = AssertFail \/ f = ExitFailure \/ f = Blocked
  end.
Proof.
  intros Hok Hst Hmid Hh. assert (length (frame mid []) = 8%nat) as Hl by apply length_frame.
  destruct (read_chunk F e [] outb (n, frame mid []) Hok Hst) as [Hr|[Hr|(F1 & rb1 & p1 & Hr & Hok1)]];
    [by intros Hf; cbn in Hf; rewrite Hf in Hl|cbn [snd]; rewrite Hl; unfold m8M; cbn; lia|unfold ep_do_read; rewrite Hr; by right; left|unfold ep_do_read; rewrite Hr; by right; right|].
  rewrite (do_read_chunk _ _ _ _ _ _ _ Hr) by (cbn [snd]; lia). set (e1 := set_ibuf (rb1, p1) e) in *. cbn [snd app] in Hok1.
  change (rb_length rb1 p1) with (rb_length (e_ibuf e1) (e_pool e1)).
  assert (rb_length (e_ibuf e1) (e_pool e1) = Ok 8) as Hlen by (rewrite (holds_length _ _ _ (eo_in _ _ _ _ Hok1)), Hl; done).
  rewrite Hlen. cbn [mbind res_bind read_messages]. rewrite Hlen. cbn [mbind res_bind]. change (8 <? MESSAGE_HEAD_LEN) with false. cbv iota.
  pose proof (peek_holds _ _ _ 8 (eo_in _ _ _ _ Hok1)) as Hpeek. rewrite take_ge in Hpeek by lia.
  change (Z.of_nat 8) with MESSAGE_HEAD_LEN in Hpeek. rewrite Hpeek by (rewrite Hl; lia). cbn [mbind res_bind].
  assert (scan_frame (frame mid []) = Frame mid [] []) as Hscan.
  { rewrite <-(app_nil_r (frame mid [])). by apply scan_frame_frame. }
  apply scan_frame_shorter in Hscan as (_ & hd & Hhd & Heq & Hid & Hmsg & Hbad). rewrite app_nil_r in Heq. cbn [app] in Heq.
  unfold bad_head in Hbad. rewrite Heq in *. rewrite Hbad, Hmsg. change (8 <? MESSAGE_HEAD_LEN + Z.of_nat (length (@nil byte))) with false. cbv iota.
  rewrite Hid in Hh. pose proof (one_message h _ F1 e1 _ outb hd [] [] Hok1 (eq_sym (app_nil_r hd)) Hhd Hmsg (handles_replies h _ _ _ _ _ Hh)) as Hone. rewrite Hmsg in Hone.
  destruct (ibuf_pop MESSAGE_HEAD_LEN e1) as [e2|f]; cbn [mbind res_bind] in Hone |- *; [|naive_solver].
  destruct (call_router h (head_of_bytes hd) e2) as [e3|f]; cbn [mbind res_bind] in Hone |- *; [|naive_solver].
  destruct (ibuf_pop _ e3) as [e4|f]; cbn [mbind res_bind] in Hone |- *; [|naive_solver].
  destruct Hone as (_ & _ & _ & Hne). by destruct Hne.
Qed.

(** A [send_message] whose body does not fit any more behind pending bytes: its
    header stays, eight bytes of the messages before it are lost instead, and
    every later [send_message] fails the assert on [head]. *)
Lemma send_failure wt F e inb outb data mid :
  ep_ok F e inb outb -> outb <> [] -> length outb + 8 <= m8M < length outb + 8 + length data ->
  length data < 2 ^ 30 ->
  ep_send_message wt data mid e = Err ExitFailure \/
  exists e' F', ep_send_message wt data mid e = Ok (-1, e') /\ owns F' (e_pool e') (e_obuf e') /\
    holds_bytes (e_pool e') (e_obuf e') (drop 8 (outb ++ head_bytes {| msgid := mid; msglen := length data |})) /\
    forall data' mid', ep_send_message wt data' mid' e' = Err AssertFail.
Proof.
  intros Hok Hne Hmax Hdata. unfold m8M in Hmax. unfold ep_send_message at 1 2.
  rewrite (holds_length _ _ _ (eo_out _ _ _ _ Hok)). cbn [mbind res_bind].
  set (hd := head_bytes {| msgid := mid; msglen := length data |}).
  assert (length hd = 8%nat) as Hhd by apply length_head_bytes.
  assert (0 < length outb)%nat as Hpos by (destruct outb; [done|cbn; lia]).
  destruct (send_data_spec F _ _ _ hd (eo_obuf _ _ _ _ Hok) (eo_out _ _ _ _ Hok) (eo_start _ _ _ _ Hok))
    as [->|[[Hm _]|(F1 & p1 & rb1 & -> & Hs1 & Hh1 & Hst1 & Hrb1)]]; [lia|by left|unfold m8M in Hm; lia|].
  cbn [mbind res_bind]. cbn [Z.eqb negb].
  destruct (ep_ok_out _ _ _ _ _ _ _ _ Hok Hs1 Hh1 Hst1) as [Hok1 _]. set (e1 := set_obuf (rb1, p1) e) in *.
  destruct (send_data_spec F1 (e_pool e1) (e_obuf e1) (outb ++ hd) data (eo_obuf _ _ _ _ Hok1) (eo_out _ _ _ _ Hok1) (eo_start _ _ _ _ Hok1))
    as [->|[[Hm ->]|(F2 & p2 & rb2 & Hsend & Hs2 & Hh2 & Hst2 & _)]];
    [rewrite length_app; lia|by left| |].
  2:{ exfalso. destruct rb2 as [q|]; cbn in Hh2; [|by destruct outb].
      destruct Hh2 as (b & Hb & Hbs). pose proof (bh_fits _ _ Hbs) as Hf. pose proof (bh_head _ _ Hbs).
      pose proof (pi_all _ _ _ (ow_pool _ _ _ (rs_owns _ _ _ _ _ _ Hs2)) q b Hb) as Hc.
      apply elem_of_classes, classes_max in Hc. rewrite !length_app in Hf. unfold m8M in Hc. lia. }
  cbn [mbind res_bind]. cbn [Z.eqb negb].
  destruct rb1 as [q|]; [|done]. cbn [e1 set_obuf e_obuf e_pool fst snd].
  destruct Hh1 as (b & Hb & Hbs). destruct Hst1 as (? & Hb2 & Hz). rewrite Hb in Hb2. injection Hb2 as <-.
  assert (b_length b = length outb + 8) as Hlen by (rewrite (bh_length _ _ Hbs), length_app; lia).
  assert (rb_pop MESSAGE_HEAD_LEN (Some q) p1 = Ok (Some q, put_buf q (b_pop 8 b) p1)) as ->.
  { unfold rb_pop, get_buf. rewrite Hb. cbn [mbind res_bind of_option]. unfold MESSAGE_HEAD_LEN.
    rewrite Hlen. replace (8 <=? length outb + 8) with true by (symmetry; apply Z.leb_le; lia).
    cbn [b_length b_pop]. rewrite Hlen.
    replace (length outb + 8 - 8 =? 0) with false by (symmetry; apply Z.eqb_neq; lia). done. }
  cbn [mbind res_bind]. right. eexists _, F1. split; [done|]. cbn [e_obuf e_pool set_obuf fst snd].
  split; [by eapply rb_step_put; [apply Hs1|done|done]|]. split.
  - exists (b_pop 8 b). cbn. rewrite lookup_insert_eq. split; [done|]. destruct Hbs as [Hl Hhd' Hf Hd].
    constructor; cbn; rewrite ?length_drop; try lia. apply (holds_drop _ _ _ 8); [rewrite length_app; lia|done].
  - intros data' mid'. unfold ep_send_message, rb_length, get_buf. cbn [e_obuf e_pool set_obuf fst snd].
    cbn [bp_heap put_buf bp_set_heap]. rewrite lookup_insert_eq. cbn [mbind res_bind of_option].
    unfold send_data, get_buf. cbn [bp_heap put_buf bp_set_heap]. rewrite lookup_insert_eq. cbn [mbind res_bind of_option].
    cbn [b_head b_pop]. rewrite Hz. done.
Qed.
End spec.

(** [e'] is sound because [e] is: the same buffers, pool, descriptor and environment. *)
Ltac same_ep H := eapply ep_ok_same; [exact H|reflexivity|reflexivity|reflexivity|reflexivity|intros ? Hi; exact Hi].

(** A stronger invariant of the environment, as far as it holds. *)
Lemma ep_ok_env {C T A K X} (I I' : Z -> X -> Prop) others F (e : endpoint C T A K X) inb outb :
  (forall fd, I fd (e_env e) -> I' fd (e_env e)) -> ep_ok I others F e inb outb -> ep_ok I' others F e inb outb.
Proof.
  intros HI [Hi Hin Ho Hout Hst Hd Henv Hoth]. constructor; try done; [by apply HI|].
  eapply Forall_impl; [exact Hoth|]. intros t [? ? ? ? ? ? ? ?]. constructor; try done. by apply HI.
Qed.
