(* ===== verification/TcpConn.v ===== *)
(** * TcpConn: the connections of a tcp server (lars_reactor, tcp_conn.cpp and the
    connection table of tcp_server.cpp)

    A [tcp_conn] is an [endpoint] whose environment holds the static members of
    [tcp_server] it uses and the state of the application behind the callbacks. *)

From S2P Require Import Prelude Bytes BufPool ReactorBuf EventLoop Stream StreamSpec.
From stdpp Require Import base numbers list gmap fin_maps.
From Stdlib Require Import ZArith Lia.
Open Scope Z_scope.

(** The functions the reactor registers as [io_callback]s. *)
Inductive io_proc :=
| conn_rd_callback | conn_wt_callback          (* tcp_conn.cpp *)
| accept_callback                              (* tcp_server.cpp *)
| read_callback | write_callback | connection_succ   (* tcp_client.cpp *)
| server_read_callback                         (* udp_server.cpp *)
| client_read_callback                         (* udp_client.cpp *)
| deal_task                                    (* thread_pool.cpp *)
| user_io_callback (n : nat).                  (* those of the services *)

(** The connection table: [conns] is an array of [ts_size] pointers, indexed by
    descriptor. *)
Record tcp_statics := TcpStatics {
  ts_conns : gmap Z (option Z);
  ts_size : Z;
  ts_curr : Z;       (* _curr_conns *)
  ts_max : Z         (* _max_conns *)
}.

Definition in_table (connfd : Z) (s : tcp_statics) : bool := (0 <=? connfd) && (connfd <? ts_size s).

(** [static void increase_conn(int connfd, tcp_conn *conn)] *)
Definition increase_conn (connfd conn : Z) (s : tcp_statics) : res tcp_statics :=
  ensure in_table connfd s or OutOfBounds;
  Ok (TcpStatics (<[connfd:=Some conn]> (ts_conns s)) (ts_size s) (ts_curr s + 1) (ts_max s)).

(** [static void decrease_conn(int connfd)] *)
Definition decrease_conn (connfd : Z) (s : tcp_statics) : res tcp_statics :=
  ensure in_table connfd s or OutOfBounds;
  Ok (TcpStatics (<[connfd:=None]> (ts_conns s)) (ts_size s) (ts_curr s - 1) (ts_max s)).

(** [static void get_conn_num(int *curr_conn)] *)
Definition get_conn_num (s : tcp_statics) : Z := ts_curr s.

Section tcp_conn.
Context {T K S M U : Type} `{Epoll K}.

Record server_env := ServerEnv {
  se_statics : tcp_statics;
  se_app : S
}.

Abbreviation tcp_conn := (endpoint io_proc T Z K server_env).
Implicit Types e : tcp_conn.

Definition set_statics (s : tcp_statics) e : tcp_conn := set_env (ServerEnv s (se_app (e_env e))) e.

(** The server's static configuration: hook functions, router, and what the
    callbacks of the router do. *)
Context (conn_start_cb conn_close_cb : option (tcp_conn -> res tcp_conn)).
Context (router : msg_router M U).
Context (run_msg_callback : M -> option U -> bytes -> Z -> tcp_conn -> res tcp_conn).

Definition run_hook (cb : option (tcp_conn -> res tcp_conn)) e : res tcp_conn :=
  match cb with Some f => f e | None => Ok e end.

(** [tcp_server::router.call(msgid, msglen, data, this)] *)
Definition tcp_router_call (mid : Z) (data : bytes) e : res tcp_conn :=
  match router_call mid router with
  | None => Ok e
  | Some (cb, user_data) => run_msg_callback cb user_data data mid e
  end.

(** [tcp_conn(int connfd, event_loop *loop)] on a fresh object [self]. *)
Definition tcp_conn_new (connfd self : Z) (loop : event_loop io_proc T Z K) (p : buf_pool) (env : server_env)
    : res tcp_conn :=
  let e := Endpoint connfd self None None loop p env [] [] [] in
  e ← run_hook conn_start_cb e;
  let e := set_loop (add_io_event (e_fd e) conn_rd_callback EPOLLIN (e_self e) (e_loop e)) e in
  s ← increase_conn (e_fd e) (e_self e) (se_statics (e_env e));
  Ok (set_statics s e).

(** [void clean_conn()] *)
Definition clean_conn e : res tcp_conn :=
  e ← run_hook conn_close_cb e;
  s ← decrease_conn (e_fd e) (se_statics (e_env e));
  let e := set_statics s e in
  let e := set_loop (del_io_event (e_fd e) (e_loop e)) e in
  x ← rb_clear (e_ibuf e) (e_pool e);
  let e := set_ibuf x e in
  x ← rb_clear (e_obuf e) (e_pool e);
  let e := set_obuf x e in
  Ok (close_fd (e_fd e) e).

(** [void do_read()], [void do_write()], [int send_message(...)] *)
Definition do_read (io : read_io) e : res tcp_conn := ep_do_read clean_conn tcp_router_call io e.
Definition do_write (ws : list write_result) e : res tcp_conn := ep_do_write clean_conn ws e.
Definition send_message (data : bytes) (msgid : Z) e : res (Z * tcp_conn) :=
  ep_send_message conn_wt_callback data msgid e.

(** [callback_busi]: the echo business of tcp_conn.cpp. *)
Definition callback_busi (data : bytes) (msgid : Z) e : res tcp_conn :=
  '(_, e) ← send_message data msgid e; Ok e.

(** ** Lemmas *)

Definition fd_in_table (fd : Z) (x : server_env) : Prop := in_table fd (se_statics x) = true.
(** The other connections of the thread. *)
Context (others : list tenant).
Abbreviation conn_ok := (ep_ok fd_in_table others).

(** A hook may use the connection like a message callback does. *)
Definition hook_ok (cb : option (tcp_conn -> res tcp_conn)) : Prop :=
  forall F e inb outb, conn_ok F e inb outb ->
    match run_hook cb e with
    | Ok e' => (exists F' outb', conn_ok F' e' inb outb') /\ e_calls e' = e_calls e /\
               e_closed e' = e_closed e /\ e_fd e' = e_fd e /\ e_ibuf e' = e_ibuf e
    | Err f => f = ExitFailure \/ f = Blocked
    end.

(** [clean_conn] of a sound connection: both buffers go back to the pool, the
    descriptor leaves the loop and the table, and is closed. *)
Lemma clean_conn_spec F e inb outb :
  hook_ok conn_close_cb -> conn_ok F e inb outb ->
  match clean_conn e with
  | Ok e' => (exists F', conn_ok F' e' [] []) /\ e_ibuf e' = None /\ e_obuf e' = None /\
      e_calls e' = e_calls e /\ e_fd e' = e_fd e /\ e_closed e' = e_closed e ++ [e_fd e] /\
      el_evs (e_loop e') !! e_fd e = None
  | Err f => f = ExitFailure \/ f = Blocked
  end.
Proof.
  intros Hhook Hok. unfold clean_conn. pose proof (Hhook F e inb outb Hok) as He.
  destruct (run_hook conn_close_cb e) as [e1|f]; cbn [mbind res_bind]; [|done].
  destruct He as ((F1 & outb1 & Hok1) & Hcalls & Hclosed & Hfd & _).
  unfold decrease_conn. rewrite (eo_env _ _ _ _ _ _ Hok1). cbn [mbind res_bind].
  set (e2 := set_loop _ (set_statics _ e1)).
  assert (conn_ok F1 e2 inb outb1) as Hok2 by same_ep Hok1.
  destruct (rb_clear_spec F1 (e_pool e2) (e_ibuf e2) (eo_ibuf _ _ _ _ _ _ Hok2)) as (F3 & p3 & -> & Hs3).
  cbn [mbind res_bind]. pose proof (ep_ok_in _ _ _ _ _ _ _ _ _ [] Hok2 Hs3 eq_refl) as Hok3.
  set (e3 := set_ibuf (None, p3) e2) in *.
  destruct (rb_clear_spec F3 (e_pool e3) (e_obuf e3) (eo_obuf _ _ _ _ _ _ Hok3)) as (F4 & p4 & -> & Hs4).
  cbn [mbind res_bind]. destruct (ep_ok_out _ _ _ _ _ _ _ _ _ [] Hok3 Hs4 eq_refl I) as [Hok4 _].
  split; [exists F4; same_ep Hok4|]. cbn. rewrite <-Hfd. split; [done|]. split; [done|].
  split; [done|]. split; [done|]. split; [by rewrite Hclosed|]. apply lookup_delete_eq.
Qed.

Lemma clean_conn_ok : hook_ok conn_close_cb -> clean_ok fd_in_table others clean_conn.
Proof.
  intros Hhook F e inb outb Hok. pose proof (clean_conn_spec F e inb outb Hhook Hok) as Hc.
  destruct (clean_conn e) as [e'|f]; [|done]. destruct Hc as ((F' & Hok') & Hib & _ & Hcalls & Hfd & Hclosed & _).
  split; [by exists F', []|]. split; [done|]. split; [done|]. split; [done|]. rewrite Hclosed. set_solver.
Qed.

(** A stream of whole messages, in chunks. *)
Lemma parsed_stream (chunks : list (nat * bytes)) ms rest :
  Forall (fun m => is_i32 m.1 /\ 0 < length m.2 <= MESSAGE_LENGTH_LIMIT) ms -> scan_frame rest = NeedMore ->
  concat (snd <$> chunks) = concat ((fun m => frame m.1 m.2) <$> ms) ++ rest ->
  parse ([] ++ concat (snd <$> chunks)) = (ms, More rest).
Proof.
  intros Hms Hrest Heq. cbn. rewrite Heq, parse_frames, parse_scan, Hrest; cbn; [by rewrite app_nil_r|].
  eapply Forall_impl; [exact Hms|]. cbn. intros m [? ?]. split; [done|lia].
Qed.

(** [callback_busi] behind every message it is registered for. *)
Definition echo_reply (mid : Z) (data : bytes) : bytes :=
  match router_call mid router with Some _ => frame mid data | None => [] end.

Lemma callback_busi_serves :
  (forall cb user_data data mid e, run_msg_callback cb user_data data mid e = callback_busi data mid e) ->
  handler_serves fd_in_table others tcp_router_call (has_room echo_reply) (answers echo_reply).
Proof.
  intros Hcb inb outb x mid data Hfit F e Hok _. unfold tcp_router_call, answers, has_room, echo_reply in *. cbn [fst] in *.
  destruct (router_call mid router) as [[cb u]|].
  - rewrite Hcb. unfold callback_busi, send_message. rewrite length_frame in Hfit.
    destruct (send_message_spec fd_in_table others conn_wt_callback F e inb outb data mid Hok)
      as [->|(e' & F' & -> & Hok' & Hsame & _)]; [lia|by left|].
    cbn [mbind res_bind]. destruct Hsame as (Hib & Hcalls & Hfd & _). split; [by exists F', (outb ++ frame mid data)|done].
  - split; [|done]. exists F, outb. by rewrite app_nil_r.
Qed.

(** ** Properties *)

(** C5: A peer that sends messages, none of them without a body, has exactly these
    messages dispatched, once each and in order, however the kernel cuts the
    stream into chunks and interrupts the reads; an unfinished message stays
    buffered; the output grows by what the handler answers to each message (its
    contract [R]), in their order; and nothing else can happen but the exit at the
    pool's memory limit or a handler's own failure. *)
Theorem tcp_conn_reassembly fits R F e outb chunks ms rest :
  handler_serves fd_in_table others tcp_router_call fits R ->
  conn_ok F e [] outb -> e_ibuf e = None ->
  Forall (fun m => is_i32 m.1 /\ 0 < length m.2 <= MESSAGE_LENGTH_LIMIT) ms -> all_fit fits R ms (outb, e_env e) ->
  scan_frame rest = NeedMore ->
  Forall (fun c => c.2 <> [] /\ length c.2 <= m8M - 65535) chunks ->
  concat (snd <$> chunks) = concat ((fun m => frame m.1 m.2) <$> ms) ++ rest ->
  match foldM (fun e c => do_read (deliver c) e) e chunks with
  | Ok e' => e_calls e' = e_calls e ++ ms /\ exists F' outb', conn_ok F' e' rest outb' /\ served R ms (outb, e_env e) (outb', e_env e')
  | Err f => f = ExitFailure \/ f = Blocked
  end.
Proof.
  intros Hh Hok Hib Hms Hfit Hrest Hchunks Heq. pose proof (parsed_stream chunks ms rest Hms Hrest Heq) as Hparse.
  pose proof (do_reads_spec fd_in_table others clean_conn tcp_router_call fits R Hh F e [] outb chunks ms rest Hok)
    as Hr. unfold do_reads in Hr. unfold do_read.
  assert (Forall (fun m : Z * bytes => m.2 <> []) ms) as Hne.
  { eapply Forall_impl; [exact Hms|]. cbn. intros m [_ Hm] Hn. rewrite Hn in Hm. cbn in Hm. lia. }
  destruct (foldM _ e chunks) as [e'|f].
  - destruct Hr as [Hc (F' & outb' & Hok' & _ & Hsv)]; try done; [by rewrite Hib|]. split; [done|]. by exists F', outb'.
  - apply Hr; try done. by rewrite Hib.
Qed.

(** C20: What is sent on a connection reaches the socket in order and unmixed: after
    any sequence of [send_message]s and writable events (below 8M pending, and
    no write error), the bytes written so far followed by the ones pending are the
    frames sent, and the loop waits for EPOLLOUT exactly while bytes are
    pending, so none is forgotten. *)
Theorem tcp_conn_output F e inb cs :
  conn_ok F e inb [] -> armed e = false -> length (sent cs) <= m8M ->
  Forall (fun c => match c with Writable ws => WriteError ∉ ws | _ => True end) cs ->
  match foldM (out_exec conn_wt_callback clean_conn) e cs with
  | Ok e' => exists F' pending, conn_ok F' e' inb pending /\
      e_wire e ++ sent cs = e_wire e' ++ pending /\ (armed e' = true <-> pending <> [])
  | Err f => f = ExitFailure \/ f = Blocked
  end.
Proof.
  intros Hok Harm Hmax Hcs.
  pose proof (out_run_spec fd_in_table others conn_wt_callback clean_conn cs F e inb [] Hok) as Hr.
  destruct (foldM _ e cs) as [e'|f].
  - destruct Hr as (F' & outb' & Hok' & Heq & Ha & _); [by cbn|done| |by exists F', outb'].
    rewrite Harm. split; [done|intros Hn; by destruct Hn].
  - apply Hr; [by cbn|done|]. rewrite Harm. split; [done|intros Hn; by destruct Hn].
Qed.

(** A message without a body stops the server: a peer that sends a header with
    length 0, and nothing behind it yet, makes [do_read] fail its assert (at best
    the pool was exhausted first), whatever callback is registered. *)
Theorem empty_message_kills_server F e outb n mid :
  conn_ok F e [] outb -> e_ibuf e = None -> is_i32 mid -> handles_at fd_in_table others tcp_router_call [] outb mid [] ->
  match do_read (deliver (n, frame mid [])) e with
  | Ok _ => False
  | Err f => f = AssertFail \/ f = ExitFailure \/ f = Blocked
  end.
Proof. intros Hok Hib Hmid Hh. eapply empty_message_aborts; [done|by rewrite Hib|done|done]. Qed.

(** A peer that stops reading breaks the stream and then the server: when the
    body of a message does not fit behind pending bytes (8M), [send_message]
    answers -1 but leaves the header queued and drops the first eight pending
    bytes instead, and from then on every [send_message] on the connection
    fails an assert. *)
Theorem failed_send_corrupts_stream F e inb outb data mid :
  conn_ok F e inb outb -> outb <> [] -> length outb + 8 <= m8M < length outb + 8 + length data ->
  length data < 2 ^ 30 ->
  send_message data mid e = Err ExitFailure \/
  exists e' F', send_message data mid e = Ok (-1, e') /\ owns F' (e_pool e') (e_obuf e') /\
    holds_bytes (e_pool e') (e_obuf e') (drop 8 (outb ++ head_bytes {| msgid := mid; msglen := length data |})) /\
    forall data' mid', send_message data' mid' e' = Err AssertFail.
Proof. apply send_failure. Qed.
End tcp_conn.
Arguments server_env : clear implicits.

(** ** Concrete connections *)

Module ConnDemo.
#[local] Existing Instance epoll_map.

Definition statics0 : tcp_statics := TcpStatics ∅ 1008 0 1000.
Definition env0 : server_env (list Z) := ServerEnv statics0 [].
Abbreviation conn := (endpoint io_proc unit Z (gmap Z Z) (server_env (list Z))).

(** A callback that notes the ids it is called with. *)
Definition note (_ : unit) (_ : option unit) (_ : bytes) (mid : Z) (e : conn) : res conn :=
  Ok (set_env (ServerEnv (se_statics (e_env e)) (se_app (e_env e) ++ [mid])) e).
Definition router0 : msg_router unit unit := register_all [(1, tt, tt); (2, tt, tt)] msg_router_new.

Definition conn0 (p : buf_pool) : conn :=
  Endpoint 7 70 None None (add_io_event 7 conn_rd_callback EPOLLIN 70 (event_loop_new ∅)) p env0 [] [] [].

Lemma conn0_ok F p : pool_ok F p -> ep_ok fd_in_table [] F (conn0 p) [] [].
Proof. intros Hp. constructor; try done; by constructor. Qed.

Lemma note_ok others : handler_ok fd_in_table others (tcp_router_call router0 note).
Proof.
  intros inb outb mid data F e Hok. unfold tcp_router_call. destruct (router_call mid router0) as [[cb ud]|].
  - cbn. split; [|done]. exists F, outb. same_ep Hok.
  - split; [|done]. by exists F, outb.
Qed.

Lemma no_hook_ok others : hook_ok others (None : option (conn -> res conn)).
Proof. intros F e inb outb Hok. cbn. split; [by exists F, outb|done]. Qed.

Definition ms0 : list (Z * bytes) := [(1, [Byte.x41; Byte.x42]); (2, [Byte.x43])].
Definition stream0 : bytes := concat ((fun m => frame m.1 m.2) <$> ms0) ++ [Byte.x02].

(** The echo server: [callback_busi] for the messages 1 and 2. *)
Definition echo (_ : unit) (_ : option unit) (data : bytes) (mid : Z) (e : conn) : res conn := callback_busi data mid e.

Lemma tcp_conn_reassembly_witness : exists F p, pool_ok F p /\
  match foldM (fun e c => do_read None router0 echo (deliver c) e) (conn0 p) [(0%nat, take 5 stream0); (2%nat, drop 5 stream0)] with
  | Ok e' => e_calls e' = ms0 /\ exists F', ep_ok fd_in_table [] F' e' [Byte.x02] (frame 1 [Byte.x41; Byte.x42] ++ frame 2 [Byte.x43])
  | Err f => f = ExitFailure \/ f = Blocked
  end.
Proof.
  destruct buf_pool_new_spec as (F & p & _ & Hp & _). exists F, p. split; [exact Hp|].
  pose proof (tcp_conn_reassembly None router0 echo [] _ _ F (conn0 p) [] [(0%nat, take 5 stream0); (2%nat, drop 5 stream0)]
    ms0 [Byte.x02] (callback_busi_serves router0 echo [] (fun _ _ _ _ _ => eq_refl)) (conn0_ok F p Hp) eq_refl) as Hr.
  assert (Forall (fun m : Z * bytes => is_i32 m.1 /\ 0 < length m.2 <= MESSAGE_LENGTH_LIMIT) ms0) as H1 by (by apply (bool_decide_unpack _)).
  assert (all_fit (has_room (echo_reply router0)) (answers (echo_reply router0)) ms0 ([], env0)) as H2 by (apply all_fit_answers; vm_compute; discriminate).
  specialize (Hr H1 H2). destruct (foldM _ (conn0 p) _) as [e'|f].
  - destruct Hr as [Hc (F' & outb' & Hok & Hsv)].
    + vm_compute. reflexivity.
    + by apply (bool_decide_unpack _).
    + vm_compute. reflexivity.
    + split; [rewrite Hc; reflexivity|]. apply served_answers in Hsv. cbn [fst app] in Hsv. subst outb'. by exists F'.
  - apply Hr.
    + vm_compute. reflexivity.
    + by apply (bool_decide_unpack _).
    + vm_compute. reflexivity.
Defined.

Lemma tcp_conn_output_witness : exists F p, pool_ok F p /\
  match foldM (out_exec conn_wt_callback (clean_conn None)) (conn0 p)
          [Send [Byte.x41] 1; Writable [WriteEintr; WriteRoom 4; WriteEagain]; Send [] 2] with
  | Ok e' => exists F' pending, ep_ok fd_in_table [] F' e' [] pending /\
      frame 1 [Byte.x41] ++ frame 2 [] = e_wire e' ++ pending
  | Err f => f = ExitFailure \/ f = Blocked
  end.
Proof.
  destruct buf_pool_new_spec as (F & p & _ & Hp & _). exists F, p. split; [exact Hp|].
  pose proof (tcp_conn_output None [] F (conn0 p) [] [Send [Byte.x41] 1; Writable [WriteEintr; WriteRoom 4; WriteEagain]; Send [] 2]
    (conn0_ok F p Hp)) as Hr.
  assert (Forall (fun c => match c with Writable ws => WriteError ∉ ws | _ => True end)
    [Send [Byte.x41] 1; Writable [WriteEintr; WriteRoom 4; WriteEagain]; Send [] 2]) as Hws.
  { repeat constructor. set_solver. }
  destruct (foldM _ (conn0 p) _) as [e'|f].
  - destruct Hr as (F' & pending & Hok & Heq & _); [reflexivity|vm_compute; discriminate|exact Hws|].
    exists F', pending. split; [exact Hok|]. exact Heq.
  - apply Hr; [reflexivity|vm_compute; discriminate|exact Hws].
Defined.

Lemma empty_message_kills_server_witness : exists F p, pool_ok F p /\
  match do_read None router0 note (deliver (0%nat, frame 1 [])) (conn0 p) with
  | Ok _ => False
  | Err f => f = AssertFail \/ f = ExitFailure \/ f = Blocked
  end.
Proof.
  destruct buf_pool_new_spec as (F & p & _ & Hp & _). exists F, p. split; [exact Hp|].
  apply (empty_message_kills_server None router0 note [] F (conn0 p) [] 0 1 (conn0_ok F p Hp) eq_refl); [unfold is_i32; lia|apply note_ok].
Defined.

(** A connection with nine pending bytes. *)
Lemma pending_conn : exists F (e : conn), ep_ok fd_in_table [] F e [] (frame 1 [Byte.x41]).
Proof.
  destruct (first_alloc 9 m4K eq_refl) as (F & p & q & F' & p' & _ & Hp & _ & Hp' & Hal).
  destruct (allocated_holds _ _ _ _ _ _ Hal) as (b & Hb & Hcap & Hz & Hbs); [unfold m4K; lia|].
  assert (length (frame 1 [Byte.x41]) = 9%nat) as Hl by apply length_frame.
  destruct (append_data_spec F' p' q b [] (frame 1 [Byte.x41]))
    as (p2 & _ & Hs2 & Hh2 & Hst2); [|exact Hb|exact Hbs|exact Hz|rewrite Hl, Hcap; unfold m4K; cbn; lia|].
  { apply (rs_owns _ _ _ _ _ _ (rb_step_alloc _ _ _ _ _ _ Hp' Hal)). }
  exists F', (set_obuf (Some q, p2) (conn0 p)). constructor; cbn [e_pool e_ibuf e_obuf e_fd e_env set_obuf fst snd conn0].
  - constructor; [apply Hs2|done].
  - done.
  - apply Hs2.
  - exact Hh2.
  - exact Hst2.
  - intros ? _ [=].
  - reflexivity.
  - constructor.
Qed.

Lemma failed_send_corrupts_stream_witness : exists (e : conn),
  send_message (replicate (Z.to_nat 8388609) Byte.x00) 2 e = Err ExitFailure \/
  exists e', send_message (replicate (Z.to_nat 8388609) Byte.x00) 2 e = Ok (-1, e') /\
    forall data' mid', send_message data' mid' e' = Err AssertFail.
Proof.
  destruct pending_conn as (F & e & Hok). exists e.
  assert (length (frame 1 [Byte.x41]) = 9%nat) as Hl by apply length_frame.
  destruct (failed_send_corrupts_stream [] F e [] _ (replicate (Z.to_nat 8388609) Byte.x00) 2 Hok) as [Hf|(e' & F' & Hs & _ & _ & Hd)].
  - intros Hn. rewrite Hn in Hl. discriminate.
  - rewrite Hl, length_replicate, Z2Nat.id by lia. unfold m8M. lia.
  - rewrite length_replicate, Z2Nat.id by lia. lia.
  - left. exact Hf.
  - right. exists e'. split; [exact Hs|exact Hd].
Defined.
End ConnDemo.
