(* ===== verification/ConnThread.v ===== *)
(** * ConnThread: the connections of one thread of the server (lars_reactor, tcp_conn.cpp
    with thread_pool.cpp and event_loop.cpp)

    A thread of the pool runs one event loop for all connections it was given; they share
    the loop, the buffer pool and what is behind the callbacks.  Whatever the peers of
    the others send, and however the events interleave, each connection dispatches the
    messages of its own stream. *)

From S2P Require Import Prelude Bytes BufPool ReactorBuf EventLoop Stream StreamSpec TcpConn.
From stdpp Require Import base numbers list gmap fin_maps.
From Stdlib Require Import ZArith Lia.
Open Scope Z_scope.

(** ** The thread *)

(** A [tcp_conn]; the last three fields are its history: the bytes it read and wrote, the
    messages it dispatched. *)
Record conn_object := ConnObject {
  c_self : Z;
  c_ibuf : reactor_buf;
  c_obuf : reactor_buf;
  c_stream : bytes;
  c_wire : bytes;
  c_calls : list (Z * bytes)
}.

Section conn_thread.
Context {T K S M U : Type} `{Epoll K}.
Abbreviation tcp_conn := (endpoint io_proc T Z K (server_env S)).
Abbreviation loop := (event_loop io_proc T Z K).

(** [ct_done] holds the connections that were closed. *)
Record conn_thread := ConnThread {
  ct_conns : gmap Z conn_object;
  ct_loop : loop;
  ct_pool : buf_pool;
  ct_env : server_env S;
  ct_done : list conn_object
}.

Context (conn_start_cb conn_close_cb : option (tcp_conn -> res tcp_conn)).
Context (router : msg_router M U).
Context (run_msg_callback : M -> option U -> bytes -> Z -> tcp_conn -> res tcp_conn).
(** The contract of the message handlers: when they can answer, and what an answer does
    to the pending output. *)
Context (fits : bytes * server_env S -> Z -> bytes -> Prop) (R : Z -> bytes -> bytes * server_env S -> bytes * server_env S -> Prop).

(** The object [o] on descriptor [fd] with what it shares, and back; it has read [bs]
    meanwhile. *)
Definition enter (fd : Z) (o : conn_object) (w : conn_thread) : tcp_conn :=
  Endpoint fd (c_self o) (c_ibuf o) (c_obuf o) (ct_loop w) (ct_pool w) (ct_env w) (c_wire o) (c_calls o) [].

Definition leave (fd : Z) (bs : bytes) (o : conn_object) (w : conn_thread) (e : tcp_conn) : conn_thread :=
  let o := ConnObject (e_self e) (e_ibuf e) (e_obuf e) (c_stream o ++ bs) (e_wire e) (e_calls e) in
  if decide (fd ∈ e_closed e)
  then ConnThread (delete fd (ct_conns w)) (e_loop e) (e_pool e) (e_env e) (ct_done w ++ [o])
  else ConnThread (<[fd := o]> (ct_conns w)) (e_loop e) (e_pool e) (e_env e) (ct_done w).

(** What the thread is woken for: a task with a new descriptor, bytes that arrived, the
    end of a stream or an error, room in a socket. *)
Inductive conn_event :=
| NewConn (connfd self : Z)
| Readable (fd : Z) (chunk : nat * bytes)
| Hangup (fd : Z) (io : read_io)
| WritableFd (fd : Z) (ws : list write_result).

Definition event_fd (ev : conn_event) : Z :=
  match ev with NewConn fd _ | Readable fd _ | Hangup fd _ | WritableFd fd _ => fd end.

(** [deal_task], [conn_rd_callback] and [conn_wt_callback] *)
Definition with_conn (fd : Z) (bs : bytes) (f : tcp_conn -> res tcp_conn) (w : conn_thread) : res conn_thread :=
  match ct_conns w !! fd with
  | None => Ok w
  | Some o => e ← f (enter fd o w); Ok (leave fd bs o w e)
  end.

Definition thread_exec (w : conn_thread) (ev : conn_event) : res conn_thread :=
  match ev with
  | NewConn fd self =>
      e ← tcp_conn_new conn_start_cb fd self (ct_loop w) (ct_pool w) (ct_env w);
      Ok (leave fd [] (ConnObject self None None [] [] []) w e)
  | Readable fd c => with_conn fd c.2 (do_read conn_close_cb router run_msg_callback (deliver c)) w
  | Hangup fd io => with_conn fd [] (do_read conn_close_cb router run_msg_callback io) w
  | WritableFd fd ws => with_conn fd [] (do_write conn_close_cb ws) w
  end.

(** What the kernel and the pool of threads may do; bytes that arrive hold messages the
    handlers can answer, given what is pending on the connection. *)
Definition event_ok (w : conn_thread) (ev : conn_event) : Prop :=
  match ev with
  | NewConn fd _ => ct_conns w !! fd = None /\ in_table fd (se_statics (ct_env w)) = true
  | Readable fd c => c.2 <> [] /\ length c.2 <= m8M - 65535 /\
      forall o inb outb, ct_conns w !! fd = Some o ->
        holds_bytes (ct_pool w) (c_ibuf o) inb -> holds_bytes (ct_pool w) (c_obuf o) outb ->
        all_fit fits R (parse (inb ++ c.2)).1 (outb, ct_env w)
  | Hangup _ io => io_honest io /\ hangs_up io
  | WritableFd _ _ => True
  end.

Definition thread_start (l : loop) (p : buf_pool) (x : server_env S) : conn_thread := ConnThread ∅ l p x [].

Inductive thread_reachable (w0 : conn_thread) : conn_thread -> Prop :=
| thread_init : thread_reachable w0 w0
| thread_next w ev w' : thread_reachable w0 w -> event_ok w ev -> thread_exec w ev = Ok w' -> thread_reachable w0 w'.

(** ** Tenants of the pool *)

Lemma apart_sym rb rb' : apart rb rb' -> apart rb' rb.
Proof. intros Ha q Hq Hq'. by apply (Ha q). Qed.

Definition separate (t t' : tenant) : Prop :=
  apart (t_ibuf t) (t_ibuf t') /\ apart (t_ibuf t) (t_obuf t') /\ apart (t_obuf t) (t_ibuf t') /\ apart (t_obuf t) (t_obuf t').

Record housed (F : gmap Z (list ptr)) (p : buf_pool) (x : server_env S) (t : tenant) : Prop := {
  hs_in : kept F p (t_ibuf t) (t_inb t);
  hs_out : kept F p (t_obuf t) (t_outb t);
  hs_apart : apart (t_ibuf t) (t_obuf t);
  hs_env : fd_in_table (t_fd t) x
}.

Record tenants_ok (F : gmap Z (list ptr)) (p : buf_pool) (x : server_env S) (ts : gmap Z tenant) : Prop := {
  to_pool : pool_ok F p;
  to_each fd t : ts !! fd = Some t -> t_fd t = fd /\ housed F p x t;
  to_pair fd fd' t t' : fd <> fd' -> ts !! fd = Some t -> ts !! fd' = Some t' -> separate t t'
}.

Definition rest_of (fd : Z) (ts : gmap Z tenant) : list tenant := (map_to_list (delete fd ts)).*2.

Lemma elem_of_rest fd ts t : t ∈ rest_of fd ts <-> exists fd', fd' <> fd /\ ts !! fd' = Some t.
Proof.
  unfold rest_of. rewrite list_elem_of_fmap. split.
  - intros ([fd' t'] & -> & Hin). apply elem_of_map_to_list, lookup_delete_Some in Hin as [Hne Hin]. exists fd'. split; [congruence|done].
  - intros (fd' & Hne & Hin). exists (fd', t). split; [done|]. apply elem_of_map_to_list, lookup_delete_Some. split; [congruence|done].
Qed.

(** A connection at work among the others. *)
Lemma tenant_enter F p x ts fd t (e : tcp_conn) :
  tenants_ok F p x ts -> ts !! fd = Some t ->
  e_fd e = fd -> e_ibuf e = t_ibuf t -> e_obuf e = t_obuf t -> e_pool e = p -> e_env e = x ->
  ep_ok fd_in_table (rest_of fd ts) F e (t_inb t) (t_outb t) /\ at_start (e_pool e) (e_ibuf e).
Proof.
  intros [Hp Heach Hpair] Ht Hfd Hib Hob Hpo He. destruct (Heach _ _ Ht) as [Htf [[] [] Ha Henv]].
  split; [|by rewrite Hpo, Hib]. constructor; rewrite ?Hpo, ?Hib, ?Hob, ?He, ?Hfd; try done; [by apply apart_sym|by rewrite <-Htf|].
  apply Forall_forall. intros t' (fd' & Hne & Ht')%elem_of_rest. destruct (Heach _ _ Ht') as [_ [? ? ? ?]].
  destruct (Hpair _ _ _ _ Hne Ht' Ht) as (? & ? & ? & ?). by constructor; rewrite ?Hpo, ?Hib, ?Hob, ?He.
Qed.

Lemma tenant_others F ts fd (e : tcp_conn) inb outb :
  ep_ok fd_in_table (rest_of fd ts) F e inb outb ->
  forall fd' t, fd' <> fd -> ts !! fd' = Some t -> tenant_ok fd_in_table F e t.
Proof. intros Hok fd' t Hne Ht. pose proof (eo_others _ _ _ _ _ _ Hok) as Hall. rewrite Forall_forall in Hall. apply Hall, elem_of_rest. by exists fd'. Qed.

Lemma tenant_gone F p x ts fd F' (e : tcp_conn) inb outb :
  tenants_ok F p x ts -> ep_ok fd_in_table (rest_of fd ts) F' e inb outb -> tenants_ok F' (e_pool e) (e_env e) (delete fd ts).
Proof.
  intros [Hp Heach Hpair] Hok. constructor.
  - apply (eo_ibuf _ _ _ _ _ _ Hok).
  - intros fd' t [Hne Ht]%lookup_delete_Some. destruct (Heach _ _ Ht) as [Hfd _]. split; [done|].
    destruct (tenant_others _ _ _ _ _ _ Hok fd' t) as [? ? ? ? ? ? ? ?]; [congruence|done|]. by constructor.
  - intros fd1 fd2 t1 t2 Hne [_ H1]%lookup_delete_Some [_ H2]%lookup_delete_Some. by eapply Hpair.
Qed.

Lemma tenant_leave F p x ts fd F' (e : tcp_conn) inb outb :
  tenants_ok F p x ts -> ep_ok fd_in_table (rest_of fd ts) F' e inb outb -> at_start (e_pool e) (e_ibuf e) -> e_fd e = fd ->
  tenants_ok F' (e_pool e) (e_env e) (<[fd := Tenant fd (e_ibuf e) inb (e_obuf e) outb]> ts).
Proof.
  intros Hts Hok Hst Hfd. pose proof (tenant_gone _ _ _ _ _ _ _ _ _ Hts Hok) as [Hp Heach Hpair]. rewrite <-insert_delete_eq.
  assert (forall fd' t, delete fd ts !! fd' = Some t -> separate t (Tenant fd (e_ibuf e) inb (e_obuf e) outb)) as Hsep.
  { intros fd' t [Hne Ht]%lookup_delete_Some. destruct (tenant_others _ _ _ _ _ _ Hok fd' t) as [? ? ? ? ? ? ? ?]; [congruence|done|].
    by split_and!. }
  destruct Hok as [Hi Hin Ho Hout Hsto Hd Henv _]. constructor; [done| |].
  - intros fd' t [[<- <-]|[Hne Ht]]%lookup_insert_Some; [|by apply Heach]. split; [done|].
    constructor; cbn; [by constructor|by constructor|by apply apart_sym|by rewrite <-Hfd].
  - intros fd1 fd2 t1 t2 Hne [[<- <-]|[Hne1 H1]]%lookup_insert_Some [[<- <-]|[Hne2 H2]]%lookup_insert_Some; [done| |by eapply Hsep|eapply (Hpair fd1 fd2); [done|exact H1|exact H2]].
    destruct (Hsep _ _ H2) as (? & ? & ? & ?). split_and!; by apply apart_sym.
Qed.

(** One that has no buffers yet. *)
Lemma tenant_new F p x ts fd :
  tenants_ok F p x ts -> ts !! fd = None -> fd_in_table fd x -> tenants_ok F p x (<[fd := Tenant fd None [] None []]> ts).
Proof.
  intros [Hp Heach Hpair] Hn Hx. assert (forall rb, apart None rb) as Ha by done.
  assert (kept F p None []) as Hk by (constructor; [constructor|..]; done). constructor; [done| |].
  - intros fd' t [[<- <-]|[Hne Ht]]%lookup_insert_Some; [done|by apply Heach].
  - intros fd1 fd2 t1 t2 Hne [[<- <-]|[Hne1 H1]]%lookup_insert_Some [[<- <-]|[Hne2 H2]]%lookup_insert_Some; [done| | |eapply (Hpair fd1 fd2); [done|exact H1|exact H2]].
    + by split_and!.
    + split_and!; by apply apart_sym.
Qed.

(** ** The invariant *)

(** What connection [o] has dispatched are the messages of what it read, but for the
    unfinished one it has buffered. *)
Record conn_agrees (o : conn_object) (t : tenant) : Prop := {
  ca_ibuf : c_ibuf o = t_ibuf t;
  ca_obuf : c_obuf o = t_obuf t;
  ca_calls : parse (c_stream o) = (c_calls o, More (t_inb t))
}.

Record thread_inv (F : gmap Z (list ptr)) (ts : gmap Z tenant) (w : conn_thread) : Prop := {
  ti_tenants : tenants_ok F (ct_pool w) (ct_env w) ts;
  ti_conns : map_Forall2 (fun _ => conn_agrees) (ct_conns w) ts;
  ti_done : Forall (fun o => c_calls o = (parse (c_stream o)).1) (ct_done w)
}.

Lemma parse_nil : parse [] = ([], More []).
Proof. by rewrite parse_scan. Qed.

Lemma thread_start_inv F l p x : pool_ok F p -> thread_inv F ∅ (thread_start l p x).
Proof. intros Hp. constructor; [|apply map_Forall2_empty|constructor]. constructor; [done|by intros ? ? ?|by intros ? ? ? ? ? ?]. Qed.

(** What a step does to the connections it is not about: nothing. *)
Definition unmoved (fd : Z) (w w' : conn_thread) : Prop :=
  forall fd' o, fd' <> fd -> ct_conns w !! fd' = Some o -> ct_conns w' !! fd' = Some o /\
    (forall bs, holds_bytes (ct_pool w) (c_ibuf o) bs <-> holds_bytes (ct_pool w') (c_ibuf o) bs) /\
    (forall bs, holds_bytes (ct_pool w) (c_obuf o) bs <-> holds_bytes (ct_pool w') (c_obuf o) bs).

Lemma buf_holds_inj b bs bs' : buf_holds b bs -> buf_holds b bs' -> bs = bs'.
Proof.
  intros [Hl Hh _ Hd] [Hl' _ _ Hd']. assert (length bs = length bs') as Hlen by lia.
  assert (mem_read (b_head b) (b_length b) (b_data b) = Some bs) as H1 by (apply mem_read_holds; [lia|by split]).
  assert (mem_read (b_head b) (b_length b) (b_data b) = Some bs') as H2 by (apply mem_read_holds; [lia|by split]). congruence.
Qed.

Lemma holds_bytes_inj p rb bs bs' : holds_bytes p rb bs -> holds_bytes p rb bs' -> bs = bs'.
Proof.
  destruct rb as [q|]; cbn; [|congruence]. intros (b & Hb & Hh) (b' & Hb' & Hh'). rewrite Hb in Hb'. injection Hb' as <-.
  by eapply buf_holds_inj.
Qed.

Lemma holds_both p p' rb bs0 : holds_bytes p rb bs0 -> holds_bytes p' rb bs0 -> forall bs, holds_bytes p rb bs <-> holds_bytes p' rb bs.
Proof. intros Hp Hp' bs. split; intros Hb; [by rewrite <-(holds_bytes_inj _ _ _ _ Hp Hb)|by rewrite <-(holds_bytes_inj _ _ _ _ Hp' Hb)]. Qed.

(** The connection is back from its callback: it goes on with [inb] buffered, or was
    closed. *)
Lemma leave_inv F ts w fd bs o F' (e : tcp_conn) inb outb :
  thread_inv F ts w ->
  ep_ok fd_in_table (rest_of fd ts) F' e inb outb -> e_fd e = fd ->
  (fd ∉ e_closed e -> at_start (e_pool e) (e_ibuf e) /\ parse (c_stream o ++ bs) = (e_calls e, More inb)) ->
  e_calls e = (parse (c_stream o ++ bs)).1 ->
  (exists F2 ts2, thread_inv F2 ts2 (leave fd bs o w e)) /\ unmoved fd w (leave fd bs o w e).
Proof.
  intros [Ht Hc Hd] Hok Hfd Hopen Hcalls. unfold leave. split.
  - case_decide as Hcl.
    + exists F', (delete fd ts). constructor; cbn; [by eapply tenant_gone|by apply map_Forall2_delete|]. apply Forall_app_2; [done|by apply Forall_singleton].
    + destruct (Hopen Hcl) as [Hst Hp]. eexists F', _. constructor; cbn; [by eapply tenant_leave| |done].
      apply map_Forall2_insert_2; [by constructor|done].
  - intros fd' o' Hne Ho'. pose proof (Hc fd') as Hr. rewrite Ho' in Hr. inversion Hr as [? t' Ha Heq1 Ht'|]; subst.
    destruct (tenant_others _ _ _ _ _ _ Hok fd' t') as [[_ Hi' _] [_ Ho2 _] _ _ _ _ _ _]; [done|done|].
    destruct (to_each _ _ _ _ Ht fd' t') as [_ [[_ Hi _] [_ Ho1 _] _ _]]; [done|]. destruct Ha as [-> -> _].
    split; [|split]; [|by case_decide; cbn; eapply holds_both..].
    case_decide; cbn; [by rewrite lookup_delete_ne|by rewrite lookup_insert_ne].
Qed.

Context (Hstart : forall others, hook_ok others conn_start_cb) (Hclose : forall others, hook_ok others conn_close_cb).
Context (Hrouter : forall others, handler_serves fd_in_table others (tcp_router_call router run_msg_callback) fits R).

(** A callback of the connection [o], which holds [inb] before it. *)
Definition callback_spec (fd : Z) (bs : bytes) (o : conn_object) (others : list tenant) (r : res tcp_conn) (Q : fault -> Prop) : Prop :=
  match r with
  | Ok e' => e_fd e' = fd /\ e_calls e' = (parse (c_stream o ++ bs)).1 /\
      exists F' inb' outb', ep_ok fd_in_table others F' e' inb' outb' /\
        (fd ∉ e_closed e' -> at_start (e_pool e') (e_ibuf e') /\ parse (c_stream o ++ bs) = (e_calls e', More inb'))
  | Err f => Q f
  end.

Definition step_spec (fd : Z) (w : conn_thread) (r : res conn_thread) (Q : fault -> Prop) : Prop :=
  match r with
  | Ok w' => (exists F' ts', thread_inv F' ts' w') /\ unmoved fd w w'
  | Err f => Q f
  end.

Lemma callback_step F ts w fd bs o r Q :
  thread_inv F ts w -> callback_spec fd bs o (rest_of fd ts) r Q -> step_spec fd w (e ← r; Ok (leave fd bs o w e)) Q.
Proof.
  intros Hw. destruct r as [e|f]; cbn [mbind res_bind]; [|done]. intros (Hfd & Hc & F' & inb' & outb' & Hok & Hop).
  by eapply leave_inv.
Qed.

Lemma with_conn_step F ts w fd bs f (Q : fault -> Prop) :
  thread_inv F ts w ->
  (forall o t, ct_conns w !! fd = Some o -> conn_agrees o t -> length (t_inb t) < 65535 ->
     ep_ok fd_in_table (rest_of fd ts) F (enter fd o w) (t_inb t) (t_outb t) -> at_start (ct_pool w) (c_ibuf o) ->
     callback_spec fd bs o (rest_of fd ts) (f (enter fd o w)) Q) ->
  step_spec fd w (with_conn fd bs f w) Q.
Proof.
  intros Hw Hf. unfold with_conn. destruct (ct_conns w !! fd) as [o|] eqn:Ho.
  2:{ cbn. split; [by exists F, ts|]. intros fd' o' _ Ho'. by split_and!. }
  pose proof (ti_conns _ _ _ Hw fd) as Hr. rewrite Ho in Hr. inversion Hr as [? t Ha Heq Ht|]; subst.
  eapply callback_step; [exact Hw|]. destruct (tenant_enter _ _ _ _ fd t (enter fd o w) (ti_tenants _ _ _ Hw)) as [Hok Hst];
    [done|done|apply Ha|apply Ha|done|done|]. eapply Hf; [done|exact Ha| |exact Hok|exact Hst].
  apply need_more_short. eapply parse_more_short. by rewrite (ca_calls _ _ Ha).
Qed.

(** Reading on appends the messages of what is buffered and what comes in. *)
Lemma parse_on o t bs : conn_agrees o t ->
  parse (c_stream o ++ bs) = (c_calls o ++ (parse (t_inb t ++ bs)).1, (parse (t_inb t ++ bs)).2).
Proof. intros Ha. by rewrite parse_app, (ca_calls _ _ Ha). Qed.

Lemma no_empty_end_app ms r : no_empty_end (ms ++ r.1, r.2) -> no_empty_end r.
Proof. intros Hn mid Hl. apply (Hn mid). cbn. by rewrite last_app, Hl. Qed.

(** The faults of a step: the memory limit, a callback that does not return, and the
    assert at a message without a body. *)
Definition step_fault (w : conn_thread) (ev : conn_event) (f : fault) : Prop :=
  f = ExitFailure \/ f = Blocked \/
  f = AssertFail /\ exists fd c o, ev = Readable fd c /\ ct_conns w !! fd = Some o /\ ~ no_empty_end (parse (c_stream o ++ c.2)).

Lemma readable_step F ts w fd c :
  thread_inv F ts w -> event_ok w (Readable fd c) -> step_spec fd w (thread_exec w (Readable fd c)) (step_fault w (Readable fd c)).
Proof.
  intros Hw (Hc & Hl & Hall). eapply with_conn_step; [exact Hw|]. intros o t Ho Ha Hshort Hok Hst. unfold callback_spec.
  pose proof (Hall o _ _ Ho (eo_in _ _ _ _ _ _ Hok) (eo_out _ _ _ _ _ _ Hok)) as Hfit.
  pose proof (do_read_spec fd_in_table _ (clean_conn conn_close_cb) _ _ _ (Hrouter _) F (enter fd o w) _ _ c Hok Hst Hc) as Hr.
  unfold do_read. destruct (ep_do_read _ _ _ _) as [e'|f].
  - rewrite (parse_on _ _ _ Ha). destruct Hr as (Hcalls & Hfd & _ & Ht); [lia|done|by intros _; apply clean_conn_ok|]. split; [done|]. split; [done|]. destruct (parse (t_inb t ++ c.2)).2 as [rest|].
    + destruct Ht as (F' & outb' & Hok' & Hst' & _). exists F', rest, outb'. split; [done|]. intros _. split; [done|]. by rewrite Hcalls.
    + destruct Ht as ((F' & outb' & Hok') & Hcl). exists F', [], outb'. by split.
  - destruct Hr as [?|[?|[? Hn]]]; [lia|done|by intros _; apply clean_conn_ok|by left|by right; left|right; right]. split; [done|]. exists fd, c, o. split; [done|]. split; [done|].
    intros Hn'. apply Hn. rewrite (parse_on _ _ _ Ha) in Hn'. by eapply no_empty_end_app.
Qed.

Lemma hangup_step F ts w fd io :
  thread_inv F ts w -> event_ok w (Hangup fd io) -> step_spec fd w (thread_exec w (Hangup fd io)) (step_fault w (Hangup fd io)).
Proof.
  intros Hw [Hio Hup]. eapply with_conn_step; [exact Hw|]. intros o t Ho Ha Hshort Hok Hst. unfold callback_spec.
  pose proof (do_read_hangup fd_in_table _ _ (tcp_router_call router run_msg_callback) F (enter fd o w) _ _ io (clean_conn_ok _ _ (Hclose _)) Hok Hst Hio Hshort Hup) as Hr.
  unfold do_read. destruct (ep_do_read _ _ _ _) as [e'|f]; [|by destruct Hr; [left|right; left]].
  destruct Hr as (Hcalls & Hfd & (F' & outb' & Hok') & Hcl). split; [done|]. rewrite app_nil_r, (ca_calls _ _ Ha).
  split; [done|]. exists F', [], outb'. by split.
Qed.

Lemma writable_step F ts w fd ws :
  thread_inv F ts w -> step_spec fd w (thread_exec w (WritableFd fd ws)) (step_fault w (WritableFd fd ws)).
Proof.
  intros Hw. eapply with_conn_step; [exact Hw|]. intros o t Ho Ha Hshort Hok Hst. unfold callback_spec.
  pose proof (do_write_any fd_in_table _ _ ws F (enter fd o w) _ _ (clean_conn_ok _ _ (Hclose _)) Hok Hst) as Hr.
  unfold do_write. destruct (ep_do_write _ _ _) as [e'|f]; [|by destruct Hr; [left|right; left]]. rewrite app_nil_r, (ca_calls _ _ Ha).
  destruct Hr as (Hcalls & Hfd & [(F' & outb' & Hok' & Hst')|[(F' & outb' & Hok') Hcl]]); (split; [done|]; split; [done|]).
  - exists F', (t_inb t), outb'. split; [done|]. intros _. split; [done|]. by rewrite Hcalls.
  - exists F', [], outb'. by split.
Qed.

Lemma new_conn_step F ts w fd self :
  thread_inv F ts w -> event_ok w (NewConn fd self) -> step_spec fd w (thread_exec w (NewConn fd self)) (step_fault w (NewConn fd self)).
Proof.
  intros Hw [Hn Hin]. cbn [thread_exec].
  assert (ts !! fd = None) as Hts. { pose proof (ti_conns _ _ _ Hw fd) as Hr. rewrite Hn in Hr. by inversion Hr. }
  eapply callback_step; [exact Hw|]. unfold callback_spec, tcp_conn_new.
  set (e0 := Endpoint fd self None None (ct_loop w) (ct_pool w) (ct_env w) [] [] []).
  pose proof (tenant_new _ _ _ _ fd (ti_tenants _ _ _ Hw) Hts Hin) as Hnew.
  destruct (tenant_enter _ _ _ _ fd _ e0 Hnew (lookup_insert_eq _ _ _)) as [Hok0 _]; [done..|].
  assert (rest_of fd (<[fd := Tenant fd None [] None []]> ts) = rest_of fd ts) as Hrest by (unfold rest_of; by rewrite delete_insert_eq).
  rewrite Hrest in Hok0. pose proof (Hstart _ _ _ _ _ Hok0) as Hh.
  destruct (run_hook conn_start_cb e0) as [e1|f]; cbn [mbind res_bind]; [|by destruct Hh; [left|right; left]].
  destruct Hh as ((F1 & outb1 & Hok1) & Hcalls & Hclosed & Hfd & Hib). unfold increase_conn. cbn [e_fd e_self e_env set_loop].
  rewrite (eo_env _ _ _ _ _ _ Hok1). cbn [mbind res_bind]. split; [done|]. cbn [set_statics set_env e_calls c_stream app]. rewrite parse_nil.
  split; [done|]. exists F1, [], outb1. split; [same_ep Hok1|]. intros _. split; [by cbn; rewrite Hib|by cbn; rewrite Hcalls].
Qed.

Lemma thread_step F ts w ev :
  thread_inv F ts w -> event_ok w ev -> step_spec (event_fd ev) w (thread_exec w ev) (step_fault w ev).
Proof.
  intros Hw Hev. destruct ev; [by eapply new_conn_step|by eapply readable_step|by eapply hangup_step|by eapply writable_step].
Qed.

Lemma thread_reachable_inv w0 w F ts : thread_inv F ts w0 -> thread_reachable w0 w -> exists F' ts', thread_inv F' ts' w.
Proof.
  intros H0. induction 1 as [|w ev w' _ (F1 & ts1 & Hw) Hev He]; [by exists F, ts|].
  pose proof (thread_step _ _ _ _ Hw Hev) as Hs. rewrite He in Hs. by destruct Hs.
Qed.

(** C6: The connections of a thread do not disturb one another.  In every interleaving of
    new connections, arriving bytes (any bytes, cut in any way), peers that leave, read
    and write errors and writable events, over any number of connections that share the
    loop, the buffer pool and the application: a connection that is open has dispatched
    exactly the messages of its own stream and has its unfinished rest buffered; one
    that was closed had dispatched exactly its messages; a step leaves the objects and
    the buffered and pending bytes of all other connections as they are; and it returns,
    unless the memory limit is reached, a callback does not return, or the stream it
    reads ends in a message without a body.  The handlers may send: what they promise,
    and under which condition on the pending output, is the contract [fits], [R]. *)
Theorem connections_isolated F l p x w :
  pool_ok F p -> thread_reachable (thread_start l p x) w ->
  (forall fd o, ct_conns w !! fd = Some o ->
     exists rest, parse (c_stream o) = (c_calls o, More rest) /\ holds_bytes (ct_pool w) (c_ibuf o) rest) /\
  (forall o, o ∈ ct_done w -> c_calls o = (parse (c_stream o)).1) /\
  (forall ev, event_ok w ev ->
     match thread_exec w ev with
     | Ok w' => unmoved (event_fd ev) w w'
     | Err f => step_fault w ev f
     end).
Proof.
  intros Hp Hr. destruct (thread_reachable_inv _ _ _ _ (thread_start_inv F l p x Hp) Hr) as (F' & ts & Hw). split; [|split].
  - intros fd o Ho. pose proof (ti_conns _ _ _ Hw fd) as Hc. rewrite Ho in Hc. inversion Hc as [? t Ha Heq Ht|]; subst.
    exists (t_inb t). split; [apply Ha|]. rewrite (ca_ibuf _ _ Ha). by apply (to_each _ _ _ _ (ti_tenants _ _ _ Hw) fd t).
  - intros o Ho. pose proof (ti_done _ _ _ Hw) as Hd. rewrite Forall_forall in Hd. by apply Hd.
  - intros ev Hev. pose proof (thread_step _ _ _ _ Hw Hev) as Hs. by destruct (thread_exec w ev); [destruct Hs|].
Qed.
End conn_thread.
Arguments ct_conns {T K S}.

(** ** Two connections, interleaved *)

Module ThreadDemo.
#[local] Existing Instance epoll_map.
Import ConnDemo.

Abbreviation thread := (conn_thread (T := unit) (K := gmap Z Z) (S := list Z)).
Abbreviation exec := (thread_exec (T := unit) (K := gmap Z Z) None None router0 note).
Abbreviation reachable := (thread_reachable (T := unit) (K := gmap Z Z) None None router0 note (fun _ _ _ => True) (fun _ _ _ _ => True)).
Definition start (p : buf_pool) : thread := thread_start (event_loop_new ∅) p env0.

Definition guard (w : thread) (ev : conn_event) : bool :=
  match ev with
  | NewConn fd _ => bool_decide (ct_conns w !! fd = None) && in_table fd (se_statics (ct_env w))
  | Readable _ c => negb (Nat.eqb (length c.2) 0) && (Z.of_nat (length c.2) <=? m8M - 65535)
  | Hangup _ _ => false
  | WritableFd _ _ => true
  end.
Definition guarded (w : thread) (ev : conn_event) : res thread := if guard w ev then exec w ev else Err Blocked.

Lemma guard_ok w ev : guard w ev = true -> event_ok (fun _ _ _ => True) (fun _ _ _ _ => True) w ev.
Proof.
  destruct ev as [fd self|fd c|fd io|fd ws]; cbn; [| |done|done].
  - intros [Hn Hi]%andb_true_iff. by apply bool_decide_eq_true in Hn.
  - intros [Hn Hl]%andb_true_iff. apply Z.leb_le in Hl. split; [by intros Hc; rewrite Hc in Hn|]. split; [done|].
    intros. apply all_fit_true.
Qed.

Lemma guarded_reachable evs w0 w w' : reachable w0 w -> foldM guarded w evs = Ok w' -> reachable w0 w'.
Proof.
  revert w. induction evs as [|ev evs IH]; intros w Hr Hf; cbn [foldM] in Hf; [by injection Hf as <-|].
  apply bind_ok in Hf as (w1 & Hg & Hf). unfold guarded in Hg. destruct (guard w ev) eqn:Hgd; [|done].
  eapply IH; [|exact Hf]. eapply thread_next; [exact Hr|by apply guard_ok|done].
Qed.

(** The message of 7 comes in two pieces, that of 8 in between; 8 then closes the socket
    with an impossible header. *)
Definition stream7 : bytes := frame 1 [Byte.x41; Byte.x42].
Definition stream8 : bytes := frame 2 [Byte.x43] ++ replicate 8 Byte.xff.
Definition evs : list conn_event :=
  [NewConn 7 70; NewConn 8 80; Readable 7 (0%nat, take 5 stream7); Readable 8 (1%nat, stream8); Readable 7 (0%nat, drop 5 stream7)].

Definition as_meant (w : thread) : bool :=
  bool_decide (c_stream <$> ct_conns w !! 7 = Some stream7) && bool_decide (ct_conns w !! 8 = None) &&
  bool_decide (c_stream <$> ct_done w = [stream8]).

Lemma connections_isolated_witness : exists (w : thread) o o',
  ct_conns w !! 7 = Some o /\ c_calls o = [(1, [Byte.x41; Byte.x42])] /\
  ct_done w = [o'] /\ c_calls o' = [(2, [Byte.x43])].
Proof.
  destruct buf_pool_new_spec as (F & p & Hnew & Hp & _).
  assert (match (p ← buf_pool_new; foldM guarded (start p) evs) with Ok w => as_meant w | Err _ => false end = true) as Hrun
    by (vm_compute; reflexivity).
  rewrite Hnew in Hrun. cbn [mbind res_bind] in Hrun. destruct (foldM guarded (start p) evs) as [w|f] eqn:Hw; [|discriminate].
  unfold as_meant in Hrun. apply andb_true_iff in Hrun as [[H7 _]%andb_true_iff H8].
  apply bool_decide_eq_true in H7, H8. apply fmap_Some in H7 as (o & Ho & Hs7).
  destruct (ct_done w) as [|o' [|]] eqn:Hd; try discriminate H8. injection H8 as Hs8.
  destruct (connections_isolated None None router0 note _ _ no_hook_ok no_hook_ok (fun others => handler_ok_serves _ _ _ (note_ok others)) F (event_loop_new ∅) p env0 w Hp) as (Hlive & Hdone & _).
  { eapply guarded_reachable; [apply thread_init|exact Hw]. }
  exists w, o, o'. split; [exact Ho|]. split; [|split; [exact Hd|]].
  - destruct (Hlive 7 o Ho) as (rest & Hparse & _). rewrite <-Hs7 in Hparse. unfold stream7 in Hparse.
    rewrite <-(app_nil_r (frame _ _)), parse_scan, scan_frame_frame in Hparse; [|unfold is_i32; lia|cbn; unfold MESSAGE_LENGTH_LIMIT, MESSAGE_HEAD_LEN; lia].
    rewrite parse_nil in Hparse. by injection Hparse as <-.
  - rewrite (Hdone o') by (rewrite Hd; by left). rewrite Hs8. unfold stream8.
    rewrite parse_scan, scan_frame_frame; [|unfold is_i32; lia|cbn; unfold MESSAGE_LENGTH_LIMIT, MESSAGE_HEAD_LEN; lia].
    rewrite parse_scan. vm_compute. reflexivity.
Defined.
End ThreadDemo.
