(* ===== verification/TcpClient.v ===== *)
(** * TcpClient: the client side of a connection (lars_reactor, tcp_client)

    A [tcp_client] is an [endpoint] with its hooks and its router in the
    environment.  Hook functions ([conn_callback]) and message callbacks are
    names; [run_conn_callback] and [run_msg_callback] give their meaning. *)

From S2P Require Import Prelude Bytes BufPool ReactorBuf EventLoop Stream StreamSpec TcpConn.
From stdpp Require Import base numbers list gmap fin_maps.
From Stdlib Require Import ZArith Lia.
Open Scope Z_scope.

Section tcp_client.
Context {T K S M U Hk : Type} `{Epoll K}.

Record client_env := ClientEnv {
  ce_start_cb : option Hk;   ce_start_args : option U;
  ce_close_cb : option Hk;   ce_close_args : option U;
  ce_router : msg_router M U;
  ce_app : S
}.

Abbreviation tcp_client := (endpoint io_proc T Z K client_env).
Implicit Types e : tcp_client.

Context (run_conn_callback : Hk -> option U -> tcp_client -> res tcp_client).
Context (run_msg_callback : M -> option U -> bytes -> Z -> tcp_client -> res tcp_client).

(** [set_conn_start], [set_conn_close], [add_msg_router] *)
Definition set_conn_start (cb : Hk) (args : option U) e : tcp_client :=
  let x := e_env e in
  set_env (ClientEnv (Some cb) args (ce_close_cb x) (ce_close_args x) (ce_router x) (ce_app x)) e.
Definition set_conn_close (cb : Hk) (args : option U) e : tcp_client :=
  let x := e_env e in
  set_env (ClientEnv (ce_start_cb x) (ce_start_args x) (Some cb) args (ce_router x) (ce_app x)) e.
Definition add_msg_router (msgid : Z) (cb : M) (user_data : U) e : tcp_client :=
  let x := e_env e in
  set_env (ClientEnv (ce_start_cb x) (ce_start_args x) (ce_close_cb x) (ce_close_args x)
    (register_msg_router msgid cb user_data (ce_router x)).2 (ce_app x)) e.

Definition set_fd (fd : Z) e : tcp_client :=
  Endpoint fd (e_self e) (e_ibuf e) (e_obuf e) (e_loop e) (e_pool e) (e_env e) (e_wire e) (e_calls e) (e_closed e).

Definition client_hook (cb : option Hk) (args : option U) e : res tcp_client :=
  match cb with Some f => run_conn_callback f args e | None => Ok e end.

(** [this->_router.call(head.msgid, head.msglen, ibuf.data(), this)] *)
Definition client_router_call (mid : Z) (data : bytes) e : res tcp_client :=
  match router_call mid (ce_router (e_env e)) with
  | None => Ok e
  | Some (cb, user_data) => run_msg_callback cb user_data data mid e
  end.

(** [void clean_conn()]: the buffers and [_sockfd] keep their values. *)
Definition client_clean_conn e : res tcp_client :=
  e ← client_hook (ce_close_cb (e_env e)) (ce_close_args (e_env e)) e;
  if negb (e_fd e =? -1) then
    Ok (close_fd (e_fd e) (set_loop (del_io_event (e_fd e) (e_loop e)) e))
  else Ok e.

(** [int send_message(...)], [void do_read()], [void do_write()] *)
Definition client_send_message (data : bytes) (msgid : Z) e : res (Z * tcp_client) :=
  ep_send_message write_callback data msgid e.
Definition client_do_read (io : read_io) e : res tcp_client :=
  ep_do_read client_clean_conn client_router_call io e.
Definition client_do_write (ws : list write_result) e : res tcp_client :=
  ep_do_write client_clean_conn ws e.

(** [void connection_succ(event_loop *loop, int fd, void *args)]; [so_error] is what
    [getsockopt(SO_ERROR)] gives. *)
Definition connection_succeeded (fd so_error : Z) e : res tcp_client :=
  let e := set_loop (del_io_event fd (e_loop e)) e in
  if so_error =? 0 then
    e ← client_hook (ce_start_cb (e_env e)) (ce_start_args (e_env e)) e;
    let e := set_loop (add_io_event fd read_callback EPOLLIN (e_self e) (e_loop e)) e in
    len ← rb_length (e_obuf e) (e_pool e);
    if negb (len =? 0) then Ok (set_loop (add_io_event fd write_callback EPOLLOUT (e_self e) (e_loop e)) e)
    else Ok e
  else Ok e.

(** What [connect] answers: done (with the later SO_ERROR), in progress, or an
    error. *)
Inductive connect_result :=
| ConnectDone (so_error : Z)
| ConnectInProgress
| ConnectError.

(** [void do_connect()]; [sock] is the new socket, or [None] when there is none. *)
Definition do_connect (sock : option Z) (result : connect_result) e : res tcp_client :=
  let e := if negb (e_fd e =? -1) then close_fd (e_fd e) e else e in
  sockfd ← of_option ExitFailure sock;
  let e := set_fd sockfd e in
  match result with
  | ConnectDone so_error => connection_succeeded sockfd so_error e
  | ConnectInProgress => Ok (set_loop (add_io_event sockfd connection_succ EPOLLOUT (e_self e) (e_loop e)) e)
  | ConnectError => Err ExitFailure
  end.

(** [tcp_client(event_loop *loop, const char *ip, unsigned short port)] *)
Definition tcp_client_new (self : Z) (loop : event_loop io_proc T Z K) (p : buf_pool) (app : S)
    (sock : option Z) (result : connect_result) : res tcp_client :=
  do_connect sock result
    (Endpoint (-1) self None None loop p (ClientEnv None None None None msg_router_new app) [] [] []).

(** The io callbacks of the client, as the event loop calls them. *)
Definition run_client_callback (c : io_proc) (fd so_error : Z) (rio : read_io) (ws : list write_result) e
    : res tcp_client :=
  match c with
  | read_callback => client_do_read rio e
  | write_callback => client_do_write ws e
  | connection_succ => connection_succeeded fd so_error e
  | _ => Ok e
  end.

(** ** Properties *)

(** The other endpoints on the pool. *)
Context (others : list tenant).

Lemma add_event_lookup (l : event_loop io_proc T Z K) fd c a mask :
  mask = EPOLLIN \/ mask = EPOLLOUT ->
  exists ev, el_evs (add_io_event fd c mask a l) !! fd = Some ev /\
    ev_mask ev = Z.lor (default 0 (ev_mask <$> el_evs l !! fd)) mask /\
    ev_read ev = (if has mask EPOLLIN then Some c else el_evs l !! fd ≫= ev_read) /\
    ev_write ev = (if has mask EPOLLIN then el_evs l !! fd ≫= ev_write else Some c).
Proof.
  intros Hm. unfold add_io_event. destruct (el_evs l !! fd) as [ev0|]; cbn;
    destruct (epoll_ctl _ _ _ _) as [[] k]; cbn; rewrite lookup_insert_eq;
    eexists; (split; [done|]); destruct Hm as [->| ->]; done.
Qed.

(** A connection that completes is set up whole: once [connection_succ] runs
    without error the start hook has run, the socket is read from, and it is
    waited on for writing exactly when messages were queued meanwhile. *)
Theorem client_connected F e fd inb outb :
  (forall e0, ce_start_cb (e_env e0) = ce_start_cb (e_env e) -> forall F inb outb, ep_ok (fun _ _ => True) others F e0 inb outb ->
     match client_hook (ce_start_cb (e_env e0)) (ce_start_args (e_env e0)) e0 with
     | Ok e' => (exists F' outb', ep_ok (fun _ _ => True) others F' e' inb outb') /\ el_evs (e_loop e') !! fd = el_evs (e_loop e0) !! fd
     | Err f => f = ExitFailure \/ f = Blocked
     end) ->
  ep_ok (fun _ _ => True) others F e inb outb ->
  match connection_succeeded fd 0 e with
  | Ok e' => exists F' outb' ev, ep_ok (fun _ _ => True) others F' e' inb outb' /\
      el_evs (e_loop e') !! fd = Some ev /\ ev_read ev = Some read_callback /\
      has (ev_mask ev) EPOLLIN = true /\ (has (ev_mask ev) EPOLLOUT = true <-> outb' <> []) /\
      (outb' <> [] -> ev_write ev = Some write_callback)
  | Err f => f = ExitFailure \/ f = Blocked
  end.
Proof.
  intros Hhook Hok. unfold connection_succeeded. cbn [Z.eqb]. set (e1 := set_loop (del_io_event fd (e_loop e)) e).
  assert (ep_ok (fun _ _ => True) others F e1 inb outb) as Hok1 by same_ep Hok.
  pose proof (Hhook e1 eq_refl F inb outb Hok1) as Hh.
  destruct (client_hook _ _ e1) as [e2|f]; cbn [mbind res_bind]; [|done].
  destruct Hh as ((F2 & outb2 & Hok2) & Hev). cbn in Hev. rewrite lookup_delete_eq in Hev.
  cbn [e_obuf e_pool set_loop]. rewrite (holds_length _ _ _ (eo_out _ _ _ _ _ _ Hok2)). cbn [mbind res_bind].
  set (l3 := add_io_event fd read_callback EPOLLIN (e_self e2) (e_loop e2)).
  destruct (add_event_lookup (e_loop e2) fd read_callback (e_self e2) EPOLLIN) as (ev3 & H3 & Hm3 & Hr3 & _); [by left|].
  fold l3 in H3. rewrite Hev in Hm3. cbn in Hm3.
  destruct (Z.of_nat (length outb2) =? 0) eqn:E; cbn [negb].
  - assert (outb2 = []) as -> by (apply Z.eqb_eq in E; destruct outb2; [done|discriminate]).
    exists F2, [], ev3. split; [same_ep Hok2|]. cbn. rewrite Hm3. done.
  - assert (outb2 <> []) as Hne by (apply Z.eqb_neq in E; by intros ->).
    destruct (add_event_lookup l3 fd write_callback (e_self e2) EPOLLOUT) as (ev4 & H4 & Hm4 & Hr4 & Hw4); [by right|].
    rewrite H3 in Hm4, Hr4. cbn in Hm4, Hr4. rewrite Hm3 in Hm4.
    exists F2, outb2, ev4. split; [same_ep Hok2|]. cbn. rewrite Hm4, Hr4, Hr3, Hw4. done.
Qed.

(** A message sent while the connection is being made makes the client deaf:
    [send_message] replaces the pending [connection_succ] callback, so when the
    socket becomes writable the client writes its messages, the start hook never
    runs and the socket is never read from. *)
Theorem send_while_connecting_deafens F e inb data mid e1 :
  ep_ok (fun _ _ => True) others F e inb [] -> length data + 8 <= m8M ->
  el_evs (e_loop e) !! e_fd e = Some (IoEvent EPOLLOUT None (Some connection_succ) None (Some (e_self e))) ->
  client_send_message data mid e = Ok (0, e1) ->
  react (e_fd e) EPOLLOUT (e_loop e1) = Ok (CallBack write_callback (e_fd e) (Some (e_self e))) /\
  forall ws e2, WriteError ∉ ws -> client_do_write ws e1 = Ok e2 ->
    e_env e2 = e_env e /\
    forall ev, el_evs (e_loop e2) !! e_fd e = Some ev -> ev_read ev = None /\ has (ev_mask ev) EPOLLIN = false.
Proof.
  intros Hok Hmax Hev Hsend.
  destruct (send_message_spec (fun _ _ => True) others write_callback F e inb [] data mid Hok)
    as [Hf|(e' & F' & Hs & Hok' & (_ & _ & Hfd & _ & _ & Henv) & _)]; [cbn; lia| |].
  { unfold client_send_message in Hsend. congruence. }
  unfold client_send_message in Hsend. rewrite Hsend in Hs. injection Hs as <-.
  pose proof (send_message_loop (fun _ _ => True) others write_callback F e inb [] data mid e1 Hok Hsend) as Hl.
  rewrite decide_True in Hl by done.
  destruct (add_event_lookup (e_loop e) (e_fd e) write_callback (e_self e) EPOLLOUT) as (ev & H1 & Hm & Hr & Hw); [by right|].
  rewrite <-Hl in H1. rewrite Hev in Hm, Hr. cbn in Hm, Hr, Hw.
  assert (ev_wargs ev = Some (e_self e)) as Ha.
  { rewrite Hl in H1. unfold add_io_event in H1. rewrite Hev in H1.
    destruct (epoll_ctl _ _ _ _) as [[] k]; cbn in H1; rewrite lookup_insert_eq in H1; by injection H1 as <-. }
  split.
  { unfold react. rewrite H1. cbn. by rewrite Hw, Ha. }
  intros ws e2 Hws Hwr. pose proof (do_write_spec (fun _ _ => True) others client_clean_conn ws F' e1 inb _ Hok' Hws) as Hd.
  unfold client_do_write in Hwr. rewrite Hwr in Hd.
  destruct Hd as (_ & _ & _ & _ & _ & _ & (_ & _ & _ & _ & _ & Henv2) & _).
  split; [congruence|]. intros ev2 H2.
  destruct (do_write_loop (fun _ _ => True) others client_clean_conn ws F' e1 inb _ e2 Hok' Hws Hwr) as [Hl2|Hl2]; rewrite Hl2 in H2.
  - rewrite H1 in H2. injection H2 as <-. rewrite Hr, Hm. done.
  - rewrite Hfd in H2. unfold del_io_event_mask in H2. rewrite H1 in H2.
    destruct (_ =? 0); cbn in H2; [by rewrite lookup_delete_eq in H2|].
    rewrite lookup_insert_eq in H2. injection H2 as <-. cbn. rewrite Hr, Hm. done.
Qed.
End tcp_client.
Arguments client_env : clear implicits.

(** ** Concrete clients *)

Module ClientDemo.
#[local] Existing Instance epoll_map.
Abbreviation client := (endpoint io_proc unit Z (gmap Z Z) (client_env nat unit unit unit)).

(** A start hook that counts its runs. *)
Definition count_start (_ : unit) (_ : option unit) (e : client) : res client :=
  let x := e_env e in
  Ok (set_env (ClientEnv (ce_start_cb x) (ce_start_args x) (ce_close_cb x) (ce_close_args x) (ce_router x) (ce_app x + 1)%nat) e).

(** A client whose connection is in progress on descriptor 9. *)
Definition connecting (p : buf_pool) : client :=
  set_conn_start tt None
    (set_loop (add_io_event 9 connection_succ EPOLLOUT 90 (event_loop_new ∅))
       (Endpoint 9 90 None None (event_loop_new ∅) p (ClientEnv None None None None msg_router_new 0%nat) [] [] [])).

Lemma connecting_new p : (e ← tcp_client_new count_start 90 (event_loop_new ∅) p 0%nat (Some 9) ConnectInProgress;
  Ok (set_conn_start tt None e)) = Ok (connecting p).
Proof. reflexivity. Qed.

Lemma connecting_ok F p : pool_ok F p -> ep_ok (fun _ _ => True) [] F (connecting p) [] [].
Proof. intros Hp. constructor; try done; by constructor. Qed.

Lemma client_connected_witness : exists F p, pool_ok F p /\
  match connection_succeeded count_start 9 0 (connecting p) with
  | Ok e' => exists ev, el_evs (e_loop e') !! 9 = Some ev /\ ev_read ev = Some read_callback
  | Err f => f = ExitFailure \/ f = Blocked
  end.
Proof.
  destruct buf_pool_new_spec as (F & p & _ & Hp & _). exists F, p. split; [exact Hp|].
  pose proof (client_connected count_start [] F (connecting p) 9 [] []) as Hc.
  destruct (connection_succeeded count_start 9 0 (connecting p)) as [e'|f].
  - destruct Hc as (F' & outb' & ev & _ & Hev & Hr & _).
    + intros e0 Hcb F0 inb outb Hok. rewrite Hcb. cbn. split; [|reflexivity]. exists F0, outb. same_ep Hok.
    + exact (connecting_ok F p Hp).
    + exists ev. split; [exact Hev|exact Hr].
  - apply Hc.
    + intros e0 Hcb F0 inb outb Hok. rewrite Hcb. cbn. split; [|reflexivity]. exists F0, outb. same_ep Hok.
    + exact (connecting_ok F p Hp).
Defined.

(** Sending on the connecting client does succeed, with a fresh pool. *)
Lemma connecting_sends : exists F p e1, pool_ok F p /\ client_send_message [Byte.x41] 1 (connecting p) = Ok (0, e1).
Proof.
  destruct buf_pool_new_spec as (F & p & Hnew & Hp & _).
  assert (match (p ← buf_pool_new; client_send_message [Byte.x41] 1 (connecting p)) with
          | Ok (r, _) => r =? 0 | Err _ => false end = true) as Hs by (vm_compute; reflexivity).
  rewrite Hnew in Hs. cbn [mbind res_bind] in Hs.
  destruct (client_send_message [Byte.x41] 1 (connecting p)) as [[r e1]|f] eqn:Heq; [|discriminate].
  apply Z.eqb_eq in Hs as ->. exists F, p, e1. split; [exact Hp|exact Heq].
Qed.

Lemma send_while_connecting_deafens_witness : exists (e e1 : client),
  client_send_message [Byte.x41] 1 e = Ok (0, e1) /\
  react 9 EPOLLOUT (e_loop e1) = Ok (CallBack write_callback 9 (Some 90)).
Proof.
  destruct connecting_sends as (F & p & e1 & Hp & Hs). exists (connecting p), e1. split; [exact Hs|].
  destruct (send_while_connecting_deafens count_start [] F (connecting p) [] [Byte.x41] 1 e1 (connecting_ok F p Hp)) as [Hr _].
  - vm_compute. discriminate.
  - reflexivity.
  - exact Hs.
  - exact Hr.
Defined.
End ClientDemo.
