(* ===== verification/Udp.v ===== *)
(** * Udp: datagram servers and clients (lars_reactor, udp_server and udp_client)

    Both classes have the same buffers, router and reading loop; the server
    notes the sender of each datagram and answers it, the client is connected
    to one peer.  A [udp] object is either. *)

From S2P Require Import Prelude Bytes EventLoop Stream TcpConn.
From stdpp Require Import base numbers list gmap fin_maps.
From Stdlib Require Import ZArith Lia.
Open Scope Z_scope.

(** What one [recvfrom] answers; a datagram has its sender. *)
Inductive recv_result {Addr : Type} :=
| RecvEintr
| RecvEagain
| RecvError
| RecvDatagram (pkt : bytes) (from : Addr).
Arguments recv_result : clear implicits.

(** The answer of [sendto]. *)
Inductive send_result := SendOk | SendError.

Section udp.
Context {T K X M U Addr : Type} `{Epoll K}.

Record udp := Udp {
  u_fd : Z;
  u_loop : event_loop io_proc T Z K;
  u_read_buf : bytes;          (* _read_buf: MESSAGE_LENGTH_LIMIT bytes *)
  u_write_buf : bytes;         (* _write_buf: MESSAGE_LENGTH_LIMIT bytes *)
  u_client_addr : Addr;        (* _client_addr, or the connected peer *)
  u_router : msg_router M U;
  u_env : X;
  u_calls : list (Addr * Z * bytes);   (* callbacks run: who asked, id, body *)
  u_sent : list (Addr * bytes)         (* datagrams sent *)
}.
Implicit Types u : udp.

Definition u_set_read (bs : bytes) (a : Addr) u : udp :=
  Udp (u_fd u) (u_loop u) bs (u_write_buf u) a (u_router u) (u_env u) (u_calls u) (u_sent u).
Definition u_set_env (x : X) u : udp :=
  Udp (u_fd u) (u_loop u) (u_read_buf u) (u_write_buf u) (u_client_addr u) (u_router u) x (u_calls u) (u_sent u).
Definition u_set_router (r : msg_router M U) u : udp :=
  Udp (u_fd u) (u_loop u) (u_read_buf u) (u_write_buf u) (u_client_addr u) r (u_env u) (u_calls u) (u_sent u).
Definition u_put_call (m : Z * bytes) u : udp :=
  Udp (u_fd u) (u_loop u) (u_read_buf u) (u_write_buf u) (u_client_addr u) (u_router u) (u_env u)
    (u_calls u ++ [(u_client_addr u, m.1, m.2)]) (u_sent u).
Definition u_put_sent (buf pkt : bytes) u : udp :=
  Udp (u_fd u) (u_loop u) (u_read_buf u) buf (u_client_addr u) (u_router u) (u_env u) (u_calls u)
    (u_sent u ++ [(u_client_addr u, pkt)]).

(** What the callbacks registered at the router do. *)
Context (run_msg_callback : M -> option U -> bytes -> Z -> udp -> res udp).

(** [_router.call(head.msgid, head.msglen, _read_buf + MESSAGE_HEAD_LEN, this)] *)
Definition udp_router_call (head : msg_head) u : res udp :=
  let data := take (Z.to_nat (msglen head)) (drop 8 (u_read_buf u)) in
  match router_call (msgid head) (u_router u) with
  | None => Ok u
  | Some (cb, user_data) => run_msg_callback cb user_data data (msgid head) (u_put_call (msgid head, data) u)
  end.

(** One datagram of [pkg_len] bytes, after [recvfrom]. *)
Definition udp_packet (pkg_len : Z) u : res udp :=
  let head := head_of_bytes (take 8 (u_read_buf u)) in
  if (MESSAGE_LENGTH_LIMIT <? msglen head) || (msglen head <? 0) || negb (msglen head + MESSAGE_HEAD_LEN =? pkg_len)
  then Ok u
  else udp_router_call head u.

(** [udp_server::do_read()]: until the socket is empty. *)
Fixpoint server_do_read (rs : list (recv_result Addr)) u : res udp :=
  match rs with
  | [] => Err Blocked
  | RecvEintr :: rs => server_do_read rs u
  | RecvEagain :: _ => Ok u
  | RecvError :: _ => Ok u
  | RecvDatagram pkt from :: rs =>
      let pkt := take (Z.to_nat MESSAGE_LENGTH_LIMIT) pkt in
      buf ← overwrite 0 pkt (u_read_buf u);
      u ← udp_packet (length pkt) (u_set_read buf from u);
      server_do_read rs u
  end.

(** [udp_client::do_read()]: the sender is not asked for. *)
Fixpoint client_do_read (rs : list (recv_result Addr)) u : res udp :=
  match rs with
  | [] => Err Blocked
  | RecvEintr :: rs => client_do_read rs u
  | RecvEagain :: _ => Ok u
  | RecvError :: _ => Ok u
  | RecvDatagram pkt _ :: rs =>
      let pkt := take (Z.to_nat MESSAGE_LENGTH_LIMIT) pkt in
      buf ← overwrite 0 pkt (u_read_buf u);
      u ← udp_packet (length pkt) (u_set_read buf (u_client_addr u) u);
      client_do_read rs u
  end.

(** [int udp_server::send_message(const char *data, int msglen, int msgid)] *)
Definition udp_send_message (data : bytes) (mid : Z) (r : send_result) u : res (Z * udp) :=
  if MESSAGE_LENGTH_LIMIT <? Z.of_nat (length data) then Ok (-1, u)
  else
    let head := {| msgid := mid; msglen := length data |} in
    buf ← overwrite 0 (head_bytes head) (u_write_buf u);
    buf ← overwrite 8 data buf;
    match r with
    | SendError =>
        Ok (-1, Udp (u_fd u) (u_loop u) (u_read_buf u) buf (u_client_addr u) (u_router u) (u_env u) (u_calls u) (u_sent u))
    | SendOk => Ok (Z.of_nat (length data) + MESSAGE_HEAD_LEN, u_put_sent buf (take (8 + length data) buf) u)
    end.

(** [int udp_client::send_message(...)]: the same, with [sendto] to the connected peer. *)
Definition udp_client_send_message (data : bytes) (mid : Z) (r : send_result) u : res (Z * udp) :=
  udp_send_message data mid r u.

(** [void add_msg_router(int msgid, msg_callback *cb, void *user_data)] *)
Definition udp_add_msg_router (mid : Z) (cb : M) (user_data : U) u : udp :=
  u_set_router (register_msg_router mid cb user_data (u_router u)).2 u.

(** The constructors, once the socket calls have succeeded ([None] when one of them
    failed: exit(1)); the arrays hold whatever the memory held. *)
Definition udp_new (proc : io_proc) (self : Z) (sock : option Z) (loop : event_loop io_proc T Z K)
    (rbuf wbuf : bytes) (peer : Addr) (x : X) : res udp :=
  fd ← of_option ExitFailure sock;
  Ok (Udp fd (add_io_event fd proc EPOLLIN self loop) rbuf wbuf peer msg_router_new x [] []).
Definition udp_server_new := udp_new server_read_callback.
Definition udp_client_new := udp_new client_read_callback.

(** The destructors. *)
Definition udp_delete u : event_loop io_proc T Z K := del_io_event (u_fd u) (u_loop u).

(** ** Which datagrams are messages *)

(** A datagram is a message when its length is what its head says. *)
Definition packet_message (pkt : bytes) : option (Z * bytes) :=
  let head := head_of_bytes (take 8 pkt) in
  if Z.of_nat (length pkt) <? MESSAGE_HEAD_LEN then None
  else if bad_head head then None
  else if msglen head + MESSAGE_HEAD_LEN =? Z.of_nat (length pkt) then Some (msgid head, drop 8 pkt)
  else None.

Lemma packet_message_frame mid body :
  is_i32 mid -> length body <= MESSAGE_LENGTH_LIMIT -> packet_message (frame mid body) = Some (mid, body).
Proof.
  intros Hm Hb. pose proof (scan_frame_frame mid body [] Hm Hb) as Hs. rewrite app_nil_r in Hs.
  apply scan_frame_shorter in Hs as (_ & hd & Hl & Heq & Hid & Hlen & Hbad). rewrite app_nil_r in Heq.
  unfold packet_message. rewrite Heq, take_app_length', drop_app_length' by done. rewrite Hbad, Hlen, length_app, Hl, <-Hid.
  unfold MESSAGE_HEAD_LEN. destruct (Z.ltb_spec (Z.of_nat (8 + length body)) 8); [lia|].
  replace (length body + 8 =? (8 + length body)%nat) with true by (symmetry; apply Z.eqb_eq; lia). done.
Qed.

(** The datagrams one [do_read] takes from the socket. *)
Fixpoint received (rs : list (recv_result Addr)) : list (Addr * bytes) :=
  match rs with
  | RecvEintr :: rs => received rs
  | RecvDatagram pkt from :: rs => (from, pkt) :: received rs
  | _ => []
  end.

(** The calls they must lead to. *)
Definition expected_calls u (ds : list (Addr * bytes)) : list (Addr * Z * bytes) :=
  omap (fun d => match packet_message d.2 with
                 | Some (mid, body) =>
                     match router_call mid (u_router u) with
                     | Some _ => Some (d.1, mid, body)
                     | None => None
                     end
                 | None => None
                 end) ds.

(** A callback may answer (send), and change the rest of the process. *)
Definition udp_callback_ok : Prop :=
  forall cb ud data mid u u', run_msg_callback cb ud data mid u = Ok u' ->
    u_read_buf u' = u_read_buf u /\ u_router u' = u_router u /\ u_calls u' = u_calls u.

Lemma udp_packet_spec pkt from rest u :
  udp_callback_ok -> length pkt <= MESSAGE_LENGTH_LIMIT ->
  forall u', udp_packet (length pkt) (u_set_read (pkt ++ rest) from u) = Ok u' ->
    u_calls u' = u_calls u ++ expected_calls u [(from, pkt)] /\
    u_router u' = u_router u /\ length (u_read_buf u') = length (pkt ++ rest).
Proof.
  intros Hcb Hmax u'. unfold udp_packet, expected_calls. cbn [u_read_buf u_set_read omap list_omap fst snd].
  unfold packet_message, MESSAGE_HEAD_LEN. destruct (Z.ltb_spec (Z.of_nat (length pkt)) 8) as [Hlt|Hge].
  - (* too short: whatever the stale bytes say, the lengths differ *)
    set (hd := head_of_bytes (take 8 (pkt ++ rest))). cbn [option_fmap].
    destruct (MESSAGE_LENGTH_LIMIT <? msglen hd); cbn [orb negb]; [intros [= <-]; by rewrite app_nil_r|].
    destruct (Z.ltb_spec (msglen hd) 0); cbn [orb negb]; [intros [= <-]; by rewrite app_nil_r|].
    destruct (Z.eqb_spec (msglen hd + 8) (Z.of_nat (length pkt))); [lia|]. cbn [orb negb]. intros [= <-]. by rewrite app_nil_r.
  - rewrite take_app_le by lia. set (hd := head_of_bytes (take 8 pkt)). fold (bad_head hd).
    destruct (bad_head hd); cbn [orb negb]; [intros [= <-]; by rewrite app_nil_r|].
    destruct (Z.eqb_spec (msglen hd + 8) (Z.of_nat (length pkt))) as [Heq|Hne]; cbn [orb negb];
      [|intros [= <-]; by rewrite app_nil_r].
    unfold udp_router_call. cbn [u_read_buf u_set_read u_router].
    assert (take (Z.to_nat (msglen hd)) (drop 8 (pkt ++ rest)) = drop 8 pkt) as ->.
    { rewrite drop_app_le by lia. rewrite take_app_length'; [done|]. rewrite length_drop. lia. }
    destruct (router_call (msgid hd) (u_router u)) as [[cb ud]|]; [|intros [= <-]; by rewrite app_nil_r].
    intros Hrun. destruct (Hcb _ _ _ _ _ _ Hrun) as (-> & -> & ->). done.
Qed.

(** A property that receiving and the registered callbacks keep. *)
Lemma server_do_read_keeps (P : udp -> Prop) rs u :
  (forall u, P u -> length (u_read_buf u) = Z.to_nat MESSAGE_LENGTH_LIMIT) ->
  (forall bs a u, P u -> length bs = length (u_read_buf u) -> P (u_set_read bs a u)) ->
  (forall cb ud m u, P u -> router_call m.1 (u_router u) = Some (cb, ud) ->
     match run_msg_callback cb ud m.2 m.1 (u_put_call m u) with Ok u' => P u' | Err f => f = Blocked end) ->
  P u -> match server_do_read rs u with Ok u' => P u' | Err f => f = Blocked end.
Proof.
  intros Hlen Hread Hcb. revert u. induction rs as [|r rs IH]; intros u Hu; cbn [server_do_read]; [done|].
  destruct r as [| | |pkt from]; [by apply IH|done|done|].
  unfold overwrite. rewrite (Hlen u Hu). cbn [Nat.add].
  destruct (Nat.leb_spec (length (take (Z.to_nat MESSAGE_LENGTH_LIMIT) pkt)) (Z.to_nat MESSAGE_LENGTH_LIMIT)) as [Hle|Hgt];
    [|rewrite length_take in Hgt; lia].
  cbn [mbind res_bind]. rewrite take_0, app_nil_l. set (u1 := u_set_read _ from u).
  assert (P u1) as Hu1.
  { apply Hread; [done|]. rewrite length_app, length_drop, (Hlen u Hu). clear -Hle. lia. }
  assert (match udp_packet (length (take (Z.to_nat MESSAGE_LENGTH_LIMIT) pkt)) u1 with Ok u' => P u' | Err f => f = Blocked end) as Hp.
  { unfold udp_packet. destruct (_ || _); [done|]. unfold udp_router_call.
    set (data := take _ (drop 8 _)). destruct (router_call _ _) as [[cb ud]|] eqn:E; [|done].
    exact (Hcb cb ud (msgid (head_of_bytes (take 8 (u_read_buf u1))), data) u1 Hu1 E). }
  destruct (udp_packet _ u1) as [u2|f]; [|done]. cbn [mbind res_bind]. by apply IH.
Qed.

(** One whole message with a registered id. *)
Lemma server_do_read_frame mid body from cb ud u :
  length (u_read_buf u) = Z.to_nat MESSAGE_LENGTH_LIMIT -> is_i32 mid -> length body <= 65519 ->
  router_call mid (u_router u) = Some (cb, ud) ->
  exists bs, length bs = length (u_read_buf u) /\
    server_do_read [RecvDatagram (frame mid body) from; RecvEagain] u =
      run_msg_callback cb ud body mid (u_put_call (mid, body) (u_set_read bs from u)).
Proof.
  intros Hbuf Hmid Hl Hcall. unfold MESSAGE_LENGTH_LIMIT, MESSAGE_HEAD_LEN in Hbuf.
  pose proof (packet_message_frame mid body Hmid) as Hp. unfold MESSAGE_LENGTH_LIMIT, MESSAGE_HEAD_LEN in Hp.
  specialize (Hp ltac:(lia)). pose proof (length_frame mid body) as Hlf.
  exists (frame mid body ++ drop (length (frame mid body)) (u_read_buf u)). split; [rewrite length_app, length_drop; lia|].
  cbn [server_do_read]. unfold MESSAGE_LENGTH_LIMIT at 1 2, MESSAGE_HEAD_LEN at 1 2. rewrite take_ge by lia.
  unfold overwrite. cbn [Nat.add]. destruct (Nat.leb_spec (length (frame mid body)) (length (u_read_buf u))); [|lia].
  cbn [mbind res_bind]. rewrite take_0, app_nil_l. set (bs := frame mid body ++ _).
  assert (udp_packet (length (frame mid body)) (u_set_read bs from u) =
    run_msg_callback cb ud body mid (u_put_call (mid, body) (u_set_read bs from u))) as ->.
  { unfold udp_packet. cbn [u_read_buf u_set_read]. unfold bs. rewrite take_app_le by lia.
    unfold packet_message in Hp. fold (bad_head (head_of_bytes (take 8 (frame mid body)))).
    set (hd := head_of_bytes _) in *. destruct (_ <? MESSAGE_HEAD_LEN); [done|].
    destruct (bad_head hd); [done|]. destruct (Z.eqb_spec (msglen hd + MESSAGE_HEAD_LEN) (Z.of_nat (length (frame mid body)))) as [Hlen|]; [|done].
    assert (msgid hd = mid) as Hid by congruence. assert (drop 8 (frame mid body) = body) as Hbody by done. cbn [orb negb]. unfold udp_router_call. cbn [u_read_buf u_router u_set_read].
    rewrite Hid, Hcall. unfold bs. rewrite drop_app_le, Hbody by lia. unfold MESSAGE_HEAD_LEN in Hlen.
    by rewrite take_app_length' by lia. }
  by destruct (run_msg_callback _ _ _ _ _).
Qed.

(** What [send_message] does, by the length of the body. *)
Definition same_but_sent u u' : Prop :=
  u_env u' = u_env u /\ u_router u' = u_router u /\ u_read_buf u' = u_read_buf u /\ u_calls u' = u_calls u /\ u_client_addr u' = u_client_addr u.

Lemma udp_send_cases data mid r u :
  length (u_write_buf u) = Z.to_nat MESSAGE_LENGTH_LIMIT ->
  (length data <= 65519 -> exists u', udp_send_message data mid r u = Ok (if r is SendOk then length data + 8 else -1, u') /\
     u_sent u' = u_sent u ++ (if r is SendOk then [(u_client_addr u, frame mid data)] else []) /\
     length (u_write_buf u') = Z.to_nat MESSAGE_LENGTH_LIMIT /\ same_but_sent u u') /\
  (65519 < length data <= 65527 -> udp_send_message data mid r u = Err OutOfBounds) /\
  (65527 < length data -> udp_send_message data mid r u = Ok (-1, u)).
Proof.
  intros Hbuf. unfold MESSAGE_LENGTH_LIMIT, MESSAGE_HEAD_LEN in Hbuf. unfold udp_send_message.
  set (hd := head_bytes {| msgid := mid; msglen := length data |}).
  assert (length hd = 8%nat) as Hhd by apply length_head_bytes.
  unfold MESSAGE_LENGTH_LIMIT, MESSAGE_HEAD_LEN.
  assert (overwrite 0 hd (u_write_buf u) = Ok (hd ++ drop 8 (u_write_buf u))) as ->.
  { unfold overwrite. rewrite Hhd. destruct (Nat.leb_spec (0 + 8) (length (u_write_buf u))); [done|lia]. }
  set (buf := hd ++ drop 8 (u_write_buf u)).
  assert (Z.of_nat (length buf) = 65527) as Hl by (unfold buf; rewrite length_app, length_drop; lia).
  split; [|split]; intros Hlen; destruct (Z.ltb_spec (65535 - 8) (Z.of_nat (length data))); try lia; [| |done].
  - cbn [mbind res_bind]. unfold overwrite at 1.
    destruct (Nat.leb_spec (8 + length data) (length buf)); [|lia]. cbn [mbind res_bind].
    assert (take 8 buf = hd) as -> by (unfold buf; by rewrite take_app_length').
    destruct r; eexists; (split; [done|]); cbn [u_sent u_write_buf u_put_sent].
    + split.
      * do 3 f_equal. rewrite app_assoc, take_app_length'; [done|]. rewrite length_app. lia.
      * split; [rewrite !length_app, length_drop; lia|done].
    + rewrite app_nil_r. split; [done|]. split; [rewrite !length_app, length_drop; lia|done].
  - cbn [mbind res_bind]. unfold overwrite. destruct (Nat.leb_spec (8 + length data) (length buf)); [lia|done].
Qed.

(** ** Properties *)

(** C34: A udp server runs one callback per datagram that is a whole message with a
    registered id, in the order of arrival and with the datagram's own sender
    as the address its answers go to; truncated, oversized and inconsistent
    datagrams run nothing, even though a short one is judged by bytes left over
    from earlier datagrams. *)
Theorem udp_server_dispatch rs u :
  udp_callback_ok -> length (u_read_buf u) = Z.to_nat MESSAGE_LENGTH_LIMIT ->
  Forall (fun d => length d.2 <= MESSAGE_LENGTH_LIMIT) (received rs) ->
  match server_do_read rs u with
  | Ok u' => u_calls u' = u_calls u ++ expected_calls u (received rs)
  | Err f => f = Blocked \/ exists cb ud data mid u1, run_msg_callback cb ud data mid u1 = Err f
  end.
Proof.
  intros Hcb. revert u. induction rs as [|r rs IH]; intros u Hbuf Hall; cbn [server_do_read]; [by left|].
  destruct r as [| | |pkt from]; [by apply IH|by rewrite app_nil_r|by rewrite app_nil_r|].
  cbn [received] in Hall |- *. inversion Hall as [|? ? Hpkt Hall']; subst. cbn in Hpkt.
  rewrite take_ge by lia.
  assert (overwrite 0 pkt (u_read_buf u) = Ok (pkt ++ drop (length pkt) (u_read_buf u))) as ->.
  { unfold overwrite. destruct (Nat.leb_spec (0 + length pkt) (length (u_read_buf u))); [done|lia]. }
  cbn [mbind res_bind]. pose proof (udp_packet_spec pkt from (drop (length pkt) (u_read_buf u)) u Hcb Hpkt) as Hp.
  destruct (udp_packet _ _) as [u1|f] eqn:Hu; cbn [mbind res_bind].
  - destruct (Hp u1 eq_refl) as (Hc & Hr & Hl).
    assert (length (u_read_buf u1) = Z.to_nat MESSAGE_LENGTH_LIMIT) as Hbuf1.
    { rewrite Hl, length_app, length_drop. lia. }
    specialize (IH u1 Hbuf1 Hall'). destruct (server_do_read rs u1) as [u2|f]; [|done].
    rewrite IH, Hc, <-app_assoc. f_equal. unfold expected_calls. rewrite Hr. cbn.
    by destruct (packet_message pkt) as [[mid body]|]; [destruct (router_call mid (u_router u))|].
  - right. unfold udp_packet in Hu. destruct (_ || _); [discriminate|]. unfold udp_router_call in Hu.
    destruct (router_call _ _) as [[cb ud]|]; [|discriminate]. by do 5 eexists.
Qed.

(** [send_message] up to 65519 bytes sends one datagram, the frame, to the
    address of the last sender; above 65527 it refuses; but the eight sizes in
    between pass the check and write past the end of [_write_buf]. *)
Theorem udp_send_limits data mid r u :
  length (u_write_buf u) = Z.to_nat MESSAGE_LENGTH_LIMIT ->
  (length data <= 65519 -> exists u', udp_send_message data mid r u = Ok (if r is SendOk then length data + 8 else -1, u') /\
     u_sent u' = u_sent u ++ (if r is SendOk then [(u_client_addr u, frame mid data)] else []) /\
     length (u_write_buf u') = Z.to_nat MESSAGE_LENGTH_LIMIT) /\
  (65519 < length data <= 65527 -> udp_send_message data mid r u = Err OutOfBounds) /\
  (65527 < length data -> udp_send_message data mid r u = Ok (-1, u)).
Proof.
  intros Hbuf. destruct (udp_send_cases data mid r u Hbuf) as (H1 & H2 & H3). split; [|by split].
  intros Hl. destruct (H1 Hl) as (u' & ? & ? & ? & _). by exists u'.
Qed.
End udp.
Arguments udp : clear implicits.

(** ** A concrete server *)

Module UdpDemo.
#[local] Existing Instance epoll_map.
Abbreviation server := (udp unit (gmap Z Z) unit unit unit nat).

(** The echo service. *)
Definition echo (_ : unit) (_ : option unit) (data : bytes) (mid : Z) (u : server) : res server :=
  '(_, u) ← udp_send_message data mid SendOk u; Ok u.

Definition zeros : bytes := replicate (Z.to_nat MESSAGE_LENGTH_LIMIT) Byte.x00.
Definition server0 : server :=
  match udp_server_new 1 (Some 5) (event_loop_new ∅) zeros zeros 0%nat tt with
  | Ok u => udp_add_msg_router 1 tt tt u
  | Err _ => Udp 0 (event_loop_new ∅) [] [] 0%nat msg_router_new tt [] []
  end.

Lemma echo_ok : udp_callback_ok echo.
Proof.
  intros cb ud data mid u u'. unfold echo, udp_send_message.
  destruct (_ <? _); [by intros [= <-]|]. destruct (overwrite 0 _ _) as [b1|]; cbn [mbind res_bind]; [|done].
  destruct (overwrite 8 _ _) as [b2|]; cbn [mbind res_bind]; [|done]. by intros [= <-].
Qed.

Lemma udp_server_dispatch_witness :
  match server_do_read echo [RecvDatagram [Byte.x01] 7%nat; RecvEintr; RecvDatagram (frame 1 [Byte.x41]) 8%nat;
                             RecvDatagram (frame 2 []) 9%nat; RecvEagain] server0 with
  | Ok u' => u_calls u' = [(8%nat, 1, [Byte.x41])]
  | Err f => f = Blocked \/ exists cb ud data mid u1, echo cb ud data mid u1 = Err f
  end.
Proof.
  pose proof (udp_server_dispatch echo [RecvDatagram [Byte.x01] 7%nat; RecvEintr; RecvDatagram (frame 1 [Byte.x41]) 8%nat;
    RecvDatagram (frame 2 []) 9%nat; RecvEagain] server0 echo_ok) as Hd.
  destruct (server_do_read _ _ server0) as [u'|f].
  - rewrite Hd; [reflexivity|reflexivity|]. by apply (bool_decide_unpack _).
  - apply Hd; [reflexivity|]. by apply (bool_decide_unpack _).
Defined.

Lemma udp_send_limits_witness :
  exists u', udp_send_message [Byte.x41] 1 SendOk server0 = Ok (9, u') /\ u_sent u' = [(0%nat, frame 1 [Byte.x41])].
Proof.
  destruct (udp_send_limits [Byte.x41] 1 SendOk server0) as [Hs _]; [reflexivity|].
  destruct Hs as (u' & Hu & Hsent & _); [cbn; lia|]. exists u'. split; [exact Hu|exact Hsent].
Defined.
End UdpDemo.
