(* ===== verification/ThreadPool.v ===== *)
(** * ThreadPool: task queues between threads and the pool of workers
    (lars_reactor: thread_queue.h, task_msg.h, thread_pool)

    A [thread_queue] pairs a queue with an eventfd that the receiving thread's
    event loop watches; each operation runs under [_queue_mutex], so it is one
    step.  The eventfd is the interface [EventFd]. *)

From S2P Require Import Prelude Bytes EventLoop TcpConn.
From stdpp Require Import base numbers list gmap fin_maps.
From Stdlib Require Import ZArith Lia.
Open Scope Z_scope.

(** eventfd(2), opened non-blocking: a successful write makes it readable, a write
    fails only when the counter is full, a read takes everything. *)
Class EventFd (V : Type) := {
  efd_readable : V -> bool;
  efd_write : V -> bool * V;
  efd_read : V -> V;
  efd_write_ok v : (efd_write v).1 = true -> efd_readable (efd_write v).2 = true;
  efd_write_fail v : (efd_write v).1 = false -> efd_readable v = true /\ (efd_write v).2 = v;
  efd_read_empties v : efd_readable (efd_read v) = false
}.

(** A counter as documented, to evaluate the definitions. *)
Definition efd_max := 2 ^ 64 - 2.
#[program] Definition efd_counter : EventFd Z :=
  {| efd_readable v := 0 <? v;
     efd_write v := if Z.max 0 v <? efd_max then (true, Z.max 0 v + 1) else (false, v);
     efd_read _ := 0 |}.
Next Obligation.
  intros v. cbn. destruct (Z.ltb_spec (Z.max 0 v) efd_max); cbn; [|done]. intros _. apply Z.ltb_lt. lia.
Qed.
Next Obligation.
  intros v. cbn. destruct (Z.ltb_spec (Z.max 0 v) efd_max); cbn; [done|]. intros _. split; [|done].
  apply Z.ltb_lt. unfold efd_max in *. lia.
Qed.
Next Obligation. done. Qed.

(** ** template class thread_queue *)

Section thread_queue.
Context {V T C TF A K : Type} `{EventFd V} `{Epoll K}.

Record thread_queue := ThreadQueue {
  tq_evfd : Z;
  tq_ev : V;
  tq_queue : list T
}.

(** [thread_queue()] with the eventfd just opened ([None]: exit(1)). *)
Definition thread_queue_new (evfd : option (Z * V)) : res thread_queue :=
  '(fd, v) ← of_option ExitFailure evfd; Ok (ThreadQueue fd v []).

(** [void send(const T &task)] *)
Definition tq_send (task : T) (q : thread_queue) : thread_queue :=
  ThreadQueue (tq_evfd q) (efd_write (tq_ev q)).2 (tq_queue q ++ [task]).

(** The loop of the constructors that fill an array of queues: [new thread_queue] for
    each eventfd. *)
Definition new_queues (evfds : list (option (Z * V))) : res (list thread_queue) :=
  foldM (fun qs evfd => q ← thread_queue_new evfd; Ok (qs ++ [q])) [] evfds.

(** [void recv(std::queue<T> &queue_msgs)] with an empty [queue_msgs] *)
Definition tq_recv (q : thread_queue) : list T * thread_queue :=
  (tq_queue q, ThreadQueue (tq_evfd q) (efd_read (tq_ev q)) []).

(** [set_loop] then [set_callback] *)
Definition tq_set_callback (cb : C) (args : A) (q : thread_queue) (loop : option (event_loop C TF A K))
    : option (event_loop C TF A K) :=
  add_io_event (tq_evfd q) cb EPOLLIN args <$> loop.

(** The receiving thread is, or will be, woken up. *)
Definition awake (q : thread_queue) : bool := efd_readable (tq_ev q).

Lemma send_wakes task q : awake (tq_send task q) = true.
Proof.
  unfold awake, tq_send. cbn. pose proof (efd_write_ok (tq_ev q)) as Ho. pose proof (efd_write_fail (tq_ev q)) as Hf.
  destruct (efd_write (tq_ev q)) as [[] v']; cbn in *; [by apply Ho|]. by destruct (Hf eq_refl) as [? ->].
Qed.

Lemma new_queues_spec evfds qs :
  new_queues evfds = Ok qs -> length qs = length evfds /\ Forall (fun q => tq_queue q = []) qs.
Proof.
  unfold new_queues. intros Hq.
  assert (forall l acc qs, foldM (fun qs evfd => q ← thread_queue_new evfd; Ok (qs ++ [q])) acc l = Ok qs ->
    Forall (fun q => tq_queue q = []) acc -> length qs = (length acc + length l)%nat /\ Forall (fun q => tq_queue q = []) qs) as Hg.
  { clear. induction l as [|e l IH]; intros acc qs; cbn [foldM]; [intros [= <-]; cbn; split; [lia|done]|].
    intros Hf Hacc. apply bind_ok in Hf as (a & Ha & Hf). apply bind_ok in Ha as (q & Hn & [= <-]).
    apply IH in Hf as [Hl Hall].
    - rewrite length_app in Hl. split; [cbn in *; lia|done].
    - apply Forall_app. split; [done|]. apply Forall_singleton.
      apply bind_ok in Hn as ([fd v] & _ & [= <-]). done. }
  apply (Hg evfds []); [done|by constructor].
Qed.

(** Interleavings of the sending threads and the receiver. *)
Inductive queue_call := QSend (t : T) | QRecv.

Definition queue_exec (st : list T * thread_queue) (c : queue_call) : list T * thread_queue :=
  match c with
  | QSend t => (st.1, tq_send t st.2)
  | QRecv => let '(l, q) := tq_recv st.2 in (st.1 ++ l, q)
  end.

Definition queue_sent (cs : list queue_call) : list T :=
  omap (fun c => match c with QSend t => Some t | QRecv => None end) cs.

(** Whatever the interleaving, tasks are received in the order they were sent,
    none lost and none twice, and the receiver's eventfd stays readable as long
    as a task waits, so no task is ever left without a wake-up. *)
Theorem queue_fifo_no_lost_wakeup fd v cs :
  let '(received, q) := fold_left queue_exec cs ([], ThreadQueue fd v []) in
  received ++ tq_queue q = queue_sent cs /\ (tq_queue q <> [] -> awake q = true).
Proof.
  assert (forall cs (st : list T * thread_queue), (tq_queue st.2 <> [] -> awake st.2 = true) ->
    let '(received, q) := fold_left queue_exec cs st in
    received ++ tq_queue q = (st.1 ++ tq_queue st.2) ++ queue_sent cs /\ (tq_queue q <> [] -> awake q = true)) as Hg.
  { clear. induction cs as [|c cs IH]; intros [l q] Hq; cbn [fold_left].
    - cbn. by rewrite app_nil_r.
    - destruct c as [t|]; cbn [queue_exec].
      + specialize (IH (l, tq_send t q)). cbn in IH |- *.
        destruct (fold_left queue_exec cs _) as [l' q']. rewrite <-!app_assoc in *. apply IH.
        intros _. apply send_wakes.
      + specialize (IH (l ++ tq_queue q, (tq_recv q).2)). cbn in IH |- *.
        destruct (fold_left queue_exec cs _) as [l' q']. rewrite app_nil_r in IH. by apply IH. }
  specialize (Hg cs ([], ThreadQueue fd v [])). by apply Hg.
Qed.
End thread_queue.
Arguments thread_queue : clear implicits.
Arguments queue_call : clear implicits.

(** ** struct task_msg and class thread_pool *)

Section thread_pool.
Context {V TF A : Type} `{EventFd V}.

(** The tagged union: [NEW_CONN] with its [connfd], [NEW_TASK] with function and
    argument. *)
Inductive task_msg :=
| NewConn (connfd : Z)
| NewTask (task_cb : TF) (args : A).

Record thread_pool := ThreadPool {
  tp_queues : list (thread_queue V task_msg);
  tp_cnt : Z;      (* _thread_cnt *)
  tp_index : Z     (* _index *)
}.

(** [thread_pool(int thread_cnt)]: one queue, with its eventfd, per thread;
    [evfds] are the eventfds the kernel hands out. *)
Definition thread_pool_new (thread_cnt : Z) (evfds : list (option (Z * V))) : res thread_pool :=
  ensure negb (thread_cnt <=? 0) or ExitFailure;
  queues ← new_queues (take (Z.to_nat thread_cnt) evfds);
  Ok (ThreadPool queues thread_cnt 0).

(** [thread_queue<task_msg> *get_thread()]: the position of the queue. *)
Definition get_thread (p : thread_pool) : res (nat * thread_pool) :=
  let index := if tp_index p =? tp_cnt p - 1 then 0 else tp_index p in
  _ ← of_option OutOfBounds (if index <? 0 then None else tp_queues p !! Z.to_nat index);
  Ok (Z.to_nat index, ThreadPool (tp_queues p) (tp_cnt p) (index + 1)).

(** [queue->send(task)] on the [i]-th queue *)
Definition send_to (i : nat) (task : task_msg) (p : thread_pool) : thread_pool :=
  ThreadPool (alter (tq_send task) i (tp_queues p)) (tp_cnt p) (tp_index p).

(** [void send_task(task_func func, void *args)] *)
Definition send_task (func : TF) (args : A) (p : thread_pool) : res thread_pool :=
  foldM (fun p i => _ ← of_option OutOfBounds (tp_queues p !! i); Ok (send_to i (NewTask func args) p))
    p (seq 0 (Z.to_nat (tp_cnt p))).

(** [n] calls of [get_thread]. *)
Fixpoint get_threads (n : nat) (p : thread_pool) : res (list nat * thread_pool) :=
  match n with
  | O => Ok ([], p)
  | S n =>
      '(i, p) ← get_thread p;
      '(l, p) ← get_threads n p;
      Ok (i :: l, p)
  end.

Definition pool_wf (p : thread_pool) : Prop := Z.of_nat (length (tp_queues p)) = tp_cnt p /\ 0 < tp_cnt p.

Lemma get_threads_rotate n p k :
  pool_wf p -> 2 <= tp_cnt p -> 0 <= tp_index p <= tp_cnt p - 1 -> (tp_index p) mod (tp_cnt p - 1) = k mod (tp_cnt p - 1) ->
  exists p', get_threads n p = Ok ((fun i => Z.to_nat ((k + Z.of_nat i) mod (tp_cnt p - 1))) <$> seq 0 n, p').
Proof.
  revert p k. induction n as [|n IH]; intros p k [Hl Hc] H2 Hi Hk; [by exists p|].
  cbn [get_threads]. unfold get_thread.
  set (index := if tp_index p =? tp_cnt p - 1 then 0 else tp_index p).
  assert (0 <= index < tp_cnt p - 1 /\ index = k mod (tp_cnt p - 1)) as [Hr Hik].
  { unfold index. destruct (Z.eqb_spec (tp_index p) (tp_cnt p - 1)) as [He|Hne].
    - rewrite He, Z.mod_same in Hk by lia. lia.
    - rewrite (Z.mod_small (tp_index p)) in Hk by lia. lia. }
  destruct (Z.ltb_spec index 0); [lia|].
  destruct (tp_queues p !! Z.to_nat index) as [q|] eqn:Hq; [|apply lookup_ge_None in Hq; lia].
  cbn [mbind res_bind of_option].
  destruct (IH (ThreadPool (tp_queues p) (tp_cnt p) (index + 1)) (k + 1)) as (p' & ->); cbn [tp_cnt tp_index tp_queues].
  - by split.
  - done.
  - lia.
  - rewrite Hik, Z.add_mod_idemp_l by lia. done.
  - cbn [mbind res_bind]. exists p'. cbn [seq fmap list_fmap]. rewrite <-fmap_S_seq, <-list_fmap_compose.
    replace (k + Z.of_nat 0) with k by lia. rewrite <-Hik. do 3 f_equal. apply list_fmap_ext. intros i x _. cbn [compose].
    do 2 f_equal. lia.
Qed.

Lemma thread_pool_new_wf cnt evfds p :
  cnt <= length evfds -> thread_pool_new cnt evfds = Ok p -> pool_wf p /\ tp_index p = 0 /\ tp_cnt p = cnt.
Proof.
  intros Hlen. unfold thread_pool_new. destruct (Z.leb_spec cnt 0); [done|]. cbn [negb]. intros Hn.
  apply bind_ok in Hn as (qs & Hqs & [= <-]). split; [|done]. split; cbn; [|lia].
  apply new_queues_spec in Hqs as [Hqs _]. rewrite Hqs, length_take. cbn. lia.
Qed.

(** New connections are dealt round robin over the workers, but never to the last
    one: of a fresh pool the n-th call of [get_thread] gives queue n modulo
    (threads - 1).  With a single thread the second call reads past the end of
    the array of queues. *)
Theorem get_thread_skips_last n cnt evfds p :
  cnt <= length evfds -> thread_pool_new cnt evfds = Ok p ->
  (2 <= cnt -> exists p', get_threads n p = Ok ((fun i : nat => Z.to_nat (i mod (cnt - 1))) <$> seq 0 n, p')) /\
  (cnt = 1 -> exists p', get_thread p = Ok (0%nat, p') /\ get_thread p' = Err OutOfBounds).
Proof.
  intros Hlen Hn. destruct (thread_pool_new_wf cnt evfds p Hlen Hn) as (Hwf & Hi & Hc). split.
  - intros H2. destruct (get_threads_rotate n p 0 Hwf) as (p' & Heq); [lia|lia|by rewrite Hi|].
    exists p'. rewrite Heq, Hc. done.
  - intros H1. destruct Hwf as [Hl _]. rewrite Hc, H1 in Hl. unfold get_thread. rewrite Hi, Hc, H1. cbn.
    destruct (tp_queues p) as [|q [|]] eqn:Hq; cbn in Hl; [lia| |lia]. cbn. eexists. split; [done|]. done.
Qed.

Lemma send_task_prefix func args n p :
  (n <= length (tp_queues p))%nat ->
  exists p', foldM (fun p i => _ ← of_option OutOfBounds (tp_queues p !! i); Ok (send_to i (NewTask func args) p)) p (seq 0 n)
    = Ok p' /\ tp_cnt p' = tp_cnt p /\ tp_index p' = tp_index p /\
    forall i, tp_queues p' !! i = (if decide (i < n)%nat then tq_send (NewTask func args) else id) <$> tp_queues p !! i.
Proof.
  induction n as [|n IH]; intros Hn.
  { exists p. do 3 (split; [done|]). intros i. cbn. by destruct (tp_queues p !! i). }
  destruct IH as (p1 & Hf & Hc & Hi & Hq); [lia|]. rewrite seq_S, foldM_app, Hf. cbn [mbind res_bind foldM Nat.add].
  destruct (tp_queues p !! n) as [q|] eqn:Hp; [|apply lookup_ge_None in Hp; lia].
  rewrite (Hq n), Hp, decide_False by lia. cbn [mbind res_bind of_option fmap option_fmap option_map].
  eexists. split; [done|]. do 2 (split; [done|]). intros i. cbn [tp_queues send_to].
  destruct (decide (i = n)) as [->|Hne].
  - rewrite list_lookup_alter_eq, (Hq n), Hp, decide_False, decide_True by lia. done.
  - rewrite list_lookup_alter_ne by done. rewrite (Hq i). do 2 destruct (decide _); try lia; done.
Qed.

(** [send_task] puts the task once on the queue of every worker, behind what is
    there, and wakes them all. *)
Theorem send_task_reaches_all func args p :
  pool_wf p ->
  exists p', send_task func args p = Ok p' /\ tp_queues p' = tq_send (NewTask func args) <$> tp_queues p /\
    Forall (fun q => awake q = true) (tp_queues p').
Proof.
  intros [Hl Hc]. unfold send_task. destruct (send_task_prefix func args (Z.to_nat (tp_cnt p)) p) as (p' & Hf & _ & _ & Hq); [lia|].
  exists p'. split; [done|].
  assert (tp_queues p' = tq_send (NewTask func args) <$> tp_queues p) as Heq.
  { apply list_eq. intros i. rewrite Hq, list_lookup_fmap. destruct (tp_queues p !! i) eqn:Hp; [|done].
    apply lookup_lt_Some in Hp. rewrite decide_True by lia. done. }
  split; [done|]. rewrite Heq. apply Forall_fmap, Forall_forall. intros q _. apply send_wakes.
Qed.
End thread_pool.
Arguments task_msg : clear implicits.
Arguments thread_pool : clear implicits.

(** ** The worker: deal_task and thread_main *)

Section worker.
Context {V A K S : Type} {TF : Type} `{EventFd V} `{Epoll K}.
Context (get_loop : S -> event_loop io_proc TF A K) (put_loop : event_loop io_proc TF A K -> S -> S).
(** [new tcp_conn(connfd, loop)] in the worker *)
Context (new_conn : Z -> S -> res S).

Definition deal_one (s : S) (task : task_msg TF A) : res S :=
  match task with
  | NewConn connfd => new_conn connfd s
  | NewTask func args => Ok (put_loop (add_task func args (get_loop s)) s)
  end.

(** [void deal_task(event_loop *loop, int fd, void *args)] *)
Definition deal_tasks (q : thread_queue V (task_msg TF A)) (s : S) : res (thread_queue V (task_msg TF A) * S) :=
  let '(new_task_queue, q) := tq_recv q in
  s ← foldM deal_one s new_task_queue;
  Ok (q, s).

(** [void *thread_main(void *args)] before its endless [event_process]. *)
Definition thread_main_setup (self : A) (q : thread_queue V (task_msg TF A)) (s : S) : S :=
  match tq_set_callback deal_task self q (Some (get_loop s)) with
  | Some l => put_loop l s
  | None => s
  end.
End worker.

(** ** Concrete pools *)

Module PoolDemo.
#[local] Existing Instance efd_counter.

Definition evfds (n : nat) : list (option (Z * Z)) := (fun i => Some (Z.of_nat i + 10, 0)) <$> seq 0 n.
Definition pool (n : nat) : thread_pool Z nat nat :=
  match thread_pool_new (Z.of_nat n) (evfds n) with Ok p => p | Err _ => ThreadPool [] 0 0 end.

Lemma get_thread_skips_last_witness : exists p', get_threads 4 (pool 3) = Ok ([0; 1; 0; 1]%nat, p').
Proof.
  destruct (get_thread_skips_last 4 3 (evfds 3) (pool 3)) as [Hs _].
  - cbn. lia.
  - vm_compute. reflexivity.
  - destruct Hs as (p' & Hp); [lia|]. exists p'. rewrite Hp. reflexivity.
Defined.

Lemma send_task_reaches_all_witness : exists p', send_task 7%nat 8%nat (pool 2) = Ok p' /\
  (tq_queue <$> tp_queues p') = [[NewTask 7%nat 8%nat]; [NewTask 7%nat 8%nat]].
Proof.
  destruct (send_task_reaches_all 7%nat 8%nat (pool 2)) as (p' & Hs & Hq & _); [vm_compute; split; reflexivity|].
  exists p'. split; [exact Hs|]. rewrite Hq. reflexivity.
Defined.
End PoolDemo.
