(* ===== verification/TcpServer.v ===== *)
(** * TcpServer: accepting connections (lars_reactor, tcp_server)

    The listening side: the constructor, [do_accept], and the workers that make
    connections of the descriptors it hands over. *)

From S2P Require Import Prelude Bytes BufPool ReactorBuf EventLoop Stream TcpConn ThreadPool.
From stdpp Require Import base numbers list gmap fin_maps.
From Stdlib Require Import ZArith Lia.
Open Scope Z_scope.

(** What one [accept] answers. *)
Inductive accept_result :=
| AcceptOk (connfd : Z)
| AcceptEintr | AcceptEagain | AcceptEmfile | AcceptError.

Section tcp_server.
Context {V TF K S : Type} `{EventFd V} `{Epoll K}.

(** The server object and the static members it shares with its connections;
    [_thread_pool] is not set by the constructor when there are no threads. *)
Record tcp_server := TcpServer {
  sv_sockfd : Z;
  sv_pool : option (thread_pool V TF Z);
  sv_loop : event_loop io_proc TF Z K;
  sv_env : server_env S;
  sv_bufs : buf_pool;
  sv_closed : list Z
}.

Definition sv_set_pool (p : thread_pool V TF Z) (s : tcp_server) : tcp_server :=
  TcpServer (sv_sockfd s) (Some p) (sv_loop s) (sv_env s) (sv_bufs s) (sv_closed s).
Definition sv_close (fd : Z) (s : tcp_server) : tcp_server :=
  TcpServer (sv_sockfd s) (sv_pool s) (sv_loop s) (sv_env s) (sv_bufs s) (sv_closed s ++ [fd]).

(** The answers of socket, bind and listen; any failure is exit(1). *)
Definition listening (sock : option Z) (bind_ok listen_ok : bool) : res Z :=
  fd ← of_option ExitFailure sock;
  ensure bind_ok or ExitFailure;
  ensure listen_ok or ExitFailure;
  Ok fd.

(** [tcp_server(event_loop *loop, const char *ip, uint16_t port)]; [thread_cnt] and
    [max_conns] come from the configuration file. *)
Definition tcp_server_new (sock : option Z) (bind_ok listen_ok : bool) (self thread_cnt max_conns : Z)
    (evfds : list (option (Z * V))) (loop : event_loop io_proc TF Z K) (bufs : buf_pool) (app : S) : res tcp_server :=
  sockfd ← listening sock bind_ok listen_ok;
  pool ← (if 0 <? thread_cnt then p ← thread_pool_new thread_cnt evfds; Ok (Some p) else Ok None);
  let statics := TcpStatics ∅ (max_conns + 5 + 2 * thread_cnt) 0 max_conns in
  Ok (TcpServer sockfd pool (add_io_event sockfd accept_callback EPOLLIN self loop) (ServerEnv statics app) bufs []).

(** [void do_accept()]: one connection per call, unless the server is full. *)
Fixpoint do_accept (rs : list accept_result) (s : tcp_server) : res tcp_server :=
  match rs with
  | [] => Err Blocked
  | AcceptEintr :: rs => do_accept rs s
  | AcceptEagain :: _ => Ok s
  | AcceptEmfile :: rs => do_accept rs s
  | AcceptError :: _ => Err ExitFailure
  | AcceptOk connfd :: rs =>
      let cur_conns := get_conn_num (se_statics (sv_env s)) in
      if ts_max (se_statics (sv_env s)) <=? cur_conns then do_accept rs (sv_close connfd s)
      else
        pool ← of_option Uninit (sv_pool s);
        '(i, pool) ← get_thread pool;
        Ok (sv_set_pool (send_to i (NewConn connfd) pool) s)
  end.

(** ** A worker thread *)

Record worker := Worker {
  wk_loop : event_loop io_proc TF Z K;
  wk_env : server_env S;
  wk_bufs : buf_pool;
  wk_conns : list (Z * Z)     (* descriptor and object of its connections *)
}.

Context (conn_start_cb : option (endpoint io_proc TF Z K (server_env S) -> res (endpoint io_proc TF Z K (server_env S)))).

(** [new tcp_conn(connfd, loop)] in the thread; the object is named after the
    descriptor. *)
Definition worker_new_conn (connfd : Z) (w : worker) : res worker :=
  e ← tcp_conn_new conn_start_cb connfd connfd (wk_loop w) (wk_bufs w) (wk_env w);
  Ok (Worker (e_loop e) (e_env e) (e_pool e) (wk_conns w ++ [(connfd, e_self e)])).

Definition worker_deal (q : thread_queue V (task_msg TF Z)) (w : worker) : res (thread_queue V (task_msg TF Z) * worker) :=
  deal_tasks wk_loop (fun l w => Worker l (wk_env w) (wk_bufs w) (wk_conns w)) worker_new_conn q w.

(** [n] connections accepted in a row on descriptors [fd], [fd + 1], ... *)
Fixpoint accept_many (n : nat) (fd : Z) (s : tcp_server) : res tcp_server :=
  match n with
  | O => Ok s
  | Datatypes.S n => s ← do_accept [AcceptOk fd] s; accept_many n (fd + 1) s
  end.

(** ** Properties *)

(** The tasks waiting for the workers. *)
Definition waiting (s : tcp_server) : list (task_msg TF Z) :=
  match sv_pool s with Some p => concat (tq_queue <$> tp_queues p) | None => [] end.

Lemma send_to_waiting i t (p : thread_pool V TF Z) :
  is_Some (tp_queues p !! i) ->
  concat (tq_queue <$> tp_queues (send_to i t p)) ≡ₚ t :: concat (tq_queue <$> tp_queues p).
Proof.
  intros [q Hq]. cbn. revert i Hq. generalize (tp_queues p) as qs. induction qs as [|q0 qs IH]; intros i Hq; [done|].
  destruct i as [|i]; cbn in *.
  - injection Hq as ->. cbn. rewrite <-app_assoc. symmetry. cbn. apply Permutation_middle.
  - rewrite (IH i Hq). by rewrite Permutation_middle.
Qed.

Lemma get_thread_lookup (p p' : thread_pool V TF Z) i :
  get_thread p = Ok (i, p') -> is_Some (tp_queues p' !! i) /\ tp_queues p' = tp_queues p.
Proof.
  unfold get_thread. set (index := if _ =? _ then _ else _). destruct (index <? 0); [done|].
  destruct (tp_queues p !! Z.to_nat index) as [q|] eqn:Hq; [|done]. cbn. intros [= <- <-]. cbn. by rewrite Hq.
Qed.

(** One accepted connection is handed to one worker, once, when the number of
    registered connections is below the maximum, and is closed when it is not;
    the count itself does not change: only a worker that has made the
    connection counts it, so connections that still wait are not limited. *)
Theorem accept_outcome connfd rs s s' :
  do_accept (AcceptOk connfd :: rs) s = Ok s' ->
  se_statics (sv_env s') = se_statics (sv_env s) /\
  if ts_max (se_statics (sv_env s)) <=? ts_curr (se_statics (sv_env s))
  then do_accept rs (sv_close connfd s) = Ok s'
  else waiting s' ≡ₚ NewConn connfd :: waiting s /\ sv_closed s' = sv_closed s.
Proof.
  cbn [do_accept]. unfold get_conn_num.
  destruct (ts_max _ <=? ts_curr _) eqn:E.
  - intros Ha. split; [|done].
    assert (forall rs s s', do_accept rs s = Ok s' -> sv_env s' = sv_env s) as Hg.
    { clear. induction rs as [|r rs IH]; intros s s'; cbn; [done|]. destruct r as [fd| | | |]; try done.
      - destruct (_ <=? _); [intros Ha; by apply IH in Ha|]. destruct (sv_pool s); cbn; [|done].
        intros Ha. apply bind_ok in Ha as ([i p] & _ & [= <-]). done.
      - apply IH.
      - by intros [= <-].
      - apply IH. }
    by rewrite (Hg _ _ _ Ha).
  - intros Ha. destruct (sv_pool s) as [p|] eqn:Hp; [|done]. cbn [of_option mbind res_bind] in Ha.
    apply bind_ok in Ha as ([i p'] & Hg & [= <-]). split; [done|]. split; [|done].
    apply get_thread_lookup in Hg as [Hi Hq]. unfold waiting. rewrite Hp. cbn [sv_pool sv_set_pool].
    rewrite send_to_waiting by done. by rewrite Hq.
Qed.
End tcp_server.

(** ** A small server *)

Module ServerDemo.
#[local] Existing Instance epoll_map.
#[local] Existing Instance efd_counter.

(** At most one connection, two threads: a table of 10 entries. *)
Definition server : res (tcp_server (V := Z) (TF := unit) (K := gmap Z Z) (S := unit)) :=
  tcp_server_new (Some 3) true true 1 2 1 (PoolDemo.evfds 2) (event_loop_new ∅) buf_pool_init tt.

(** The first worker's queue after [n] connections on descriptors 7, 8, ... and the
    worker that starts on them. *)
Definition deal_after (n : nat) : res (list (Z * Z)) :=
  s ← server;
  s ← accept_many n 7 s;
  p ← of_option Uninit (sv_pool s);
  q ← of_option OutOfBounds (tp_queues p !! 0%nat);
  '(_, w) ← worker_deal None q (Worker (event_loop_new ∅) (sv_env s) (sv_bufs s) []);
  Ok (wk_conns w).

(** With maxConn = 1 three connections that arrive before a worker runs are all
    accepted and set up, and a fourth one makes the worker write past the end of
    the connection table. *)
Theorem accept_overruns_table :
  deal_after 3 = Ok [(7, 7); (8, 8); (9, 9)] /\ deal_after 4 = Err OutOfBounds.
Proof. split; vm_compute; reflexivity. Qed.

Lemma accept_outcome_witness : exists s s', server = Ok s /\ do_accept [AcceptOk 7] s = Ok s' /\
  waiting s' ≡ₚ NewConn 7 :: waiting s.
Proof.
  destruct server as [s|f] eqn:Hs; [|vm_compute in Hs; discriminate].
  destruct (do_accept [AcceptOk 7] s) as [s'|f] eqn:Ha.
  - exists s, s'. split; [reflexivity|]. split; [exact Ha|]. destruct (accept_outcome 7 [] s s' Ha) as [_ Hw].
    vm_compute in Hs. injection Hs as <-. apply Hw.
  - exfalso. vm_compute in Hs. injection Hs as <-. vm_compute in Ha. discriminate.
Defined.
End ServerDemo.
