(* ===== verification/Text.v ===== *)
(** * Text: numbers in decimal, as the services read and print them

    [atoi], [strtol], the extraction of integers from streams, and the conversions
    of [printf], on strings of characters. *)

From S2P Require Import Prelude.
From stdpp Require Import base numbers list strings.
From Stdlib Require Import ZArith Lia Ascii.
Open Scope Z_scope.

Abbreviation text := (list ascii).
Definition str (s : string) : text := String.list_ascii_of_string s.

(** ** atoi

    [strtol] to 64 bits, saturating, then the conversion to [int], as in glibc. *)

Definition is_space (c : ascii) : bool :=
  let n := N_of_ascii c in (N.eqb n 32 || (N.leb 9 n && N.leb n 13))%bool.

Definition digit_of (c : ascii) : option Z :=
  let n := Z.of_N (N_of_ascii c) in if (48 <=? n) && (n <=? 57) then Some (n - 48) else None.

Fixpoint skip_spaces (s : list ascii) : list ascii :=
  match s with c :: s' => if is_space c then skip_spaces s' else s | [] => [] end.

Fixpoint read_digits (acc : Z) (s : list ascii) : Z :=
  match s with
  | c :: s => match digit_of c with Some d => read_digits (10 * acc + d) s | None => acc end
  | [] => acc
  end.

Definition clamp_long (z : Z) : Z := Z.max (- 2 ^ 63) (Z.min (2 ^ 63 - 1) z).

Definition strtol (s : list ascii) : Z :=
  match skip_spaces s with
  | c :: s' =>
      if (N.eqb (N_of_ascii c) 45) then clamp_long (- read_digits 0 s')
      else if (N.eqb (N_of_ascii c) 43) then clamp_long (read_digits 0 s')
      else clamp_long (read_digits 0 (c :: s'))
  | [] => 0
  end.

Definition atoi (s : string) : Z := i32 (strtol (String.list_ascii_of_string s)).

(** The decimal digits of a number, as the database sends them. *)
Fixpoint digits_fuel (fuel : nat) (z : Z) (acc : list ascii) : list ascii :=
  match fuel with
  | O => acc
  | S fuel =>
      let acc := ascii_of_N (Z.to_N (48 + z mod 10)) :: acc in
      if z / 10 =? 0 then acc else digits_fuel fuel (z / 10) acc
  end.
Definition decimal (z : Z) : string := String.string_of_list_ascii (digits_fuel 20 z []).

Lemma digit_of_digit d : 0 <= d < 10 -> digit_of (ascii_of_N (Z.to_N (48 + d))) = Some d /\
  is_space (ascii_of_N (Z.to_N (48 + d))) = false /\ N.eqb (N_of_ascii (ascii_of_N (Z.to_N (48 + d)))) 45 = false /\
  N.eqb (N_of_ascii (ascii_of_N (Z.to_N (48 + d)))) 43 = false.
Proof.
  intros Hd. assert (d = 0 \/ d = 1 \/ d = 2 \/ d = 3 \/ d = 4 \/ d = 5 \/ d = 6 \/ d = 7 \/ d = 8 \/ d = 9) as Hc by lia.
  repeat (destruct Hc as [->|Hc]); try (subst; by vm_compute).
Qed.

Lemma read_digits_fuel fuel z acc a :
  0 <= z < 10 ^ Z.of_nat fuel -> (0 < fuel)%nat ->
  exists n, 0 <= n /\ 10 ^ n > z /\ read_digits a (digits_fuel fuel z acc) = read_digits (a * 10 ^ n + z) acc.
Proof.
  revert z acc a. induction fuel as [|fuel IH]; intros z acc a Hz Hf; [lia|]. cbn [digits_fuel].
  pose proof (Z.mod_pos_bound z 10) as Hm. pose proof (Z.div_mod z 10) as Hdm.
  destruct (digit_of_digit (z mod 10)) as (Hd & _); [lia|].
  destruct (Z.eqb_spec (z / 10) 0) as [H0|H0].
  - exists 1. split; [lia|]. split; [lia|]. cbn [read_digits]. rewrite Hd. f_equal. lia.
  - assert (0 < fuel)%nat as Hf'.
    { destruct fuel; [|lia]. change (10 ^ Z.of_nat 1) with 10 in Hz. rewrite Z.div_small in H0 by lia. done. }
    rewrite Nat2Z.inj_succ, Z.pow_succ_r in Hz by lia.
    destruct (IH (z / 10) (ascii_of_N (Z.to_N (48 + z mod 10)) :: acc) a) as (n & Hn & Hp & Heq).
    + split; [apply Z.div_pos; lia|]. apply Z.div_lt_upper_bound; lia.
    + done.
    + exists (n + 1). split; [lia|]. rewrite Z.pow_add_r by lia. split; [lia|].
      rewrite Heq. cbn [read_digits]. rewrite Hd. f_equal. lia.
Qed.

Lemma digits_head fuel z acc :
  0 <= z -> (0 < fuel)%nat -> exists d rest, 0 <= d < 10 /\ digits_fuel fuel z acc = ascii_of_N (Z.to_N (48 + d)) :: rest.
Proof.
  revert z acc. induction fuel as [|fuel IH]; intros z acc Hz Hf; [lia|]. cbn [digits_fuel].
  pose proof (Z.mod_pos_bound z 10) as Hm. destruct (Z.eqb_spec (z / 10) 0); [exists (z mod 10), acc; split; [lia|done]|].
  destruct fuel; [exists (z mod 10), acc; split; [lia|done]|]. apply IH; [apply Z.div_pos; lia|lia].
Qed.

(** Reading back what [printf] or the database printed. *)
Lemma strtol_decimal z : 0 <= z < 2 ^ 63 -> strtol (String.list_ascii_of_string (decimal z)) = z.
Proof.
  intros Hz. unfold decimal. rewrite String.list_ascii_of_string_of_list_ascii. unfold strtol.
  destruct (digits_head 20 z []) as (d & rest & Hd & Heq); [lia|lia|].
  destruct (digit_of_digit d Hd) as (_ & Hsp & H45 & H43).
  rewrite Heq. cbn [skip_spaces]. rewrite Hsp, H45, H43, <-Heq.
  destruct (read_digits_fuel 20 z [] 0) as (n & _ & _ & ->); [lia|lia|]. cbn [read_digits].
  unfold clamp_long. lia.
Qed.

(** For an unsigned number above the range of [int] the low 32 bits are kept. *)
Lemma atoi_decimal z : 0 <= z < 2 ^ 63 -> atoi (decimal z) = i32 z.
Proof. intros Hz. unfold atoi. by rewrite strtol_decimal. Qed.


Lemma digits_fuel_length fuel z acc : (length (digits_fuel fuel z acc) <= fuel + length acc)%nat.
Proof.
  revert z acc. induction fuel as [|fuel IH]; intros z acc; cbn [digits_fuel]; [lia|].
  destruct (_ =? 0); cbn; [lia|]. specialize (IH (z / 10) (ascii_of_N (Z.to_N (48 + z mod 10)) :: acc)). cbn in IH. lia.
Qed.

Lemma decimal_length z : (length (String.list_ascii_of_string (decimal z)) <= 20)%nat.
Proof.
  unfold decimal. rewrite String.list_ascii_of_string_of_list_ascii. pose proof (digits_fuel_length 20 z []). cbn in *. lia.
Qed.
