(* ===== verification/DnsRoute.v ===== *)
(** * DnsRoute: the route table of the dns service (lars_dns, dns_route.cpp)

    Two maps from module keys to sets of host keys, a pointer that says which of
    them readers use, and the version of the data.  The answers of the MySQL
    queries are arguments: [None] for a failed query, else the rows, each a list
    of fields as the client library gives them. *)

From S2P Require Import Prelude Keys Text.
From stdpp Require Import base numbers list gmap fin_maps strings.
From Stdlib Require Import ZArith Lia.
Open Scope Z_scope.

(** ** class Route *)

Abbreviation host_set := (gset Z).
Abbreviation route_map := (gmap Z host_set).

(** A row of a result: its fields, null when the column is. *)
Abbreviation row := (list (option string)).

Record Route := RouteObj {
  rt_map_a : route_map;
  rt_map_b : route_map;
  rt_swapped : bool;        (* _data_pointer is b, _temp_pointer is a *)
  rt_version : Z
}.

Definition data_map (r : Route) : route_map := if rt_swapped r then rt_map_b r else rt_map_a r.
Definition temp_map (r : Route) : route_map := if rt_swapped r then rt_map_a r else rt_map_b r.
Definition set_data (m : route_map) (r : Route) : Route :=
  if rt_swapped r then RouteObj (rt_map_a r) m true (rt_version r) else RouteObj m (rt_map_b r) false (rt_version r).
Definition set_temp (m : route_map) (r : Route) : Route :=
  if rt_swapped r then RouteObj m (rt_map_b r) true (rt_version r) else RouteObj (rt_map_a r) m false (rt_version r).

(** [atoi(row[i])]: a column that is missing or null is a null pointer. *)
Definition field (i : nat) (r : row) : res Z := s ← of_option NullDeref (r !! i ≫= id); Ok (atoi s).

(** [map[key].insert(value)] *)
Definition insert_host (key value : Z) (m : route_map) : route_map := <[key := {[value]} ∪ m !!! key]> m.

(** Module key and host key of a row of RouteData. *)
Definition row_keys (r : row) : res (Z * Z) :=
  modID ← field 1 r;
  cmdID ← field 2 r;
  ip ← field 3 r;
  port ← field 4 r;
  Ok (pack_key modID cmdID, pack_key (u32 ip) port).

(** The body of the loops of [build_maps] and [load_route_data]. *)
Definition load_row (m : route_map) (r : row) : res route_map :=
  '(key, value) ← row_keys r;
  Ok (insert_host key value m).

(** [void build_maps()] *)
Definition build_maps (rows : option (list row)) (r : Route) : res Route :=
  rows ← of_option ExitFailure rows;
  m ← foldM load_row (data_map r) rows;
  Ok (set_data m r).

(** [Route()], connected or not *)
Definition Route_new (connected : bool) (rows : option (list row)) : res Route :=
  ensure connected or ExitFailure;
  build_maps rows (RouteObj ∅ ∅ false 0).

(** [void load_route_data()] *)
Definition load_route_data (rows : option (list row)) (r : Route) : res Route :=
  let r := set_temp ∅ r in
  rows ← of_option ExitFailure rows;
  m ← foldM load_row (temp_map r) rows;
  Ok (set_temp m r).

(** [host_set get_hosts(int modid, int cmdid)] *)
Definition get_hosts (modid cmdid : Z) (r : Route) : host_set :=
  match data_map r !! pack_key modid cmdid with
  | Some hosts => hosts
  | None => ∅
  end.

(** [void swap()] *)
Definition swap (r : Route) : Route := RouteObj (rt_map_a r) (rt_map_b r) (negb (rt_swapped r)) (rt_version r).

(** [int load_version()] *)
Definition load_version (rows : option (list row)) (r : Route) : res (Z * Route) :=
  rows ← of_option ExitFailure rows;
  match rows with
  | [] => Ok (-1, r)
  | row :: _ =>
      new_version ← field 0 row;
      if new_version =? rt_version r then Ok (0, r)
      else Ok (1, RouteObj (rt_map_a r) (rt_map_b r) (rt_swapped r) new_version)
  end.

(** [void load_changes(std::vector<uint64_t> &change_list)]; the query asks for the
    changes from version [rt_version r] on. *)
Definition load_changes (query : Z -> option (list row)) (change_list : list Z) (r : Route) : res (list Z) :=
  rows ← of_option ExitFailure (query (rt_version r));
  foldM (fun l row => modid ← field 0 row; cmdid ← field 1 row; Ok (l ++ [pack_key modid cmdid])) change_list rows.

(** ** What a table contains *)

(** The hosts a list of rows gives a module key. *)
Definition table_hosts (key : Z) (rows : list row) : host_set :=
  list_to_set (omap (fun r => match row_keys r with Ok (k, v) => if decide (k = key) then Some v else None | Err _ => None end) rows).

Lemma load_rows_spec rows m m' key :
  foldM load_row m rows = Ok m' -> m' !!! key = m !!! key ∪ table_hosts key rows.
Proof.
  revert m. induction rows as [|r rows IH]; intros m Hf; cbn [foldM] in Hf.
  { injection Hf as <-. unfold table_hosts. cbn. set_solver. }
  apply bind_ok in Hf as (m1 & H1 & Hf). apply IH in Hf. rewrite Hf. unfold load_row in H1.
  apply bind_ok in H1 as ([k v] & Hr & [= <-]). unfold table_hosts. cbn [omap list_omap]. rewrite Hr.
  unfold insert_host. destruct (decide (k = key)) as [->|Hne].
  - rewrite lookup_total_insert_eq. cbn. set_solver.
  - by rewrite lookup_total_insert_ne.
Qed.

Lemma get_hosts_total modid cmdid r : get_hosts modid cmdid r = data_map r !!! pack_key modid cmdid.
Proof. unfold get_hosts. rewrite lookup_total_alt. by destruct (_ !! _). Qed.

(** Rows as the database sends them. *)
Definition db_row (id modid cmdid ip port : Z) : row := Some <$> [decimal id; decimal modid; decimal cmdid; decimal ip; decimal port].

Lemma row_keys_db id modid cmdid ip port :
  0 <= modid < 2 ^ 31 -> 0 <= cmdid < 2 ^ 31 -> is_u32 ip -> 0 <= port < 2 ^ 31 ->
  row_keys (db_row id modid cmdid ip port) = Ok (pack_key modid cmdid, pack_key ip port).
Proof.
  intros H1 H2 H3 H4. unfold is_u32 in H3. unfold row_keys, field. cbn -[atoi decimal pack_key u32].
  rewrite !atoi_decimal by lia. rewrite u32_i32, u32_id, !i32_id by (unfold is_i32, is_u32; lia). done.
Qed.

(** ** Properties *)

(** C25: Reloading replaces the table: after [load_route_data] and [swap] every module
    has exactly the hosts the database rows give it, with nothing of the old
    table left; and any number of rows into the loading, readers still get the
    old table. *)
Theorem reload_is_atomic rows n r r1 r2 modid cmdid :
  load_route_data (Some (take n rows)) r = Ok r1 -> load_route_data (Some rows) r = Ok r2 ->
  get_hosts modid cmdid r1 = get_hosts modid cmdid r /\
  get_hosts modid cmdid (swap r2) = table_hosts (pack_key modid cmdid) rows /\
  rt_version (swap r2) = rt_version r.
Proof.
  intros H1 H2. unfold load_route_data in H1, H2. cbn [of_option mbind res_bind] in H1, H2.
  apply bind_ok in H1 as (m1 & _ & [= <-]). apply bind_ok in H2 as (m2 & H2 & [= <-]).
  split; [|split].
  - unfold get_hosts. by destruct r as [a b [] v].
  - rewrite get_hosts_total. apply (load_rows_spec _ _ _ (pack_key modid cmdid)) in H2.
    assert (data_map (swap (set_temp m2 (set_temp ∅ r))) = m2) as -> by (by destruct r as [a b [] v]).
    rewrite H2. assert (temp_map (set_temp ∅ r) = ∅) as -> by (by destruct r as [a b [] v]).
    rewrite lookup_total_empty. set_solver.
  - by destruct r as [a b [] v].
Qed.

(** A table of four hosts in two modules. *)
Definition rows0 : list row :=
  [db_row 1 1 1 3232235953 7777; db_row 2 1 2 3232235954 7776; db_row 3 1 2 3232235955 7778; db_row 4 1 2 3232235956 7779].

Lemma reload_is_atomic_witness : exists r2, load_route_data (Some rows0) (RouteObj ∅ ∅ false 3) = Ok r2 /\
  get_hosts 1 1 (swap r2) = {[pack_key 3232235953 7777]}.
Proof.
  destruct (load_route_data (Some rows0) (RouteObj ∅ ∅ false 3)) as [r2|f] eqn:H2; [|vm_compute in H2; discriminate].
  destruct (load_route_data (Some (take 2 rows0)) (RouteObj ∅ ∅ false 3)) as [r1|f] eqn:H1; [|vm_compute in H1; discriminate].
  exists r2. split; [reflexivity|].
  destruct (reload_is_atomic rows0 2 (RouteObj ∅ ∅ false 3) r1 r2 1 1 H1 H2) as (_ & Hg & _).
  rewrite Hg. vm_compute. reflexivity.
Defined.
