(* ===== verification/Subscribe.v ===== *)
(** * Subscribe: who is told about changed modules (lars_dns, subscribe.cpp)

    [_book_list] maps a module to the descriptors that subscribed to it,
    [_push_list] a descriptor to the modules it has to be told about.  Every
    operation under a lock is a step; [push_change_task] runs on each worker in
    two parts, because it takes the lock only for the first. *)

From S2P Require Import Prelude Keys Proto DnsRoute.
From stdpp Require Import base numbers list gmap fin_maps.
From Stdlib Require Import ZArith Lia.
Open Scope Z_scope.

(** The iteration order of a [hash_set]: any enumeration. *)
Definition hs_elements `{HashOrder} (s : gset Z) : list Z := (hm_elements (gset_to_gmap tt s)).*1.

Lemma hs_elements_perm `{HashOrder} s : hs_elements s ≡ₚ elements s.
Proof.
  unfold hs_elements. rewrite hm_elements_perm. apply NoDup_Permutation.
  - apply NoDup_fst_map_to_list.
  - apply NoDup_elements.
  - intros x. rewrite elem_of_elements, list_elem_of_fmap. split.
    + intros ([k []] & -> & Hk%elem_of_map_to_list). by apply lookup_gset_to_gmap_Some in Hk as [? _].
    + intros Hx. exists (x, tt). split; [done|]. apply elem_of_map_to_list. by apply lookup_gset_to_gmap_Some.
Qed.

Lemma elem_of_hs_elements `{HashOrder} s x : x ∈ hs_elements s <-> x ∈ s.
Proof. by rewrite hs_elements_perm, elem_of_elements. Qed.

Abbreviation subscribe_map := (gmap Z (gset Z)).
Abbreviation publish_map := (gmap Z (gset Z)).

Record SubscribeList := SubList {
  sl_book : subscribe_map;    (* _book_list *)
  sl_push : publish_map       (* _push_list *)
}.
Definition SubscribeList_new : SubscribeList := SubList ∅ ∅.

(** [void subscribe(uint64_t mod, int fd)] *)
Definition subscribe (mod_ fd : Z) (s : SubscribeList) : SubscribeList :=
  SubList (<[mod_ := {[fd]} ∪ sl_book s !!! mod_]> (sl_book s)) (sl_push s).

(** [void unsubscribe(uint64_t mod, int fd)] *)
Definition unsubscribe (mod_ fd : Z) (s : SubscribeList) : SubscribeList :=
  match sl_book s !! mod_ with
  | None => s
  | Some fds =>
      let fds := fds ∖ {[fd]} in
      if decide (fds = ∅) then SubList (delete mod_ (sl_book s)) (sl_push s)
      else SubList (<[mod_ := fds]> (sl_book s)) (sl_push s)
  end.

Section publishing.
Context `{HashOrder}.

(** [_push_list[fd].insert(mod)] *)
Definition push_insert (mod_ : Z) (push : publish_map) (fd : Z) : publish_map :=
  <[fd := {[mod_]} ∪ push !!! fd]> push.

(** The part of [publish] under the locks. *)
Definition publish_mod (book : subscribe_map) (push : publish_map) (mod_ : Z) : publish_map :=
  match book !! mod_ with
  | None => push
  | Some fds => fold_left (push_insert mod_) (hs_elements fds) push
  end.
Definition publish (change_mods : list Z) (s : SubscribeList) : SubscribeList :=
  SubList (sl_book s) (fold_left (publish_mod (sl_book s)) change_mods (sl_push s)).

(** [void make_publish_map(listen_fd_set &online_fds, publish_map &need_publish)] with
    an empty [need_publish]. *)
Definition make_publish_map (online_fds : gset Z) (s : SubscribeList) : publish_map :=
  filter (fun x => x.1 ∈ online_fds /\ x.2 <> ∅) (sl_push s).

(** What a worker can reach: the subscriptions, the route table, the table of
    connections, and the messages its connections were given to send. *)
Record dns_world := DnsWorld {
  dw_sub : SubscribeList;
  dw_route : Route;
  dw_conns : gmap Z (option Z);
  dw_sent : list (Z * GetRouteResponse)
}.

(** A host key as the [HostInfo] of a response. *)
Definition host_of (ip_port : Z) : HostInfo := {| hi_ip := i32 (key_hi_u32 ip_port); hi_port := i32 (key_lo_u32 ip_port) |}.

(** The response about a module: its hosts in the order of the hash set. *)
Definition route_response (modid cmdid : Z) (r : Route) : GetRouteResponse :=
  {| grs_modid := modid; grs_cmdid := cmdid; grs_host := host_of <$> hs_elements (get_hosts modid cmdid r) |}.

(** The body of the loops of [push_change_task], for one module of one descriptor. *)
Definition push_one (fd : Z) (w : dns_world) (mod_ : Z) : res dns_world :=
  let modid := key_hi_int mod_ in
  let cmdid := key_lo_int mod_ in
  let rsp := route_response modid cmdid (dw_route w) in
  conn ← of_option Uninit (dw_conns w !! fd);
  let sent := match conn with Some _ => dw_sent w ++ [(fd, rsp)] | None => dw_sent w end in
  Ok (DnsWorld (SubList (sl_book (dw_sub w)) (delete fd (sl_push (dw_sub w)))) (dw_route w) (dw_conns w) sent).

Definition push_fd (w : dns_world) (x : Z * gset Z) : res dns_world :=
  foldM (push_one x.1) w (hs_elements x.2).

Definition push_all (need_publish : publish_map) (w : dns_world) : res dns_world :=
  foldM push_fd w (hm_elements need_publish).

(** [void push_change_task(event_loop *loop, void *args)] when nothing intervenes *)
Definition push_change_task (online_fds : gset Z) (w : dns_world) : res dns_world :=
  push_all (make_publish_map online_fds (dw_sub w)) w.

(** ** Lemmas *)

Lemma push_insert_all mod_ fds push fd m :
  m ∈ fold_left (push_insert mod_) fds push !!! fd <-> m ∈ push !!! fd \/ (m = mod_ /\ fd ∈ fds).
Proof.
  revert push. induction fds as [|f fds IH]; intros push; cbn [fold_left]; [set_solver|].
  rewrite IH. unfold push_insert. destruct (decide (f = fd)) as [->|Hne].
  - rewrite lookup_total_insert_eq. set_solver.
  - rewrite lookup_total_insert_ne by done. set_solver.
Qed.

Lemma publish_push changes s fd m :
  m ∈ sl_push (publish changes s) !!! fd <-> m ∈ sl_push s !!! fd \/ (m ∈ changes /\ fd ∈ sl_book s !!! m).
Proof.
  unfold publish. cbn. generalize (sl_push s) as push. induction changes as [|c changes IH]; intros push; cbn [fold_left].
  - set_solver.
  - rewrite IH. unfold publish_mod. destruct (sl_book s !! c) as [fds|] eqn:Hb.
    + rewrite push_insert_all, elem_of_hs_elements, elem_of_cons.
      assert (sl_book s !!! c = fds) as Hc by (by rewrite lookup_total_alt, Hb).
      split; [intros [[?|[-> ?]]|[? ?]]|intros [?|[[->|?] ?]]]; rewrite ?Hc in *; tauto.
    + assert (sl_book s !!! c = ∅) as Hc by (by rewrite lookup_total_alt, Hb). rewrite elem_of_cons.
      split; [tauto|]. intros [?|[[->|?] Hin]]; [tauto| |tauto]. rewrite Hc in Hin. set_solver.
Qed.

(** What one descriptor is sent. *)
Definition push_messages (r : Route) (conns : gmap Z (option Z)) (x : Z * gset Z) : list (Z * GetRouteResponse) :=
  match conns !! x.1 with
  | Some (Some _) => (fun m => (x.1, route_response (key_hi_int m) (key_lo_int m) r)) <$> hs_elements x.2
  | _ => []
  end.

Definition same_tables (w w' : dns_world) : Prop :=
  dw_route w' = dw_route w /\ dw_conns w' = dw_conns w /\ sl_book (dw_sub w') = sl_book (dw_sub w).

Lemma push_fd_spec w x :
  is_Some (dw_conns w !! x.1) -> x.2 <> ∅ ->
  exists w', push_fd w x = Ok w' /\ same_tables w w' /\
    dw_sent w' = dw_sent w ++ push_messages (dw_route w) (dw_conns w) x /\
    sl_push (dw_sub w') = delete x.1 (sl_push (dw_sub w)).
Proof.
  destruct x as [fd mods]. cbn [fst snd]. intros [c Hc] Hne. unfold push_fd, push_messages. cbn [fst snd]. rewrite Hc.
  set (msg := fun m => (fd, route_response (key_hi_int m) (key_lo_int m) (dw_route w))).
  set (step := fun w m => DnsWorld (SubList (sl_book (dw_sub w)) (delete fd (sl_push (dw_sub w)))) (dw_route w) (dw_conns w)
    (match c with Some _ => dw_sent w ++ [(fd, route_response (key_hi_int m) (key_lo_int m) (dw_route w))] | None => dw_sent w end)).
  assert (forall l w1, dw_conns w1 !! fd = Some c -> dw_route w1 = dw_route w ->
    exists w', foldM (push_one fd) w1 l = Ok w' /\ same_tables w1 w' /\
      dw_sent w' = dw_sent w1 ++ (match c with Some _ => msg <$> l | None => [] end) /\
      sl_push (dw_sub w') = (match l with [] => sl_push (dw_sub w1) | _ => delete fd (sl_push (dw_sub w1)) end)) as Hg.
  { induction l as [|m l IH]; intros w1 Hc1 Hr1; cbn [foldM].
    - exists w1. split; [done|]. split; [done|]. destruct c; cbn; rewrite app_nil_r; done.
    - assert (push_one fd w1 m = Ok (step w1 m)) as -> by (unfold push_one; rewrite Hc1; by destruct c).
      cbn [mbind res_bind]. destruct (IH (step w1 m) Hc1 Hr1) as (w' & -> & (Hr & Hcs & Hb) & Hs & Hp).
      exists w'. split; [done|]. split; [done|]. split.
      + rewrite Hs. unfold step, msg. cbn [dw_sent]. rewrite <-Hr1. destruct c; [by rewrite <-app_assoc|done].
      + rewrite Hp. destruct l; [done|]. apply delete_delete_eq. }
  destruct (Hg (hs_elements mods) w Hc eq_refl) as (w' & Hf & Hsame & Hs & Hp).
  exists w'. split; [done|]. split; [done|]. split; [rewrite Hs; by destruct c|].
  rewrite Hp. destruct (hs_elements mods) eqn:E; [|done]. destruct Hne. apply set_eq. intros m.
  rewrite <-elem_of_hs_elements, E. set_solver.
Qed.

(** A whole publication by one worker. *)
Lemma push_all_spec l w :
  Forall (fun x => is_Some (dw_conns w !! x.1) /\ x.2 <> ∅) l ->
  exists w', foldM push_fd w l = Ok w' /\ same_tables w w' /\
    dw_sent w' = dw_sent w ++ concat (push_messages (dw_route w) (dw_conns w) <$> l) /\
    sl_push (dw_sub w') = fold_left (fun m x => delete x.1 m) l (sl_push (dw_sub w)).
Proof.
  intros Hl. assert (forall w1, same_tables w w1 ->
    exists w', foldM push_fd w1 l = Ok w' /\ same_tables w w' /\
      dw_sent w' = dw_sent w1 ++ concat (push_messages (dw_route w) (dw_conns w) <$> l) /\
      sl_push (dw_sub w') = fold_left (fun m x => delete x.1 m) l (sl_push (dw_sub w1))) as Hg; [|by apply Hg].
  induction Hl as [|x l [Hc Hne] Hl IH]; intros w1 Hs1; cbn [foldM].
  - exists w1. cbn. by rewrite app_nil_r.
  - destruct Hs1 as (Hr1 & Hc1 & Hb1).
    destruct (push_fd_spec w1 x) as (w2 & -> & (Hr2 & Hc2 & Hb2) & Hs2 & Hp2); [by rewrite Hc1|done|].
    cbn [mbind res_bind]. destruct (IH w2) as (w3 & -> & Hs3 & Hsent & Hp3); [repeat split; congruence|].
    exists w3. split; [done|]. split; [done|]. split.
    + rewrite Hsent, Hs2, Hr1, Hc1. cbn. by rewrite <-app_assoc.
    + rewrite Hp3, Hp2. done.
Qed.

Lemma fold_delete_lookup {V} (l : list (Z * V)) (m : publish_map) fd :
  fold_left (fun m x => delete x.1 m) l m !! fd = (if decide (fd ∈ l.*1) then None else m !! fd).
Proof.
  revert m. induction l as [|x l IH]; intros m; cbn [fold_left]; [done|]. rewrite IH.
  destruct (decide (fd ∈ l.*1)) as [Hin|Hin].
  - rewrite decide_True; [done|]. cbn. by right.
  - destruct (decide (fd = x.1)) as [->|Hne].
    + rewrite decide_True by (by left). apply lookup_delete_eq.
    + rewrite decide_False; [by apply lookup_delete_ne|]. cbn. set_solver.
Qed.

Lemma hm_elements_keys {V} (m : gmap Z V) fd : fd ∈ (hm_elements m).*1 <-> is_Some (m !! fd).
Proof.
  rewrite list_elem_of_fmap. split.
  - intros ([k v] & -> & Hk). rewrite hm_elements_perm in Hk. apply elem_of_map_to_list in Hk. by exists v.
  - intros [v Hv]. exists (fd, v). split; [done|]. rewrite hm_elements_perm. by apply elem_of_map_to_list.
Qed.

(** Every descriptor to push to is in the connection table: what [increase_conn]
    established when it connected. *)
Definition connected (w : dns_world) (m : publish_map) : Prop :=
  map_Forall (fun fd _ => is_Some (dw_conns w !! fd)) m.

Lemma need_forall w need :
  connected w need -> map_Forall (fun _ mods => mods <> ∅) need ->
  Forall (fun x => is_Some (dw_conns w !! x.1) /\ x.2 <> ∅) (hm_elements need).
Proof.
  intros Hc Hn. rewrite hm_elements_perm. apply Forall_forall. intros [fd mods] Hin%elem_of_map_to_list. cbn.
  split; [by eapply Hc|by eapply Hn].
Qed.

(** ** Properties *)

(** C22: A published change reaches every subscriber that is online, once: the worker
    sends each of its descriptors one response per module it is due, with the
    module's current hosts, and nothing stays due for them; the modules due are
    those due before and those of the publication that the descriptor has
    subscribed to. *)
Theorem publish_reaches_subscribers changes online w :
  let w1 := DnsWorld (publish changes (dw_sub w)) (dw_route w) (dw_conns w) (dw_sent w) in
  let due := make_publish_map online (dw_sub w1) in
  connected w due ->
  (forall fd m, fd ∈ online -> m ∈ due !!! fd <-> m ∈ sl_push (dw_sub w) !!! fd \/ (m ∈ changes /\ fd ∈ sl_book (dw_sub w) !!! m)) /\
  exists w', push_change_task online w1 = Ok w' /\
    dw_sent w' ≡ₚ dw_sent w ++ concat (push_messages (dw_route w) (dw_conns w) <$> map_to_list due) /\
    (forall fd, fd ∈ online -> sl_push (dw_sub w') !!! fd = ∅) /\
    (forall fd, fd ∉ online -> sl_push (dw_sub w') !! fd = sl_push (dw_sub w1) !! fd).
Proof.
  intros w1 due Hc. split.
  - intros fd m Hon. rewrite <-publish_push. change (publish changes (dw_sub w)) with (dw_sub w1).
    unfold due, make_publish_map. rewrite !lookup_total_alt.
    destruct (sl_push (dw_sub w1) !! fd) as [mods|] eqn:Hm.
    + destruct (decide (mods = ∅)) as [->|Hne].
      * assert (filter (fun x : Z * gset Z => x.1 ∈ online /\ x.2 <> ∅) (sl_push (dw_sub w1)) !! fd = None) as ->; [|done].
        apply map_lookup_filter_None. right. intros x Hx. rewrite Hm in Hx. injection Hx as <-. cbn. tauto.
      * assert (filter (fun x : Z * gset Z => x.1 ∈ online /\ x.2 <> ∅) (sl_push (dw_sub w1)) !! fd = Some mods) as ->; [|done].
        apply map_lookup_filter_Some. done.
    + assert (filter (fun x : Z * gset Z => x.1 ∈ online /\ x.2 <> ∅) (sl_push (dw_sub w1)) !! fd = None) as ->; [|done].
      apply map_lookup_filter_None. by left.
  - unfold push_change_task. fold due. unfold push_all.
    destruct (push_all_spec (hm_elements due) w1) as (w' & -> & _ & Hs & Hp).
    { apply need_forall; [exact Hc|]. intros fd mods Hf. by apply map_lookup_filter_Some in Hf as [_ [_ ?]]. }
    exists w'. split; [done|]. split; [rewrite Hs, hm_elements_perm; done|].
    assert (forall fd, sl_push (dw_sub w') !! fd = if decide (is_Some (due !! fd)) then None else sl_push (dw_sub w1) !! fd) as Hl.
    { intros fd. rewrite Hp, fold_delete_lookup. pose proof (hm_elements_keys due fd).
      destruct (decide (fd ∈ _)), (decide (is_Some _)); tauto || done. }
    split; intros fd Hon.
    + rewrite lookup_total_alt, Hl. destruct (decide _) as [|Hn]; [done|].
      destruct (sl_push (dw_sub w1) !! fd) as [mods|] eqn:Hm; [|done]. cbn.
      destruct (decide (mods = ∅)) as [|Hne]; [done|]. destruct Hn. exists mods. by apply map_lookup_filter_Some.
    + rewrite Hl, decide_False; [done|]. intros [mods Hm]. by apply map_lookup_filter_Some in Hm as [_ [? _]].
Qed.

(** A change published while a worker is sending is lost for the descriptors it
    is serving: the worker removes their whole entry, not the modules it has
    sent, so what was added in between is neither sent nor due any more. *)
Theorem publish_during_push_is_lost changes online w :
  let due := make_publish_map online (dw_sub w) in
  let w1 := DnsWorld (publish changes (dw_sub w)) (dw_route w) (dw_conns w) (dw_sent w) in
  connected w due ->
  exists w', push_all due w1 = Ok w' /\
    dw_sent w' ≡ₚ dw_sent w ++ concat (push_messages (dw_route w) (dw_conns w) <$> map_to_list due) /\
    forall fd m, is_Some (due !! fd) -> m ∈ changes -> fd ∈ sl_book (dw_sub w) !!! m ->
      m ∈ sl_push (dw_sub w1) !!! fd /\ sl_push (dw_sub w') !! fd = None.
Proof.
  intros due w1 Hc. unfold push_all. destruct (push_all_spec (hm_elements due) w1) as (w' & -> & _ & Hs & Hp).
  { apply need_forall; [exact Hc|]. intros fd mods Hf. by apply map_lookup_filter_Some in Hf as [_ [_ ?]]. }
  exists w'. split; [done|]. split; [rewrite Hs, hm_elements_perm; done|].
  intros fd m Hd Hm Hb. split; [apply publish_push; by right|].
  rewrite Hp, fold_delete_lookup, decide_True; [done|]. by apply hm_elements_keys.
Qed.
End publishing.

(** ** A concrete service *)

Module SubDemo.
#[local] Instance demo_order : HashOrder := hash_order_list.

Definition route0 : Route :=
  match Route_new true (Some rows0) with Ok r => r | Err _ => RouteObj ∅ ∅ false 0 end.

(** Descriptor 7 has subscribed to (1,1) and (1,2). *)
Definition w0 : dns_world :=
  DnsWorld (subscribe (pack_key 1 1) 7 (subscribe (pack_key 1 2) 7 SubscribeList_new)) route0 {[7 := Some 70]} [].

Lemma publish_reaches_subscribers_witness : exists w',
  push_change_task {[7; 8]} (DnsWorld (publish [pack_key 1 1] (dw_sub w0)) route0 {[7 := Some 70]} []) = Ok w' /\
  dw_sent w' ≡ₚ [(7, {| grs_modid := 1; grs_cmdid := 1; grs_host := [{| hi_ip := i32 3232235953; hi_port := 7777 |}] |})].
Proof.
  destruct (publish_reaches_subscribers [pack_key 1 1] {[7; 8]} w0) as (_ & w' & Hp & Hs & _).
  - by apply (bool_decide_unpack _).
  - exists w'. split; [exact Hp|]. etransitivity; [exact Hs|]. vm_compute. reflexivity.
Defined.

(** (1,2) changes while the worker sends (1,1): it is not sent and not due. *)
Lemma publish_during_push_is_lost_witness : exists w',
  let w1 := DnsWorld (publish [pack_key 1 1] (dw_sub w0)) route0 {[7 := Some 70]} [] in
  push_all (make_publish_map {[7]} (dw_sub w1)) (DnsWorld (publish [pack_key 1 2] (dw_sub w1)) route0 {[7 := Some 70]} []) = Ok w' /\
  sl_push (dw_sub w') !! 7 = None.
Proof.
  set (w1 := DnsWorld (publish [pack_key 1 1] (dw_sub w0)) route0 {[7 := Some 70]} []).
  destruct (publish_during_push_is_lost [pack_key 1 2] {[7]} w1) as (w' & Hp & _ & Hl).
  - by apply (bool_decide_unpack _).
  - exists w'. split; [exact Hp|]. apply (Hl 7 (pack_key 1 2)).
    + vm_compute. by eexists.
    + by left.
    + by apply (bool_decide_unpack _).
Defined.
End SubDemo.
