(* ===== verification/DnsService.v ===== *)
(** * DnsService: the handlers of the dns service (lars_dns, dns_service.cpp) and its
    poll of the database (check_route_changes of dns_route.cpp)

    The handlers run on the connections of the reactor: [conn->param] is the set
    of modules a connection has subscribed to.  A service is the environment its
    connections share; [dns_step] is everything that happens to it. *)

From S2P Require Import Prelude Keys Proto Bytes Wire Messages EventLoop BufPool ReactorBuf Stream StreamSpec TcpConn Text DnsRoute Subscribe.
From stdpp Require Import base numbers list gmap fin_maps.
From Stdlib Require Import ZArith Lia.
Open Scope Z_scope.

(** What the callbacks of the service share; the parameters of the connections are
    kept by the connection object. *)
Record dns_app := DnsApp {
  da_sub : SubscribeList;
  da_route : Route;
  da_param : gmap Z (gset Z)     (* conn->param: client_sub_mod_list; no entry: NULL *)
}.

Section service.
Context {T K : Type} `{Epoll K} `{HashOrder} `{!Codec GetRouteRequest} `{!Codec GetRouteResponse}.

Abbreviation env := (server_env dns_app).
Abbreviation conn := (endpoint io_proc T Z K env).
Implicit Types e : conn.

Definition app_of (x : env) : dns_app := se_app x.
Definition set_app (a : dns_app) e : conn := set_env (ServerEnv (se_statics (e_env e)) a) e.

(** [lars::GetRouteResponse rsp] filled with the hosts, as the loop adds them. *)
Definition fill_hosts (hosts : list Z) (rsp : GetRouteResponse) : GetRouteResponse :=
  fold_left (fun rsp ip_port => grs_add_host (host_of ip_port) rsp) hosts rsp.

(** The subscription of a module the connection asks about for the first time. *)
Definition subscribe_first (mod_ : Z) e : conn :=
  let a := app_of (e_env e) in
  match da_param a !! e_self e with
  | None => e                                        (* "sub_list = NULL" *)
  | Some sub_list =>
      if decide (mod_ ∈ sub_list) then e
      else set_app (DnsApp (subscribe mod_ (e_fd e) (da_sub a)) (da_route a)
                     (<[e_self e := {[mod_]} ∪ sub_list]> (da_param a))) e
  end.

(** [void get_route(const char *data, uint32_t len, int msgid, net_connection *conn, void *user_data)] *)
Definition get_route (data : bytes) e : res conn :=
  req ← msg_decode data;
  let modid := grq_modid req in
  let cmdid := grq_cmdid req in
  let mod_ := pack_key modid cmdid in
  let e := subscribe_first mod_ e in
  let hosts := get_hosts modid cmdid (da_route (app_of (e_env e))) in
  let rsp := fill_hosts (hs_elements hosts) {| grs_modid := modid; grs_cmdid := cmdid; grs_host := [] |} in
  '(_, e) ← send_message (msg_encode rsp) ID_GetRouteResponse e;
  Ok e.

(** [void create_subscribe(net_connection *conn, void *args)] *)
Definition create_subscribe e : res conn :=
  let a := app_of (e_env e) in
  Ok (set_app (DnsApp (da_sub a) (da_route a) (<[e_self e := ∅]> (da_param a))) e).

(** [void clear_subscribe(net_connection *conn, void *args)] *)
Definition clear_subscribe e : res conn :=
  let a := app_of (e_env e) in
  sub_list ← of_option NullDeref (da_param a !! e_self e);
  let sub := fold_left (fun s mod_ => unsubscribe mod_ (e_fd e) s) (hs_elements sub_list) (da_sub a) in
  Ok (set_app (DnsApp sub (da_route a) (delete (e_self e) (da_param a))) e).

(** What main registers on the server, and so a connection's [do_read]. *)
Definition dns_router : msg_router unit unit := (register_msg_router ID_GetRouteRequest tt tt msg_router_new).2.
Definition dns_callback (_ : unit) (_ : option unit) (data : bytes) (_ : Z) e : res conn := get_route data e.
Definition dns_do_read (io : read_io) e : res conn := do_read (Some clear_subscribe) dns_router dns_callback io e.

(** ** The poll *)

(** One turn of the loop of [check_route_changes] after its [sleep(1)]: the time, and
    what the database answers to each query. *)
Record poll := Poll {
  po_time : Z;
  po_version : option (list row);
  po_data : option (list row);
  po_changes : Z -> option (list row)
}.

Definition reload (rows : option (list row)) (r : Route) : res Route :=
  r ← load_route_data rows r; Ok (swap r).

(** State: [last_load_time], the route table, the subscriptions. *)
Definition check_route_changes (p : poll) (st : Z * Route * SubscribeList) : res (Z * Route * SubscribeList) :=
  let '(last_load_time, r, s) := st in
  let wait_time := 10 in
  '(ret, r) ← load_version (po_version p) r;
  if ret =? 1 then
    r ← reload (po_data p) r;
    changes ← load_changes (po_changes p) [] r;
    Ok (po_time p, r, publish changes s)
  else if wait_time <=? po_time p - last_load_time then
    r ← reload (po_data p) r;
    Ok (po_time p, r, s)
  else Ok (last_load_time, r, s).

(** ** The service as a state machine *)

(** The connection is in the table under its descriptor. *)
Definition live e : Prop := ts_conns (se_statics (e_env e)) !! e_fd e = Some (Some (e_self e)).
Definition set_sub (s : SubscribeList) (x : env) : env :=
  ServerEnv (se_statics x) (DnsApp s (da_route (se_app x)) (da_param (se_app x))).
Definition set_route (r : Route) (x : env) : env :=
  ServerEnv (se_statics x) (DnsApp (da_sub (se_app x)) r (da_param (se_app x))).

(** The descriptor of a new connection is not one of an open connection, and its
    object is not one that is in use. *)
Inductive dns_step : env -> env -> Prop :=
| dns_connect connfd self loop p x e :
    (forall c, ts_conns (se_statics x) !! connfd <> Some (Some c)) ->
    da_param (se_app x) !! self = None ->
    tcp_conn_new (Some create_subscribe) connfd self loop p x = Ok e -> dns_step x (e_env e)
| dns_request data e e' : live e -> get_route data e = Ok e' -> dns_step (e_env e) (e_env e')
| dns_close e e' : live e -> clean_conn (Some clear_subscribe) e = Ok e' -> dns_step (e_env e) (e_env e')
| dns_poll p last last' r s x :
    check_route_changes p (last, da_route (se_app x), da_sub (se_app x)) = Ok (last', r, s) ->
    dns_step x (set_sub s (set_route r x))
| dns_push need w w' x :
    dw_sub w = da_sub (se_app x) -> push_all need w = Ok w' -> dns_step x (set_sub (dw_sub w') x).

Inductive dns_reachable (x0 : env) : env -> Prop :=
| dns_start : dns_reachable x0 x0
| dns_next x x' : dns_reachable x0 x -> dns_step x x' -> dns_reachable x0 x'.

(** A server without connections, its table loaded. *)
Definition dns_init (size max : Z) (r : Route) : env := ServerEnv (TcpStatics ∅ size 0 max) (DnsApp SubscribeList_new r ∅).

(** ** Lemmas *)

Lemma subscribe_book m fd m' fd' s :
  fd' ∈ sl_book (subscribe m fd s) !!! m' <-> fd' ∈ sl_book s !!! m' \/ (m' = m /\ fd' = fd).
Proof.
  cbn. destruct (decide (m = m')) as [->|Hne].
  - rewrite lookup_total_insert_eq. set_solver.
  - rewrite lookup_total_insert_ne by done. split; [tauto|]. intros [?|[-> ?]]; [done|by destruct Hne].
Qed.

Lemma unsubscribe_book m fd m' fd' s :
  fd' ∈ sl_book (unsubscribe m fd s) !!! m' <-> fd' ∈ sl_book s !!! m' /\ ~ (m' = m /\ fd' = fd).
Proof.
  unfold unsubscribe. destruct (sl_book s !! m) as [fds|] eqn:Hm.
  - assert (sl_book s !!! m = fds) as Ht by (by rewrite lookup_total_alt, Hm).
    destruct (decide (m = m')) as [<-|Hne].
    + case_decide as Hc; cbn; [rewrite lookup_total_delete_eq|rewrite lookup_total_insert_eq]; rewrite Ht; set_solver.
    + case_decide as Hc; cbn; [rewrite lookup_total_delete_ne by done|rewrite lookup_total_insert_ne by done]; naive_solver.
  - split; [|tauto]. intros Hin. split; [done|]. intros [-> _]. rewrite lookup_total_alt, Hm in Hin. cbn in Hin. set_solver.
Qed.

Lemma unsubscribe_all_book mods fd m' fd' s :
  fd' ∈ sl_book (fold_left (fun s m => unsubscribe m fd s) mods s) !!! m' <->
  fd' ∈ sl_book s !!! m' /\ ~ (m' ∈ mods /\ fd' = fd).
Proof.
  revert s. induction mods as [|m mods IH]; intros s; cbn [fold_left]; [set_solver|].
  rewrite IH, unsubscribe_book, elem_of_cons. tauto.
Qed.

Lemma unsubscribe_all_push mods fd s : sl_push (fold_left (fun s m => unsubscribe m fd s) mods s) = sl_push s.
Proof.
  revert s. induction mods as [|m mods IH]; intros s; cbn [fold_left]; [done|]. rewrite IH. unfold unsubscribe.
  repeat case_match; done.
Qed.

(** No module is kept without subscribers. *)
Definition no_empty_book (s : SubscribeList) : Prop := map_Forall (fun _ fds => fds <> ∅) (sl_book s).

Lemma subscribe_no_empty m fd s : no_empty_book s -> no_empty_book (subscribe m fd s).
Proof. intros Hn. apply map_Forall_insert_2; [set_solver|done]. Qed.

Lemma unsubscribe_no_empty m fd s : no_empty_book s -> no_empty_book (unsubscribe m fd s).
Proof.
  intros Hn. unfold unsubscribe. destruct (_ !! m); [|done].
  case_decide; [by apply map_Forall_delete|by apply map_Forall_insert_2].
Qed.

Lemma unsubscribe_all_no_empty mods fd s : no_empty_book s -> no_empty_book (fold_left (fun s m => unsubscribe m fd s) mods s).
Proof.
  revert s. induction mods as [|m mods IH]; intros s Hn; cbn [fold_left]; [done|]. by apply IH, unsubscribe_no_empty.
Qed.

Lemma push_all_book need w w' : push_all need w = Ok w' -> sl_book (dw_sub w') = sl_book (dw_sub w).
Proof.
  assert (forall fd l w w', foldM (push_one fd) w l = Ok w' -> sl_book (dw_sub w') = sl_book (dw_sub w)) as Hfd.
  { intros fd l. induction l as [|m l IH]; intros w1 w2 Hf; cbn [foldM] in Hf; [by injection Hf as <-|].
    apply bind_ok in Hf as (w3 & H1 & Hf). apply IH in Hf. rewrite Hf. unfold push_one in H1.
    apply bind_ok in H1 as (c & _ & [= <-]). done. }
  unfold push_all. generalize (hm_elements need) as l. intros l. revert w.
  induction l as [|x l IH]; intros w Hf; cbn [foldM] in Hf; [by injection Hf as <-|].
  apply bind_ok in Hf as (w3 & H1 & Hf). apply IH in Hf. rewrite Hf. by eapply Hfd.
Qed.

Lemma check_book p last r s last' r' s' :
  check_route_changes p (last, r, s) = Ok (last', r', s') -> sl_book s' = sl_book s.
Proof.
  unfold check_route_changes. intros Hc. apply bind_ok in Hc as ([ret r1] & _ & Hc). cbn in Hc.
  destruct (ret =? 1).
  - apply bind_ok in Hc as (r2 & _ & Hc). apply bind_ok in Hc as (ch & _ & Hc). by injection Hc as _ _ <-.
  - destruct (_ <=? _); [apply bind_ok in Hc as (r2 & _ & Hc)|]; by injection Hc as _ _ <-.
Qed.

(** What the operations of a connection do to the environment. *)
Lemma send_message_env data mid e ret e' :
  send_message data mid e = Ok (ret, e') -> e_env e' = e_env e /\ e_fd e' = e_fd e /\ e_self e' = e_self e.
Proof.
  unfold send_message, ep_send_message. intros Hs. apply bind_ok in Hs as (len & _ & Hs).
  apply bind_ok in Hs as ([[r1 o1] p1] & _ & Hs). destruct (negb (r1 =? 0)); [by injection Hs as _ <-|].
  apply bind_ok in Hs as ([[r2 o2] p2] & _ & Hs). destruct (negb (r2 =? 0)).
  - apply bind_ok in Hs as (x & _ & Hs). by injection Hs as _ <-.
  - destruct (len =? 0); by injection Hs as _ <-.
Qed.

Lemma tcp_conn_new_env connfd self loop p x e :
  tcp_conn_new (Some create_subscribe) connfd self loop p x = Ok e ->
  in_table connfd (se_statics x) = true /\
  ts_conns (se_statics (e_env e)) = <[connfd := Some self]> (ts_conns (se_statics x)) /\
  se_app (e_env e) = DnsApp (da_sub (se_app x)) (da_route (se_app x)) (<[self := ∅]> (da_param (se_app x))) /\
  e_fd e = connfd /\ e_self e = self.
Proof.
  unfold tcp_conn_new. cbn [run_hook create_subscribe mbind res_bind]. unfold increase_conn. cbn.
  destruct (in_table connfd (se_statics x)); [|done]. cbn. intros [= <-]. done.
Qed.

Lemma clean_conn_env e e' :
  clean_conn (Some clear_subscribe) e = Ok e' ->
  exists l, da_param (se_app (e_env e)) !! e_self e = Some l /\
    ts_conns (se_statics (e_env e')) = <[e_fd e := None]> (ts_conns (se_statics (e_env e))) /\
    se_app (e_env e') = DnsApp (fold_left (fun s m => unsubscribe m (e_fd e) s) (hs_elements l) (da_sub (se_app (e_env e))))
      (da_route (se_app (e_env e))) (delete (e_self e) (da_param (se_app (e_env e)))).
Proof.
  unfold clean_conn. cbn [run_hook]. unfold clear_subscribe, app_of. intros Hc.
  apply bind_ok in Hc as (e1 & H1 & Hc). apply bind_ok in H1 as (l & Hl & [= <-]). apply of_option_ok in Hl.
  apply bind_ok in Hc as (s & Hs & Hc). unfold decrease_conn in Hs. cbn in Hs. destruct (in_table _ _); [|done].
  injection Hs as <-. apply bind_ok in Hc as (x1 & _ & Hc). apply bind_ok in Hc as (x2 & _ & [= <-]).
  exists l. done.
Qed.

Lemma subscribe_first_env mod_ e :
  let a := se_app (e_env e) in
  let e' := subscribe_first mod_ e in
  se_statics (e_env e') = se_statics (e_env e) /\ e_fd e' = e_fd e /\ e_self e' = e_self e /\
  da_route (se_app (e_env e')) = da_route a /\
  (forall l, da_param a !! e_self e = Some l -> da_param (se_app (e_env e')) = <[e_self e := {[mod_]} ∪ l]> (da_param a) /\
     (da_sub (se_app (e_env e')) = subscribe mod_ (e_fd e) (da_sub a) \/ mod_ ∈ l /\ da_sub (se_app (e_env e')) = da_sub a)).
Proof.
  cbn. unfold subscribe_first, app_of. destruct (da_param _ !! e_self e) as [l|] eqn:Hl; [|by split_and!].
  destruct (decide (mod_ ∈ l)) as [Hin|Hin]; split_and!; try done; intros l' [= <-].
  - split; [|by right]. rewrite insert_id; [done|]. rewrite Hl. f_equal. set_solver.
  - split; [done|by left].
Qed.

Lemma get_route_env data e e' :
  get_route data e = Ok e' -> exists req, msg_decode data = Ok req /\
    e_env e' = e_env (subscribe_first (pack_key (grq_modid req) (grq_cmdid req)) e).
Proof.
  unfold get_route. intros Hg. apply bind_ok in Hg as (req & Hd & Hg). exists req. split; [done|].
  apply bind_ok in Hg as ([ret e1] & Hs & [= <-]). by apply send_message_env in Hs as (-> & _).
Qed.

(** ** The invariant *)

(** The book says of every module exactly which open connections asked for it. *)
Record consistent (x : env) : Prop := {
  cs_book fd m : fd ∈ sl_book (da_sub (se_app x)) !!! m <->
    exists self l, ts_conns (se_statics x) !! fd = Some (Some self) /\ da_param (se_app x) !! self = Some l /\ m ∈ l;
  cs_param fd self : ts_conns (se_statics x) !! fd = Some (Some self) -> is_Some (da_param (se_app x) !! self);
  cs_inj fd fd' self : ts_conns (se_statics x) !! fd = Some (Some self) -> ts_conns (se_statics x) !! fd' = Some (Some self) -> fd = fd';
  cs_no_empty : no_empty_book (da_sub (se_app x))
}.

Lemma consistent_init size max r : consistent (dns_init size max r).
Proof.
  constructor; cbn; try done.
  - intros fd m. rewrite lookup_total_empty. split; [set_solver|]. by intros (self & l & [=] & _).
Qed.

Lemma consistent_connect connfd self loop p x e :
  consistent x -> (forall c, ts_conns (se_statics x) !! connfd <> Some (Some c)) -> da_param (se_app x) !! self = None ->
  tcp_conn_new (Some create_subscribe) connfd self loop p x = Ok e -> consistent (e_env e).
Proof.
  intros [Hb Hp Hi Hn] Hfree Hself (_ & Hc & Ha & _ & _)%tcp_conn_new_env.
  assert (forall fd, ts_conns (se_statics x) !! fd <> Some (Some self)) as Hnew.
  { intros fd Hfd. apply Hp in Hfd. rewrite Hself in Hfd. by destruct Hfd. }
  constructor; rewrite ?Ha, ?Hc; cbn; [| | |done].
  - intros fd m. rewrite Hb. split; intros (s & l & Hs & Hl & Hm).
    + exists s, l. rewrite !lookup_insert_ne; [done| |]; [intros ->; congruence|intros ->; by eapply Hfree].
    + destruct (decide (connfd = fd)) as [<-|Hne].
      * rewrite lookup_insert_eq in Hs. injection Hs as <-. rewrite lookup_insert_eq in Hl. injection Hl as <-. set_solver.
      * rewrite lookup_insert_ne in Hs by done. rewrite lookup_insert_ne in Hl by (intros ->; by eapply Hnew). by exists s, l.
  - intros fd s Hs. apply lookup_insert_Some in Hs as [[_ [= <-]]|[_ Hs]]; [by rewrite lookup_insert_eq|].
    apply lookup_insert_is_Some'. right. by eapply Hp.
  - intros fd fd' s Hs Hs'. apply lookup_insert_Some in Hs, Hs'.
    destruct Hs as [[<- [= <-]]|[_ Hs]], Hs' as [[<- Hq]|[_ Hs']]; try done; [by apply Hnew in Hs'| |by eapply Hi].
    injection Hq as <-. by apply Hnew in Hs.
Qed.

Lemma consistent_subscribe mod_ e : consistent (e_env e) -> live e -> consistent (e_env (subscribe_first mod_ e)).
Proof.
  intros [Hb Hp Hi Hn] Hlive.
  destruct (subscribe_first_env mod_ e) as (Hst & _ & _ & _ & Hsub). destruct (Hp _ _ Hlive) as [l Hl].
  destruct (Hsub l Hl) as [Hpar Hsub']. clear Hsub.
  assert (forall fd m, fd ∈ sl_book (da_sub (se_app (e_env (subscribe_first mod_ e)))) !!! m <->
    fd ∈ sl_book (da_sub (se_app (e_env e))) !!! m \/ (m = mod_ /\ fd = e_fd e)) as Hbook.
  { intros fd m. destruct Hsub' as [->|[Hin ->]]; [by apply subscribe_book|]. split; [by left|].
    intros [?|[-> ->]]; [done|]. apply Hb. by exists (e_self e), l. }
  constructor; rewrite ?Hst, ?Hpar.
  - intros fd m. rewrite Hbook, Hb. split.
    + intros [(s & ls & Hs & Hls & Hm)|[-> ->]].
      * destruct (decide (e_self e = s)) as [<-|Hne].
        { exists (e_self e), ({[mod_]} ∪ l). rewrite lookup_insert_eq. rewrite Hl in Hls. injection Hls as <-. set_solver. }
        exists s, ls. by rewrite lookup_insert_ne.
      * exists (e_self e), ({[mod_]} ∪ l). rewrite lookup_insert_eq. set_solver.
    + intros (s & ls & Hs & Hls & Hm). destruct (decide (e_self e = s)) as [<-|Hne].
      * rewrite lookup_insert_eq in Hls. injection Hls as <-. rewrite (Hi _ _ _ Hs Hlive) in *.
        apply elem_of_union in Hm as [->%elem_of_singleton|Hm]; [by right|left; by exists (e_self e), l].
      * rewrite lookup_insert_ne in Hls by done. left. by exists s, ls.
  - intros fd s Hs. apply lookup_insert_is_Some'. right. by eapply Hp.
  - exact Hi.
  - destruct Hsub' as [->|[_ ->]]; [by apply subscribe_no_empty|done].
Qed.

Lemma consistent_request data e e' :
  consistent (e_env e) -> live e -> get_route data e = Ok e' -> consistent (e_env e').
Proof. intros Hc Hlive (req & _ & ->)%get_route_env. by apply consistent_subscribe. Qed.

Lemma consistent_close e e' :
  consistent (e_env e) -> live e -> clean_conn (Some clear_subscribe) e = Ok e' -> consistent (e_env e').
Proof.
  intros [Hb Hp Hi Hn] Hlive (l & Hl & Hc & Ha)%clean_conn_env. constructor; rewrite ?Hc, ?Ha; cbn.
  - intros fd m. rewrite unsubscribe_all_book, Hb, elem_of_hs_elements. split.
    + intros [(s & ls & Hs & Hls & Hm) Hno]. assert (fd <> e_fd e) as Hne.
      { intros ->. apply Hno. split; [|done]. unfold live in Hlive. congruence. }
      exists s, ls. rewrite lookup_insert_ne by done. rewrite lookup_delete_ne; [done|]. intros <-. by apply Hne, (Hi _ _ (e_self e)).
    + intros (s & ls & Hs & Hls & Hm). apply lookup_insert_Some in Hs as [[_ [=]]|[Hne Hs]].
      apply lookup_delete_Some in Hls as [_ Hls]. split; [by exists s, ls|]. intros [_ ->]. done.
  - intros fd s Hs. apply lookup_insert_Some in Hs as [[_ [=]]|[Hne Hs]].
    rewrite lookup_delete_ne; [by eapply Hp|]. intros <-. by apply Hne, (Hi _ _ (e_self e)).
  - intros fd fd' s Hs Hs'. apply lookup_insert_Some in Hs as [[_ [=]]|[_ Hs]], Hs' as [[_ [=]]|[_ Hs']]. by eapply Hi.
  - by apply unsubscribe_all_no_empty.
Qed.

(** A step that leaves the book alone. *)
Lemma consistent_book x s r :
  consistent x -> sl_book s = sl_book (da_sub (se_app x)) -> consistent (set_sub s (set_route r x)).
Proof.
  intros [Hb Hp Hi Hn] Hs. constructor; cbn; [|done|done|].
  - intros fd m. rewrite Hs. apply Hb.
  - unfold no_empty_book. rewrite Hs. apply Hn.
Qed.

Lemma consistent_step x x' : consistent x -> dns_step x x' -> consistent x'.
Proof.
  intros Hx Hs. revert Hx. destruct Hs as [ | | |p last last' r s x1 Hc|need w w' x1 Hw Hpu]; intros Hx.
  - eapply consistent_connect; eassumption.
  - eapply consistent_request; eassumption.
  - eapply consistent_close; eassumption.
  - apply check_book in Hc. by apply consistent_book.
  - apply push_all_book in Hpu. apply (consistent_book x1 (dw_sub w') (da_route (se_app x1)) Hx). by rewrite Hpu, Hw.
Qed.

Lemma subscribe_first_in mod_ e l :
  consistent (e_env e) -> live e -> da_param (se_app (e_env e)) !! e_self e = Some l ->
  e_fd e ∈ sl_book (da_sub (se_app (e_env (subscribe_first mod_ e)))) !!! mod_.
Proof.
  intros Hc Hlive Hl. destruct (subscribe_first_env mod_ e) as (_ & _ & _ & _ & Hsub).
  destruct (Hsub l Hl) as [_ [->|[Hin ->]]]; [apply subscribe_book; by right|].
  apply (cs_book _ Hc). by exists (e_self e), l.
Qed.

(** ** Properties *)

(** C12: Whatever connects, asks, disconnects, changes and is pushed, in any order:
    the subscription book lists a descriptor under a module exactly when that
    descriptor is an open connection that has asked for the module, and no module
    is kept without subscribers; so a closed connection leaves no subscription, and a
    connection whose request was handled is subscribed to the module it asked for. *)
Theorem subscriptions_consistent size max r x :
  dns_reachable (dns_init size max r) x ->
  (forall fd m, fd ∈ sl_book (da_sub (se_app x)) !!! m <->
    exists self l, ts_conns (se_statics x) !! fd = Some (Some self) /\ da_param (se_app x) !! self = Some l /\ m ∈ l) /\
  map_Forall (fun _ fds => fds <> ∅) (sl_book (da_sub (se_app x))) /\
  (forall e e' data req, e_env e = x -> live e -> get_route data e = Ok e' -> msg_decode data = Ok req ->
     e_fd e ∈ sl_book (da_sub (se_app (e_env e'))) !!! pack_key (grq_modid req) (grq_cmdid req)).
Proof.
  intros Hr. assert (consistent x) as Hx.
  { induction Hr as [|x x' Hr IH Hs]; [apply consistent_init|by eapply consistent_step]. }
  split; [apply Hx|]. split; [apply Hx|]. intros e e' data req <- Hlive (req' & Hd' & ->)%get_route_env Hd.
  rewrite Hd in Hd'. injection Hd' as <-. destruct (cs_param _ Hx _ _ Hlive) as [l Hpar]. by eapply subscribe_first_in.
Qed.

(** What [get_route] does to a sound connection. *)
Lemma fill_hosts_fmap hosts rsp :
  fill_hosts hosts rsp = {| grs_modid := grs_modid rsp; grs_cmdid := grs_cmdid rsp; grs_host := grs_host rsp ++ (host_of <$> hosts) |}.
Proof.
  revert rsp. induction hosts as [|h hosts IH]; intros rsp; unfold fill_hosts; cbn [fold_left fmap list_fmap].
  - rewrite app_nil_r. by destruct rsp.
  - fold (fill_hosts hosts (grs_add_host (host_of h) rsp)). rewrite IH. unfold grs_add_host. cbn. by rewrite <-app_assoc.
Qed.

(** The other connections of the thread. *)
Context (others : list tenant).

(** An invariant that subscribing does not touch. *)
Definition route_is (r : Route) (fd : Z) (x : env) : Prop := fd_in_table fd x /\ da_route (se_app x) = r.

Lemma subscribe_first_ok r F e inb outb mod_ :
  ep_ok (route_is r) others F e inb outb ->
  ep_ok (route_is r) others F (subscribe_first mod_ e) inb outb /\ armed (subscribe_first mod_ e) = armed e /\
  e_ibuf (subscribe_first mod_ e) = e_ibuf e /\ e_calls (subscribe_first mod_ e) = e_calls e.
Proof.
  intros Hok. unfold subscribe_first. destruct (da_param _ !! _); [|done]. case_decide; [done|].
  split; [same_ep Hok|done].
Qed.

Lemma get_route_spec r F e inb outb data req :
  let rsp := route_response (grq_modid req) (grq_cmdid req) r in
  ep_ok (route_is r) others F e inb outb -> msg_decode data = Ok req ->
  length outb + 8 + length (msg_encode rsp) <= m8M ->
  get_route data e = Err ExitFailure \/
  exists e' F', get_route data e = Ok e' /\
    ep_ok (route_is r) others F' e' inb (outb ++ frame ID_GetRouteResponse (msg_encode rsp)) /\
    armed e' = (if decide (outb = []) then true else armed e) /\
    e_ibuf e' = e_ibuf e /\ e_calls e' = e_calls e /\ e_fd e' = e_fd e.
Proof.
  intros rsp Hok Hd Hmax. unfold get_route. rewrite Hd. cbn [mbind res_bind]. cbv zeta.
  set (mod_ := pack_key _ _). destruct (subscribe_first_env mod_ e) as (_ & Hf & _ & Hr & _).
  destruct (subscribe_first_ok r F e inb outb mod_ Hok) as (Hok' & Harm & Hi & Hc).
  rewrite fill_hosts_fmap. unfold app_of. rewrite Hr, (proj2 (eo_env _ _ _ _ _ _ Hok)). cbn [grs_modid grs_cmdid grs_host app].
  change {| grs_modid := _; grs_cmdid := _; grs_host := _ |} with rsp.
  destruct (send_message_spec (route_is r) others conn_wt_callback F _ inb outb (msg_encode rsp) ID_GetRouteResponse Hok' Hmax)
    as [Hs|(e' & F' & Hs & Hok2 & Hsame & _ & _ & Ha)]; unfold send_message; rewrite Hs; cbn [mbind res_bind]; [by left|right].
  destruct Hsame as (Hi' & Hc' & Hf' & _). exists e', F'. split; [done|]. split; [done|]. rewrite Ha, Harm, Hi', Hc', Hf'. done.
Qed.

(** A descriptor that is closed stays on the push list: when it is used again,
    the new connection, which has asked for nothing and is in no subscription,
    is sent every module that was due to the old one. *)
Theorem reused_descriptor_is_pushed e e1 self loop p e2 w due :
  consistent (e_env e) -> live e -> clean_conn (Some clear_subscribe) e = Ok e1 ->
  da_param (se_app (e_env e1)) !! self = None -> tcp_conn_new (Some create_subscribe) (e_fd e) self loop p (e_env e1) = Ok e2 ->
  dw_sub w = da_sub (se_app (e_env e2)) -> dw_route w = da_route (se_app (e_env e2)) -> dw_conns w = ts_conns (se_statics (e_env e2)) ->
  sl_push (da_sub (se_app (e_env e))) !! e_fd e = Some due -> due <> ∅ ->
  (forall m, e_fd e ∉ sl_book (dw_sub w) !!! m) /\
  exists w', push_change_task {[e_fd e]} w = Ok w' /\
    dw_sent w' = dw_sent w ++ ((fun m => (e_fd e, route_response (key_hi_int m) (key_lo_int m) (dw_route w))) <$> hs_elements due).
Proof.
  intros Hcons Hlive Hclean Hself Hnew Hws Hwr Hwc Hdue Hne.
  pose proof (consistent_close _ _ Hcons Hlive Hclean) as Hcons1.
  destruct (clean_conn_env _ _ Hclean) as (l & Hl & Hc1 & Ha1).
  assert (consistent (e_env e2)) as Hcons2.
  { eapply consistent_connect; [exact Hcons1| |exact Hself|exact Hnew]. intros c. by rewrite Hc1, lookup_insert_eq. }
  destruct (tcp_conn_new_env _ _ _ _ _ _ Hnew) as (_ & Hc2 & Ha2 & _). split.
  - intros m Hm. rewrite Hws in Hm. apply (cs_book _ Hcons2) in Hm as (s & ls & Hs & Hls & Hin).
    rewrite Hc2, lookup_insert_eq in Hs. injection Hs as <-. rewrite Ha2 in Hls. cbn in Hls.
    rewrite lookup_insert_eq in Hls. injection Hls as <-. set_solver.
  - assert (sl_push (dw_sub w) !! e_fd e = Some due) as Hpush by (by rewrite Hws, Ha2, Ha1; cbn; rewrite unsubscribe_all_push).
    unfold push_change_task, push_all.
    assert (make_publish_map {[e_fd e]} (dw_sub w) = {[e_fd e := due]}) as ->.
    { apply map_eq. intros fd. unfold make_publish_map. destruct (decide (fd = e_fd e)) as [->|Hfd].
      - rewrite lookup_singleton_eq. apply map_lookup_filter_Some. split; [done|]. cbn. set_solver.
      - rewrite lookup_singleton_ne by done. apply map_lookup_filter_None. right. intros ? _. cbn. set_solver. }
    assert (hm_elements {[e_fd e := due]} = [(e_fd e, due)]) as ->.
    { apply Permutation_singleton_r. by rewrite hm_elements_perm, map_to_list_singleton. }
    assert (dw_conns w !! e_fd e = Some (Some self)) as Hconn by (by rewrite Hwc, Hc2, lookup_insert_eq).
    destruct (push_all_spec [(e_fd e, due)] w) as (w' & Hw' & _ & Hs & _).
    { repeat constructor; cbn; [by rewrite Hconn|done]. }
    exists w'. split; [exact Hw'|]. rewrite Hs. cbn [fmap list_fmap concat]. rewrite app_nil_r.
    unfold push_messages. cbn [fst snd]. by rewrite Hconn.
Qed.

(** *** The poll *)

(** The answer to the query for changes, over a table of (modid, cmdid, version). *)
Definition change_rows (tbl : list (Z * Z * Z)) (v : Z) : option (list row) :=
  Some ((fun c => Some <$> [decimal c.1.1; decimal c.1.2]) <$> filter (fun c => v <= c.2) tbl).

Lemma load_rows_total rows m :
  Forall (fun x => exists kv, row_keys x = Ok kv) rows -> exists m', foldM load_row m rows = Ok m'.
Proof.
  intros Hr. revert m. induction Hr as [|x rows [[k v] Hx] _ IH]; intros m; cbn [foldM]; [by exists m|].
  assert (load_row m x = Ok (insert_host k v m)) as -> by (unfold load_row; by rewrite Hx). apply IH.
Qed.

Lemma load_version_answer v r :
  0 <= v < 2 ^ 31 -> load_version (Some [[Some (decimal v)]]) r =
    if v =? rt_version r then Ok (0, r) else Ok (1, RouteObj (rt_map_a r) (rt_map_b r) (rt_swapped r) v).
Proof.
  intros Hv. unfold load_version, field. cbn -[atoi decimal]. rewrite atoi_decimal by lia.
  rewrite i32_id by (unfold is_i32; lia). done.
Qed.

Lemma load_changes_spec tbl v l r :
  rt_version r = v -> Forall (fun c => 0 <= c.1.1 < 2 ^ 31 /\ 0 <= c.1.2 < 2 ^ 31) tbl ->
  load_changes (change_rows tbl) l r = Ok (l ++ ((fun c => pack_key c.1.1 c.1.2) <$> filter (fun c => v <= c.2) tbl)).
Proof.
  intros Hv Ht. unfold load_changes, change_rows. rewrite Hv. cbn [of_option mbind res_bind].
  assert (Forall (fun c : Z * Z * Z => 0 <= c.1.1 < 2 ^ 31 /\ 0 <= c.1.2 < 2 ^ 31) (filter (fun c : Z * Z * Z => v <= c.2) tbl)) as Hf.
  { apply Forall_forall. intros c [_ Hc]%list_elem_of_filter. by eapply Forall_forall in Ht. }
  revert l. induction Hf as [|c cs [H1 H2] _ IH]; intros l; cbn [fmap list_fmap foldM]; [by rewrite app_nil_r|].
  unfold field at 1 2. cbn -[atoi decimal pack_key foldM]. rewrite !atoi_decimal by lia.
  rewrite !i32_id by (unfold is_i32; lia). rewrite IH. by rewrite <-app_assoc.
Qed.

(** C29: A poll that finds a new version [v] installs the table as it is and makes
    due, for each subscriber, the changes recorded with version [v] or later, and
    no others; while the version stays [v] later polls announce nothing.  So a
    change whose version is older than the newest one at the time of a poll is
    never announced. *)
Theorem poll_announces_newest time v rows tbl last r s :
  0 <= v < 2 ^ 31 -> v <> rt_version r ->
  Forall (fun x => exists kv, row_keys x = Ok kv) rows ->
  Forall (fun c => 0 <= c.1.1 < 2 ^ 31 /\ 0 <= c.1.2 < 2 ^ 31) tbl ->
  exists r' s', check_route_changes (Poll time (Some [[Some (decimal v)]]) (Some rows) (change_rows tbl)) (last, r, s) = Ok (time, r', s') /\
    (forall modid cmdid, get_hosts modid cmdid r' = table_hosts (pack_key modid cmdid) rows) /\
    (forall fd m, m ∈ sl_push s' !!! fd <-> m ∈ sl_push s !!! fd \/
       (exists c, c ∈ tbl /\ v <= c.2 /\ m = pack_key c.1.1 c.1.2) /\ fd ∈ sl_book s !!! m) /\
    (forall p st, po_version p = Some [[Some (decimal v)]] -> check_route_changes p (time, r', s') = Ok st -> st.2 = s').
Proof.
  intros Hv Hne Hrows Htbl. unfold check_route_changes. cbn [po_version po_data po_changes po_time].
  rewrite load_version_answer by done. destruct (Z.eqb_spec v (rt_version r)); [done|]. cbn [mbind res_bind].
  set (r1 := RouteObj _ _ _ v). cbn [Z.eqb Pos.eqb].
  assert (exists r2, load_route_data (Some rows) r1 = Ok r2) as [r2 Hload].
  { unfold load_route_data. cbn [of_option mbind res_bind].
    destruct (load_rows_total rows (temp_map (set_temp ∅ r1)) Hrows) as [m ->]. cbn. by eexists. }
  assert (rt_version (swap r2) = v /\ forall modid cmdid, get_hosts modid cmdid (swap r2) = table_hosts (pack_key modid cmdid) rows) as [Hv2 Hh].
  { unfold load_route_data in Hload. cbn [of_option mbind res_bind] in Hload. apply bind_ok in Hload as (m & Hm & [= <-]).
    split; [by destruct r as [a b [] w]|]. intros modid cmdid. rewrite get_hosts_total.
    assert (data_map (swap (set_temp m (set_temp ∅ r1))) = m) as -> by (by destruct r as [a b [] w]).
    assert (temp_map (set_temp ∅ r1) = ∅) as Ht by (by destruct r as [a b [] w]). rewrite Ht in Hm.
    rewrite (load_rows_spec _ _ _ (pack_key modid cmdid) Hm), lookup_total_empty. set_solver. }
  unfold reload. rewrite Hload. cbn [mbind res_bind]. rewrite (load_changes_spec tbl v); [|done|done].
  cbn [mbind res_bind app]. eexists _, _. split; [done|]. split; [done|]. split.
  - intros fd m. rewrite publish_push. f_equiv. apply and_iff_compat_r. rewrite list_elem_of_fmap.
    split; intros (c & H1 & H2); exists c; [apply list_elem_of_filter in H2|rewrite list_elem_of_filter]; naive_solver.
  - intros p [[last' r'] s'] Hp Hc. apply bind_ok in Hc as ([ret r3] & Hl & Hc). rewrite Hp, load_version_answer in Hl by done.
    rewrite Hv2, Z.eqb_refl in Hl. injection Hl as <- <-. cbn [Z.eqb] in Hc.
    destruct (_ <=? _); [apply bind_ok in Hc as (r4 & _ & Hc)|]; by injection Hc as _ _ <-.
Qed.
End service.

Section wire.
Context {T K : Type} `{Epoll K} `{HashOrder} `{WireFormat}.
Context (others : list tenant).
Implicit Types e : endpoint io_proc T Z K (server_env dns_app).

Lemma route_response_ok modid cmdid r : is_i32 modid -> is_i32 cmdid -> GetRouteResponse_ok (route_response modid cmdid r).
Proof.
  intros Hm Hc. split; [done|]. split; [done|]. cbn. apply Forall_fmap, Forall_forall. intros h _.
  split; apply i32_range.
Qed.

Lemma route_response_length modid cmdid r :
  length (msg_encode (route_response modid cmdid r)) <= 22 + 24 * size (get_hosts modid cmdid r).
Proof.
  etransitivity; [apply GetRouteResponse_length|]. cbn. rewrite length_fmap, hs_elements_perm. apply Z.le_refl.
Qed.

(** The frame that answers a message: a request for a module, with the hosts of the
    table [r]; a message without a handler gets none. *)
Definition route_reply (r : Route) (mid : Z) (data : bytes) : bytes :=
  if mid =? ID_GetRouteRequest then
    match msg_decode (M := GetRouteRequest) data with
    | Ok req => frame ID_GetRouteResponse (msg_encode (route_response (grq_modid req) (grq_cmdid req) r))
    | Err _ => []
    end
  else [].

Lemma dns_router_call mid : router_call mid dns_router = if mid =? ID_GetRouteRequest then Some (tt, Some tt) else None.
Proof.
  change dns_router with (register_all [(ID_GetRouteRequest, tt, tt)] msg_router_new). rewrite dispatch_first_registration.
  rewrite filter_cons. cbn [fst snd]. destruct (Z.eqb_spec mid ID_GetRouteRequest) as [->|Hne]; [by rewrite decide_True|by rewrite decide_False].
Qed.

(** [get_route] behind the router keeps its contract. *)
Lemma dns_callback_serves r :
  handler_serves (route_is r) others (tcp_router_call (T := T) (K := K) dns_router dns_callback)
    (has_room (route_reply r)) (answers (route_reply r)).
Proof.
  intros inb outb x mid data Hfit F e Hok _. unfold tcp_router_call, answers, has_room, route_reply in *. cbn [fst] in *. rewrite dns_router_call.
  destruct (mid =? ID_GetRouteRequest).
  - unfold dns_callback. destruct (msg_decode_total (M := GetRouteRequest) data) as [req Hd]. rewrite Hd, length_frame in Hfit. rewrite Hd.
    destruct (get_route_spec others r F e inb outb data req Hok Hd) as [->|(e' & F' & -> & Hok' & _ & Hsame)]; [lia|by left|].
    split; [by eexists F', _|done].
  - split; [|done]. exists F, outb. by rewrite app_nil_r.
Qed.

(** C28: A connection is answered in order and completely: whatever messages arrive on
    it, none of them without a body and in whatever chunks, the pending output grows,
    in their order, by one frame for each that is a request and by nothing else; the
    answer to a request for a module is, as the agent reads it back, that module with
    the hosts it has in the route table.  The only failures are the exit at the pool's
    memory limit and a system call that does not return. *)
Theorem dns_answers_stream F e outb chunks ms rest :
  let r := da_route (se_app (e_env e)) in
  ep_ok fd_in_table others F e [] outb -> e_ibuf e = None ->
  Forall (fun m => is_i32 m.1 /\ 0 < length m.2 <= MESSAGE_LENGTH_LIMIT) ms -> length outb + length (replies (route_reply r) ms) <= m8M ->
  scan_frame rest = NeedMore -> Forall (fun c => c.2 <> [] /\ length c.2 <= m8M - 65535) chunks ->
  concat (snd <$> chunks) = concat ((fun m => frame m.1 m.2) <$> ms) ++ rest ->
  match foldM (fun e c => dns_do_read (deliver c) e) e chunks with
  | Ok e' => exists F', ep_ok fd_in_table others F' e' rest (outb ++ replies (route_reply r) ms)
  | Err f => f = ExitFailure \/ f = Blocked
  end /\
  (forall modid cmdid, is_i32 modid -> is_i32 cmdid -> exists body,
     route_reply r ID_GetRouteRequest (msg_encode {| grq_modid := modid; grq_cmdid := cmdid |}) = frame ID_GetRouteResponse body /\
     msg_decode body = Ok (route_response modid cmdid r) /\
     grs_host (route_response modid cmdid r) ≡ₚ host_of <$> elements (get_hosts modid cmdid r)).
Proof.
  intros r Hok Hib Hms Hroom Hrest Hchunks Heq. split.
  - pose proof (parsed_stream chunks ms rest Hms Hrest Heq) as Hparse.
    assert (ep_ok (route_is r) others F e [] outb) as Hok'.
    { eapply ep_ok_env; [|exact Hok]. by intros fd. }
    pose proof (do_reads_spec (route_is r) others (clean_conn (Some clear_subscribe)) _ _ _ (dns_callback_serves r) F e [] outb chunks ms rest Hok') as Hr.
    unfold do_reads in Hr. unfold dns_do_read, do_read.
    assert (Forall (fun m : Z * bytes => m.2 <> []) ms) as Hne.
    { eapply Forall_impl; [exact Hms|]. cbn. intros m [_ Hm] Hn. rewrite Hn in Hm. cbn in Hm. lia. }
    pose proof (all_fit_answers _ _ (outb, e_env e) Hroom) as Hfit. destruct (foldM _ e chunks) as [e'|f].
    + destruct Hr as [_ (F' & outb' & Hok2 & _ & Hsv)]; try done; [by rewrite Hib|]. apply served_answers in Hsv. cbn [fst] in Hsv. subst outb'.
      exists F'. eapply ep_ok_env; [|exact Hok2]. by intros fd [].
    + apply Hr; try done. by rewrite Hib.
  - intros modid cmdid Hm Hc. exists (msg_encode (route_response modid cmdid r)). unfold route_reply.
    rewrite (msg_roundtrip (M := GetRouteRequest)) by (by split). split; [done|]. split; [by apply msg_roundtrip, route_response_ok|].
    cbn. by rewrite hs_elements_perm.
Qed.

(** The request for module (0, 0) has no bytes; [get_route] answers it like any other. *)
Lemma zero_request_empty : msg_encode {| grq_modid := 0; grq_cmdid := 0 |} = [].
Proof. reflexivity. Qed.

Lemma zero_request_handled r outb :
  length outb + 30 + 24 * size (get_hosts 0 0 r) <= m8M ->
  handles_at (route_is r) others (tcp_router_call (T := T) (K := K) dns_router dns_callback) [] outb ID_GetRouteRequest [].
Proof.
  intros Hsize. eapply replies_handles. intros x. apply dns_callback_serves. unfold has_room, route_reply. rewrite Z.eqb_refl, <-zero_request_empty.
  rewrite (msg_roundtrip (M := GetRouteRequest)) by (by split). rewrite length_frame. pose proof (route_response_length 0 0 r). cbn [grq_modid grq_cmdid fst]. lia.
Qed.

(** Such a request, alone in what has arrived, stops the service. *)
Lemma zero_request_aborts F e outb n :
  ep_ok fd_in_table others F e [] outb -> e_ibuf e = None ->
  length outb + 30 + 24 * size (get_hosts 0 0 (da_route (se_app (e_env e)))) <= m8M ->
  match dns_do_read (deliver (n, frame ID_GetRouteRequest (msg_encode {| grq_modid := 0; grq_cmdid := 0 |}))) e with
  | Ok _ => False
  | Err f => f = AssertFail \/ f = ExitFailure \/ f = Blocked
  end.
Proof.
  intros Hok Hib Hsize. rewrite zero_request_empty. unfold dns_do_read, do_read.
  eapply empty_message_aborts; [|by rewrite Hib|by vm_compute|by apply zero_request_handled, Hsize].
  eapply ep_ok_env; [|exact Hok]. by intros fd.
Qed.
End wire.

(** ** A concrete service *)

Module ServiceDemo.
#[local] Existing Instances epoll_map wire_varint.
#[local] Instance demo_order : HashOrder := hash_order_list.
Abbreviation env := (server_env dns_app).
Abbreviation conn := (endpoint io_proc unit Z (gmap Z Z) env).

Definition route0 : Route := SubDemo.route0.
Definition init0 : env := dns_init 1008 1000 route0.

(** Descriptor 7 connects with object 70. *)
Definition connect0 (p : buf_pool) : res conn :=
  tcp_conn_new (Some create_subscribe) 7 70 (event_loop_new ∅) p init0.
Definition conn1 (p : buf_pool) : conn :=
  match connect0 p with Ok e => e | Err _ => Endpoint 0 0 None None (event_loop_new ∅) p init0 [] [] [] end.

Lemma connect0_ok p : connect0 p = Ok (conn1 p).
Proof. unfold conn1. by vm_compute. Qed.

Lemma reach1 p : dns_reachable (T := unit) (K := gmap Z Z) init0 (e_env (conn1 p)).
Proof.
  eapply dns_next; [apply dns_start|]. eapply (dns_connect 7 70 (event_loop_new ∅) p); [|done|apply connect0_ok].
  intros c. by vm_compute.
Qed.

Lemma conn1_ok F p : pool_ok F p -> ep_ok fd_in_table [] F (conn1 p) [] [].
Proof. intros Hp. constructor; try done; by constructor. Qed.

Lemma consistent1 p : consistent (e_env (conn1 p)).
Proof. eapply consistent_connect; [apply consistent_init| | |apply connect0_ok]; [intros c; by vm_compute|done]. Qed.

(** It asks for (1,1), sends something the service has no handler for, and asks for
    (1,2), cut in the middle of the second message. *)
Definition asked1 : bytes := msg_encode {| grq_modid := 1; grq_cmdid := 1 |}.
Definition asked2 : bytes := msg_encode {| grq_modid := 1; grq_cmdid := 2 |}.
Definition asks : list (Z * bytes) := [(ID_GetRouteRequest, asked1); (77, [Byte.x41]); (ID_GetRouteRequest, asked2)].
Definition asks_stream : bytes := concat ((fun m => frame m.1 m.2) <$> asks).

Lemma dns_answers_stream_witness : exists F p, pool_ok F p /\
  match foldM (fun e c => dns_do_read (deliver c) e) (conn1 p) [(0%nat, take 15 asks_stream); (1%nat, drop 15 asks_stream)] with
  | Ok e' => exists F', ep_ok fd_in_table [] F' e' []
      (frame ID_GetRouteResponse (msg_encode (route_response 1 1 route0)) ++ frame ID_GetRouteResponse (msg_encode (route_response 1 2 route0)))
  | Err f => f = ExitFailure \/ f = Blocked
  end.
Proof.
  destruct buf_pool_new_spec as (F & p & _ & Hp & _). exists F, p. split; [exact Hp|].
  destruct (dns_answers_stream [] F (conn1 p) [] [(0%nat, take 15 asks_stream); (1%nat, drop 15 asks_stream)] asks [] (conn1_ok F p Hp) eq_refl)
    as [Hr _].
  - by apply (bool_decide_unpack _).
  - vm_compute. discriminate.
  - vm_compute. reflexivity.
  - by apply (bool_decide_unpack _).
  - vm_compute. reflexivity.
  - assert (replies (route_reply (da_route (se_app (e_env (conn1 p))))) asks =
      frame ID_GetRouteResponse (msg_encode (route_response 1 1 route0)) ++ frame ID_GetRouteResponse (msg_encode (route_response 1 2 route0))) as Heq
      by (vm_compute; reflexivity).
    rewrite <-Heq. exact Hr.
Defined.

Lemma subscriptions_consistent_witness : exists (p : buf_pool) (x : env), x = e_env (conn1 p) /\
  forall fd m, fd ∈ sl_book (da_sub (se_app x)) !!! m <->
    exists self l, ts_conns (se_statics x) !! fd = Some (Some self) /\ da_param (se_app x) !! self = Some l /\ m ∈ l.
Proof.
  destruct buf_pool_new_spec as (F & p & _ & _ & _). exists p, (e_env (conn1 p)). split; [reflexivity|].
  exact (proj1 (subscriptions_consistent (T := unit) (K := gmap Z Z) 1008 1000 route0 (e_env (conn1 p)) (reach1 p))).
Defined.

(** 7 asked for (1,1), which has changed since. *)
Definition conn2 (p : buf_pool) : conn :=
  let e := subscribe_first (pack_key 1 1) (conn1 p) in
  set_env (set_sub (publish [pack_key 1 1] (da_sub (se_app (e_env e)))) (set_route route0 (e_env e))) e.

Lemma consistent2 p : consistent (e_env (conn2 p)).
Proof. apply consistent_book; [apply consistent_subscribe; [apply consistent1|reflexivity]|reflexivity]. Qed.

Lemma live2 p : live (conn2 p).
Proof. by vm_compute. Qed.

(** It closes, and 7 is given to another connection. *)
Lemma reused_descriptor_is_pushed_witness : exists (p : buf_pool) e1 (e2 : conn) w',
  clean_conn (Some clear_subscribe) (conn2 p) = Ok e1 /\
  tcp_conn_new (Some (create_subscribe (T := unit) (K := gmap Z Z))) 7 71 (event_loop_new ∅) p (e_env e1) = Ok e2 /\
  push_change_task {[7]} (DnsWorld (da_sub (se_app (e_env e2))) route0 (ts_conns (se_statics (e_env e2))) []) = Ok w' /\
  dw_sent w' = [(7, route_response 1 1 route0)].
Proof.
  destruct buf_pool_new_spec as (F & p & _ & _ & _). exists p.
  destruct (clean_conn (Some clear_subscribe) (conn2 p)) as [e1|f] eqn:Hclean; [|by vm_compute in Hclean].
  destruct (clean_conn_env _ _ Hclean) as (l & Hl & Hc1 & Ha1).
  destruct (tcp_conn_new (Some (create_subscribe (T := unit) (K := gmap Z Z))) 7 71 (event_loop_new ∅) p (e_env e1)) as [e2|f] eqn:Hnew.
  - destruct (tcp_conn_new_env _ _ _ _ _ _ Hnew) as (_ & Hc2 & Ha2 & _).
    destruct (reused_descriptor_is_pushed (conn2 p) e1 71 (event_loop_new ∅) p e2
      (DnsWorld (da_sub (se_app (e_env e2))) route0 (ts_conns (se_statics (e_env e2))) []) {[pack_key 1 1]}
      (consistent2 p) (live2 p) Hclean) as (_ & w' & Hw & Hs).
    + rewrite Ha1. vm_compute. reflexivity.
    + exact Hnew.
    + reflexivity.
    + rewrite Ha2, Ha1. reflexivity.
    + reflexivity.
    + vm_compute. reflexivity.
    + vm_compute. discriminate.
    + exists e1, e2, w'. split; [reflexivity|]. split; [exact Hnew|]. split; [exact Hw|]. rewrite Hs. vm_compute. reflexivity.
  - vm_compute in Hclean. injection Hclean as <-. vm_compute in Hnew. discriminate Hnew.
Defined.

(** Version 5 is found; (1,2) changed at version 4, since the last poll at 3. *)
Lemma poll_announces_newest_witness : exists r' s',
  check_route_changes (Poll 100 (Some [[Some (decimal 5)]]) (Some rows0) (change_rows [(1, 1, 5); (1, 2, 4)]))
    (0, RouteObj ∅ ∅ false 3, subscribe (pack_key 1 2) 7 SubscribeList_new) = Ok (100, r', s') /\
  pack_key 1 2 ∉ sl_push s' !!! 7.
Proof.
  destruct (poll_announces_newest 100 5 rows0 [(1, 1, 5); (1, 2, 4)] 0 (RouteObj ∅ ∅ false 3)
    (subscribe (pack_key 1 2) 7 SubscribeList_new)) as (r' & s' & Hc & _ & Hp & _).
  - lia.
  - discriminate.
  - repeat constructor; eexists; vm_compute; reflexivity.
  - repeat constructor; cbn; lia.
  - exists r', s'. split; [exact Hc|]. rewrite Hp. intros [Hin|((c & Hc1 & Hc2 & Hk) & _)].
    + vm_compute in Hin. discriminate Hin.
    + set_unfold in Hc1. destruct Hc1 as [->|[->|[]]]; [vm_compute in Hk; discriminate|cbn in Hc2; lia].
Defined.
End ServiceDemo.
