(* ===== verification/PushThreads.v ===== *)
(** * PushThreads: publications and the workers that push them, running together

    [publish] leaves the changed modules in [_push_list] and sends every worker of the
    thread pool a task; each worker then runs [push_change_task] for the connections
    of its own loop, while agents connect, subscribe and leave, the table is loaded
    anew and further changes are published.  Here all of them interleave: the part of
    a function under a lock is one step, and so are the sending of one response, the
    erasing of one entry and the sending of one task. *)

From S2P Require Import Prelude Keys Proto DnsRoute Subscribe DnsService.
From stdpp Require Import base numbers list gmap fin_maps relations.
From Stdlib Require Import ZArith Lia.
Open Scope Z_scope.

(** ** The loop of push_change_task, action by action *)

(** For one module of one descriptor: the response is sent, the entry erased. *)
Inductive push_action := Send (fd mod_ : Z) | Erase (fd : Z).

#[export] Instance push_action_eq_dec : EqDecision push_action.
Proof. solve_decision. Defined.

Definition action_fd (a : push_action) : Z := match a with Send fd _ | Erase fd => fd end.

Section actions.
Context `{HashOrder}.

Definition push_exec (w : dns_world) (a : push_action) : res dns_world :=
  match a with
  | Send fd mod_ =>
      let rsp := route_response (key_hi_int mod_) (key_lo_int mod_) (dw_route w) in
      conn ← of_option Uninit (dw_conns w !! fd);
      Ok (DnsWorld (dw_sub w) (dw_route w) (dw_conns w) (match conn with Some _ => dw_sent w ++ [(fd, rsp)] | None => dw_sent w end))
  | Erase fd => Ok (DnsWorld (SubList (sl_book (dw_sub w)) (delete fd (sl_push (dw_sub w)))) (dw_route w) (dw_conns w) (dw_sent w))
  end.

(** What a worker does with the map of [make_publish_map]. *)
Definition fd_actions (x : Z * gset Z) : list push_action := m ← hs_elements x.2; [Send x.1 m; Erase x.1].
Definition push_actions (need_publish : publish_map) : list push_action := x ← hm_elements need_publish; fd_actions x.

Lemma push_one_actions fd w m : push_one fd w m = foldM push_exec w [Send fd m; Erase fd].
Proof. unfold push_one. cbn [foldM push_exec]. by destruct (of_option _ _) as [[|]|]. Qed.

(** One after the other they are [push_change_task]. *)
Lemma push_all_actions need w : push_all need w = foldM push_exec w (push_actions need).
Proof.
  unfold push_all, push_actions. generalize (hm_elements need) as l. intros l. revert w.
  induction l as [|[fd mods] l IH]; intros w; [done|]. cbn [mbind list_bind]. rewrite foldM_app. cbn [foldM].
  assert (push_fd w (fd, mods) = foldM push_exec w (fd_actions (fd, mods))) as ->.
  { unfold push_fd, fd_actions. cbn [fst snd]. generalize (hs_elements mods) as k. clear. intros k. revert w.
    induction k as [|m k IH]; intros w; [done|]. cbn [mbind list_bind]. rewrite foldM_app, <-push_one_actions. cbn [foldM].
    destruct (push_one fd w m); [apply IH|done]. }
  destruct (foldM push_exec w _); [apply IH|done].
Qed.

Lemma push_change_task_actions online w :
  push_change_task online w = foldM push_exec w (push_actions (make_publish_map online (dw_sub w))).
Proof. apply push_all_actions. Qed.

Lemma elem_of_fd_actions x a : a ∈ fd_actions x <-> exists m, m ∈ x.2 /\ (a = Send x.1 m \/ a = Erase x.1).
Proof.
  unfold fd_actions. rewrite list_elem_of_bind. setoid_rewrite elem_of_hs_elements. split; intros (m & ? & ?); exists m; set_solver.
Qed.

(** Which actions a task consists of. *)
Lemma elem_of_push_actions online s a :
  a ∈ push_actions (make_publish_map online s) <->
  action_fd a ∈ online /\ match a with Send fd m => m ∈ sl_push s !!! fd | Erase fd => sl_push s !!! fd <> ∅ end.
Proof.
  unfold push_actions. rewrite list_elem_of_bind. split.
  - intros ([fd mods] & Ha & Hin). apply elem_of_fd_actions in Ha as (m & Hm & Ha). cbn in *.
    rewrite hm_elements_perm in Hin. apply elem_of_map_to_list, map_lookup_filter_Some in Hin as [Hp [Hon Hne]]. cbn in *.
    assert (sl_push s !!! fd = mods) as Ht by (by rewrite lookup_total_alt, Hp). destruct Ha as [-> | ->]; cbn; by rewrite Ht.
  - intros [Hon Ha]. set (fd := action_fd a) in *.
    assert (exists mods m, sl_push s !! fd = Some mods /\ m ∈ mods /\ (a = Send fd m \/ a = Erase fd)) as (mods & m & Hp & Hm & Hc).
    { destruct a as [fd' m|fd']; subst fd; cbn in *; rewrite lookup_total_alt in Ha; destruct (sl_push s !! fd') as [mods|] eqn:Hp; cbn in Ha;
        [by exists mods, m; auto|by apply elem_of_empty in Ha| |done].
      apply set_choose_L in Ha as [m Hm]. by exists mods, m; auto. }
    exists (fd, mods). split; [apply elem_of_fd_actions; by exists m|]. rewrite hm_elements_perm. apply elem_of_map_to_list.
    apply map_lookup_filter_Some. cbn. split; [done|]. split; [done|set_solver].
Qed.
End actions.

(** ** The threads *)

(** A worker: the descriptor of its queue, the connections of its loop, the tasks in
    its queue, what is left of the task it runs. *)
Record worker := Worker {
  wk_evfd : Z;
  wk_conns : gset Z;
  wk_tasks : nat;
  wk_todo : list push_action
}.
Definition wk_set_todo (todo : list push_action) (wk : worker) : worker := Worker (wk_evfd wk) (wk_conns wk) (wk_tasks wk) todo.
Definition wk_set_conns (fds : gset Z) (wk : worker) : worker := Worker (wk_evfd wk) fds (wk_tasks wk) (wk_todo wk).
Definition wk_add_task (wk : worker) : worker := Worker (wk_evfd wk) (wk_conns wk) (S (wk_tasks wk)) (wk_todo wk).

(** [loop->get_listen_fds()] *)
Definition listen_fds (wk : worker) : gset Z := {[wk_evfd wk]} ∪ wk_conns wk.

(** A change of module [mod_] is too late for [fd] when the task of its worker has yet
    to erase the entry of [fd] but not to send [mod_] to it. *)
Definition too_late (wks : list worker) (fd mod_ : Z) : bool :=
  existsb (fun wk => bool_decide (Erase fd ∈ wk_todo wk) && negb (bool_decide (Send fd mod_ ∈ wk_todo wk))) wks.

(** [pt_notify]: the workers [publish] has still to send its task to.  [pt_owed] is the
    ledger: the descriptors a change was published to, who have not been sent the
    module since, with whether it was too late. *)
Record push_threads := PushThreads {
  pt_world : dns_world;
  pt_workers : list worker;
  pt_notify : list nat;
  pt_owed : gmap (Z * Z) bool
}.

Definition publish_owed (changes : list Z) (s : push_threads) : gmap (Z * Z) bool :=
  let subscribers := m ← changes; fd ← elements (sl_book (dw_sub (pt_world s)) !!! m); [((fd, m), too_late (pt_workers s) fd m)] in
  list_to_map subscribers ∪ pt_owed s.

(** The connection is sent the module. *)
Definition exec_owed (w : dns_world) (a : push_action) (owed : gmap (Z * Z) bool) : gmap (Z * Z) bool :=
  match a with
  | Send fd mod_ => match dw_conns w !! fd with Some (Some _) => delete (fd, mod_) owed | _ => owed end
  | Erase _ => owed
  end.
Definition close_owed (fd : Z) (owed : gmap (Z * Z) bool) : gmap (Z * Z) bool := filter (fun x => x.1.1 <> fd) owed.

Lemma publish_owed_lookup changes s fd m :
  publish_owed changes s !! (fd, m) =
  if decide (m ∈ changes /\ fd ∈ sl_book (dw_sub (pt_world s)) !!! m) then Some (too_late (pt_workers s) fd m) else pt_owed s !! (fd, m).
Proof.
  unfold publish_owed. set (l := m ← changes; _).
  assert (forall x late, (x, late) ∈ l <-> (x.2 ∈ changes /\ x.1 ∈ sl_book (dw_sub (pt_world s)) !!! x.2) /\ late = too_late (pt_workers s) x.1 x.2) as Hl.
  { intros [f m'] late. unfold l. setoid_rewrite list_elem_of_bind. setoid_rewrite list_elem_of_bind. setoid_rewrite list_elem_of_singleton.
    setoid_rewrite elem_of_elements. naive_solver. }
  rewrite lookup_union. case_decide as Hc.
  - rewrite (elem_of_list_to_map_1' l (fd, m) (too_late (pt_workers s) fd m)); [by destruct (pt_owed s !! _)| |by apply Hl].
    by intros y [_ ->]%Hl.
  - rewrite not_elem_of_list_to_map_1; [by destruct (pt_owed s !! _)|]. intros Hin. apply list_elem_of_fmap in Hin as ([x late] & Hx & Hin).
    cbn in Hx. subst x. apply Hl in Hin as [Hin _]. by apply Hc.
Qed.

Definition set_sub (f : SubscribeList -> SubscribeList) (w : dns_world) : dns_world :=
  DnsWorld (f (dw_sub w)) (dw_route w) (dw_conns w) (dw_sent w).
Definition set_conn (fd : Z) (c : option Z) (w : dns_world) : dns_world :=
  DnsWorld (dw_sub w) (dw_route w) (<[fd := c]> (dw_conns w)) (dw_sent w).

Section threads.
Context `{HashOrder}.
Implicit Types (s : push_threads) (wk : worker).

(** What the threads do to get a publication done: [send_task] to the next worker, the
    start of [push_change_task] (up to [make_publish_map]) and its next action. *)
Inductive worker_step : push_threads -> push_threads -> Prop :=
| pt_send_task i wk rest s :
    pt_notify s = i :: rest -> pt_workers s !! i = Some wk ->
    worker_step s (PushThreads (pt_world s) (<[i := wk_add_task wk]> (pt_workers s)) rest (pt_owed s))
| pt_start i evfd fds tasks s :
    pt_workers s !! i = Some (Worker evfd fds (S tasks) []) ->
    let online_fds := listen_fds (Worker evfd fds (S tasks) []) in
    worker_step s (PushThreads (pt_world s)
      (<[i := Worker evfd fds tasks (push_actions (make_publish_map online_fds (dw_sub (pt_world s))))]> (pt_workers s)) (pt_notify s) (pt_owed s))
| pt_action i wk a rest w s :
    pt_workers s !! i = Some wk -> wk_todo wk = a :: rest -> push_exec (pt_world s) a = Ok w ->
    worker_step s (PushThreads w (<[i := wk_set_todo rest wk]> (pt_workers s)) (pt_notify s) (exec_owed (pt_world s) a (pt_owed s))).

(** Everything that happens.  A worker handles its connections between tasks; the
    operating system does not hand out a descriptor that is open. *)
Inductive pt_step : push_threads -> push_threads -> Prop :=
| pt_worker s s' : worker_step s s' -> pt_step s s'
(** [publish] by [check_route_changes], and [swap] *)
| pt_publish changes s :
    pt_notify s = [] ->
    pt_step s (PushThreads (set_sub (publish changes) (pt_world s)) (pt_workers s) (seq 0 (length (pt_workers s))) (publish_owed changes s))
| pt_reload r s :
    pt_step s (PushThreads (DnsWorld (dw_sub (pt_world s)) r (dw_conns (pt_world s)) (dw_sent (pt_world s))) (pt_workers s) (pt_notify s) (pt_owed s))
(** a new connection; [get_route] for a module; the end of a connection, with
    [clear_subscribe] for the modules it has subscribed to *)
| pt_connect i wk fd self s :
    pt_workers s !! i = Some wk -> wk_todo wk = [] -> Forall (fun wk => fd ∉ listen_fds wk) (pt_workers s) ->
    pt_step s (PushThreads (set_conn fd (Some self) (pt_world s)) (<[i := wk_set_conns ({[fd]} ∪ wk_conns wk) wk]> (pt_workers s)) (pt_notify s) (pt_owed s))
| pt_subscribe i wk fd mod_ s :
    pt_workers s !! i = Some wk -> wk_todo wk = [] -> fd ∈ wk_conns wk ->
    pt_step s (PushThreads (set_sub (subscribe mod_ fd) (pt_world s)) (pt_workers s) (pt_notify s) (pt_owed s))
| pt_close i wk fd mods s :
    pt_workers s !! i = Some wk -> wk_todo wk = [] -> fd ∈ wk_conns wk ->
    (forall m, fd ∈ sl_book (dw_sub (pt_world s)) !!! m -> m ∈ mods) ->
    pt_step s (PushThreads (set_conn fd None (set_sub (fold_left (fun sub m => unsubscribe m fd sub) mods) (pt_world s)))
                 (<[i := wk_set_conns (wk_conns wk ∖ {[fd]}) wk]> (pt_workers s)) (pt_notify s) (close_owed fd (pt_owed s))).

(** A service whose workers have just started. *)
Definition pt_start_state (evfds : list Z) (r : Route) (conns : gmap Z (option Z)) : push_threads :=
  PushThreads (DnsWorld SubscribeList_new r conns []) ((fun evfd => Worker evfd ∅ 0 []) <$> evfds) [] ∅.

Inductive pt_reachable (s0 : push_threads) : push_threads -> Prop :=
| pt_init : pt_reachable s0 s0
| pt_next s s' : pt_reachable s0 s -> pt_step s s' -> pt_reachable s0 s'.
End threads.

(** ** Invariants *)

(** Behind every [Send] of a task the entry of its descriptor is still to be erased. *)
Fixpoint erased_after (todo : list push_action) : Prop :=
  match todo with
  | [] => True
  | Send fd _ :: todo => Erase fd ∈ todo /\ erased_after todo
  | Erase _ :: todo => erased_after todo
  end.

Lemma erased_after_app l1 l2 : erased_after l1 -> erased_after l2 -> erased_after (l1 ++ l2).
Proof. induction l1 as [|[fd m|fd] l1 IH]; cbn; set_solver. Qed.

Lemma erased_after_Send todo fd m : erased_after todo -> Send fd m ∈ todo -> Erase fd ∈ todo.
Proof. induction todo as [|[fd' m'|fd'] todo IH]; cbn; set_solver. Qed.

Lemma erased_after_tail a todo : erased_after (a :: todo) -> erased_after todo.
Proof. destruct a; cbn; tauto. Qed.

Lemma erased_after_actions `{HashOrder} need : erased_after (push_actions need).
Proof.
  unfold push_actions. induction (hm_elements need) as [|[fd mods] l IH]; cbn [mbind list_bind]; [done|].
  apply erased_after_app; [|done]. unfold fd_actions. cbn [fst snd].
  induction (hs_elements mods) as [|m k IHk]; cbn [mbind list_bind]; [done|]. apply erased_after_app; [|done]. cbn. set_solver.
Qed.

(** No descriptor is watched by two workers. *)
Definition disjoint_fds (l : list (gset Z)) : Prop :=
  forall i j X Y (fd : Z), l !! i = Some X -> l !! j = Some Y -> fd ∈ X -> fd ∈ Y -> i = j.

(** The connections of a worker are in the table, its task is about them only, and
    its queue has no entry of [_push_list]. *)
Record worker_ok (w : dns_world) (wk : worker) : Prop := {
  wo_evfd : wk_evfd wk ∉ wk_conns wk;
  wo_conns fd : fd ∈ wk_conns wk -> exists c, dw_conns w !! fd = Some (Some c);
  wo_todo a : a ∈ wk_todo wk -> action_fd a ∈ wk_conns wk;
  wo_erased : erased_after (wk_todo wk);
  wo_push : sl_push (dw_sub w) !!! wk_evfd wk = ∅
}.

Record pt_wf (s : push_threads) : Prop := {
  pw_workers : Forall (worker_ok (pt_world s)) (pt_workers s);
  pw_disjoint : disjoint_fds (listen_fds <$> pt_workers s);
  pw_book fd m : fd ∈ sl_book (dw_sub (pt_world s)) !!! m -> exists i wk, pt_workers s !! i = Some wk /\ fd ∈ wk_conns wk;
  pw_notify i : i ∈ pt_notify s -> (i < length (pt_workers s))%nat
}.

(** What an entry of the ledger says of the worker of the connection. *)
Definition promise (s : push_threads) (fd m : Z) (i : nat) (wk : worker) (late : bool) : Prop :=
  let due := m ∈ sl_push (dw_sub (pt_world s)) !!! fd in
  if late then (Send fd m ∉ wk_todo wk) /\ (due -> Erase fd ∈ wk_todo wk)
  else Send fd m ∈ wk_todo wk \/ due /\ (Erase fd ∉ wk_todo wk) /\ (wk_tasks wk <> 0%nat \/ i ∈ pt_notify s).

Definition ledger_ok (s : push_threads) : Prop :=
  forall fd m late, pt_owed s !! (fd, m) = Some late ->
    exists i wk, pt_workers s !! i = Some wk /\ fd ∈ wk_conns wk /\ promise s fd m i wk late.

Section invariants.
Context `{HashOrder}.
Implicit Types (s : push_threads) (wk : worker).

Lemma disjoint_same l i X : disjoint_fds l -> l !! i = Some X -> disjoint_fds (<[i := X]> l).
Proof. intros Hd Hi. by rewrite list_insert_id. Qed.

(** A set of descriptors gets one nobody has, or loses some. *)
Lemma disjoint_insert l i X Y :
  disjoint_fds l -> l !! i = Some X -> (forall fd, fd ∈ Y -> fd ∈ X \/ Forall (fun Z => fd ∉ Z) l) -> disjoint_fds (<[i := Y]> l).
Proof.
  intros Hd Hi HY. assert (forall j Z fd, i <> j -> l !! j = Some Z -> fd ∈ Y -> fd ∈ Z -> False) as Hfalse.
  { intros j Z fd Hne Hj HfY HfZ. destruct (HY fd HfY) as [HX|Hf]; [by apply Hne, (Hd i j X Z fd)|]. by eapply (Forall_lookup_1 _ _ _ _ Hf Hj). }
  intros j k A B fd HA HB HfA HfB. apply list_lookup_insert_Some in HA as [(-> & <- & _)|[Hij HA]], HB as [(-> & <- & _)|[Hik HB]]; [done| | |by eapply Hd].
  - by destruct (Hfalse _ _ _ Hik HB HfA HfB).
  - by destruct (Hfalse _ _ _ Hij HA HfB HfA).
Qed.

(** The worker of a connection is the only one to know of it. *)
Lemma owner_unique s i j wk wk' fd :
  pt_wf s -> pt_workers s !! i = Some wk -> pt_workers s !! j = Some wk' -> fd ∈ wk_conns wk -> fd ∈ wk_conns wk' -> i = j /\ wk = wk'.
Proof.
  intros Hs Hi Hj Hf Hf'. assert (i = j) as ->; [|split; [done|congruence]].
  apply (pw_disjoint _ Hs i j (listen_fds wk) (listen_fds wk') fd); rewrite ?list_lookup_fmap, ?Hi, ?Hj; unfold listen_fds; set_solver.
Qed.

Lemma worker_at s i wk : pt_wf s -> pt_workers s !! i = Some wk -> worker_ok (pt_world s) wk.
Proof. intros Hs Hi. by eapply Forall_lookup_1; [apply Hs|]. Qed.

Lemma too_late_spec s i wk fd m :
  pt_wf s -> pt_workers s !! i = Some wk -> fd ∈ wk_conns wk ->
  too_late (pt_workers s) fd m = bool_decide (Erase fd ∈ wk_todo wk) && negb (bool_decide (Send fd m ∈ wk_todo wk)).
Proof.
  intros Hs Hi Hf. unfold too_late. apply eq_bool_prop_intro. rewrite existb_True, Exists_exists. split.
  - intros (wk' & Hin & Hb). apply list_elem_of_lookup in Hin as [j Hj].
    assert (fd ∈ wk_conns wk') as Hf'.
    { apply (wo_todo _ _ (worker_at s j wk' Hs Hj) (Erase fd)). by apply andb_prop_elim in Hb as [?%bool_decide_unpack _]. }
    by destruct (owner_unique s i j wk wk' fd Hs Hi Hj Hf Hf') as [_ ->].
  - intros Hb. exists wk. split; [by eapply list_elem_of_lookup_2|done].
Qed.

(** *** The threads keep to their connections *)

(** What can change of the world without the workers minding. *)
Lemma worker_ok_world w w' wk :
  dw_conns w' = dw_conns w -> sl_push (dw_sub w') !!! wk_evfd wk ⊆ sl_push (dw_sub w) !!! wk_evfd wk ->
  worker_ok w wk -> worker_ok w' wk.
Proof. intros Hc Hp [He Hcs Ht Her Hpu]. split; [done|by rewrite Hc|done|done|set_solver]. Qed.

Lemma wf_worker s i wk wk' w notify owed :
  pt_wf s -> pt_workers s !! i = Some wk -> listen_fds wk' = listen_fds wk -> wk_conns wk' = wk_conns wk ->
  sl_book (dw_sub w) = sl_book (dw_sub (pt_world s)) -> notify ⊆ pt_notify s ->
  Forall (worker_ok w) (pt_workers s) -> worker_ok w wk' ->
  pt_wf (PushThreads w (<[i := wk']> (pt_workers s)) notify owed).
Proof.
  intros [Hw Hd Hb Hn] Hi Hl Hc Hbk Hno Hall Hok. split; cbn.
  - by apply Forall_insert.
  - rewrite list_fmap_insert. apply disjoint_same; [done|]. by rewrite list_lookup_fmap, Hi, Hl.
  - intros fd m. rewrite Hbk. intros (j & wkj & Hj & Hf)%Hb. destruct (decide (i = j)) as [<-|Hne].
    + exists i, wk'. rewrite list_lookup_insert_eq by (by eapply lookup_lt_Some). split; [done|]. rewrite Hc. congruence.
    + exists j, wkj. by rewrite list_lookup_insert_ne.
  - intros j Hj. rewrite length_insert. by apply Hn, Hno.
Qed.

Lemma push_exec_world w a w' :
  push_exec w a = Ok w' -> dw_conns w' = dw_conns w /\ dw_route w' = dw_route w /\ sl_book (dw_sub w') = sl_book (dw_sub w) /\
    forall fd m, m ∈ sl_push (dw_sub w') !!! fd <-> m ∈ sl_push (dw_sub w) !!! fd /\ a <> Erase fd.
Proof.
  destruct a as [fd m|fd]; cbn; intros He; [apply bind_ok in He as (c & _ & [= <-])|injection He as <-]; cbn.
  - split_and!; try done. intros fd' m'. split; [by split|by intros [? _]].
  - split_and!; try done. intros fd' m'. destruct (decide (fd = fd')) as [<-|Hne].
    + rewrite lookup_total_delete_eq. split; [set_solver|]. by intros [_ []].
    + rewrite lookup_total_delete_ne by done. split; [split; [done|congruence]|by intros [? _]].
Qed.

Lemma wf_worker_step s s' : pt_wf s -> worker_step s s' -> pt_wf s'.
Proof.
  intros Hs Hstep. destruct Hstep as [i wk rest s Hn Hi|i evfd fds tasks s Hi online|i wk a rest w s Hi Ha He].
  - pose proof (worker_at _ _ _ Hs Hi) as []. apply (wf_worker s i wk); [done|done|done|done|done|rewrite Hn; set_solver|apply Hs|done].
  - pose proof (worker_at _ _ _ Hs Hi) as [Hev Hc Ht Her Hp]. eapply wf_worker; [done|exact Hi|done|done|done|done|apply Hs|].
    split; cbn in *; [done|done| |apply erased_after_actions|done].
    intros a Ha. apply elem_of_push_actions in Ha as [Hon Ha]. unfold online, listen_fds in Hon. cbn in Hon.
    apply elem_of_union in Hon as [Hon%elem_of_singleton|Hon]; [|done]. rewrite <-Hon in Hp. destruct a; cbn in Hp; set_solver.
  - destruct (push_exec_world _ _ _ He) as (Hc & _ & Hb & Hp).
    assert (forall wk, worker_ok (pt_world s) wk -> worker_ok w wk) as Hok.
    { intros wk1. apply worker_ok_world; [done|]. intros m. rewrite Hp. tauto. }
    pose proof (worker_at _ _ _ Hs Hi) as Hwk. eapply wf_worker; [done|exact Hi|done|done|done|done| |].
    + eapply Forall_impl; [apply Hs|exact Hok].
    + apply Hok in Hwk as [Hev Hcs Ht Her Hpu]. rewrite Ha in Ht, Her.
      split; cbn; [done|done|set_solver|by eapply erased_after_tail|done].
Qed.

(** No one subscribes a queue. *)
Lemma book_not_evfd s i wk m : pt_wf s -> pt_workers s !! i = Some wk -> wk_evfd wk ∉ sl_book (dw_sub (pt_world s)) !!! m.
Proof.
  intros Hs Hi (j & wk' & Hj & Hf)%(pw_book _ Hs). assert (i = j) as <-.
  { apply (pw_disjoint _ Hs i j (listen_fds wk) (listen_fds wk') (wk_evfd wk)); rewrite ?list_lookup_fmap, ?Hi, ?Hj; unfold listen_fds; set_solver. }
  rewrite Hi in Hj. injection Hj as <-. by apply (wo_evfd _ _ (worker_at _ _ _ Hs Hi)).
Qed.

Lemma wf_publish s changes :
  pt_wf s -> pt_wf (PushThreads (set_sub (publish changes) (pt_world s)) (pt_workers s) (seq 0 (length (pt_workers s))) (publish_owed changes s)).
Proof.
  intros Hs. pose proof Hs as [Hw Hd Hb Hn]. split; [|done|done|intros i Hi; apply elem_of_seq in Hi; cbn; lia].
  apply Forall_lookup. intros i wk Hi. apply (worker_ok_world (pt_world s)); [done| |by eapply Forall_lookup_1].
  intros m. cbn [dw_sub pt_world set_sub]. rewrite publish_push. intros [?|[_ Hin]]; [done|]. by eapply book_not_evfd in Hin.
Qed.

(** The operations of a connection change the worker's own set and one descriptor. *)
Lemma wf_connect s i wk fd self owed :
  pt_wf s -> pt_workers s !! i = Some wk -> wk_todo wk = [] -> Forall (fun wk => fd ∉ listen_fds wk) (pt_workers s) ->
  pt_wf (PushThreads (set_conn fd (Some self) (pt_world s)) (<[i := wk_set_conns ({[fd]} ∪ wk_conns wk) wk]> (pt_workers s)) (pt_notify s) owed).
Proof.
  intros Hs Hi Htodo Hfree. pose proof Hs as [Hw Hd Hb Hn].
  assert (forall wk, worker_ok (pt_world s) wk -> worker_ok (set_conn fd (Some self) (pt_world s)) wk) as Hok.
  { intros wk' [He Hc Ht Her Hp]. split; [done| |done|done|done]. intros f Hf. cbn. destruct (decide (fd = f)) as [->|Hne].
    - rewrite lookup_insert_eq. by eexists.
    - rewrite lookup_insert_ne by done. by apply Hc. }
  pose proof (Hok _ (worker_at _ _ _ Hs Hi)) as [He Hc Ht Her Hp].
  pose proof (Forall_lookup_1 _ _ _ _ Hfree Hi) as Hnew. unfold listen_fds in Hnew. split; cbn.
  - apply Forall_insert; [by eapply Forall_impl|]. split; cbn in *; [set_solver| |set_solver|done|done].
    intros f [->%elem_of_singleton|Hf]%elem_of_union; [rewrite lookup_insert_eq; by eexists|by apply Hc].
  - rewrite list_fmap_insert. eapply disjoint_insert; [done|by rewrite list_lookup_fmap, Hi|]. intros f Hf.
    destruct (decide (f = fd)) as [->|Hne]; [right; by apply Forall_fmap|left]. unfold listen_fds in *. cbn in *. set_solver.
  - intros f m (j & wkj & Hj & Hf)%Hb. destruct (decide (i = j)) as [<-|Hne].
    + exists i. eexists. rewrite list_lookup_insert_eq by (by eapply lookup_lt_Some). split; [done|]. rewrite Hi in Hj. injection Hj as <-. cbn. set_solver.
    + exists j, wkj. by rewrite list_lookup_insert_ne.
  - intros j Hj. rewrite length_insert. by apply Hn.
Qed.

Lemma wf_subscribe s i wk fd mod_ :
  pt_wf s -> pt_workers s !! i = Some wk -> fd ∈ wk_conns wk ->
  pt_wf (PushThreads (set_sub (subscribe mod_ fd) (pt_world s)) (pt_workers s) (pt_notify s) (pt_owed s)).
Proof.
  intros Hs Hi Hf. pose proof Hs as [Hw Hd Hb Hn]. split; [|done| |done].
  - eapply Forall_impl; [exact Hw|]. intros wk'. by apply worker_ok_world.
  - intros f m. cbn [pt_world set_sub dw_sub pt_workers]. rewrite subscribe_book. intros [?|[-> ->]]; [by eapply Hb|by exists i, wk].
Qed.

Lemma wf_close s i wk fd mods owed :
  pt_wf s -> pt_workers s !! i = Some wk -> wk_todo wk = [] -> fd ∈ wk_conns wk ->
  (forall m, fd ∈ sl_book (dw_sub (pt_world s)) !!! m -> m ∈ mods) ->
  pt_wf (PushThreads (set_conn fd None (set_sub (fold_left (fun sub m => unsubscribe m fd sub) mods) (pt_world s)))
          (<[i := wk_set_conns (wk_conns wk ∖ {[fd]}) wk]> (pt_workers s)) (pt_notify s) owed).
Proof.
  intros Hs Hi Htodo Hf Hmods. pose proof Hs as [Hw Hd Hb Hn].
  assert (forall w wk', worker_ok w wk' -> fd ∉ wk_conns wk' ->
    worker_ok (set_conn fd None (set_sub (fold_left (fun sub m => unsubscribe m fd sub) mods) w)) wk') as Hok.
  { intros w wk' [He Hc Ht Her Hp] Hno. split; [done| |done|done|]; cbn; [|by rewrite unsubscribe_all_push].
    intros f Hff. rewrite lookup_insert_ne by (intros ->; done). by apply Hc. }
  pose proof (worker_at _ _ _ Hs Hi) as [He Hc Ht Her Hp]. split; cbn.
  - apply Forall_lookup. intros j wkj [(<- & <- & _)|[Hne Hj]]%list_lookup_insert_Some.
    + apply Hok; [|cbn; set_solver]. split; cbn; [set_solver| |by rewrite Htodo; set_solver|done|done]. intros f ?. apply Hc. set_solver.
    + apply Hok; [by eapply worker_at|]. intros Hff. by apply Hne, (owner_unique s i j wk wkj fd).
  - rewrite list_fmap_insert. eapply disjoint_insert; [done|by rewrite list_lookup_fmap, Hi|]. intros f Hff. left.
    unfold listen_fds in *. cbn in *. set_solver.
  - intros f m. rewrite unsubscribe_all_book. intros [Hbk Hno]. assert (f <> fd) as Hne by (intros ->; naive_solver).
    destruct (Hb _ _ Hbk) as (j & wkj & Hj & Hff). destruct (decide (i = j)) as [<-|Hij].
    + exists i. eexists. rewrite list_lookup_insert_eq by (by eapply lookup_lt_Some). split; [done|]. rewrite Hi in Hj. injection Hj as <-. cbn. set_solver.
    + exists j, wkj. by rewrite list_lookup_insert_ne.
  - intros j Hj. rewrite length_insert. by apply Hn.
Qed.

Lemma wf_step s s' : pt_wf s -> pt_step s s' -> pt_wf s'.
Proof.
  intros Hs Hstep. destruct Hstep as [s s' Hw|changes s Hn|r s|i wk fd self s|i wk fd m s|i wk fd mods s].
  - by eapply wf_worker_step.
  - by apply wf_publish.
  - destruct Hs as [Hw Hd Hb Hn]. split; [|done|done|done]. eapply Forall_impl; [exact Hw|]. intros wk. by apply worker_ok_world.
  - by apply wf_connect.
  - by eapply wf_subscribe.
  - by apply wf_close.
Qed.

(** *** The ledger keeps its word *)

(** A worker after worker [i] has become [wk']. *)
Lemma worker_insert s i wk wk' j wkj :
  pt_workers s !! i = Some wk -> pt_workers s !! j = Some wkj ->
  exists wkj', <[i := wk']> (pt_workers s) !! j = Some wkj' /\ ((i = j /\ wkj = wk /\ wkj' = wk') \/ (i <> j /\ wkj' = wkj)).
Proof.
  intros Hi Hj. destruct (decide (i = j)) as [<-|Hne].
  - exists wk'. rewrite list_lookup_insert_eq by (by eapply lookup_lt_Some). split; [done|]. left. split; [done|]. split; [congruence|done].
  - exists wkj. rewrite list_lookup_insert_ne by done. split; [done|]. by right.
Qed.

Lemma ledger_worker_step s s' : pt_wf s -> ledger_ok s -> worker_step s s' -> ledger_ok s'.
Proof.
  intros Hs Hl Hstep fd m late Ho. destruct Hstep as [i wk rest s Hn Hi|i evfd fds tasks s Hi online|i wk a rest w s Hi Ha He]; cbn in Ho.
  - destruct (Hl _ _ _ Ho) as (j & wkj & Hj & Hf & Hp). destruct (worker_insert s i wk (wk_add_task wk) j wkj Hi Hj) as (wkj' & Hj' & Hc).
    exists j, wkj'. split; [done|]. unfold promise in *. cbn [pt_world pt_notify] in *. rewrite Hn in Hp.
    destruct Hc as [(<- & -> & ->)|[Hne ->]]; (split; [done|]); destruct late; [done| |done|]; cbn; [naive_solver|].
    destruct Hp as [?|(? & ? & Ht)]; [by left|right]. split; [done|]. split; [done|]. set_solver.
  - destruct (Hl _ _ _ Ho) as (j & wkj & Hj & Hf & Hp).
    destruct (worker_insert s i _ (Worker evfd fds tasks (push_actions (make_publish_map online (dw_sub (pt_world s))))) j wkj Hi Hj) as (wkj' & Hj' & Hc).
    exists j, wkj'. split; [done|]. destruct Hc as [(<- & -> & ->)|[Hne ->]]; [|done]. split; [done|]. unfold promise in *. cbn in Hp |- *.
    destruct late.
    + destruct Hp as [_ Hp]. split; [|by intros ?%Hp%not_elem_of_nil]. by intros [_ ?%Hp%not_elem_of_nil]%elem_of_push_actions.
    + destruct Hp as [Hp|[Hp _]]; [set_solver|]. left. apply elem_of_push_actions. split; [|done]. unfold online, listen_fds. set_solver.
  - destruct (push_exec_world _ _ _ He) as (_ & _ & _ & Hpush).
    assert (pt_owed s !! (fd, m) = Some late) as Hold.
    { destruct a as [fd' m'|]; cbn in Ho; [|done]. destruct (dw_conns _ !! fd') as [[]|]; [by apply lookup_delete_Some in Ho as [_ ?]|done|done]. }
    destruct (Hl _ _ _ Hold) as (j & wkj & Hj & Hf & Hp). destruct (worker_insert s i wk (wk_set_todo rest wk) j wkj Hi Hj) as (wkj' & Hj' & Hc).
    exists j, wkj'. split; [done|]. unfold promise in *. cbn [pt_world pt_notify]. destruct Hc as [(<- & -> & ->)|[Hne ->]]; (split; [done|]).
    + cbn [wk_todo wk_set_todo wk_tasks]. specialize (Hpush fd m). rewrite Ha in Hp. destruct late; [set_solver|].
      destruct Hp as [[<-|Hp]%elem_of_cons|Hp]; [|by left|right; set_solver]. exfalso. cbn in Ho.
      destruct (wo_conns _ _ (worker_at _ _ _ Hs Hi) fd Hf) as [c Hcon]. by rewrite Hcon, lookup_delete_eq in Ho.
    + specialize (Hpush fd m). assert (a <> Erase fd) as Hae; [|destruct late; tauto]. intros ->.
      apply Hne, (owner_unique s i j wk wkj fd Hs Hi Hj); [|done]. apply (wo_todo _ _ (worker_at _ _ _ Hs Hi) (Erase fd)). rewrite Ha. by left.
Qed.

Lemma ledger_publish s changes :
  pt_wf s -> ledger_ok s ->
  ledger_ok (PushThreads (set_sub (publish changes) (pt_world s)) (pt_workers s) (seq 0 (length (pt_workers s))) (publish_owed changes s)).
Proof.
  intros Hs Hl fd m late Ho. cbn [pt_owed] in Ho. rewrite publish_owed_lookup in Ho.
  assert (forall i wk, pt_workers s !! i = Some wk -> i ∈ seq 0 (length (pt_workers s))) as Hall.
  { intros i wk Hi. apply elem_of_seq. apply lookup_lt_Some in Hi. lia. }
  case_decide as Hc; unfold promise; cbn [pt_world pt_notify pt_workers set_sub dw_sub].
  - destruct (pw_book _ Hs fd m) as (i & wk & Hi & Hf); [tauto|]. exists i, wk. split; [done|]. split; [done|].
    injection Ho as <-. rewrite (too_late_spec s i wk) by done.
    assert (m ∈ sl_push (publish changes (dw_sub (pt_world s))) !!! fd) as Hdue by (apply publish_push; tauto).
    destruct (bool_decide_reflect (Erase fd ∈ wk_todo wk)), (bool_decide_reflect (Send fd m ∈ wk_todo wk)); cbn; [by left|done|by left|].
    right. split; [done|]. split; [done|]. right. by eapply Hall.
  - destruct (Hl _ _ _ Ho) as (i & wk & Hi & Hf & Hp). exists i, wk. split; [done|]. split; [done|]. unfold promise in Hp.
    pose proof (publish_push changes (dw_sub (pt_world s)) fd m) as Hpp. destruct late; [tauto|].
    destruct Hp as [?|(? & ? & _)]; [by left|right]. split; [tauto|]. split; [done|]. right. by eapply Hall.
Qed.

Lemma ledger_step s s' : pt_wf s -> ledger_ok s -> pt_step s s' -> ledger_ok s'.
Proof.
  intros Hs Hl Hstep. destruct Hstep as [s s' Hw|changes s Hn|r s|i wk fd self s Hi Htodo Hfree|i wk fd m s|i wk fd mods s Hi Htodo Hfd Hmods].
  - by eapply ledger_worker_step.
  - by apply ledger_publish.
  - exact Hl.
  - intros f m late Ho. destruct (Hl _ _ _ Ho) as (j & wkj & Hj & Hf & Hp).
    destruct (worker_insert s i wk (wk_set_conns ({[fd]} ∪ wk_conns wk) wk) j wkj Hi Hj) as (wkj' & Hj' & Hc). exists j, wkj'. split; [done|].
    destruct Hc as [(<- & -> & ->)|[Hne ->]]; [|done]. split; [cbn; set_solver|done].
  - exact Hl.
  - intros f m late Ho. cbn [pt_owed] in Ho. apply map_lookup_filter_Some in Ho as [Ho Hne]. cbn in Hne. destruct (Hl _ _ _ Ho) as (j & wkj & Hj & Hf & Hp).
    destruct (worker_insert s i wk (wk_set_conns (wk_conns wk ∖ {[fd]}) wk) j wkj Hi Hj) as (wkj' & Hj' & Hc). exists j, wkj'. split; [done|].
    unfold promise in *. cbn [pt_world set_conn set_sub dw_sub pt_notify]. rewrite unsubscribe_all_push.
    destruct Hc as [(<- & -> & ->)|[_ ->]]; [|done]. split; [cbn; set_solver|done].
Qed.

Lemma start_wf evfds r conns : NoDup evfds -> pt_wf (pt_start_state evfds r conns) /\ ledger_ok (pt_start_state evfds r conns).
Proof.
  intros Hnd. split; [|done]. split; cbn.
  - apply Forall_fmap, Forall_forall. intros fd _. split; cbn; [set_solver|set_solver|set_solver|done|done].
  - intros i j X Y fd. rewrite !list_lookup_fmap. intros Hi Hj. destruct (evfds !! i) as [x|] eqn:Hx, (evfds !! j) as [y|] eqn:Hy; try done.
    injection Hi as <-. injection Hj as <-. unfold listen_fds. cbn. intros Hfx Hfy. eapply NoDup_lookup; [done|exact Hx|]. rewrite Hy. f_equal. set_solver.
  - intros fd m. rewrite lookup_total_empty. set_solver.
  - intros i Hi. by apply not_elem_of_nil in Hi.
Qed.

Lemma reachable_ok evfds r conns s :
  NoDup evfds -> pt_reachable (pt_start_state evfds r conns) s -> pt_wf s /\ ledger_ok s.
Proof.
  intros Hnd Hr. induction Hr as [|s s' _ [Hs Hl] Hstep]; [by apply start_wf|]. split; [by eapply wf_step|by eapply ledger_step].
Qed.

(** *** The workers get done *)

Definition pt_idle s : Prop := pt_notify s = [] /\ Forall (fun wk => wk_tasks wk = 0%nat /\ wk_todo wk = []) (pt_workers s).

Lemma exec_total s i wk a rest :
  pt_wf s -> pt_workers s !! i = Some wk -> wk_todo wk = a :: rest -> exists w, push_exec (pt_world s) a = Ok w.
Proof.
  intros Hs Hi Ha. destruct (wo_conns _ _ (worker_at _ _ _ Hs Hi) (action_fd a)) as [c Hc].
  - apply (wo_todo _ _ (worker_at _ _ _ Hs Hi)). rewrite Ha. by left.
  - destruct a as [fd m|fd]; cbn in *; [rewrite Hc|]; by eexists.
Qed.

Lemma not_idle_steps s : pt_wf s -> nf worker_step s -> pt_idle s.
Proof.
  intros Hs Hnf. split.
  - destruct (pt_notify s) as [|i rest] eqn:Hn; [done|]. destruct Hnf.
    destruct (lookup_lt_is_Some_2 (pt_workers s) i) as [wk Hi]; [apply (pw_notify _ Hs); rewrite Hn; by left|]. eexists. by eapply pt_send_task.
  - apply Forall_lookup. intros i [evfd fds tasks todo] Hi. cbn. destruct todo as [|a rest].
    + destruct tasks as [|tasks]; [done|]. destruct Hnf. eexists. by apply (pt_start i evfd fds tasks).
    + destruct (exec_total s i _ a rest Hs Hi eq_refl) as [w He]. destruct Hnf. eexists. by eapply pt_action.
Qed.

(** Tasks and actions that are left. *)
Definition tasks_left s : nat := sum_list (wk_tasks <$> pt_workers s).
Definition actions_left s : nat := sum_list ((fun wk => length (wk_todo wk)) <$> pt_workers s).

Lemma sum_insert {A} (f : A -> nat) (l : list A) i x y :
  l !! i = Some x -> (sum_list (f <$> <[i := y]> l) + f x = sum_list (f <$> l) + f y)%nat.
Proof.
  intros Hi. rewrite insert_take_drop by (by eapply lookup_lt_Some). rewrite <-(take_drop_middle l i x Hi) at 3.
  rewrite !fmap_app, !sum_list_with_app. cbn. lia.
Qed.

Lemma step_measure s s' : worker_step s s' ->
  (length (pt_notify s') < length (pt_notify s))%nat \/
  length (pt_notify s') = length (pt_notify s) /\
    ((tasks_left s' < tasks_left s)%nat \/ tasks_left s' = tasks_left s /\ (actions_left s' < actions_left s)%nat).
Proof.
  intros [i wk rest s1 Hn Hi|i evfd fds tasks s1 Hi online|i wk a rest w s1 Hi Ha He]; unfold tasks_left, actions_left; cbn [pt_notify pt_workers].
  - left. rewrite Hn. cbn. lia.
  - right. split; [done|]. left. match goal with |- context [<[i := ?wk]> _] => pose proof (sum_insert wk_tasks _ i _ wk Hi) as Hs end. cbn [wk_tasks] in Hs. lia.
  - right. split; [done|]. right. pose proof (sum_insert wk_tasks _ i _ (wk_set_todo rest wk) Hi) as Ht.
    pose proof (sum_insert (fun wk => length (wk_todo wk)) _ i _ (wk_set_todo rest wk) Hi) as Hs. cbn beta in Hs. rewrite Ha in Hs.
    cbn [wk_tasks wk_todo wk_set_todo length] in Hs, Ht. lia.
Qed.

Lemma workers_terminate s : sn worker_step s.
Proof.
  remember (length (pt_notify s)) as n eqn:Hn. revert s Hn. induction n as [n IHn] using lt_wf_ind. intros s Hn.
  remember (tasks_left s) as t eqn:Ht. revert s Hn Ht. induction t as [t IHt] using lt_wf_ind. intros s Hn Ht.
  remember (actions_left s) as k eqn:Hk. revert s Hn Ht Hk. induction k as [k IHk] using lt_wf_ind. intros s Hn Ht Hk.
  constructor. intros s' [Hm|(Hn' & [Hm|(Ht' & Hm)])]%step_measure; subst.
  - by eapply IHn.
  - eapply IHt; [exact Hm|done|done].
  - eapply IHk; [exact Hm|done|done|done].
Qed.

(** *** What they send *)

Definition module_response (m : Z) (r : Route) : GetRouteResponse := route_response (key_hi_int m) (key_lo_int m) r.

(** The entries of the ledger from [s] to [s'], with [l] sent in between. *)
Definition settles s s' (l : list (Z * GetRouteResponse)) : Prop :=
  forall fd m late, pt_owed s !! (fd, m) = Some late ->
    pt_owed s' !! (fd, m) = Some late \/ late = false /\ (fd, module_response m (dw_route (pt_world s))) ∈ l.

Lemma worker_sends s s' : pt_wf s -> ledger_ok s -> worker_step s s' ->
  dw_route (pt_world s') = dw_route (pt_world s) /\ exists l, dw_sent (pt_world s') = dw_sent (pt_world s) ++ l /\ settles s s' l.
Proof.
  intros Hs Hl Hstep. destruct Hstep as [i wk rest s Hn Hi|i evfd fds tasks s Hi online|i wk a rest w s Hi Ha He].
  - split; [done|]. exists []. rewrite app_nil_r. split; [done|]. by left.
  - split; [done|]. exists []. rewrite app_nil_r. split; [done|]. by left.
  - destruct (push_exec_world _ _ _ He) as (_ & Hr & _ & _). split; [exact Hr|].
    assert (action_fd a ∈ wk_conns wk) as Hfd by (apply (wo_todo _ _ (worker_at _ _ _ Hs Hi)); rewrite Ha; by left).
    destruct (wo_conns _ _ (worker_at _ _ _ Hs Hi) _ Hfd) as [c Hc]. destruct a as [fd m|fd]; cbn in He, Hc, Hfd.
    + rewrite Hc in He. injection He as <-. eexists. split; [done|]. intros f m' late Ho. cbn. rewrite Hc.
      destruct (decide ((fd, m) = (f, m'))) as [[= <- <-]|Hne]; [|left; by rewrite lookup_delete_ne]. right. split; [|by apply list_elem_of_singleton].
      destruct late; [|done]. destruct (Hl _ _ _ Ho) as (j & wkj & Hj & Hf & Hp & _).
      destruct (owner_unique s i j wk wkj fd Hs Hi Hj Hfd Hf) as [_ <-]. rewrite Ha in Hp. set_solver.
    + injection He as <-. exists []. cbn. rewrite app_nil_r. split; [done|]. by left.
Qed.

Lemma workers_send s s' : pt_wf s -> ledger_ok s -> rtc worker_step s s' ->
  pt_wf s' /\ ledger_ok s' /\ dw_route (pt_world s') = dw_route (pt_world s) /\
  exists l, dw_sent (pt_world s') = dw_sent (pt_world s) ++ l /\ settles s s' l.
Proof.
  intros Hs Hl Hr. induction Hr as [s|s1 s2 s3 Hstep Hr IH].
  - do 3 (split; [done|]). exists []. rewrite app_nil_r. split; [done|]. by left.
  - destruct (worker_sends s1 s2 Hs Hl Hstep) as (Hrt & l1 & Hl1 & Hset1).
    destruct IH as (Hs3 & Hl3 & Hr3 & l2 & Hl2 & Hset2); [by eapply wf_worker_step|by eapply ledger_worker_step|].
    do 2 (split; [done|]). split; [congruence|]. exists (l1 ++ l2). split; [by rewrite Hl2, Hl1, app_assoc|].
    intros fd m late Ho. destruct (Hset1 _ _ _ Ho) as [Ho2|[-> Hin]]; [|right; set_solver].
    destruct (Hset2 _ _ _ Ho2) as [?|[-> Hin]]; [by left|right]. rewrite <-Hrt. set_solver.
Qed.

Lemma idle_nf s : pt_idle s -> nf worker_step s.
Proof.
  intros [Hn Hall] [s' Hstep]. destruct Hstep as [i wk rest s Hn' Hi|i evfd fds tasks s Hi online|i wk a rest w s Hi Ha He]; [by rewrite Hn in Hn'| |];
    destruct (Forall_lookup_1 _ _ _ _ Hall Hi) as [Ht Htodo]; [done|]. by rewrite Ha in Htodo.
Qed.
End invariants.

(** ** Properties *)

(** C3: Publications reach the subscribers, whatever the threads of the dns service are
    doing.  From every state that connecting, subscribing, leaving, publishing,
    reloading and pushing can lead to, in any order, the workers get done however
    they are scheduled; and then every module published to an open connection and
    not sent to it since has been sent to it, with the hosts of the table that is
    served - except the modules published to a connection whose worker had its entry
    still to erase but that module not to send: these are neither sent nor due. *)
Theorem publications_delivered `{HashOrder} evfds r conns s :
  NoDup evfds -> pt_reachable (pt_start_state evfds r conns) s ->
  sn worker_step s /\
  forall s', rtc worker_step s s' -> nf worker_step s' ->
    pt_idle s' /\ exists l, dw_sent (pt_world s') = dw_sent (pt_world s) ++ l /\
      forall fd m, match pt_owed s !! (fd, m) with
        | Some false => (fd, module_response m (dw_route (pt_world s))) ∈ l
        | Some true => pt_owed s' !! (fd, m) = Some true /\ m ∉ sl_push (dw_sub (pt_world s')) !!! fd
        | None => True
        end.
Proof.
  intros Hnd Hr. destruct (reachable_ok _ _ _ _ Hnd Hr) as [Hs Hl]. split; [apply workers_terminate|]. intros s' Hrun Hnf.
  destruct (workers_send s s' Hs Hl Hrun) as (Hs' & Hl' & _ & l & Hsent & Hset). pose proof (not_idle_steps s' Hs' Hnf) as Hidle.
  split; [done|]. exists l. split; [done|]. intros fd m. destruct (pt_owed s !! (fd, m)) as [late|] eqn:Ho; [|done].
  assert (pt_owed s' !! (fd, m) = Some late -> late = true /\ m ∉ sl_push (dw_sub (pt_world s')) !!! fd) as Hend.
  { intros (i & wk & Hi & _ & Hp)%Hl'. destruct Hidle as [Hn Hall]. destruct (Forall_lookup_1 _ _ _ _ Hall Hi) as [Ht Htodo].
    unfold promise in Hp. rewrite Ht, Htodo, Hn in Hp. destruct late; set_solver. }
  destruct (Hset _ _ _ Ho) as [Ho'|[-> Hin]]; [|done]. by destruct (Hend Ho') as [-> ?].
Qed.

(** C21: The workers push without a lock on the connections, and need none: in every
    reachable state, whatever a worker is about to do concerns an open connection of
    its own loop, that no other worker watches, and does not fault. *)
Theorem pushes_confined `{HashOrder} evfds r conns s i wk a rest :
  NoDup evfds -> pt_reachable (pt_start_state evfds r conns) s ->
  pt_workers s !! i = Some wk -> wk_todo wk = a :: rest ->
  action_fd a ∈ wk_conns wk /\ (exists c, dw_conns (pt_world s) !! action_fd a = Some (Some c)) /\
  (forall j wk', pt_workers s !! j = Some wk' -> action_fd a ∈ listen_fds wk' -> j = i) /\
  exists w, push_exec (pt_world s) a = Ok w.
Proof.
  intros Hnd Hr Hi Ha. destruct (reachable_ok _ _ _ _ Hnd Hr) as [Hs _]. pose proof (worker_at _ _ _ Hs Hi) as Hok.
  assert (action_fd a ∈ wk_conns wk) as Hfd by (apply (wo_todo _ _ Hok); rewrite Ha; by left).
  split; [done|]. split; [by apply (wo_conns _ _ Hok)|]. split; [|by eapply exec_total].
  intros j wk' Hj Hf. apply (pw_disjoint _ Hs j i (listen_fds wk') (listen_fds wk) (action_fd a));
    rewrite ?list_lookup_fmap, ?Hi, ?Hj; unfold listen_fds in *; set_solver.
Qed.

Module PushDemo.
#[local] Instance demo_order : HashOrder := hash_order_list.
Abbreviation m11 := (pack_key 1 1).
Abbreviation m12 := (pack_key 1 2).

(** The steps as functions: the backend sends its next task; worker [i] goes on. *)
Definition notify (s : push_threads) : option push_threads :=
  match pt_notify s with
  | i :: rest => wk ← pt_workers s !! i; Some (PushThreads (pt_world s) (<[i := wk_add_task wk]> (pt_workers s)) rest (pt_owed s))
  | [] => None
  end.
Definition work (i : nat) (s : push_threads) : option push_threads :=
  match pt_workers s !! i with
  | Some (Worker evfd fds (S tasks) []) =>
      let todo := push_actions (make_publish_map (listen_fds (Worker evfd fds (S tasks) [])) (dw_sub (pt_world s))) in
      Some (PushThreads (pt_world s) (<[i := Worker evfd fds tasks todo]> (pt_workers s)) (pt_notify s) (pt_owed s))
  | Some (Worker evfd fds tasks (a :: rest)) =>
      match push_exec (pt_world s) a with
      | Ok w => Some (PushThreads w (<[i := Worker evfd fds tasks rest]> (pt_workers s)) (pt_notify s) (exec_owed (pt_world s) a (pt_owed s)))
      | Err _ => None
      end
  | _ => None
  end.

Lemma notify_step s s' : notify s = Some s' -> worker_step s s'.
Proof.
  unfold notify. destruct (pt_notify s) as [|i rest] eqn:Hn; [done|]. destruct (pt_workers s !! i) as [wk|] eqn:Hi; [|done].
  intros [= <-]. by eapply pt_send_task.
Qed.
Lemma work_step i s s' : work i s = Some s' -> worker_step s s'.
Proof.
  unfold work. destruct (pt_workers s !! i) as [[evfd fds tasks [|a rest]]|] eqn:Hi; [| |done].
  - destruct tasks; [done|]. intros [= <-]. by apply (pt_start i evfd fds tasks).
  - destruct (push_exec _ _) as [w|] eqn:He; [|destruct tasks; done]. intros Hw.
    assert (s' = PushThreads w (<[i := Worker evfd fds tasks rest]> (pt_workers s)) (pt_notify s) (exec_owed (pt_world s) a (pt_owed s))) as ->
      by (destruct tasks; by injection Hw as <-).
    exact (pt_action i (Worker evfd fds tasks (a :: rest)) a rest w s Hi eq_refl He).
Qed.

(** One worker and the agent on descriptor 7, which has subscribed to (1,1) and (1,2).
    (1,1) is published; the worker makes its map; (1,2) is published too late. *)
Definition s0 : push_threads := pt_start_state [5] SubDemo.route0 ∅.
Definition connected0 : push_threads :=
  PushThreads (set_conn 7 (Some 70) (pt_world s0)) [Worker 5 ({[7]} ∪ ∅) 0 []] [] (pt_owed s0).
Definition subscribed0 : push_threads :=
  PushThreads (set_sub (subscribe m12 7) (set_sub (subscribe m11 7) (pt_world connected0))) (pt_workers connected0) [] (pt_owed s0).
Definition published (changes : list Z) (s : push_threads) : push_threads :=
  PushThreads (set_sub (publish changes) (pt_world s)) (pt_workers s) (seq 0 (length (pt_workers s))) (publish_owed changes s).
Definition go (f : push_threads -> option push_threads) (s : push_threads) : push_threads := default s (f s).
Definition started : push_threads := go (work 0) (go notify (published [m11] subscribed0)).
Definition s1 : push_threads := published [m12] started.
Definition s2 : push_threads := go (work 0) (go (work 0) (go (work 0) (go notify s1))).

Lemma reach_started : pt_reachable s0 started.
Proof.
  apply (pt_next _ (go notify (published [m11] subscribed0))); [apply (pt_next _ (published [m11] subscribed0))|].
  - apply (pt_next _ subscribed0); [apply (pt_next _ (PushThreads (set_sub (subscribe m11 7) (pt_world connected0)) (pt_workers connected0) [] (pt_owed s0)))|].
    + apply (pt_next _ connected0); [apply (pt_next _ s0); [apply pt_init|]|].
      * refine (pt_connect 0 (Worker 5 ∅ 0 []) 7 70 s0 eq_refl eq_refl _). by apply (bool_decide_unpack _).
      * refine (pt_subscribe 0 (Worker 5 ({[7]} ∪ ∅) 0 []) 7 m11 connected0 eq_refl eq_refl _). by apply (bool_decide_unpack _).
    + refine (pt_subscribe 0 (Worker 5 ({[7]} ∪ ∅) 0 []) 7 m12 (PushThreads _ (pt_workers connected0) _ _) eq_refl eq_refl _). by apply (bool_decide_unpack _).
    + by apply pt_publish.
  - apply pt_worker, notify_step. vm_compute. reflexivity.
  - apply pt_worker, (work_step 0). vm_compute. reflexivity.
Qed.

Lemma publications_delivered_witness :
  (exists l, dw_sent (pt_world s2) = dw_sent (pt_world s1) ++ l /\ (7, module_response m11 SubDemo.route0) ∈ l) /\
  pt_owed s2 !! (7, m12) = Some true /\ m12 ∉ sl_push (dw_sub (pt_world s2)) !!! 7.
Proof.
  assert (pt_reachable s0 s1) as Hr by (apply (pt_next _ started); [exact reach_started|]; by apply pt_publish).
  destruct (publications_delivered [5] SubDemo.route0 ∅ s1) as [_ Hall]; [by apply (bool_decide_unpack _)|exact Hr|].
  destruct (Hall s2) as (_ & l & Hl & Hset).
  - apply (rtc_l _ _ (go notify s1)); [apply notify_step; vm_compute; reflexivity|].
    apply (rtc_l _ _ (go (work 0) (go notify s1))); [apply (work_step 0); vm_compute; reflexivity|].
    apply (rtc_l _ _ (go (work 0) (go (work 0) (go notify s1)))); [apply (work_step 0); vm_compute; reflexivity|].
    apply rtc_once, (work_step 0). vm_compute. reflexivity.
  - apply idle_nf. split; [vm_compute; reflexivity|]. vm_compute. by repeat constructor.
  - assert (pt_owed s1 !! (7, m11) = Some false /\ pt_owed s1 !! (7, m12) = Some true /\ dw_route (pt_world s1) = SubDemo.route0) as (H11 & H12 & Hr1)
      by (split_and!; vm_compute; reflexivity).
    pose proof (Hset 7 m11) as Hs11. pose proof (Hset 7 m12) as Hs12. rewrite H11, Hr1 in Hs11. rewrite H12 in Hs12.
    split; [exists l; split; [exact Hl|exact Hs11]|exact Hs12].
Defined.

Lemma pushes_confined_witness : exists w, push_exec (pt_world started) (Send 7 m11) = Ok w.
Proof.
  destruct (pushes_confined [5] SubDemo.route0 ∅ started 0 (Worker 5 ({[7]} ∪ ∅) 0 [Send 7 m11; Erase 7]) (Send 7 m11) [Erase 7]) as (_ & _ & _ & Hw).
  - by apply (bool_decide_unpack _).
  - exact reach_started.
  - vm_compute. reflexivity.
  - reflexivity.
  - exact Hw.
Defined.
End PushDemo.
