(* ===== verification/MsgOps.v ===== *)
(** * MsgOps: what the message classes do besides parsing (base/proto, lars.pb.cc)

    Per class: Clear, MergeFrom, CopyFrom, InternalSwap and
    InternalSerializeWithCachedSizesToArray, by which SerializeToString fills its
    string.  A message is a value; [from] and [this] are one object when [same] says so. *)

From S2P Require Import Prelude Bytes Proto Wire Messages.
From stdpp Require Import base numbers list.
From Stdlib Require Import ZArith Lia.
Open Scope Z_scope.

(** [if (from.x() != 0) set_x(from.x());] *)
Definition pick (v old : Z) : Z := if v =? 0 then old else v.

(** [mutable_host()->HostInfo::MergeFrom(from.host())], when [from.has_host()] *)
Definition merge_host {H} (merge : H -> H -> H) (new : H) (from this : option H) : option H :=
  match from with Some h => Some (merge h (default new this)) | None => this end.

(** ** MergeFrom *)

Definition HostInfo_MergeFrom (from this : HostInfo) : HostInfo :=
  {| hi_ip := pick (hi_ip from) (hi_ip this); hi_port := pick (hi_port from) (hi_port this) |}.

Definition GetRouteRequest_MergeFrom (from this : GetRouteRequest) : GetRouteRequest :=
  {| grq_modid := pick (grq_modid from) (grq_modid this); grq_cmdid := pick (grq_cmdid from) (grq_cmdid this) |}.

Definition GetRouteResponse_MergeFrom (from this : GetRouteResponse) : GetRouteResponse :=
  {| grs_host := grs_host this ++ grs_host from;
     grs_modid := pick (grs_modid from) (grs_modid this); grs_cmdid := pick (grs_cmdid from) (grs_cmdid this) |}.

Definition HostCallResult_MergeFrom (from this : HostCallResult) : HostCallResult :=
  {| hcr_ip := pick (hcr_ip from) (hcr_ip this); hcr_port := pick (hcr_port from) (hcr_port this);
     hcr_succ := pick (hcr_succ from) (hcr_succ this); hcr_err := pick (hcr_err from) (hcr_err this);
     hcr_overload := if Z.b2z (hcr_overload from) =? 0 then hcr_overload this else hcr_overload from |}.

Definition ReportStatusRequest_MergeFrom (from this : ReportStatusRequest) : ReportStatusRequest :=
  {| rsr_results := rsr_results this ++ rsr_results from;
     rsr_modid := pick (rsr_modid from) (rsr_modid this); rsr_cmdid := pick (rsr_cmdid from) (rsr_cmdid this);
     rsr_caller := pick (rsr_caller from) (rsr_caller this); rsr_ts := pick (rsr_ts from) (rsr_ts this) |}.

Definition GetHostRequest_MergeFrom (from this : GetHostRequest) : GetHostRequest :=
  {| ghq_seq := pick (ghq_seq from) (ghq_seq this); ghq_modid := pick (ghq_modid from) (ghq_modid this);
     ghq_cmdid := pick (ghq_cmdid from) (ghq_cmdid this) |}.

Definition GetHostResponse_MergeFrom (from this : GetHostResponse) : GetHostResponse :=
  {| ghs_host := merge_host HostInfo_MergeFrom HostInfo_new (ghs_host from) (ghs_host this);
     ghs_seq := pick (ghs_seq from) (ghs_seq this); ghs_modid := pick (ghs_modid from) (ghs_modid this);
     ghs_cmdid := pick (ghs_cmdid from) (ghs_cmdid this); ghs_retcode := pick (ghs_retcode from) (ghs_retcode this) |}.

Definition ReportRequest_MergeFrom (from this : ReportRequest) : ReportRequest :=
  {| rrq_host := merge_host HostInfo_MergeFrom HostInfo_new (rrq_host from) (rrq_host this);
     rrq_modid := pick (rrq_modid from) (rrq_modid this); rrq_cmdid := pick (rrq_cmdid from) (rrq_cmdid this);
     rrq_retcode := pick (rrq_retcode from) (rrq_retcode this) |}.

(** ** Clear: the memset of the scalar fields, the lists emptied, the host deleted *)

Definition HostInfo_Clear (_ : HostInfo) : HostInfo := {| hi_ip := 0; hi_port := 0 |}.
Definition GetRouteRequest_Clear (_ : GetRouteRequest) : GetRouteRequest := {| grq_modid := 0; grq_cmdid := 0 |}.
Definition GetRouteResponse_Clear (_ : GetRouteResponse) : GetRouteResponse := {| grs_modid := 0; grs_cmdid := 0; grs_host := [] |}.
Definition HostCallResult_Clear (_ : HostCallResult) : HostCallResult :=
  {| hcr_ip := 0; hcr_port := 0; hcr_succ := 0; hcr_err := 0; hcr_overload := false |}.
Definition ReportStatusRequest_Clear (_ : ReportStatusRequest) : ReportStatusRequest :=
  {| rsr_modid := 0; rsr_cmdid := 0; rsr_caller := 0; rsr_results := []; rsr_ts := 0 |}.
Definition GetHostRequest_Clear (_ : GetHostRequest) : GetHostRequest := {| ghq_seq := 0; ghq_modid := 0; ghq_cmdid := 0 |}.
Definition GetHostResponse_Clear (_ : GetHostResponse) : GetHostResponse :=
  {| ghs_seq := 0; ghs_modid := 0; ghs_cmdid := 0; ghs_retcode := 0; ghs_host := None |}.
Definition ReportRequest_Clear (_ : ReportRequest) : ReportRequest :=
  {| rrq_modid := 0; rrq_cmdid := 0; rrq_host := None; rrq_retcode := 0 |}.

(** ** CopyFrom: by [operator=], and so by [req = msgs.front()] of the queues *)

Definition HostInfo_CopyFrom (same : bool) (from this : HostInfo) : HostInfo :=
  if same then this else HostInfo_MergeFrom from (HostInfo_Clear this).
Definition GetRouteRequest_CopyFrom (same : bool) (from this : GetRouteRequest) : GetRouteRequest :=
  if same then this else GetRouteRequest_MergeFrom from (GetRouteRequest_Clear this).
Definition GetRouteResponse_CopyFrom (same : bool) (from this : GetRouteResponse) : GetRouteResponse :=
  if same then this else GetRouteResponse_MergeFrom from (GetRouteResponse_Clear this).
Definition HostCallResult_CopyFrom (same : bool) (from this : HostCallResult) : HostCallResult :=
  if same then this else HostCallResult_MergeFrom from (HostCallResult_Clear this).
Definition ReportStatusRequest_CopyFrom (same : bool) (from this : ReportStatusRequest) : ReportStatusRequest :=
  if same then this else ReportStatusRequest_MergeFrom from (ReportStatusRequest_Clear this).
Definition GetHostRequest_CopyFrom (same : bool) (from this : GetHostRequest) : GetHostRequest :=
  if same then this else GetHostRequest_MergeFrom from (GetHostRequest_Clear this).
Definition GetHostResponse_CopyFrom (same : bool) (from this : GetHostResponse) : GetHostResponse :=
  if same then this else GetHostResponse_MergeFrom from (GetHostResponse_Clear this).
Definition ReportRequest_CopyFrom (same : bool) (from this : ReportRequest) : ReportRequest :=
  if same then this else ReportRequest_MergeFrom from (ReportRequest_Clear this).

(** ** Copy constructors

    A [memcpy] from the first to the last scalar member; lists are copied by their own
    constructor, a host by [new HostInfo( *from.host_)]. *)

Definition HostInfo_copy (from : HostInfo) : HostInfo :=
  {| hi_ip := hi_ip from; hi_port := hi_port from |}.
Definition GetRouteRequest_copy (from : GetRouteRequest) : GetRouteRequest :=
  {| grq_modid := grq_modid from; grq_cmdid := grq_cmdid from |}.
Definition GetRouteResponse_copy (from : GetRouteResponse) : GetRouteResponse :=
  {| grs_modid := grs_modid from; grs_cmdid := grs_cmdid from; grs_host := HostInfo_copy <$> grs_host from |}.
Definition HostCallResult_copy (from : HostCallResult) : HostCallResult :=
  {| hcr_ip := hcr_ip from; hcr_port := hcr_port from; hcr_succ := hcr_succ from; hcr_err := hcr_err from;
     hcr_overload := hcr_overload from |}.
Definition ReportStatusRequest_copy (from : ReportStatusRequest) : ReportStatusRequest :=
  {| rsr_modid := rsr_modid from; rsr_cmdid := rsr_cmdid from; rsr_caller := rsr_caller from;
     rsr_results := HostCallResult_copy <$> rsr_results from; rsr_ts := rsr_ts from |}.
Definition GetHostRequest_copy (from : GetHostRequest) : GetHostRequest :=
  {| ghq_seq := ghq_seq from; ghq_modid := ghq_modid from; ghq_cmdid := ghq_cmdid from |}.
Definition GetHostResponse_copy (from : GetHostResponse) : GetHostResponse :=
  {| ghs_seq := ghs_seq from; ghs_modid := ghs_modid from; ghs_cmdid := ghs_cmdid from;
     ghs_retcode := ghs_retcode from; ghs_host := HostInfo_copy <$> ghs_host from |}.
Definition ReportRequest_copy (from : ReportRequest) : ReportRequest :=
  {| rrq_modid := rrq_modid from; rrq_cmdid := rrq_cmdid from; rrq_host := HostInfo_copy <$> rrq_host from;
     rrq_retcode := rrq_retcode from |}.

(** ** Swap *)

(** [std::swap] of every member: the values of [this] and [other] after the call. *)
Definition HostInfo_InternalSwap (this other : HostInfo) : HostInfo * HostInfo :=
  ({| hi_ip := hi_ip other; hi_port := hi_port other |}, {| hi_ip := hi_ip this; hi_port := hi_port this |}).
Definition GetRouteRequest_InternalSwap (this other : GetRouteRequest) : GetRouteRequest * GetRouteRequest :=
  ({| grq_modid := grq_modid other; grq_cmdid := grq_cmdid other |}, {| grq_modid := grq_modid this; grq_cmdid := grq_cmdid this |}).
Definition GetRouteResponse_InternalSwap (this other : GetRouteResponse) : GetRouteResponse * GetRouteResponse :=
  ({| grs_modid := grs_modid other; grs_cmdid := grs_cmdid other; grs_host := grs_host other |},
   {| grs_modid := grs_modid this; grs_cmdid := grs_cmdid this; grs_host := grs_host this |}).
Definition ReportStatusRequest_InternalSwap (this other : ReportStatusRequest) : ReportStatusRequest * ReportStatusRequest :=
  ({| rsr_modid := rsr_modid other; rsr_cmdid := rsr_cmdid other; rsr_caller := rsr_caller other;
      rsr_results := rsr_results other; rsr_ts := rsr_ts other |},
   {| rsr_modid := rsr_modid this; rsr_cmdid := rsr_cmdid this; rsr_caller := rsr_caller this;
      rsr_results := rsr_results this; rsr_ts := rsr_ts this |}).
Definition HostCallResult_InternalSwap (this other : HostCallResult) : HostCallResult * HostCallResult :=
  ({| hcr_ip := hcr_ip other; hcr_port := hcr_port other; hcr_succ := hcr_succ other; hcr_err := hcr_err other;
     hcr_overload := hcr_overload other |},
   {| hcr_ip := hcr_ip this; hcr_port := hcr_port this; hcr_succ := hcr_succ this; hcr_err := hcr_err this;
      hcr_overload := hcr_overload this |}).
Definition GetHostRequest_InternalSwap (this other : GetHostRequest) : GetHostRequest * GetHostRequest :=
  ({| ghq_seq := ghq_seq other; ghq_modid := ghq_modid other; ghq_cmdid := ghq_cmdid other |},
   {| ghq_seq := ghq_seq this; ghq_modid := ghq_modid this; ghq_cmdid := ghq_cmdid this |}).
Definition GetHostResponse_InternalSwap (this other : GetHostResponse) : GetHostResponse * GetHostResponse :=
  ({| ghs_seq := ghs_seq other; ghs_modid := ghs_modid other; ghs_cmdid := ghs_cmdid other;
     ghs_retcode := ghs_retcode other; ghs_host := ghs_host other |},
   {| ghs_seq := ghs_seq this; ghs_modid := ghs_modid this; ghs_cmdid := ghs_cmdid this;
      ghs_retcode := ghs_retcode this; ghs_host := ghs_host this |}).
Definition ReportRequest_InternalSwap (this other : ReportRequest) : ReportRequest * ReportRequest :=
  ({| rrq_modid := rrq_modid other; rrq_cmdid := rrq_cmdid other; rrq_host := rrq_host other;
     rrq_retcode := rrq_retcode other |},
   {| rrq_modid := rrq_modid this; rrq_cmdid := rrq_cmdid this; rrq_host := rrq_host this;
      rrq_retcode := rrq_retcode this |}).

(** ** Writing into an array

    [target] is a position in an array; the primitives of the library write there and
    give the position behind. *)

Abbreviation target := (bytes * nat)%type.

Definition put (bs : bytes) (t : target) : res target :=
  mem ← overwrite t.2 bs t.1; Ok (mem, (t.2 + length bs)%nat).

Section arrays.
Context `{WireFormat}.

(** [WriteInt32ToArray], [WriteUInt32ToArray], [WriteBoolToArray] under the test for
    the default value *)
Definition prim_to_array (field v : Z) (t : target) : res target :=
  if v =? 0 then Ok t else put (write_prim field v) t.

(** [InternalWriteMessageToArray]: the tag, the cached size, the sub-message. *)
Definition message_to_array (field size : Z) (sub : target -> res target) (t : target) : res target :=
  t ← put (write_varint (Z.shiftl field 3 + 2)) t;
  t ← put (write_varint size) t;
  sub t.

Definition HostInfo_ToArray (m : HostInfo) (t : target) : res target :=
  t ← prim_to_array 1 (hi_ip m) t; prim_to_array 2 (hi_port m) t.

Definition GetRouteRequest_ToArray (m : GetRouteRequest) (t : target) : res target :=
  t ← prim_to_array 1 (grq_modid m) t; prim_to_array 2 (grq_cmdid m) t.

Definition GetRouteResponse_ToArray (m : GetRouteResponse) (t : target) : res target :=
  t ← prim_to_array 1 (grs_modid m) t;
  t ← prim_to_array 2 (grs_cmdid m) t;
  foldM (fun t h => message_to_array 3 (HostInfo_size h) (HostInfo_ToArray h) t) t (grs_host m).

Definition HostCallResult_ToArray (m : HostCallResult) (t : target) : res target :=
  t ← prim_to_array 1 (hcr_ip m) t;
  t ← prim_to_array 2 (hcr_port m) t;
  t ← prim_to_array 3 (hcr_succ m) t;
  t ← prim_to_array 4 (hcr_err m) t;
  prim_to_array 5 (Z.b2z (hcr_overload m)) t.

Definition ReportStatusRequest_ToArray (m : ReportStatusRequest) (t : target) : res target :=
  t ← prim_to_array 1 (rsr_modid m) t;
  t ← prim_to_array 2 (rsr_cmdid m) t;
  t ← prim_to_array 3 (rsr_caller m) t;
  t ← foldM (fun t h => message_to_array 4 (HostCallResult_size h) (HostCallResult_ToArray h) t) t (rsr_results m);
  prim_to_array 5 (rsr_ts m) t.

Definition GetHostRequest_ToArray (m : GetHostRequest) (t : target) : res target :=
  t ← prim_to_array 1 (ghq_seq m) t;
  t ← prim_to_array 2 (ghq_modid m) t;
  prim_to_array 3 (ghq_cmdid m) t.

Definition host_to_array (field : Z) (host : option HostInfo) (t : target) : res target :=
  match host with Some h => message_to_array field (HostInfo_size h) (HostInfo_ToArray h) t | None => Ok t end.

Definition GetHostResponse_ToArray (m : GetHostResponse) (t : target) : res target :=
  t ← prim_to_array 1 (ghs_seq m) t;
  t ← prim_to_array 2 (ghs_modid m) t;
  t ← prim_to_array 3 (ghs_cmdid m) t;
  t ← prim_to_array 4 (ghs_retcode m) t;
  host_to_array 5 (ghs_host m) t.

Definition ReportRequest_ToArray (m : ReportRequest) (t : target) : res target :=
  t ← prim_to_array 1 (rrq_modid m) t;
  t ← prim_to_array 2 (rrq_cmdid m) t;
  t ← host_to_array 3 (rrq_host m) t;
  prim_to_array 4 (rrq_retcode m) t.

(** ** Lemmas on arrays *)

(** [f] writes [bs] at its target if there is room for it, and runs over the end of the
    array if there is not. *)
Definition writes (f : target -> res target) (bs : bytes) : Prop :=
  forall mem pos, (pos <= length mem)%nat ->
    f (mem, pos) = if Nat.leb (pos + length bs) (length mem)
                   then Ok (take pos mem ++ bs ++ drop (pos + length bs) mem, (pos + length bs)%nat)
                   else Err OutOfBounds.

Lemma writes_put bs : writes (put bs) bs.
Proof. intros mem pos Hl. unfold put, overwrite. cbn [fst snd]. by destruct (Nat.leb _ _). Qed.

Lemma writes_nil : writes Ok [].
Proof. intros mem pos Hl. cbn [app length] in *. rewrite Nat.add_0_r, take_drop. by rewrite (proj2 (Nat.leb_le _ _) Hl). Qed.

Lemma writes_seq f g bs1 bs2 : writes f bs1 -> writes g bs2 -> writes (fun t => t ← f t; g t) (bs1 ++ bs2).
Proof.
  intros Hf Hg mem pos Hl. rewrite Hf by done. rewrite length_app.
  destruct (Nat.leb_spec (pos + length bs1) (length mem)) as [Hl1|Hl1]; cbn [mbind res_bind];
    [|by destruct (Nat.leb_spec (pos + (length bs1 + length bs2)) (length mem)); [lia|]].
  assert (length (take pos mem) = pos) as Hp by (rewrite length_take; lia).
  rewrite Hg by (rewrite !length_app, length_drop, Hp; lia).
  assert (length (take pos mem ++ bs1 ++ drop (pos + length bs1) mem) = length mem) as -> by (rewrite !length_app, length_drop, Hp; lia).
  rewrite Nat.add_assoc. destruct (Nat.leb _ (length mem)); [|done].
  assert (take (pos + length bs1) (take pos mem ++ bs1 ++ drop (pos + length bs1) mem) = take pos mem ++ bs1) as ->.
  { rewrite app_assoc, take_app_length'; [done|]. rewrite length_app. lia. }
  assert (drop (pos + length bs1 + length bs2) (take pos mem ++ bs1 ++ drop (pos + length bs1) mem) = drop (pos + length bs1 + length bs2) mem) as ->.
  { rewrite app_assoc, drop_app_ge by (rewrite length_app; lia). rewrite length_app, Hp, drop_drop. f_equal. lia. }
  by rewrite <-!app_assoc.
Qed.

Lemma writes_prim field v : writes (prim_to_array field v) (if v =? 0 then [] else write_prim field v).
Proof. unfold prim_to_array. destruct (v =? 0); [apply writes_nil|apply writes_put]. Qed.

Lemma writes_message field size sub bs : writes sub bs -> writes (message_to_array field size sub) (write_message field size bs).
Proof. intros Hs. unfold write_message. apply writes_seq; [apply writes_put|]. by apply (writes_seq (put _)); [apply writes_put|]. Qed.

Lemma writes_list {A} (f : A -> target -> res target) (bs : A -> bytes) l :
  (forall x, writes (f x) (bs x)) -> writes (fun t => foldM (fun t x => f x t) t l) (concat (bs <$> l)).
Proof. intros Hf. induction l as [|x l IH]; [apply writes_nil|]. exact (writes_seq _ _ _ _ (Hf x) IH). Qed.

#[local] Hint Resolve writes_prim writes_seq writes_message : core.

Lemma HostInfo_writes m : writes (HostInfo_ToArray m) (HostInfo_serialize m).
Proof. apply writes_seq; auto. Qed.
Lemma HostCallResult_writes m : writes (HostCallResult_ToArray m) (HostCallResult_serialize m).
Proof. unfold HostCallResult_ToArray, HostCallResult_serialize. auto 10. Qed.

Lemma hosts_write field hosts :
  writes (fun t => foldM (fun t h => message_to_array field (HostInfo_size h) (HostInfo_ToArray h) t) t hosts)
    (concat ((fun h => write_message field (HostInfo_size h) (HostInfo_serialize h)) <$> hosts)).
Proof. apply writes_list. intros h. apply writes_message, HostInfo_writes. Qed.
Lemma results_write field rs :
  writes (fun t => foldM (fun t h => message_to_array field (HostCallResult_size h) (HostCallResult_ToArray h) t) t rs)
    (concat ((fun h => write_message field (HostCallResult_size h) (HostCallResult_serialize h)) <$> rs)).
Proof. apply writes_list. intros h. apply writes_message, HostCallResult_writes. Qed.
Lemma host_writes field host :
  writes (host_to_array field host)
    (match host with None => [] | Some h => write_message field (HostInfo_size h) (HostInfo_serialize h) end).
Proof. destruct host; [apply writes_message, HostInfo_writes|apply writes_nil]. Qed.
#[local] Hint Resolve hosts_write results_write host_writes : core.

Lemma GetRouteRequest_writes m : writes (GetRouteRequest_ToArray m) (GetRouteRequest_serialize m).
Proof. unfold GetRouteRequest_ToArray, GetRouteRequest_serialize. auto. Qed.
Lemma GetRouteResponse_writes m : writes (GetRouteResponse_ToArray m) (GetRouteResponse_serialize m).
Proof. unfold GetRouteResponse_ToArray, GetRouteResponse_serialize. auto 10. Qed.
Lemma ReportStatusRequest_writes m : writes (ReportStatusRequest_ToArray m) (ReportStatusRequest_serialize m).
Proof.
  unfold ReportStatusRequest_ToArray, ReportStatusRequest_serialize. do 3 (apply writes_seq; [auto|]).
  apply (writes_seq (fun t => foldM _ t (rsr_results m))); auto.
Qed.
Lemma GetHostRequest_writes m : writes (GetHostRequest_ToArray m) (GetHostRequest_serialize m).
Proof. unfold GetHostRequest_ToArray, GetHostRequest_serialize. auto 10. Qed.
Lemma GetHostResponse_writes m : writes (GetHostResponse_ToArray m) (GetHostResponse_serialize m).
Proof. unfold GetHostResponse_ToArray, GetHostResponse_serialize. auto 10. Qed.
Lemma ReportRequest_writes m : writes (ReportRequest_ToArray m) (ReportRequest_serialize m).
Proof. unfold ReportRequest_ToArray, ReportRequest_serialize. auto 10. Qed.

(** The sizes of the other classes. *)
Lemma sizes_sum {A} (size : A -> Z) (body : A -> bytes) field l :
  0 < field < 15 -> (forall x, size x = length (body x)) ->
  1 * length l + foldr Z.add 0 ((fun x => message_size (size x)) <$> l) =
    length (concat ((fun x => write_message field (size x) (body x)) <$> l)).
Proof.
  intros Hf Hs. induction l as [|x l IH]; [done|]. cbn [fmap list_fmap foldr length concat]. rewrite length_app.
  pose proof (length_write_message field (body x) Hf) as Hw. rewrite <-Hs in Hw. lia.
Qed.

Lemma host_size field host : 0 < field < 15 ->
  match host with None => 0 | Some h => 1 + message_size (HostInfo_size h) end =
    length (match host with None => [] | Some h => write_message field (HostInfo_size h) (HostInfo_serialize h) end).
Proof. intros Hf. destruct host as [h|]; [|done]. by rewrite HostInfo_size_length, (length_write_message field). Qed.

Lemma GetRouteRequest_size_length m : GetRouteRequest_size m = length (GetRouteRequest_serialize m).
Proof. unfold GetRouteRequest_size, GetRouteRequest_serialize. rewrite length_app, (length_write_prim 1), (length_write_prim 2) by lia. lia. Qed.
Lemma GetRouteResponse_size_length m : GetRouteResponse_size m = length (GetRouteResponse_serialize m).
Proof.
  unfold GetRouteResponse_size, GetRouteResponse_serialize. rewrite !length_app.
  rewrite (sizes_sum HostInfo_size HostInfo_serialize 3), (length_write_prim 1), (length_write_prim 2) by (lia || apply HostInfo_size_length). lia.
Qed.
Lemma ReportStatusRequest_size_length m : ReportStatusRequest_size m = length (ReportStatusRequest_serialize m).
Proof.
  unfold ReportStatusRequest_size, ReportStatusRequest_serialize. rewrite !length_app.
  rewrite (sizes_sum HostCallResult_size HostCallResult_serialize 4) by (lia || apply HostCallResult_size_length).
  rewrite (length_write_prim 1), (length_write_prim 2), (length_write_prim 3), (length_write_prim 5) by lia. lia.
Qed.
Lemma GetHostRequest_size_length m : GetHostRequest_size m = length (GetHostRequest_serialize m).
Proof.
  unfold GetHostRequest_size, GetHostRequest_serialize. rewrite !length_app.
  rewrite (length_write_prim 1), (length_write_prim 2), (length_write_prim 3) by lia. lia.
Qed.
Lemma GetHostResponse_size_length m : GetHostResponse_size m = length (GetHostResponse_serialize m).
Proof.
  unfold GetHostResponse_size, GetHostResponse_serialize. rewrite !length_app.
  rewrite (host_size 5), (length_write_prim 1), (length_write_prim 2), (length_write_prim 3), (length_write_prim 4) by lia. lia.
Qed.
Lemma ReportRequest_size_length m : ReportRequest_size m = length (ReportRequest_serialize m).
Proof.
  unfold ReportRequest_size, ReportRequest_serialize. rewrite !length_app.
  rewrite (host_size 3), (length_write_prim 1), (length_write_prim 2), (length_write_prim 4) by lia. lia.
Qed.

(** ** Reading into a message that is not empty *)

Lemma merges_prim_into {M} (case : Z -> option (M -> bytes -> res (bool * M * bytes))) field conv set m v old rest r :
  0 < field < 16 -> case (Z.shiftl field 3) = Some (read_prim conv set) -> conv (u64 v) = v -> set old m = m ->
  merges case (set (pick v old) m) rest r ->
  merges case m ((if v =? 0 then [] else write_prim field v) ++ rest) r.
Proof.
  intros Hf Hc Hv Ho Hr. unfold pick in Hr. destruct (Z.eqb_spec v 0) as [->|Hne]; [by rewrite Ho in Hr|].
  pose proof (merges_prim case field conv set m v rest r Hf Hc Hv) as Hm. rewrite (proj2 (Z.eqb_neq _ _) Hne) in Hm.
  by apply Hm.
Qed.

Ltac prim_into :=
  eapply merges_prim_into; [lia|reflexivity|first [by apply i32_u64|by apply u32_u64|apply bool_u64]|reflexivity|].
Ltac start_into := rewrite <-!app_assoc; cbn.

Lemma HostInfo_merges_into a m rest r :
  HostInfo_ok a -> merges HostInfo_case (HostInfo_MergeFrom a m) rest r -> merges HostInfo_case m (HostInfo_serialize a ++ rest) r.
Proof. intros [H1a H2a] Hr. destruct m. unfold HostInfo_serialize. start_into. by do 2 prim_into. Qed.

Lemma GetRouteRequest_merges_into a m rest r :
  GetRouteRequest_ok a -> merges GetRouteRequest_case (GetRouteRequest_MergeFrom a m) rest r ->
  merges GetRouteRequest_case m (GetRouteRequest_serialize a ++ rest) r.
Proof. intros [H1a H2a] Hr. destruct m. unfold GetRouteRequest_serialize. start_into. by do 2 prim_into. Qed.

Lemma GetRouteResponse_merges_into a m rest r :
  GetRouteResponse_ok a -> merges GetRouteResponse_case (GetRouteResponse_MergeFrom a m) rest r ->
  merges GetRouteResponse_case m (GetRouteResponse_serialize a ++ rest) r.
Proof.
  intros (H1a & H2a & H3a) Hr. destruct m. unfold GetRouteResponse_serialize. start_into. do 2 prim_into.
  eapply merges_repeated; [lia|reflexivity|apply HostInfo_case_ok|by apply hosts_merge|]. by rewrite fold_add_hosts.
Qed.

Lemma HostCallResult_merges_into a m rest r :
  HostCallResult_ok a -> merges HostCallResult_case (HostCallResult_MergeFrom a m) rest r ->
  merges HostCallResult_case m (HostCallResult_serialize a ++ rest) r.
Proof.
  intros (H1a & H2a & H3a & H4a) Hr. destruct m as [ip port succ err ovl]. unfold HostCallResult_serialize. start_into. do 4 prim_into.
  eapply (merges_prim_into _ _ _ _ _ _ (Z.b2z ovl)); [lia|reflexivity|apply bool_u64|cbn; by destruct ovl|].
  unfold HostCallResult_MergeFrom, pick in *. cbn in *. by destruct (hcr_overload a), ovl.
Qed.

Lemma ReportStatusRequest_merges_into a m rest r :
  ReportStatusRequest_ok a -> merges ReportStatusRequest_case (ReportStatusRequest_MergeFrom a m) rest r ->
  merges ReportStatusRequest_case m (ReportStatusRequest_serialize a ++ rest) r.
Proof.
  intros (H1a & H2a & H3a & H4a & H5a) Hr. destruct m. unfold ReportStatusRequest_serialize. start_into. do 3 prim_into.
  eapply merges_repeated; [lia|reflexivity|apply HostCallResult_case_ok|by apply results_merge|]. rewrite fold_add_results. by prim_into.
Qed.

Lemma GetHostRequest_merges_into a m rest r :
  GetHostRequest_ok a -> merges GetHostRequest_case (GetHostRequest_MergeFrom a m) rest r ->
  merges GetHostRequest_case m (GetHostRequest_serialize a ++ rest) r.
Proof. intros (H1a & H2a & H3a) Hr. destruct m. unfold GetHostRequest_serialize. start_into. by do 3 prim_into. Qed.

(** A host that is read on top of the one that is there. *)
Lemma merges_host_into {M} (case : Z -> option (M -> bytes -> res (bool * M * bytes))) field get put m (from this : option HostInfo) m' rest r :
  0 < field < 15 -> case (Z.shiftl field 3 + 2) = Some (read_message HostInfo_case get put) ->
  get m = default HostInfo_new this -> (forall h, from = Some h -> HostInfo_ok h) ->
  m' = match from with Some h => put (HostInfo_MergeFrom h (default HostInfo_new this)) m | None => m end ->
  merges case m' rest r ->
  merges case m (match from with None => [] | Some h => write_message field (HostInfo_size h) (HostInfo_serialize h) end ++ rest) r.
Proof.
  intros Hf Hc Hg Ho -> Hr. destruct from as [h|]; [|done]. rewrite HostInfo_size_length.
  pose proof (HostInfo_bound h) as Hb. rewrite HostInfo_size_length in Hb.
  eapply merges_message; [done|exact Hc|apply HostInfo_case_ok|lia| |exact Hr]. rewrite Hg.
  rewrite <-(app_nil_r (HostInfo_serialize h)). apply HostInfo_merges_into; [by apply Ho|]. by apply merges_end.
Qed.

Lemma GetHostResponse_merges_into a m rest r :
  GetHostResponse_ok a -> merges GetHostResponse_case (GetHostResponse_MergeFrom a m) rest r ->
  merges GetHostResponse_case m (GetHostResponse_serialize a ++ rest) r.
Proof.
  intros (H1a & H2a & H3a & H4a & H5a) Hr. destruct m as [seq modid cmdid ret host]. unfold GetHostResponse_serialize. start_into. do 4 prim_into.
  eapply (merges_host_into _ _ _ _ _ _ host); [lia|reflexivity|reflexivity|done|reflexivity|].
  unfold GetHostResponse_MergeFrom in Hr. cbn in Hr. by destruct (ghs_host a).
Qed.

Lemma ReportRequest_merges_into a m rest r :
  ReportRequest_ok a -> merges ReportRequest_case (ReportRequest_MergeFrom a m) rest r ->
  merges ReportRequest_case m (ReportRequest_serialize a ++ rest) r.
Proof.
  intros (H1a & H2a & H3a & H4a) Hr. destruct m as [modid cmdid host ret]. unfold ReportRequest_serialize. start_into. do 2 prim_into.
  eapply (merges_host_into _ _ _ _ _ _ host); [lia|reflexivity|reflexivity|done|reflexivity|].
  unfold ReportRequest_MergeFrom in Hr. cbn in Hr. destruct (rrq_host a); by prim_into.
Qed.

(** Two messages one after the other read as the second merged into the first. *)
Lemma parse_two {M} (case : Z -> option (M -> bytes -> res (bool * M * bytes))) new (ser : M -> bytes) (merge : M -> M -> M) (ok : M -> Prop) a b :
  case_ok case -> (forall a m rest r, ok a -> merges case (merge a m) rest r -> merges case m (ser a ++ rest) r) ->
  merge a new = a -> ok a -> ok b -> parse_from case new (ser a ++ ser b) = Ok (true, merge b a).
Proof.
  intros Hc Hm Hn Ha Hb. apply parse_merges; [done|]. apply Hm; [done|]. rewrite Hn, <-(app_nil_r (ser b)).
  apply Hm; [done|]. apply merges_end, Hc.
Qed.

(** *** Copies *)

Lemma pick_zero v : pick v 0 = v.
Proof. unfold pick. by destruct (Z.eqb_spec v 0). Qed.
Lemma pick_id v : pick v v = v.
Proof. unfold pick. by destruct (v =? 0). Qed.

Ltac solve_copy := cbn; by rewrite ?pick_zero.

Lemma HostInfo_merge_new (a : HostInfo) : HostInfo_MergeFrom a HostInfo_new = a.
Proof. destruct a. unfold HostInfo_MergeFrom. solve_copy. Qed.
Lemma GetRouteRequest_merge_new (a : GetRouteRequest) : GetRouteRequest_MergeFrom a GetRouteRequest_new = a.
Proof. destruct a. unfold GetRouteRequest_MergeFrom. solve_copy. Qed.
Lemma GetRouteResponse_merge_new (a : GetRouteResponse) : GetRouteResponse_MergeFrom a GetRouteResponse_new = a.
Proof. destruct a. unfold GetRouteResponse_MergeFrom. solve_copy. Qed.
Lemma HostCallResult_merge_new (a : HostCallResult) : HostCallResult_MergeFrom a HostCallResult_new = a.
Proof. destruct a as [ip port succ err [|]]; unfold HostCallResult_MergeFrom; solve_copy. Qed.
Lemma ReportStatusRequest_merge_new (a : ReportStatusRequest) : ReportStatusRequest_MergeFrom a ReportStatusRequest_new = a.
Proof. destruct a. unfold ReportStatusRequest_MergeFrom. solve_copy. Qed.
Lemma GetHostRequest_merge_new (a : GetHostRequest) : GetHostRequest_MergeFrom a GetHostRequest_new = a.
Proof. destruct a. unfold GetHostRequest_MergeFrom. solve_copy. Qed.
Lemma GetHostResponse_merge_new (a : GetHostResponse) : GetHostResponse_MergeFrom a GetHostResponse_new = a.
Proof. destruct a as [seq modid cmdid ret [[ip port]|]]; unfold GetHostResponse_MergeFrom, merge_host, HostInfo_MergeFrom; solve_copy. Qed.
Lemma ReportRequest_merge_new (a : ReportRequest) : ReportRequest_MergeFrom a ReportRequest_new = a.
Proof. destruct a as [modid cmdid [[ip port]|] ret]; unfold ReportRequest_MergeFrom, merge_host, HostInfo_MergeFrom; solve_copy. Qed.

(** The copy constructors and the swaps do what their names say. *)
Lemma HostInfo_copy_id h : HostInfo_copy h = h.
Proof. by destruct h. Qed.
Lemma HostCallResult_copy_id r : HostCallResult_copy r = r.
Proof. by destruct r. Qed.

Lemma copied {A} (f : A -> A) (l : list A) : (forall x, f x = x) -> f <$> l = l.
Proof. intros Hf. rewrite <-(list_fmap_id l) at 2. apply list_fmap_ext. intros _ x _. apply Hf. Qed.

Lemma copied_option {A} (f : A -> A) (o : option A) : (forall x, f x = x) -> f <$> o = o.
Proof. intros Hf. destruct o; cbn; [by rewrite Hf|done]. Qed.

Lemma copies_same :
  (forall m, GetRouteRequest_copy m = m) /\ (forall m, GetRouteResponse_copy m = m) /\ (forall m, ReportStatusRequest_copy m = m) /\
  (forall m, GetHostRequest_copy m = m) /\ (forall m, GetHostResponse_copy m = m) /\ (forall m, ReportRequest_copy m = m).
Proof.
  split_and!; intros m; destruct m as []; [done| | |done|..].
  - unfold GetRouteResponse_copy. simpl. by rewrite (copied _ _ HostInfo_copy_id).
  - unfold ReportStatusRequest_copy. simpl. by rewrite (copied _ _ HostCallResult_copy_id).
  - unfold GetHostResponse_copy. simpl. by rewrite (copied_option _ _ HostInfo_copy_id).
  - unfold ReportRequest_copy. simpl. by rewrite (copied_option _ _ HostInfo_copy_id).
Qed.

Lemma swaps_swap :
  (forall a b, HostInfo_InternalSwap a b = (b, a)) /\ (forall a b, GetRouteRequest_InternalSwap a b = (b, a)) /\
  (forall a b, GetRouteResponse_InternalSwap a b = (b, a)) /\ (forall a b, HostCallResult_InternalSwap a b = (b, a)) /\
  (forall a b, ReportStatusRequest_InternalSwap a b = (b, a)) /\ (forall a b, GetHostRequest_InternalSwap a b = (b, a)) /\
  (forall a b, GetHostResponse_InternalSwap a b = (b, a)) /\ (forall a b, ReportRequest_InternalSwap a b = (b, a)).
Proof. by split_and!; intros [] []. Qed.

(** Copying gives an equal message, also onto itself: without the test Clear would come
    before the copy. *)
Lemma copies_equal :
  (forall same (from this : GetRouteRequest), (same = true -> from = this) -> GetRouteRequest_CopyFrom same from this = from) /\
  (forall same (from this : GetRouteResponse), (same = true -> from = this) -> GetRouteResponse_CopyFrom same from this = from) /\
  (forall same (from this : ReportStatusRequest), (same = true -> from = this) -> ReportStatusRequest_CopyFrom same from this = from) /\
  (forall same (from this : GetHostRequest), (same = true -> from = this) -> GetHostRequest_CopyFrom same from this = from) /\
  (forall same (from this : GetHostResponse), (same = true -> from = this) -> GetHostResponse_CopyFrom same from this = from) /\
  (forall same (from this : ReportRequest), (same = true -> from = this) -> ReportRequest_CopyFrom same from this = from).
Proof.
  split_and!; intros [] from this Hs; try (symmetry; by apply Hs).
  - apply GetRouteRequest_merge_new.
  - apply GetRouteResponse_merge_new.
  - apply ReportStatusRequest_merge_new.
  - apply GetHostRequest_merge_new.
  - apply GetHostResponse_merge_new.
  - apply ReportRequest_merge_new.
Qed.

(** ** Properties *)

(** C15: MergeFrom is reading on: parsing the bytes of one message followed by those of
    another of its class gives the first one with the second merged in (later scalars
    win unless they are 0, lists are appended, hosts merged field by field), in every
    class, as the protobuf specification demands of generated code. *)
Theorem merge_is_concatenation :
  (forall a b, HostInfo_ok a -> HostInfo_ok b ->
     parse_from HostInfo_case HostInfo_new (HostInfo_serialize a ++ HostInfo_serialize b) = Ok (true, HostInfo_MergeFrom b a)) /\
  (forall a b, GetRouteRequest_ok a -> GetRouteRequest_ok b ->
     parse_from GetRouteRequest_case GetRouteRequest_new (GetRouteRequest_serialize a ++ GetRouteRequest_serialize b) =
       Ok (true, GetRouteRequest_MergeFrom b a)) /\
  (forall a b, GetRouteResponse_ok a -> GetRouteResponse_ok b ->
     parse_from GetRouteResponse_case GetRouteResponse_new (GetRouteResponse_serialize a ++ GetRouteResponse_serialize b) =
       Ok (true, GetRouteResponse_MergeFrom b a)) /\
  (forall a b, HostCallResult_ok a -> HostCallResult_ok b ->
     parse_from HostCallResult_case HostCallResult_new (HostCallResult_serialize a ++ HostCallResult_serialize b) =
       Ok (true, HostCallResult_MergeFrom b a)) /\
  (forall a b, ReportStatusRequest_ok a -> ReportStatusRequest_ok b ->
     parse_from ReportStatusRequest_case ReportStatusRequest_new (ReportStatusRequest_serialize a ++ ReportStatusRequest_serialize b) =
       Ok (true, ReportStatusRequest_MergeFrom b a)) /\
  (forall a b, GetHostRequest_ok a -> GetHostRequest_ok b ->
     parse_from GetHostRequest_case GetHostRequest_new (GetHostRequest_serialize a ++ GetHostRequest_serialize b) =
       Ok (true, GetHostRequest_MergeFrom b a)) /\
  (forall a b, GetHostResponse_ok a -> GetHostResponse_ok b ->
     parse_from GetHostResponse_case GetHostResponse_new (GetHostResponse_serialize a ++ GetHostResponse_serialize b) =
       Ok (true, GetHostResponse_MergeFrom b a)) /\
  (forall a b, ReportRequest_ok a -> ReportRequest_ok b ->
     parse_from ReportRequest_case ReportRequest_new (ReportRequest_serialize a ++ ReportRequest_serialize b) =
       Ok (true, ReportRequest_MergeFrom b a)).
Proof.
  split_and!; intros a b Ha Hb.
  - apply (parse_two HostInfo_case HostInfo_new HostInfo_serialize HostInfo_MergeFrom HostInfo_ok); [apply HostInfo_case_ok|exact HostInfo_merges_into|apply HostInfo_merge_new|done|done].
  - apply (parse_two GetRouteRequest_case GetRouteRequest_new GetRouteRequest_serialize GetRouteRequest_MergeFrom GetRouteRequest_ok); [apply GetRouteRequest_case_ok|exact GetRouteRequest_merges_into|apply GetRouteRequest_merge_new|done|done].
  - apply (parse_two GetRouteResponse_case GetRouteResponse_new GetRouteResponse_serialize GetRouteResponse_MergeFrom GetRouteResponse_ok); [apply GetRouteResponse_case_ok|exact GetRouteResponse_merges_into|apply GetRouteResponse_merge_new|done|done].
  - apply (parse_two HostCallResult_case HostCallResult_new HostCallResult_serialize HostCallResult_MergeFrom HostCallResult_ok); [apply HostCallResult_case_ok|exact HostCallResult_merges_into|apply HostCallResult_merge_new|done|done].
  - apply (parse_two ReportStatusRequest_case ReportStatusRequest_new ReportStatusRequest_serialize ReportStatusRequest_MergeFrom ReportStatusRequest_ok); [apply ReportStatusRequest_case_ok|exact ReportStatusRequest_merges_into|apply ReportStatusRequest_merge_new|done|done].
  - apply (parse_two GetHostRequest_case GetHostRequest_new GetHostRequest_serialize GetHostRequest_MergeFrom GetHostRequest_ok); [apply GetHostRequest_case_ok|exact GetHostRequest_merges_into|apply GetHostRequest_merge_new|done|done].
  - apply (parse_two GetHostResponse_case GetHostResponse_new GetHostResponse_serialize GetHostResponse_MergeFrom GetHostResponse_ok); [apply GetHostResponse_case_ok|exact GetHostResponse_merges_into|apply GetHostResponse_merge_new|done|done].
  - apply (parse_two ReportRequest_case ReportRequest_new ReportRequest_serialize ReportRequest_MergeFrom ReportRequest_ok); [apply ReportRequest_case_ok|exact ReportRequest_merges_into|apply ReportRequest_merge_new|done|done].
Qed.

(** An array of exactly the size ByteSizeLong announced is filled with the bytes the
    stream version writes, to its end; in a shorter one the writing runs out of it. *)
Definition fills (to_array : target -> res target) (size : Z) (bs : bytes) : Prop :=
  (forall mem, Z.of_nat (length mem) = size -> to_array (mem, 0%nat) = Ok (bs, length mem)) /\
  (forall mem, Z.of_nat (length mem) < size -> to_array (mem, 0%nat) = Err OutOfBounds).

Lemma writes_fills f (size : Z) bs : writes f bs -> size = length bs -> fills f size bs.
Proof.
  intros Hf ->. split; intros mem Hm; rewrite Hf by lia; destruct (Nat.leb_spec (0 + length bs) (length mem)); try lia; [|done].
  apply Nat2Z.inj in Hm. rewrite Nat.add_0_l, <-Hm, drop_all, take_0, app_nil_r. done.
Qed.

(** C16: SerializeToString stays inside its string: for every message of every class the
    array of ByteSizeLong bytes is filled exactly, with the same bytes as
    SerializeWithCachedSizes writes to a stream, and one byte less would be an
    overrun. *)
Theorem serialize_fills_array :
  (forall m, fills (HostInfo_ToArray m) (HostInfo_size m) (HostInfo_serialize m)) /\
  (forall m, fills (GetRouteRequest_ToArray m) (GetRouteRequest_size m) (GetRouteRequest_serialize m)) /\
  (forall m, fills (GetRouteResponse_ToArray m) (GetRouteResponse_size m) (GetRouteResponse_serialize m)) /\
  (forall m, fills (HostCallResult_ToArray m) (HostCallResult_size m) (HostCallResult_serialize m)) /\
  (forall m, fills (ReportStatusRequest_ToArray m) (ReportStatusRequest_size m) (ReportStatusRequest_serialize m)) /\
  (forall m, fills (GetHostRequest_ToArray m) (GetHostRequest_size m) (GetHostRequest_serialize m)) /\
  (forall m, fills (GetHostResponse_ToArray m) (GetHostResponse_size m) (GetHostResponse_serialize m)) /\
  (forall m, fills (ReportRequest_ToArray m) (ReportRequest_size m) (ReportRequest_serialize m)).
Proof.
  repeat match goal with |- _ /\ _ => split end; intros m.
  - apply (writes_fills _ _ (HostInfo_serialize m)); [apply HostInfo_writes|apply HostInfo_size_length].
  - apply (writes_fills _ _ (GetRouteRequest_serialize m)); [apply GetRouteRequest_writes|apply GetRouteRequest_size_length].
  - apply (writes_fills _ _ (GetRouteResponse_serialize m)); [apply GetRouteResponse_writes|apply GetRouteResponse_size_length].
  - apply (writes_fills _ _ (HostCallResult_serialize m)); [apply HostCallResult_writes|apply HostCallResult_size_length].
  - apply (writes_fills _ _ (ReportStatusRequest_serialize m)); [apply ReportStatusRequest_writes|apply ReportStatusRequest_size_length].
  - apply (writes_fills _ _ (GetHostRequest_serialize m)); [apply GetHostRequest_writes|apply GetHostRequest_size_length].
  - apply (writes_fills _ _ (GetHostResponse_serialize m)); [apply GetHostResponse_writes|apply GetHostResponse_size_length].
  - apply (writes_fills _ _ (ReportRequest_serialize m)); [apply ReportRequest_writes|apply ReportRequest_size_length].
Qed.
End arrays.

Module MsgOpsDemo.
#[local] Existing Instance wire_varint.

Definition first : GetHostResponse :=
  {| ghs_seq := 7; ghs_modid := 1; ghs_cmdid := 2; ghs_retcode := 3; ghs_host := Some {| hi_ip := 5; hi_port := 6 |} |}.
Definition second : GetHostResponse :=
  {| ghs_seq := 8; ghs_modid := 0; ghs_cmdid := 9; ghs_retcode := 0; ghs_host := Some {| hi_ip := 0; hi_port := -1 |} |}.

Lemma merge_is_concatenation_witness :
  parse_from GetHostResponse_case GetHostResponse_new (GetHostResponse_serialize first ++ GetHostResponse_serialize second) =
    Ok (true, {| ghs_seq := 8; ghs_modid := 1; ghs_cmdid := 9; ghs_retcode := 3; ghs_host := Some {| hi_ip := 5; hi_port := -1 |} |}).
Proof.
  destruct merge_is_concatenation as (_ & _ & _ & _ & _ & _ & Hm & _). rewrite Hm; [reflexivity| |];
    (split_and!; try (cbn; unfold is_u32, is_i32; lia); intros h [= <-]; split; cbn; unfold is_i32; lia).
Defined.

Lemma serialize_fills_array_witness :
  GetHostResponse_ToArray first (replicate 14 Byte.x00, 0%nat) = Ok (GetHostResponse_serialize first, 14%nat).
Proof.
  destruct serialize_fills_array as (_ & _ & _ & _ & _ & _ & Hf & _).
  apply (proj1 (Hf first) (replicate 14 Byte.x00)). vm_compute. reflexivity.
Defined.
End MsgOpsDemo.
