(* ===== verification/AgentService.v ===== *)
(** * AgentService: the threads of the agent (lars_lb_agent: main_server.cpp,
    agent_udp_server.cpp, dns_client.cpp, report_client.cpp)

    Three udp servers, one per route_lb, answer the applications; the dns client
    sends what the route_lbs pull and hands the answers to the route_lb of the
    module; the report client sends the statistics.  The threads share [agent]. *)

From S2P Require Import Prelude Keys Proto HostNode LoadBalance BalanceSpec RouteLb RouteSpec Bytes.
From S2P Require Import Wire Messages EventLoop BufPool ReactorBuf Stream StreamSpec TcpConn TcpClient Udp.
From stdpp Require Import base numbers list gmap fin_maps.
From Stdlib Require Import ZArith Lia.
Open Scope Z_scope.

(** [r_lb[3]], the two queues (and the clock) in [ag_world], and how many datagrams
    were sent. *)
Record agent := Agent {
  ag_lb : list route_lb;
  ag_world : world;
  ag_sends : nat
}.

Definition init_lb_agent : agent := Agent (route_lb_new <$> [1; 2; 3]) (World 0 [] []) 0.

(** [int index = (modid + cmdid) % 3], of the agent and of the api; the sum wraps as
    gcc compiles it, and [%] has the sign of the sum. *)
Definition route_index (modid cmdid : Z) : Z := Z.rem (i32 (modid + cmdid)) 3.

(** [dns_queue->recv(msgs)] *)
Definition requests_taken (a : agent) : agent :=
  Agent (ag_lb a) (World (w_ticks (ag_world a)) [] (w_report_queue (ag_world a))) (ag_sends a).

(** The callbacks of the udp servers, by name. *)
Inductive agent_cb := get_host_cb_id | report_cb_id | get_route_cb_id.

Section agent.
Context {T K Addr : Type} `{Epoll K} `{Clock} `{HashOrder} (cfg : load_balance_config).
Context `{!Codec GetRouteRequest} `{!Codec GetRouteResponse} `{!Codec GetHostRequest} `{!Codec GetHostResponse}
  `{!Codec ReportRequest} `{!Codec ReportStatusRequest}.
(** What the [n]-th [sendto] answers. *)
Context (sendto_at : nat -> send_result).

Abbreviation server := (udp T K agent agent_cb nat Addr).
Implicit Types u : server.

(** A call of the route_lb a callback was registered with. *)
Definition on_lb {A} (i : option nat) (f : route_lb -> world -> res (A * route_lb * world)) (a : agent) : res (A * agent) :=
  i ← of_option NullDeref i;
  r ← of_option OutOfBounds (ag_lb a !! i);
  '(x, r, w) ← f r (ag_world a);
  Ok (x, Agent (<[i := r]> (ag_lb a)) w (ag_sends a)).

(** [conn->send_message(...)], whose result the callbacks ignore. *)
Definition reply (data : bytes) (msgid : Z) u : res server :=
  let a := u_env u in
  '(_, u) ← udp_send_message data msgid (sendto_at (ag_sends a)) u;
  Ok (u_set_env (Agent (ag_lb a) (ag_world a) (S (ag_sends a))) u).

(** [void report_cb(const char *data, uint32_t len, int msgid, net_connection *conn, void *user_data)] *)
Definition report_cb (data : bytes) (user_data : option nat) u : res server :=
  req ← msg_decode data;
  '(_, a) ← on_lb user_data (fun r w => '(r, w) ← report_host cfg req r w; Ok (tt, r, w)) (u_env u);
  Ok (u_set_env a u).

(** [void get_host_cb(...)] *)
Definition get_host_cb (data : bytes) (user_data : option nat) u : res server :=
  req ← msg_decode data;
  let modid := ghq_modid req in
  let cmdid := ghq_cmdid req in
  let rsp := {| ghs_seq := ghq_seq req; ghs_modid := modid; ghs_cmdid := cmdid; ghs_retcode := 0; ghs_host := None |} in
  '(rsp, a) ← on_lb user_data (fun r w => '(_, rsp, r, w) ← get_host cfg modid cmdid rsp r w; Ok (rsp, r, w)) (u_env u);
  reply (msg_encode rsp) ID_GetHostResponse (u_set_env a u).

(** [void get_route_cb(...)] *)
Definition get_route_cb (data : bytes) (user_data : option nat) u : res server :=
  req ← msg_decode data;
  let modid := grq_modid req in
  let cmdid := grq_cmdid req in
  let rsp := {| grs_modid := modid; grs_cmdid := cmdid; grs_host := [] |} in
  '(rsp, a) ← on_lb user_data (fun r w => '(_, rsp, r, w) ← get_route cfg modid cmdid rsp r w; Ok (rsp, r, w)) (u_env u);
  reply (msg_encode rsp) ID_API_GetRouteResponse (u_set_env a u).

Definition run_agent_callback (cb : agent_cb) (user_data : option nat) (data : bytes) (msgid : Z) u : res server :=
  match cb with
  | get_host_cb_id => get_host_cb data user_data u
  | report_cb_id => report_cb data user_data u
  | get_route_cb_id => get_route_cb data user_data u
  end.

(** The registrations of [agent_server_main] of thread [i]. *)
Definition agent_router (i : nat) : msg_router agent_cb nat :=
  register_all [(ID_GetHostRequest, get_host_cb_id, i); (ID_ReportRequest, report_cb_id, i); (ID_API_GetRouteRequest, get_route_cb_id, i)]
    msg_router_new.

Definition agent_do_read (rs : list (recv_result Addr)) u : res server := server_do_read run_agent_callback rs u.

(** ** The clients *)

Abbreviation client := (endpoint io_proc T Z K (client_env agent unit unit unit)).
Implicit Types e : client.

Definition client_app e : agent := ce_app (e_env e).
Definition set_client_app (a : agent) e : client :=
  let x := e_env e in
  set_env (ClientEnv (ce_start_cb x) (ce_start_args x) (ce_close_cb x) (ce_close_args x) (ce_router x) a) e.

(** [void deal_recv_route(...)]: on the agent. *)
Definition deal_recv_route (data : bytes) (a : agent) : res agent :=
  rsp ← msg_decode data;
  let modid := grs_modid rsp in
  let cmdid := grs_cmdid rsp in
  let index := route_index modid cmdid in
  ensure 0 <=? index or OutOfBounds;
  '(_, a) ← on_lb (Some (Z.to_nat index)) (fun r w => '(ret, r, w) ← update_host cfg modid cmdid rsp r w; Ok (ret, r, w)) a;
  Ok a.

(** [void conn_init(net_connection *conn, void *args)] *)
Definition conn_init (a : agent) : agent := Agent (reset_lb_status <$> ag_lb a) (ag_world a) (ag_sends a).

(** The callback and the hook of the dns client. *)
Definition dns_msg_callback (_ : unit) (_ : option unit) (data : bytes) (_ : Z) e : res client :=
  a ← deal_recv_route data (client_app e); Ok (set_client_app a e).
Definition dns_start_hook (_ : unit) (_ : option unit) e : res client := Ok (set_client_app (conn_init (client_app e)) e).

(** The loops of [new_dns_request] and [new_report_request]. *)
Definition forward {M} `{!Codec M} (msgid : Z) (e : client) (req : M) : res client :=
  '(_, e) ← client_send_message (msg_encode req) msgid e; Ok e.

(** [void new_dns_request(event_loop *loop, int fd, void *args)] *)
Definition new_dns_request e : res client :=
  let a := client_app e in
  let msgs := w_dns_queue (ag_world a) in
  let e := set_client_app (requests_taken a) e in
  foldM (forward ID_GetRouteRequest) e msgs.

(** [void new_report_request(event_loop *loop, int fd, void *args)] *)
Definition new_report_request e : res client :=
  let a := client_app e in
  let msgs := w_report_queue (ag_world a) in
  let e := set_client_app (Agent (ag_lb a) (World (w_ticks (ag_world a)) (w_dns_queue (ag_world a)) []) (ag_sends a)) e in
  foldM (forward ID_ReportStatusRequest) e msgs.

(** ** Lemmas *)

(** What keeps a udp server of the agent safe: sound modules, of a size whose answer
    fits a datagram, and its two arrays. *)
Definition max_hosts := 2700.
Definition lb_small (_ : Z) (lb : load_balance) : Prop := size (lb_host_map lb) <= max_hosts.
Definition rl_ok (r : route_lb) : Prop := rl_good r /\ map_Forall lb_small (rl_map r).

Record agent_ok (a : agent) : Prop := {
  ao_three : length (ag_lb a) = 3%nat;
  ao_lb : Forall rl_ok (ag_lb a)
}.

Record server_ok (i : nat) u : Prop := {
  so_index : (i < 3)%nat;
  so_agent : agent_ok (u_env u);
  so_router : u_router u = agent_router i;
  so_read : length (u_read_buf u) = Z.to_nat MESSAGE_LENGTH_LIMIT;
  so_write : length (u_write_buf u) = Z.to_nat MESSAGE_LENGTH_LIMIT
}.

Lemma init_agent_ok : agent_ok init_lb_agent.
Proof. split; [done|]. apply Forall_fmap, Forall_forall. intros id _. split; apply map_Forall_empty. Qed.

Lemma on_lb_ok {A} (i : nat) (f : route_lb -> world -> res (A * route_lb * world)) a :
  (i < 3)%nat -> agent_ok a ->
  (forall r, rl_ok r -> exists x r' w', f r (ag_world a) = Ok (x, r', w') /\ rl_ok r') ->
  exists x r r' w', ag_lb a !! i = Some r /\ rl_ok r /\ f r (ag_world a) = Ok (x, r', w') /\
    on_lb (Some i) f a = Ok (x, Agent (<[i := r']> (ag_lb a)) w' (ag_sends a)) /\
    agent_ok (Agent (<[i := r']> (ag_lb a)) w' (ag_sends a)).
Proof.
  intros Hi [H3 Hall] Hf. destruct (lookup_lt_is_Some_2 (ag_lb a) i) as [r Hr]; [lia|].
  pose proof (Forall_lookup_1 _ _ _ _ Hall Hr) as Hok. destruct (Hf r Hok) as (x & r' & w' & Hx & Hok').
  exists x, r, r', w'. split; [done|]. split; [done|]. split; [done|]. split.
  - unfold on_lb. cbn [of_option mbind res_bind]. rewrite Hr. cbn [of_option mbind res_bind]. by rewrite Hx.
  - split; cbn [ag_lb]; [by rewrite length_insert|by apply Forall_insert].
Qed.

(** *** The number of hosts does not grow on the udp side *)

Lemma small_set r k lb : map_Forall lb_small (rl_map r) -> lb_small k lb -> map_Forall lb_small (rl_map (rl_set k lb r)).
Proof. intros. by apply map_Forall_insert_2. Qed.

Lemma refresh_map lb w : lb_host_map (refresh cfg lb w).1 = lb_host_map lb.
Proof. destruct (refresh_spec cfg lb w) as (w' & -> & _). by destruct (due cfg lb w). Qed.

Lemma create_small m c r w : map_Forall lb_small (rl_map r) -> map_Forall lb_small (rl_map (create_module m c r w).1).
Proof.
  intros Hs. destruct (create_module_spec m c r w) as (w' & -> & _). apply small_set; [done|].
  unfold lb_small. cbn. rewrite map_size_empty. unfold max_hosts. lia.
Qed.

Lemma get_host_small m c rsp r w ret rsp' r' w' :
  rl_ok r -> get_host cfg m c rsp r w = Ok (ret, rsp', r', w') -> rl_ok r'.
Proof.
  intros [Hg Hs] Hget. destruct (exec_get_host_ok cfg m c rsp r w Hg) as (? & ? & ? & ? & Heq & Hg').
  rewrite Hget in Heq. injection Heq as <- <- <- <-. split; [done|]. unfold get_host in Hget.
  destruct (rl_map r !! pack_key m c) as [lb|] eqn:Hlb.
  - destruct (lb_empty lb) eqn:He; [by injection Hget as _ _ <- _|].
    apply bind_ok in Hget as ([[rt rs] lb1] & Hc & Hget). pose proof (refresh_map lb1 w) as Hm.
    destruct (refresh cfg lb1 w) as [lb2 w2]; cbn [fst] in Hm. injection Hget as _ _ <- _. apply small_set; [done|].
    destruct (Hg _ _ Hlb) as [Hwf Hint _]. unfold lb_empty in He. apply bool_decide_eq_false in He.
    destruct (choice_safe cfg rsp lb Hwf (intact_lists lb Hwf Hint He)) as (? & ? & lb1' & Hc' & _ & Hm1 & _).
    rewrite Hc in Hc'. injection Hc' as <- <- <-. unfold lb_small. rewrite Hm, Hm1. by eapply Hs.
  - pose proof (create_small m c r w Hs) as Hcr. destruct (create_module m c r w) as [r1 w1].
    by injection Hget as _ _ <- _.
Qed.

Lemma get_route_small m c r w :
  let rsp := {| grs_modid := m; grs_cmdid := c; grs_host := [] |} in
  rl_ok r -> exists ret rsp' r' w', get_route cfg m c rsp r w = Ok (ret, rsp', r', w') /\ rl_ok r' /\
    length (grs_host rsp') <= max_hosts.
Proof.
  intros rsp [Hg Hs]. destruct (exec_get_route_ok cfg m c rsp r w Hg) as (ret & rsp' & r' & w' & Hget & Hg').
  exists ret, rsp', r', w'. split; [done|]. unfold get_route in Hget.
  destruct (rl_map r !! pack_key m c) as [lb|] eqn:Hlb.
  - destruct (Hg _ _ Hlb) as [Hwf Hint _]. rewrite get_route_hosts in Hget.
    2:{ intros p. rewrite all_hosts_perm by done. intros [Hp|Hp]%elem_of_app.
        - by destruct (wf_idle _ Hwf _ Hp) as (? & -> & _).
        - by destruct (wf_over _ Hwf _ Hp) as (? & -> & _). }
    cbn [mbind res_bind] in Hget. pose proof (refresh_map lb w) as Hm. destruct (refresh cfg lb w) as [lb2 w2]; cbn [fst] in Hm.
    injection Hget as _ <- <- _. split.
    + split; [done|]. apply small_set; [done|]. unfold lb_small. rewrite Hm. by eapply Hs.
    + cbn. rewrite length_fmap. specialize (Hs _ _ Hlb). unfold lb_small in Hs.
      assert ((length (hosts_of lb (get_all_hosts lb)) <= length (get_all_hosts lb))%nat) as Hle.
      { unfold hosts_of. induction (get_all_hosts lb) as [|p l IH]; cbn; [lia|]. destruct (lb_heap lb !! p); cbn; lia. }
      assert (length (get_all_hosts lb) = size (lb_host_map lb)) as Hsz.
      { unfold get_all_hosts. by rewrite length_fmap, hm_elements_perm, length_map_to_list. }
      lia.
  - pose proof (create_small m c r w Hs) as Hcr. destruct (create_module m c r w) as [r1 w1].
    injection Hget as _ <- <- _. split; [by split|]. cbn. unfold max_hosts. lia.
Qed.

Lemma report_small req r w : rl_ok r -> exists r' w', report_host cfg req r w = Ok (r', w') /\ rl_ok r'.
Proof.
  intros [Hg Hs]. destruct (exec_report_ok cfg req r w Hg) as (r' & w' & Hrep & Hg').
  exists r', w'. split; [done|]. split; [done|]. unfold report_host in Hrep.
  destruct (rl_map r !! _) as [lb|] eqn:Hlb; [|by injection Hrep as <- _].
  apply bind_ok in Hrep as ([lb1 w1] & Hr1 & Hrep). apply bind_ok in Hrep as (w2 & _ & Hrep). injection Hrep as <- _.
  apply small_set; [done|]. destruct (Hg _ _ Hlb) as [Hwf Hint _].
  pose proof (report_cases cfg lb w (hi_ip (rrq_host_get req)) (hi_port (rrq_host_get req)) (rrq_retcode req) Hwf) as Hc.
  rewrite decide_False in Hc by (rewrite Hint; set_solver).
  destruct Hc as (lb' & w'' & Heq & _ & _ & _ & Hm & _). rewrite Hr1 in Heq. injection Heq as <- <-.
  unfold lb_small. rewrite Hm. by eapply Hs.
Qed.

(** *** The callbacks *)

(** The datagram a callback answers with. *)
Definition answered u u' (msgid : Z) (body : bytes) : Prop :=
  u_sent u' = u_sent u ++ (if sendto_at (ag_sends (u_env u)) is SendOk then [(u_client_addr u, frame msgid body)] else []).

Lemma reply_fits data msgid u :
  length (u_write_buf u) = Z.to_nat MESSAGE_LENGTH_LIMIT -> length data <= 65519 ->
  exists u', reply data msgid u = Ok u' /\ answered u u' msgid data /\
    length (u_write_buf u') = Z.to_nat MESSAGE_LENGTH_LIMIT /\
    u_router u' = u_router u /\ u_read_buf u' = u_read_buf u /\ u_client_addr u' = u_client_addr u /\
    ag_lb (u_env u') = ag_lb (u_env u) /\ ag_world (u_env u') = ag_world (u_env u).
Proof.
  intros Hwr Hl. unfold reply.
  destruct (udp_send_cases data msgid (sendto_at (ag_sends (u_env u))) u Hwr) as [Hs _].
  destruct (Hs Hl) as (u1 & -> & Hsent & Hlen & (He & Hro & Hrb & _ & Hc)). cbn [mbind res_bind].
  eexists. split; [done|]. split; [exact Hsent|]. by split_and!.
Qed.

Lemma reply_ok i data msgid u :
  server_ok i u -> length data <= 65519 -> exists u', reply data msgid u = Ok u' /\ server_ok i u'.
Proof.
  intros [Hi Ha Hr Hrd Hwr] Hl. destruct (reply_fits data msgid u Hwr Hl) as (u' & -> & _ & Hw' & Hro & Hrb & _ & Hlb & _).
  exists u'. split; [done|]. split; [done| |by rewrite Hro|by rewrite Hrb|done]. split; rewrite Hlb; apply Ha.
Qed.

Lemma server_ok_env i u a : server_ok i u -> agent_ok a -> server_ok i (u_set_env a u).
Proof. intros [] Ha. by split. Qed.

(** The encoded answers fit, whatever the implementation of the messages. *)
Context (Hsize_host : forall m : GetHostResponse, length (msg_encode m) <= 65519).
Context (Hsize_route : forall m : GetRouteResponse, length (grs_host m) <= max_hosts -> length (msg_encode m) <= 65519).

Lemma agent_callback_ok i cb data msgid u :
  server_ok i u -> exists u', run_agent_callback cb (Some i) data msgid u = Ok u' /\ server_ok i u'.
Proof.
  intros Hu. pose proof (so_agent _ _ Hu) as Ha. pose proof (so_index _ _ Hu) as Hi. destruct cb; cbn.
  - unfold get_host_cb. destruct (msg_decode_total (M := GetHostRequest) data) as [req ->]. cbn [mbind res_bind].
    set (rsp := {| ghs_seq := _; ghs_modid := _; ghs_cmdid := _; ghs_retcode := 0; ghs_host := None |}).
    destruct (on_lb_ok i (fun r w => '(_, rsp, r, w) ← get_host cfg (ghq_modid req) (ghq_cmdid req) rsp r w; Ok (rsp, r, w)) (u_env u) Hi Ha)
      as (rsp' & r & r' & w' & _ & _ & _ & -> & Ha').
    { intros r Hr. destruct (exec_get_host_ok cfg (ghq_modid req) (ghq_cmdid req) rsp r (ag_world (u_env u)) (proj1 Hr))
        as (ret & rsp' & r' & w' & Hg & _). exists rsp', r', w'. rewrite Hg. split; [done|]. by eapply get_host_small. }
    cbn [mbind res_bind]. destruct (reply_ok i (msg_encode rsp') ID_GetHostResponse _ (server_ok_env _ _ _ Hu Ha') (Hsize_host rsp'))
      as (u' & -> & Hu'). by exists u'.
  - unfold report_cb. destruct (msg_decode_total (M := ReportRequest) data) as [req ->]. cbn [mbind res_bind].
    destruct (on_lb_ok i (fun r w => '(r, w) ← report_host cfg req r w; Ok (tt, r, w)) (u_env u) Hi Ha)
      as (x & r & r' & w' & _ & _ & _ & -> & Ha').
    { intros r Hr. destruct (report_small req r (ag_world (u_env u)) Hr) as (r' & w' & -> & Hr'). by exists tt, r', w'. }
    cbn [mbind res_bind]. eexists. split; [done|]. by apply server_ok_env.
  - unfold get_route_cb. destruct (msg_decode_total (M := GetRouteRequest) data) as [req ->]. cbn [mbind res_bind].
    set (f := fun r w => '(_, rsp, r, w) ← get_route cfg (grq_modid req) (grq_cmdid req) _ r w; Ok (rsp, r, w)).
    destruct (on_lb_ok i f (u_env u) Hi Ha) as (rsp' & r & r' & w' & _ & Hr & Hf & -> & Ha').
    { intros r Hr. destruct (get_route_small (grq_modid req) (grq_cmdid req) r (ag_world (u_env u)) Hr)
        as (ret & rsp' & r' & w' & Hg & Hr' & _). exists rsp', r', w'. unfold f. by rewrite Hg. }
    cbn [mbind res_bind]. unfold f in Hf.
    destruct (get_route_small (grq_modid req) (grq_cmdid req) r (ag_world (u_env u)) Hr) as (ret & rsp2 & r2 & w2 & Hg & _ & Hlen).
    rewrite Hg in Hf. injection Hf as -> -> ->.
    destruct (reply_ok i (msg_encode rsp') ID_API_GetRouteResponse _ (server_ok_env _ _ _ Hu Ha') (Hsize_route rsp' Hlen))
      as (u' & -> & Hu'). by exists u'.
Qed.

Lemma agent_router_data i mid cb ud : router_call mid (agent_router i) = Some (cb, ud) -> ud = Some i.
Proof.
  unfold agent_router. rewrite dispatch_first_registration.
  destruct (head _) as [[[j cb'] i']|] eqn:Hh; [|done]. intros [= <- <-].
  apply head_Some_elem_of, list_elem_of_filter in Hh as [_ Hin]. cbn in *. set_unfold in Hin. naive_solver.
Qed.

Lemma agent_serves_lemma i rs u :
  server_ok i u -> match agent_do_read rs u with Ok u' => server_ok i u' | Err f => f = Blocked end.
Proof.
  intros Hu. apply server_do_read_keeps; [by intros ? []| | |done].
  - intros bs a u1 [] Hl. split; cbn; try done. congruence.
  - intros cb ud m u1 Hu1 Hcall. rewrite (so_router _ _ Hu1) in Hcall. apply agent_router_data in Hcall as ->.
    destruct (agent_callback_ok i cb m.2 m.1 (u_put_call m u1)) as (u' & -> & Hu'); [by destruct Hu1|done].
Qed.

(** *** A module's first answer *)

Lemma inserts_over l R lb w : lb_over (foldl (update_insert cfg) (R, lb, w) l).1.2 = lb_over lb.
Proof.
  revert R lb w. induction l as [|h l IH]; intros R lb w; cbn [foldl]; [done|].
  unfold update_insert at 2. destruct (lb_host_map lb !! _); [apply IH|]. cbn. by rewrite IH.
Qed.

Lemma deletes_over l lb lb' : lb_over lb = [] -> foldM update_delete lb l = Ok lb' -> lb_over lb' = [].
Proof.
  revert lb. induction l as [|k l IH]; intros lb Ho Hd; cbn in Hd; [by injection Hd as <-|].
  apply bind_ok in Hd as (lb1 & H1d & Hd). eapply IH; [|exact Hd]. unfold update_delete in H1d.
  apply bind_ok in H1d as (p & _ & H1d). apply bind_ok in H1d as (h & _ & [= <-]). cbn.
  destruct (h_overload h); cbn; rewrite Ho; done.
Qed.

Lemma update_over_nil rsp lb w lb' w' : lb_over lb = [] -> update cfg rsp lb w = Ok (lb', w') -> lb_over lb' = [].
Proof.
  intros Ho. unfold update, time_now. destruct (negb _); [|done].
  pose proof (inserts_over (grs_host rsp) ∅ lb (World (S (w_ticks w)) (w_dns_queue w) (w_report_queue w))) as Hi.
  destruct (foldl (update_insert cfg) _ _) as [[R lb1] w1]. cbn in Hi.
  intros Hb. apply bind_ok in Hb as (lb2 & Hd & [= <- _]). cbn. eapply deletes_over; [|exact Hd]. congruence.
Qed.

Lemma created_update modid cmdid t rsp w :
  let lb := LB modid cmdid ∅ [] [] 0 PULLING t ∅ 1%positive in
  grs_host rsp <> [] -> exists lb' w', update cfg rsp lb w = Ok (lb', w') /\ lb_good (pack_key modid cmdid) lb' /\
    lb_over lb' = [] /\ dom (lb_host_map lb') = remote_keys (grs_host rsp).
Proof.
  intros lb Hne. destruct (good_created modid cmdid t) as [Hwf Hint Hkey]. fold lb in Hwf, Hint, Hkey.
  pose proof (update_outcome cfg rsp lb w Hwf Hne) as Hu. rewrite decide_True in Hu by (rewrite Hint; set_solver).
  destruct Hu as (lb' & w' & Hup & _ & [Hwf' Hk _ _ Hdom Hlive _]).
  exists lb', w'. split; [done|]. split; [|split; [by apply (update_over_nil rsp lb w lb' w')|]].
  - split; [done| |destruct Hk as [Hm1 Hm2 _]; by eapply good_key].
    unfold lb_intact, dead_keys. rewrite Hdom, Hlive, keys_of_domain, Hint. by apply reconcile_nothing_lost.
  - rewrite Hdom. cbn. set_solver.
Qed.

(** A module without overloaded hosts is served from its idle list. *)
Lemma serve_idle_module modid cmdid r w rsp lb :
  rl_map r !! pack_key modid cmdid = Some lb -> lb_good (pack_key modid cmdid) lb -> lb_over lb = [] -> lb_host_map lb <> ∅ ->
  exists ans r' w', get_host cfg modid cmdid rsp r w = Ok (RET_SUCC, ghs_set_retcode RET_SUCC (ghs_set_host ans rsp), r', w') /\
    pack_key (hi_ip ans) (hi_port ans) ∈ dom (lb_host_map lb).
Proof.
  intros Hlb [Hwf Hint Hkey] Ho Hne. unfold get_host. rewrite Hlb. unfold lb_empty. rewrite bool_decide_false by done.
  pose proof (intact_lists lb Hwf Hint Hne) as Hl. rewrite Ho, app_nil_r in Hl.
  destruct (lb_idle lb) as [|p l] eqn:Hi; [done|].
  destruct (wf_idle lb Hwf p) as (h & Hp & _); [rewrite Hi; by left|].
  rewrite (choice_serves_idle cfg rsp lb p l h) by (done || by left). cbn [mbind res_bind].
  destruct (refresh cfg _ w) as [lb2 w2]. exists (host_answer h), (rl_set (pack_key modid cmdid) lb2 r), w2. split; [done|].
  apply elem_of_dom. exists p. pose proof (wf_mapped lb Hwf p h Hp) as Hmap. unfold host_key in Hmap.
  rewrite <-Hmap. f_equal. cbn. by rewrite <-pack_key_u32_hi, u32_i32, pack_key_u32_hi.
Qed.

Lemma get_host_cb_run (i : nat) u req r ret rsp' r' w' :
  length (u_write_buf u) = Z.to_nat MESSAGE_LENGTH_LIMIT -> msg_ok req -> ag_lb (u_env u) !! i = Some r ->
  get_host cfg (ghq_modid req) (ghq_cmdid req)
    {| ghs_seq := ghq_seq req; ghs_modid := ghq_modid req; ghs_cmdid := ghq_cmdid req; ghs_retcode := 0; ghs_host := None |}
    r (ag_world (u_env u)) = Ok (ret, rsp', r', w') ->
  exists u', get_host_cb (msg_encode req) (Some i) u = Ok u' /\ answered u u' ID_GetHostResponse (msg_encode rsp') /\
    length (u_write_buf u') = Z.to_nat MESSAGE_LENGTH_LIMIT /\
    ag_lb (u_env u') = <[i := r']> (ag_lb (u_env u)) /\ ag_world (u_env u') = w'.
Proof.
  intros Hwr Hreq Hr Hg. unfold get_host_cb. rewrite (msg_roundtrip req Hreq). cbn [mbind res_bind].
  unfold on_lb. cbn [of_option mbind res_bind]. rewrite Hr. cbn [of_option mbind res_bind].
  rewrite Hg. cbn [mbind res_bind].
  destruct (reply_fits (msg_encode rsp') ID_GetHostResponse
    (u_set_env (Agent (<[i := r']> (ag_lb (u_env u))) w' (ag_sends (u_env u))) u) Hwr (Hsize_host rsp'))
    as (u' & -> & Ha & Hw' & _ & _ & _ & Hlb & Hwd). by exists u'.
Qed.

Lemma deal_recv_route_run (i : nat) a rsp r ret r' w' :
  msg_ok rsp -> route_index (grs_modid rsp) (grs_cmdid rsp) = i -> ag_lb a !! i = Some r ->
  update_host cfg (grs_modid rsp) (grs_cmdid rsp) rsp r (ag_world a) = Ok (ret, r', w') ->
  deal_recv_route (msg_encode rsp) a = Ok (Agent (<[i := r']> (ag_lb a)) w' (ag_sends a)).
Proof.
  intros Hok Hidx Hr Hu. unfold deal_recv_route. rewrite (msg_roundtrip rsp Hok). cbn [mbind res_bind].
  rewrite Hidx. destruct (Z.leb_spec 0 i); [|lia]. unfold on_lb. rewrite Nat2Z.id. cbn [of_option mbind res_bind].
  rewrite Hr. cbn [of_option mbind res_bind]. by rewrite Hu.
Qed.

(** The answer to a request. *)
Definition host_response (req : GetHostRequest) (retcode : Z) (host : option HostInfo) : GetHostResponse :=
  {| ghs_seq := ghq_seq req; ghs_modid := ghq_modid req; ghs_cmdid := ghq_cmdid req; ghs_retcode := retcode; ghs_host := host |}.

Lemma first_request_lemma (i : nat) u r req rsp req2 :
  server_ok i u -> msg_ok req -> msg_ok rsp -> msg_ok req2 -> ag_lb (u_env u) !! i = Some r ->
  route_index (ghq_modid req) (ghq_cmdid req) = i -> rl_map r !! pack_key (ghq_modid req) (ghq_cmdid req) = None ->
  ghq_modid req2 = ghq_modid req -> ghq_cmdid req2 = ghq_cmdid req ->
  grs_modid rsp = ghq_modid req -> grs_cmdid rsp = ghq_cmdid req -> grs_host rsp <> [] ->
  exists u1, get_host_cb (msg_encode req) (Some i) u = Ok u1 /\
    answered u u1 ID_GetHostResponse (msg_encode (host_response req RET_NOEXIST None)) /\
    w_dns_queue (ag_world (u_env u1)) = w_dns_queue (ag_world (u_env u)) ++ [{| grq_modid := ghq_modid req; grq_cmdid := ghq_cmdid req |}] /\
  exists a, deal_recv_route (msg_encode rsp) (u_env u1) = Ok a /\
  exists u2 ans, get_host_cb (msg_encode req2) (Some i) (u_set_env a u1) = Ok u2 /\
    answered (u_set_env a u1) u2 ID_GetHostResponse (msg_encode (host_response req2 RET_SUCC (Some ans))) /\
    pack_key (hi_ip ans) (hi_port ans) ∈ remote_keys (grs_host rsp).
Proof.
  intros Hu Hreq Hrsp Hreq2 Hr Hidx Hnone Hm2 Hc2 Hm Hc Hne. set (k := pack_key _ _) in Hnone.
  destruct (create_module_spec (ghq_modid req) (ghq_cmdid req) r (ag_world (u_env u))) as (w1 & Hcr & Hq & _). fold k in Hcr.
  set (r1 := rl_set k _ r) in Hcr.
  destruct (get_host_cb_run i u req r RET_NOEXIST (host_response req RET_NOEXIST None) r1 w1 (so_write _ _ Hu) Hreq Hr)
    as (u1 & Hcb & Hans & Hwr & Hlb & Hwd).
  { unfold get_host. fold k. by rewrite Hnone, Hcr. }
  exists u1. split; [done|]. split; [done|]. split; [by rewrite Hwd|].
  assert (ag_lb (u_env u1) !! i = Some r1) as Hr1.
  { rewrite Hlb. apply list_lookup_insert_eq. by apply lookup_lt_Some in Hr. }
  destruct (created_update (ghq_modid req) (ghq_cmdid req) (time_at (w_ticks (ag_world (u_env u)))) rsp (ag_world (u_env u1)) Hne)
    as (lb' & w2 & Hup & Hgood & Hover & Hdom). fold k in Hgood.
  exists (Agent (<[i := rl_set k lb' r1]> (ag_lb (u_env u1))) w2 (ag_sends (u_env u1))). split.
  { apply (deal_recv_route_run i _ rsp r1 0); [done|by rewrite Hm, Hc|done|]. unfold update_host. rewrite Hm, Hc. fold k.
    unfold r1 at 1. cbn [rl_set rl_set_map rl_map]. rewrite lookup_insert_eq.
    destruct (Nat.eqb_spec (length (grs_host rsp)) 0) as [Hz|_]; [by apply length_zero_iff_nil in Hz|]. by rewrite Hup. }
  set (a := Agent _ w2 _). assert (ag_lb a !! i = Some (rl_set k lb' r1)) as Hr2.
  { apply list_lookup_insert_eq. by apply lookup_lt_Some in Hr1. }
  destruct (serve_idle_module (ghq_modid req) (ghq_cmdid req) (rl_set k lb' r1) w2 (host_response req2 0 None) lb')
    as (ans & r3 & w3 & Hget & Hin); [by cbn; rewrite lookup_insert_eq|done|done| |].
  { intros He. rewrite He, dom_empty_L in Hdom. destruct (grs_host rsp) as [|h l]; [done|].
    assert (pack_key (hi_ip h) (hi_port h) ∈ (∅ : gset Z)) as Habs; [rewrite Hdom; cbn; set_solver|set_solver]. }
  destruct (get_host_cb_run i (u_set_env a u1) req2 (rl_set k lb' r1) RET_SUCC
    (ghs_set_retcode RET_SUCC (ghs_set_host ans (host_response req2 0 None))) r3 w3 Hwr Hreq2 Hr2) as (u2 & Hcb2 & Hans2 & _).
  { unfold host_response in Hget |- *. rewrite Hm2, Hc2 in Hget |- *. exact Hget. }
  exists u2, ans. split; [done|]. split; [exact Hans2|]. by rewrite <-Hdom.
Qed.
End agent.

(** ** Properties *)

Section wire.
Context {T K Addr : Type} `{Epoll K} `{Clock} `{HashOrder} `{WireFormat} (cfg : load_balance_config).
Context (sendto_at : nat -> send_result).
Implicit Types u : udp T K agent agent_cb nat Addr.

Lemma host_fits (m : GetHostResponse) : length (msg_encode m) <= 65519.
Proof. pose proof (GetHostResponse_length m). cbn. lia. Qed.

Lemma route_fits (m : GetRouteResponse) : length (grs_host m) <= max_hosts -> length (msg_encode m) <= 65519.
Proof. intros Hm. pose proof (GetRouteResponse_length m). unfold max_hosts in Hm. cbn. lia. Qed.

(** C8: No sequence of datagrams, whatever their bytes, lengths and senders, makes a
    udp server of the agent fault: malformed ones are dropped or read as far as
    they go, every request is worked off and answered within the size of a
    datagram, and the modules of all three threads stay sound.  (The route_lb has
    to be undamaged, with at most 2700 hosts per module.) *)
Theorem agent_survives_datagrams i rs u :
  server_ok i u ->
  match agent_do_read cfg sendto_at rs u with
  | Ok u' => server_ok i u'
  | Err f => f = Blocked
  end.
Proof. intros Hu. exact (agent_serves_lemma cfg sendto_at host_fits route_fits i rs u Hu). Qed.

(** C19: The first request for a module is answered RET_NOEXIST and makes exactly one
    request to the dns service; once a non-empty answer has come in on the dns
    client, the next request is answered RET_SUCC with a host of that answer.  Both
    replies echo seq, modid and cmdid of their request. *)
Theorem first_request_pulls_then_serves (i : nat) u r req rsp req2 :
  server_ok i u -> msg_ok req -> msg_ok rsp -> msg_ok req2 -> ag_lb (u_env u) !! i = Some r ->
  route_index (ghq_modid req) (ghq_cmdid req) = i -> rl_map r !! pack_key (ghq_modid req) (ghq_cmdid req) = None ->
  ghq_modid req2 = ghq_modid req -> ghq_cmdid req2 = ghq_cmdid req ->
  grs_modid rsp = ghq_modid req -> grs_cmdid rsp = ghq_cmdid req -> grs_host rsp <> [] ->
  exists u1, get_host_cb cfg sendto_at (msg_encode req) (Some i) u = Ok u1 /\
    answered sendto_at u u1 ID_GetHostResponse (msg_encode (host_response req RET_NOEXIST None)) /\
    w_dns_queue (ag_world (u_env u1)) = w_dns_queue (ag_world (u_env u)) ++ [{| grq_modid := ghq_modid req; grq_cmdid := ghq_cmdid req |}] /\
  exists a, deal_recv_route cfg (msg_encode rsp) (u_env u1) = Ok a /\
  exists u2 ans, get_host_cb cfg sendto_at (msg_encode req2) (Some i) (u_set_env a u1) = Ok u2 /\
    answered sendto_at (u_set_env a u1) u2 ID_GetHostResponse (msg_encode (host_response req2 RET_SUCC (Some ans))) /\
    pack_key (hi_ip ans) (hi_port ans) ∈ remote_keys (grs_host rsp).
Proof. exact (first_request_lemma cfg sendto_at host_fits route_fits i u r req rsp req2). Qed.

(** A module the agent does not know is asked for at the dns service. *)
Lemma new_module_asked (i : nat) u r req :
  server_ok i u -> msg_ok req -> ag_lb (u_env u) !! i = Some r ->
  rl_map r !! pack_key (ghq_modid req) (ghq_cmdid req) = None ->
  exists u1, get_host_cb cfg sendto_at (msg_encode req) (Some i) u = Ok u1 /\
    w_dns_queue (ag_world (u_env u1)) = w_dns_queue (ag_world (u_env u)) ++ [{| grq_modid := ghq_modid req; grq_cmdid := ghq_cmdid req |}].
Proof.
  intros Hu Hreq Hr Hnone.
  destruct (create_module_spec (ghq_modid req) (ghq_cmdid req) r (ag_world (u_env u))) as (w1 & Hcr & Hq & _).
  match type of Hcr with _ = (?x, _) => set (r1 := x) in Hcr end.
  destruct (get_host_cb_run cfg sendto_at host_fits i u req r RET_NOEXIST (host_response req RET_NOEXIST None) r1 w1
    (so_write _ _ Hu) Hreq Hr) as (u1 & Hcb & _ & _ & _ & Hwd).
  { unfold get_host. by rewrite Hnone, Hcr. }
  exists u1. split; [exact Hcb|]. by rewrite Hwd.
Qed.

(** A module whose modid + cmdid is negative (and no multiple of three) brings the
    agent down: any udp server accepts a request for it and asks the dns service,
    and the answer indexes [r_lb] with a negative number. *)
Theorem negative_module_out_of_bounds (i : nat) u r req :
  server_ok i u -> msg_ok req -> ag_lb (u_env u) !! i = Some r ->
  rl_map r !! pack_key (ghq_modid req) (ghq_cmdid req) = None -> route_index (ghq_modid req) (ghq_cmdid req) < 0 ->
  exists u1, get_host_cb cfg sendto_at (msg_encode req) (Some i) u = Ok u1 /\
    w_dns_queue (ag_world (u_env u1)) = w_dns_queue (ag_world (u_env u)) ++ [{| grq_modid := ghq_modid req; grq_cmdid := ghq_cmdid req |}] /\
    forall rsp, msg_ok rsp -> grs_modid rsp = ghq_modid req -> grs_cmdid rsp = ghq_cmdid req ->
      deal_recv_route cfg (msg_encode rsp) (u_env u1) = Err OutOfBounds.
Proof.
  intros Hu Hreq Hr Hnone Hneg.
  destruct (new_module_asked i u r req Hu Hreq Hr Hnone) as (u1 & Hcb & Hq). exists u1. split; [exact Hcb|]. split; [exact Hq|]. intros rsp Hok Hm Hc.
  unfold deal_recv_route. rewrite (msg_roundtrip rsp Hok). cbn [mbind res_bind]. rewrite Hm, Hc.
  by destruct (Z.leb_spec 0 (route_index (ghq_modid req) (ghq_cmdid req))); [lia|].
Qed.
End wire.

Module AgentDemo.
#[local] Existing Instances epoll_map wire_varint.
#[local] Instance demo_order : HashOrder := hash_order_list.
#[local] Instance demo_clock : Clock := clock_const 1000.
Abbreviation server := (udp unit (gmap Z Z) agent agent_cb nat nat).

(** The udp server of port 8890, waiting on descriptor 5. *)
Definition server2 : server :=
  Udp 5 (event_loop_new ∅) (replicate (Z.to_nat MESSAGE_LENGTH_LIMIT) Byte.x00) (replicate (Z.to_nat MESSAGE_LENGTH_LIMIT) Byte.x00)
    0%nat (agent_router 2) init_lb_agent [] [].
Definition always_sent (_ : nat) : send_result := SendOk.

Lemma server2_ok : server_ok 2 server2.
Proof. split; [lia|apply init_agent_ok|done|apply length_replicate|apply length_replicate]. Qed.

Definition req0 : GetHostRequest := {| ghq_seq := 7; ghq_modid := 1; ghq_cmdid := 1 |}.
Definition req_neg : GetHostRequest := {| ghq_seq := 7; ghq_modid := -1; ghq_cmdid := 0 |}.
Definition rsp0 : GetRouteResponse := {| grs_modid := 1; grs_cmdid := 1; grs_host := [WireDemo.host0] |}.

Lemma ghq_ok m c : is_i32 m -> is_i32 c -> msg_ok {| ghq_seq := 7; ghq_modid := m; ghq_cmdid := c |}.
Proof. intros Hm Hc. split_and!; [cbn; unfold is_u32; lia|done|done]. Qed.
Lemma req0_ok : msg_ok req0.
Proof. apply ghq_ok; unfold is_i32; lia. Qed.
Lemma rsp0_ok : msg_ok rsp0.
Proof. by apply (bool_decide_unpack _). Qed.

(** Three datagrams: noise, a request, a request from somebody else. *)
Lemma agent_survives_datagrams_witness :
  match agent_do_read lb_agent_ini always_sent
          [RecvDatagram [Byte.x41; Byte.x42] 1%nat; RecvEintr; RecvDatagram (frame ID_GetHostRequest (msg_encode req0)) 2%nat; RecvEagain] server2 with
  | Ok u' => server_ok 2 u'
  | Err f => f = Blocked
  end.
Proof.
  exact (agent_survives_datagrams lb_agent_ini always_sent 2
    [RecvDatagram [Byte.x41; Byte.x42] 1%nat; RecvEintr; RecvDatagram (frame ID_GetHostRequest (msg_encode req0)) 2%nat; RecvEagain]
    server2 server2_ok).
Defined.

Lemma first_request_pulls_then_serves_witness : exists u1 a u2 ans,
  get_host_cb lb_agent_ini always_sent (msg_encode req0) (Some 2%nat) server2 = Ok u1 /\
  deal_recv_route lb_agent_ini (msg_encode rsp0) (u_env u1) = Ok a /\
  get_host_cb lb_agent_ini always_sent (msg_encode req0) (Some 2%nat) (u_set_env a u1) = Ok u2 /\
  pack_key (hi_ip ans) (hi_port ans) = pack_key (i32 3232235953) 7777.
Proof.
  destruct (first_request_pulls_then_serves lb_agent_ini always_sent 2 server2 (route_lb_new 3) req0 rsp0 req0
    server2_ok req0_ok rsp0_ok req0_ok) as (u1 & H1 & _ & _ & a & H2 & u2 & ans & H3 & _ & Hin); try reflexivity; [discriminate|].
  exists u1, a, u2, ans. split; [exact H1|]. split; [exact H2|]. split; [exact H3|].
  cbn -[pack_key i32] in Hin. set_unfold in Hin. destruct Hin as [Hin|[]]. exact Hin.
Defined.

Lemma negative_module_out_of_bounds_witness : exists u1,
  get_host_cb lb_agent_ini always_sent (msg_encode req_neg) (Some 2%nat) server2 = Ok u1 /\
  deal_recv_route lb_agent_ini (msg_encode {| grs_modid := -1; grs_cmdid := 0; grs_host := [] |}) (u_env u1) = Err OutOfBounds.
Proof.
  destruct (negative_module_out_of_bounds lb_agent_ini always_sent 2 server2 (route_lb_new 3) req_neg server2_ok) as (u1 & H1 & _ & H2).
  - apply ghq_ok; unfold is_i32; lia.
  - reflexivity.
  - reflexivity.
  - vm_compute. reflexivity.
  - exists u1. split; [exact H1|]. apply H2; [by apply (bool_decide_unpack _)|reflexivity|reflexivity].
Defined.
End AgentDemo.
