(* ===== verification/AgentTypes.v ===== *)
(** * AgentTypes: every integer of the agent has the range of its C++ type

    The model keeps the fields of the agent's objects as [Z]; [agent_typed] says that
    each is in the range of the type the class declares, and that the messages on the
    two queues can be written.  Every operation keeps it, whatever bytes arrive, so
    that the wrap-arounds the model writes out are all there are, and every message
    the agent sends is one its receiver reads back. *)

From S2P Require Import Prelude Keys Proto HostNode LoadBalance BalanceSpec RouteLb RouteSpec Bytes.
From S2P Require Import Wire Messages EventLoop BufPool ReactorBuf Stream StreamSpec TcpConn TcpClient Udp AgentService.
From stdpp Require Import base numbers list gmap fin_maps.
From Stdlib Require Import ZArith Lia.
Open Scope Z_scope.

(** [uint32_t ip], [int port], the six [uint32_t] counters *)
Record host_typed (h : host_info) : Prop := {
  ht_ip : is_u32 (h_ip h);
  ht_port : is_i32 (h_port h);
  ht_vsucc : is_u32 (h_vsucc h);
  ht_verr : is_u32 (h_verr h);
  ht_rsucc : is_u32 (h_rsucc h);
  ht_rerr : is_u32 (h_rerr h);
  ht_contin_succ : is_u32 (h_contin_succ h);
  ht_contin_err : is_u32 (h_contin_err h)
}.

(** [int _modid], [int _cmdid], [int _access_cnt] *)
Record lb_typed (lb : load_balance) : Prop := {
  lt_modid : is_i32 (lb_modid lb);
  lt_cmdid : is_i32 (lb_cmdid lb);
  lt_cnt : is_i32 (lb_access_cnt lb);
  lt_hosts : map_Forall (fun _ => host_typed) (lb_heap lb)
}.
Definition rl_typed (r : route_lb) : Prop := map_Forall (fun _ => lb_typed) (rl_map r).

Record world_typed (w : world) : Prop := {
  wt_dns : Forall GetRouteRequest_ok (w_dns_queue w);
  wt_report : Forall ReportStatusRequest_ok (w_report_queue w)
}.

Record agent_typed (a : agent) : Prop := {
  at_lb : Forall rl_typed (ag_lb a);
  at_world : world_typed (ag_world a)
}.

(** ** One host *)

Lemma u32_zero : is_u32 0.
Proof. unfold is_u32. lia. Qed.
#[local] Hint Resolve u32_zero u32_range i32_range : core.
#[local] Hint Resolve ht_ip ht_port ht_vsucc ht_verr ht_rsucc ht_rerr ht_contin_succ ht_contin_err : core.

Lemma new_host_typed now ip port n : is_i32 port -> host_typed (host_info_new now ip port n).
Proof. intros Hp. split; cbn; auto. Qed.
Lemma overload_typed cfg t h : host_typed h -> host_typed (set_overload cfg t h).
Proof. intros Hh. split; cbn; auto. Qed.
Lemma idle_typed cfg t h : host_typed h -> host_typed (set_idle cfg t h).
Proof. intros Hh. split; cbn; auto. Qed.
Lemma count_typed rc h : host_typed h -> host_typed (count_result rc h).
Proof. intros Hh. unfold count_result. destruct (_ =? _); split; cbn; auto. Qed.
#[local] Hint Resolve new_host_typed overload_typed idle_typed count_typed : core.

(** ** One module *)

Section types.
Context `{Clock} (cfg : load_balance_config).
Context (Hprobe : is_i32 (probe_num cfg)).

Lemma deref_typed lb p h : lb_typed lb -> deref lb p = Ok h -> host_typed h.
Proof. intros Hl Hd. apply of_option_ok in Hd. by eapply lt_hosts. Qed.

Lemma store_typed p h lb : host_typed h -> lb_typed lb -> lb_typed (store p h lb).
Proof. intros Hh []. split; cbn; [done..|]. by apply map_Forall_insert_2. Qed.
Lemma lists_typed i o lb : lb_typed lb -> lb_typed (lb_set_lists i o lb).
Proof. by intros []. Qed.
Lemma status_typed s lb : lb_typed lb -> lb_typed (lb_set_status s lb).
Proof. by intros []. Qed.
Lemma last_update_typed t lb : lb_typed lb -> lb_typed (lb_set_last_update t lb).
Proof. by intros []. Qed.
Lemma cnt_typed c lb : is_i32 c -> lb_typed lb -> lb_typed (lb_set_cnt c lb).
Proof. by intros ? []. Qed.
Lemma add_host_typed k h lb : host_typed h -> lb_typed lb -> lb_typed (add_host k h lb).
Proof. intros Hh []. split; cbn; [done..|]. by apply map_Forall_insert_2. Qed.

Lemma ticked_typed w : world_typed w -> world_typed (time_now w).2.
Proof. by intros []. Qed.
Lemma sent_dns_typed r w : GetRouteRequest_ok r -> world_typed w -> world_typed (w_send_dns r w).
Proof. intros Hr []. split; [by apply Forall_app_2, Forall_singleton|done]. Qed.
Lemma sent_report_typed r w : ReportStatusRequest_ok r -> world_typed w -> world_typed (w_send_report r w).
Proof. intros Hr []. split; [done|by apply Forall_app_2, Forall_singleton]. Qed.

#[local] Hint Resolve store_typed lists_typed status_typed last_update_typed cnt_typed add_host_typed : core.
#[local] Hint Resolve ticked_typed sent_dns_typed sent_report_typed : core.

Lemma pull_typed lb w : lb_typed lb -> world_typed w -> lb_typed (pull lb w).1 /\ world_typed (pull lb w).2.
Proof. intros Hl Hw. unfold pull. split; cbn [fst snd]; [auto|]. apply sent_dns_typed; [|done]. split; apply Hl. Qed.

Lemma inserts_typed hosts R lb w :
  Forall HostInfo_ok hosts -> lb_typed lb -> world_typed w ->
  lb_typed (foldl (update_insert cfg) (R, lb, w) hosts).1.2 /\ world_typed (foldl (update_insert cfg) (R, lb, w) hosts).2.
Proof.
  intros Hh. revert R lb w. induction Hh as [|h hosts [_ Hp] _ IH]; intros R lb w Hl Hw; [done|]. cbn [foldl].
  unfold update_insert at 2 4. destruct (lb_host_map lb !! _); [by apply IH|]. cbn [time_now]. apply IH; [auto|by destruct Hw].
Qed.

Lemma delete_typed lb k lb' : update_delete lb k = Ok lb' -> lb_typed lb -> lb_typed lb'.
Proof.
  unfold update_delete. intros Hd [Hm Hc Hn Hh]. apply bind_ok in Hd as (p & _ & Hd). apply bind_ok in Hd as (h & _ & [= <-]).
  destruct (h_overload h); (split; cbn; [done..|]; by apply map_Forall_delete).
Qed.

Lemma deletes_typed l lb lb' : foldM update_delete lb l = Ok lb' -> lb_typed lb -> lb_typed lb'.
Proof.
  revert lb. induction l as [|k l IH]; intros lb Hd Hl; cbn in Hd; [by injection Hd as <-|].
  apply bind_ok in Hd as (lb1 & Hk & Hd). eapply IH; [done|]. by eapply delete_typed.
Qed.

Lemma update_typed rsp lb w lb' w' :
  GetRouteResponse_ok rsp -> lb_typed lb -> world_typed w -> update cfg rsp lb w = Ok (lb', w') -> lb_typed lb' /\ world_typed w'.
Proof.
  intros (_ & _ & Hh) Hl Hw. unfold update, time_now. destruct (negb _); [|done].
  pose proof (inserts_typed (grs_host rsp) ∅ lb (World (S (w_ticks w)) (w_dns_queue w) (w_report_queue w)) Hh Hl) as Hi.
  destruct (foldl (update_insert cfg) _ _) as [[R lb1] w1]. cbn [fst snd] in Hi. destruct Hi as [Hl1 Hw1]; [by destruct Hw|].
  intros Hb. apply bind_ok in Hb as (lb2 & Hd & [= <- <-]). split; [|done].
  eapply deletes_typed in Hd; [|done]. auto.
Qed.

Lemma from_list_typed lb rsp l rsp' l' :
  get_host_from_list lb rsp l = Ok (rsp', l') -> lb_typed lb -> GetHostResponse_ok rsp -> GetHostResponse_ok rsp'.
Proof.
  unfold get_host_from_list. intros Hg Hl (H1r & H2r & H3r & H4r & _). destruct l as [|p l]; [done|].
  apply bind_ok in Hg as (h & Hp & [= <- _]). eapply deref_typed in Hp; [|done].
  split_and!; cbn; [done..|]. intros hi [= <-]. split; cbn; auto.
Qed.

Lemma choice_typed rsp lb ret rsp' lb' :
  choice_one_host cfg rsp lb = Ok (ret, rsp', lb') -> lb_typed lb -> GetHostResponse_ok rsp ->
  is_i32 ret /\ GetHostResponse_ok rsp' /\ lb_typed lb'.
Proof.
  intros Hc Hl Hr. assert (is_i32 0 /\ is_i32 RET_SUCC /\ is_i32 RET_OVERLOAD) as (H0 & Hsucc & Hover) by (unfold is_i32, RET_SUCC, RET_OVERLOAD; lia).
  assert ((probe_num cfg <=? lb_access_cnt lb) = false -> is_i32 (lb_access_cnt lb + 1)) as Hcnt.
  { intros Hn%Z.leb_gt. pose proof (lt_cnt _ Hl). unfold is_i32 in *. lia. }
  unfold choice_one_host, choice_idle, choice_over in Hc.
  repeat case_match; try (injection Hc as <- <- <-; by auto);
    apply bind_ok in Hc as ([rsp1 l1] & Hg & [= <- <- <-]); apply from_list_typed in Hg; auto 6.
Qed.

Lemma windows_typed t p hi lb w lb' w' :
  report_windows cfg t p hi lb w = Ok (lb', w') -> host_typed hi -> lb_typed lb -> world_typed w -> lb_typed lb' /\ world_typed w'.
Proof.
  unfold report_windows, move_to_idle. intros Hr Hh Hl Hw. destruct (negb _).
  - destruct (_ <=? _); injection Hr as <- <-; split; auto. by destruct Hw.
  - apply bind_ok in Hr as (ts & _ & Hr). destruct (_ <=? _); injection Hr as <- <-; split; auto. by destruct Hw.
Qed.

Lemma report_typed ip port rc lb w lb' w' :
  LoadBalance.report cfg ip port rc lb w = Ok (lb', w') -> lb_typed lb -> world_typed w -> lb_typed lb' /\ world_typed w'.
Proof.
  unfold LoadBalance.report. cbn [time_now]. intros Hr Hl Hw. set (w1 := World _ _ _) in Hr.
  assert (world_typed w1) as Hw1 by by destruct Hw. clearbody w1.
  destruct (lb_host_map lb !! _) as [p|]; [|injection Hr as <- <-; auto]. apply bind_ok in Hr as (h & Hp & Hr).
  eapply deref_typed, (count_typed rc) in Hp as Hh; [|done]. cbv zeta in Hr. set (hi := count_result rc h) in *. clearbody hi.
  repeat case_match; try (eapply windows_typed; [exact Hr|by auto..]);
    injection Hr as <- <-; unfold move_to_over, move_to_idle; (split; [auto|by destruct Hw1]).
Qed.

Lemma commit_hosts_typed lb ov l req req' :
  foldM (commit_host lb ov) req l = Ok req' -> lb_typed lb -> ReportStatusRequest_ok req -> ReportStatusRequest_ok req'.
Proof.
  intros Hf Hl. revert req Hf. induction l as [|p l IH]; intros req Hf Hr; cbn [foldM] in Hf; [by injection Hf as <-|].
  apply bind_ok in Hf as (req1 & Hc & Hf). apply (IH req1 Hf). unfold commit_host in Hc.
  apply bind_ok in Hc as (h & Hp & [= <-]). eapply deref_typed in Hp; [|done].
  destruct Hr as (H1r & H2r & H3r & H4r & H5r). split_and!; cbn; [done..| |done].
  apply Forall_app_2, Forall_singleton; [done|]. split_and!; cbn; auto.
Qed.

Lemma commit_typed lb w w' : commit lb w = Ok w' -> lb_typed lb -> world_typed w -> world_typed w'.
Proof.
  unfold commit. destruct (lb_empty lb); [by intros [= <-]|]. cbn [time_now]. intros Hc Hl Hw.
  apply bind_ok in Hc as (r1 & Hi & Hc). apply bind_ok in Hc as (r2 & Ho & [= <-]).
  apply sent_report_typed; [|by destruct Hw]. eapply commit_hosts_typed; [exact Ho|done|].
  eapply commit_hosts_typed; [exact Hi|done|]. split_and!; cbn; [apply Hl|apply Hl|unfold is_i32; lia|constructor|auto].
Qed.

(** ** The modules of a thread *)

Lemma set_typed k lb r : lb_typed lb -> rl_typed r -> rl_typed (rl_set k lb r).
Proof. intros. by apply map_Forall_insert_2. Qed.
#[local] Hint Resolve set_typed : core.

Lemma refresh_typed lb w : lb_typed lb -> world_typed w -> lb_typed (refresh cfg lb w).1 /\ world_typed (refresh cfg lb w).2.
Proof.
  intros Hl Hw. unfold refresh. destruct (lb_status lb); [done|]. cbn [time_now].
  destruct (_ <? _); [apply pull_typed; [done|by destruct Hw]|by destruct Hw].
Qed.

Lemma create_typed m c r w :
  is_i32 m -> is_i32 c -> rl_typed r -> world_typed w -> rl_typed (create_module m c r w).1 /\ world_typed (create_module m c r w).2.
Proof.
  intros Hm Hc Hr Hw. unfold create_module. destruct (load_balance_new m c w) as [lb w1] eqn:Hn.
  assert (lb_typed lb /\ world_typed w1) as [Hl Hw1].
  { unfold load_balance_new, time_now in Hn. injection Hn as <- <-. split; [|by destruct Hw].
    split; cbn; [done|done|unfold is_i32; lia|apply map_Forall_empty]. }
  pose proof (pull_typed lb w1 Hl Hw1) as Hp. destruct (pull lb w1) as [lb2 w2]. cbn [fst snd] in *. destruct Hp. auto.
Qed.

Context `{HashOrder}.

Lemma update_host_typed m c rsp r w ret r' w' :
  update_host cfg m c rsp r w = Ok (ret, r', w') -> GetRouteResponse_ok rsp -> rl_typed r -> world_typed w -> rl_typed r' /\ world_typed w'.
Proof.
  unfold update_host. intros Hu Hok Hr Hw. destruct (rl_map r !! _) as [lb|] eqn:Hlb; [|by injection Hu as _ <- <-].
  destruct (Nat.eqb _ _); [injection Hu as _ <- <-; split; [by apply map_Forall_delete|done]|].
  apply bind_ok in Hu as ([lb1 w1] & Hup & [= _ <- <-]). apply update_typed in Hup as [Hl1 Hw1]; [auto|done|by eapply Hr|done].
Qed.

Lemma retcode_ok rc rsp : is_i32 rc -> GetHostResponse_ok rsp -> GetHostResponse_ok (ghs_set_retcode rc rsp).
Proof. intros Hrc (H1r & H2r & H3r & H4r & H5r). by split_and!. Qed.

Lemma get_host_typed m c rsp r w ret rsp' r' w' :
  RouteLb.get_host cfg m c rsp r w = Ok (ret, rsp', r', w') -> is_i32 m -> is_i32 c -> GetHostResponse_ok rsp ->
  rl_typed r -> world_typed w -> GetHostResponse_ok rsp' /\ rl_typed r' /\ world_typed w'.
Proof.
  unfold RouteLb.get_host. intros Hg Hm Hc Hok Hr Hw. assert (is_i32 RET_NOEXIST) as Hne by (unfold is_i32, RET_NOEXIST; lia).
  destruct (rl_map r !! _) as [lb|] eqn:Hlb.
  - destruct (lb_empty lb); [injection Hg as _ <- <- <-; auto using retcode_ok|].
    apply bind_ok in Hg as ([[ret1 rsp1] lb1] & Hch & Hg). apply choice_typed in Hch as (Hret & Hok1 & Hl1); [|by eapply Hr|done].
    pose proof (refresh_typed lb1 w Hl1 Hw) as [Hl2 Hw2]. destruct (refresh cfg lb1 w). injection Hg as _ <- <- <-. auto using retcode_ok.
  - pose proof (create_typed m c r w Hm Hc Hr Hw) as [Hr1 Hw1]. destruct (create_module m c r w).
    injection Hg as _ <- <- <-. auto using retcode_ok.
Qed.

Lemma route_hosts_typed lb l rsp rsp' :
  foldM (get_route_host lb) rsp l = Ok rsp' -> lb_typed lb -> GetRouteResponse_ok rsp -> GetRouteResponse_ok rsp'.
Proof.
  intros Hf Hl. revert rsp Hf. induction l as [|p l IH]; intros rsp Hf Hr; cbn [foldM] in Hf; [by injection Hf as <-|].
  apply bind_ok in Hf as (rsp1 & Hc & Hf). apply (IH rsp1 Hf). apply bind_ok in Hc as (h & Hp & [= <-]).
  eapply deref_typed in Hp; [|done]. destruct Hr as (H1r & H2r & H3r). split_and!; cbn; [done..|].
  apply Forall_app_2, Forall_singleton; [done|]. split; cbn; auto.
Qed.

Lemma get_route_typed m c rsp r w ret rsp' r' w' :
  RouteLb.get_route cfg m c rsp r w = Ok (ret, rsp', r', w') -> is_i32 m -> is_i32 c -> GetRouteResponse_ok rsp ->
  rl_typed r -> world_typed w -> GetRouteResponse_ok rsp' /\ rl_typed r' /\ world_typed w'.
Proof.
  unfold RouteLb.get_route. intros Hg Hm Hc Hok Hr Hw. destruct (rl_map r !! _) as [lb|] eqn:Hlb.
  - apply bind_ok in Hg as (rsp1 & Hh & Hg). apply route_hosts_typed in Hh; [|by eapply Hr|done].
    pose proof (refresh_typed lb w (Hr _ _ Hlb) Hw) as [Hl2 Hw2]. destruct (refresh cfg lb w). injection Hg as _ <- <- <-. auto.
  - pose proof (create_typed m c r w Hm Hc Hr Hw) as [Hr1 Hw1]. destruct (create_module m c r w). by injection Hg as _ <- <- <-.
Qed.

Lemma report_host_typed req r w r' w' :
  report_host cfg req r w = Ok (r', w') -> rl_typed r -> world_typed w -> rl_typed r' /\ world_typed w'.
Proof.
  unfold report_host. intros Hg Hr Hw. destruct (rl_map r !! _) as [lb|] eqn:Hlb; [|by injection Hg as <- <-].
  apply bind_ok in Hg as ([lb1 w1] & Hrep & Hg). apply bind_ok in Hg as (w2 & Hc & [= <- <-]).
  apply report_typed in Hrep as [Hl1 Hw1]; [|by eapply Hr|done]. apply commit_typed in Hc; auto.
Qed.

Lemma reset_typed r : rl_typed r -> rl_typed (reset_lb_status r).
Proof. intros Hr k lb. cbn. intros (lb0 & <- & Hlb)%lookup_fmap_Some. apply status_typed. by eapply Hr. Qed.
End types.

(** ** The threads of the agent *)

Section agent_types.
Context {T K Addr : Type} `{Epoll K} `{Clock} `{HashOrder} `{WireFormat} (cfg : load_balance_config).
Context (sendto_at : nat -> send_result).
Context (Hprobe : is_i32 (probe_num cfg)).
Implicit Types u : udp T K agent agent_cb nat Addr.

(** A datagram the agent sends: one of the two answers, with every field in range. *)
Inductive answer_typed : Addr * bytes -> Prop :=
| host_answer_typed addr rsp : GetHostResponse_ok rsp -> answer_typed (addr, frame ID_GetHostResponse (msg_encode rsp))
| route_answer_typed addr rsp : GetRouteResponse_ok rsp -> answer_typed (addr, frame ID_API_GetRouteResponse (msg_encode rsp)).

Record server_typed u : Prop := {
  st_agent : agent_typed (u_env u);
  st_sent : Forall answer_typed (u_sent u)
}.

Lemma init_typed : agent_typed init_lb_agent.
Proof. split; [|split; constructor]. apply Forall_fmap, Forall_forall. intros id _. apply map_Forall_empty. Qed.

Lemma on_lb_result {A} (Q : A -> Prop) i (f : route_lb -> world -> res (A * route_lb * world)) a x a' :
  on_lb i f a = Ok (x, a') -> (forall r r' w', r ∈ ag_lb a -> f r (ag_world a) = Ok (x, r', w') -> Q x) -> Q x.
Proof.
  unfold on_lb. intros Ho Hf. apply bind_ok in Ho as (j & _ & Ho). apply bind_ok in Ho as (r & Hr & Ho). apply of_option_ok in Hr.
  apply bind_ok in Ho as ([[x1 r1] w1] & Hfr & [= -> <-]). by eapply Hf, Hfr; eapply list_elem_of_lookup_2.
Qed.

(** What a callback of the udp servers or of the dns client does to the route_lb it
    works on, whatever bytes it was given. *)
Inductive rl_effect (r : route_lb) (w : world) (r' : route_lb) (w' : world) : Prop :=
| eff_get_host m c rsp ret rsp' :
    is_i32 m -> is_i32 c -> GetHostResponse_ok rsp -> RouteLb.get_host cfg m c rsp r w = Ok (ret, rsp', r', w') -> rl_effect r w r' w'
| eff_get_route m c rsp ret rsp' :
    is_i32 m -> is_i32 c -> GetRouteResponse_ok rsp -> RouteLb.get_route cfg m c rsp r w = Ok (ret, rsp', r', w') -> rl_effect r w r' w'
| eff_report req : ReportRequest_ok req -> report_host cfg req r w = Ok (r', w') -> rl_effect r w r' w'
| eff_update m c rsp ret : GetRouteResponse_ok rsp -> update_host cfg m c rsp r w = Ok (ret, r', w') -> rl_effect r w r' w'.

Definition agent_effect (a a' : agent) : Prop :=
  exists (i : nat) r r', ag_lb a !! i = Some r /\ ag_lb a' = <[i := r']> (ag_lb a) /\ rl_effect r (ag_world a) r' (ag_world a').

Lemma on_lb_effect {A} i (f : route_lb -> world -> res (A * route_lb * world)) a x a' :
  on_lb i f a = Ok (x, a') -> (forall r r' w', f r (ag_world a) = Ok (x, r', w') -> rl_effect r (ag_world a) r' w') -> agent_effect a a'.
Proof.
  unfold on_lb. intros Ho Hf. apply bind_ok in Ho as (j & _ & Ho). apply bind_ok in Ho as (r & Hr & Ho). apply of_option_ok in Hr.
  apply bind_ok in Ho as ([[x1 r1] w1] & Hfr & [= -> <-]). exists j, r, r1. split; [done|]. split; [done|]. by apply Hf.
Qed.

Lemma reply_keeps data msgid u u' :
  reply sendto_at data msgid u = Ok u' -> ag_lb (u_env u') = ag_lb (u_env u) /\ ag_world (u_env u') = ag_world (u_env u).
Proof. unfold reply. intros Hr. by apply bind_ok in Hr as ([ret u1] & _ & [= <-]). Qed.

Lemma callback_effect cb user_data data msgid u u' :
  run_agent_callback cfg sendto_at cb user_data data msgid u = Ok u' -> agent_effect (u_env u) (u_env u').
Proof.
  destruct cb; cbn [run_agent_callback]; intros Hrun; apply bind_ok in Hrun as (req & Hreq & Hrun); pose proof (msg_decode_ok _ _ Hreq) as Hok.
  - apply bind_ok in Hrun as ([rsp a] & Ho & Hrun). destruct (reply_keeps _ _ _ _ Hrun) as [Hl Hw]. cbn [u_set_env u_env] in Hl, Hw.
    destruct (on_lb_effect _ _ _ _ _ Ho) as (j & r & r' & Hj & Hl' & He).
    + intros r r' w' Hf. apply bind_ok in Hf as ([[[ret rsp1] r1] w1] & Hg & [= <- <- <-]). destruct Hok as (Hseq & Hm & Hc).
      eapply eff_get_host; [exact Hm|exact Hc| |exact Hg]. split_and!; cbn; [done..|unfold is_i32; lia|done].
    + exists j, r, r'. by rewrite Hl, Hw.
  - apply bind_ok in Hrun as ([[] a] & Ho & [= <-]). eapply on_lb_effect; [exact Ho|].
    intros r r' w' Hf. apply bind_ok in Hf as ([r1 w1] & Hg & [= <- <-]). by eapply eff_report.
  - apply bind_ok in Hrun as ([rsp a] & Ho & Hrun). destruct (reply_keeps _ _ _ _ Hrun) as [Hl Hw]. cbn [u_set_env u_env] in Hl, Hw.
    destruct (on_lb_effect _ _ _ _ _ Ho) as (j & r & r' & Hj & Hl' & He).
    + intros r r' w' Hf. apply bind_ok in Hf as ([[[ret rsp1] r1] w1] & Hg & [= <- <- <-]). destruct Hok as (Hm & Hc).
      eapply eff_get_route; [exact Hm|exact Hc| |exact Hg]. by split_and!; [..|apply Forall_nil].
    + exists j, r, r'. by rewrite Hl, Hw.
Qed.

Lemma deal_effect data a a' : deal_recv_route cfg data a = Ok a' -> agent_effect a a'.
Proof.
  unfold deal_recv_route. intros Hd. apply bind_ok in Hd as (rsp & Hrsp & Hd). pose proof (msg_decode_ok _ _ Hrsp).
  destruct (0 <=? _); [|done]. apply bind_ok in Hd as ([ret a1] & Ho & [= <-]). eapply on_lb_effect; [exact Ho|].
  intros r r' w' Hu. apply bind_ok in Hu as ([[ret1 r1] w1] & Hu & [= _ <- <-]). by eapply eff_update.
Qed.

Lemma effect_typed a a' : agent_effect a a' -> agent_typed a -> agent_typed a'.
Proof.
  intros (i & r & r' & Hi & Hl & He) [Hall Hw]. pose proof (Forall_lookup_1 _ _ _ _ Hall Hi) as Hr.
  assert (rl_typed r' /\ world_typed (ag_world a')) as [Hr' Hw'].
  { destruct He as [m c rsp ret rsp' Hm Hc Hok Hg|m c rsp ret rsp' Hm Hc Hok Hg|req _ Hg|m c rsp ret Hok Hg].
    - eapply (get_host_typed cfg Hprobe) in Hg; [|done..]. tauto.
    - eapply get_route_typed in Hg; [|done..]. tauto.
    - by eapply report_host_typed in Hg.
    - by eapply update_host_typed in Hg. }
  split; [rewrite Hl; by apply Forall_insert|done].
Qed.

Lemma conn_init_typed a : agent_typed a -> agent_typed (conn_init a).
Proof. intros [Hl Hw]. split; [|done]. apply Forall_fmap. eapply Forall_impl; [exact Hl|]. intros r. apply reset_typed. Qed.

(** What an answer adds to what was sent. *)
Lemma reply_sent data msgid u u' :
  length (u_write_buf u) = Z.to_nat MESSAGE_LENGTH_LIMIT -> length data <= 65519 -> (forall addr, answer_typed (addr, frame msgid data)) ->
  reply sendto_at data msgid u = Ok u' -> Forall answer_typed (u_sent u) -> Forall answer_typed (u_sent u').
Proof.
  intros Hwr Hl Hd Hrep Hs. destruct (reply_fits sendto_at data msgid u Hwr Hl) as (u1 & Heq & Hans & _).
  rewrite Hrep in Heq. injection Heq as <-. rewrite Hans. apply Forall_app_2; [done|].
  destruct (sendto_at _); [|constructor]. by apply Forall_singleton.
Qed.

Lemma callback_sent i cb data msgid u u' :
  server_ok i u -> run_agent_callback cfg sendto_at cb (Some i) data msgid u = Ok u' -> server_typed u -> Forall answer_typed (u_sent u').
Proof.
  intros Hu Hrun [Ha Hs]. pose proof (at_world _ Ha) as Hw. pose proof (so_write _ _ Hu) as Hwr.
  destruct cb; cbn [run_agent_callback] in Hrun; apply bind_ok in Hrun as (req & Hreq & Hrun); pose proof (msg_decode_ok _ _ Hreq) as Hok.
  - apply bind_ok in Hrun as ([rsp a] & Ho & Hrun). eapply reply_sent; [|apply host_fits| |exact Hrun|exact Hs]; [done|].
    intros addr. constructor. eapply (on_lb_result GetHostResponse_ok); [exact Ho|]. intros r r' w' Hin Hf.
    apply bind_ok in Hf as ([[[ret rsp1] r1] w1] & Hg & [= <- <- <-]). destruct Hok as (Hseq & Hm & Hc).
    eapply (get_host_typed cfg Hprobe); [exact Hg|done|done| |eapply Forall_forall; [apply Ha|done]|done].
    split_and!; cbn; [done..|unfold is_i32; lia|done].
  - by apply bind_ok in Hrun as ([[] a] & Ho & [= <-]).
  - apply bind_ok in Hrun as ([rsp a] & Ho & Hrun). destruct Hok as (Hm & Hc).
    assert (GetRouteResponse_ok rsp /\ length (grs_host rsp) <= max_hosts) as [Hrsp Hmax].
    { eapply (on_lb_result (fun rsp => GetRouteResponse_ok rsp /\ length (grs_host rsp) <= max_hosts)); [exact Ho|]. intros r r' w' Hin Hf.
      apply bind_ok in Hf as ([[[ret rsp1] r1] w1] & Hg & [= <- <- <-]). split.
      - eapply get_route_typed; [exact Hg|done|done|by split_and!; [..|apply Forall_nil]|eapply Forall_forall; [apply Ha|done]|done].
      - destruct (get_route_small cfg (grq_modid req) (grq_cmdid req) r (ag_world (u_env u))) as (ret2 & rsp2 & r2 & w2 & Hg2 & _ & Hlen).
        { eapply Forall_forall; [apply (ao_lb _ (so_agent _ _ Hu))|done]. }
        rewrite Hg in Hg2. by injection Hg2 as _ -> _ _. }
    eapply reply_sent; [|by apply route_fits| |exact Hrun|exact Hs]; [done|]. intros addr. by constructor.
Qed.

Lemma callback_typed i cb data msgid u u' :
  server_ok i u -> run_agent_callback cfg sendto_at cb (Some i) data msgid u = Ok u' -> server_typed u -> server_typed u'.
Proof.
  intros Hu Hrun Ht. split; [|by eapply callback_sent]. eapply effect_typed; [by eapply callback_effect|apply Ht].
Qed.

Lemma server_stays_typed i rs u :
  server_ok i u -> server_typed u ->
  match agent_do_read cfg sendto_at rs u with Ok u' => server_ok i u' /\ server_typed u' | Err f => f = Blocked end.
Proof.
  intros Hu Ht. apply (server_do_read_keeps _ (fun u => server_ok i u /\ server_typed u)); [by intros ? [[]]| | |done].
  - intros bs a u1 [[] []] Hl. split; split; cbn; try done. congruence.
  - intros cb ud m u1 [Hu1 Ht1] Hcall. rewrite (so_router _ _ Hu1) in Hcall. apply (agent_router_data sendto_at) in Hcall as ->.
    destruct (agent_callback_ok cfg sendto_at host_fits route_fits i cb m.2 m.1 (u_put_call m u1)) as (u' & Heq & Hu'); [by destruct Hu1|].
    rewrite Heq. split; [done|]. eapply callback_typed; [|exact Heq|]; [by destruct Hu1|by destruct Ht1].
Qed.

(** C10: Every integer of the agent stays in the range of its C++ type, whatever arrives:
    [agent_typed] (hosts, counters, ids, probe counter, the messages on both queues)
    holds at the start, after any sequence of datagrams to a udp server, after any frame
    from the dns service and after a reconnection; and every datagram a server sends is
    an answer whose fields are in range, which the application reads back as it was. *)
Theorem agent_stays_typed :
  agent_typed init_lb_agent /\
  (forall a, agent_typed a -> agent_typed (conn_init a)) /\
  (forall data a a', agent_typed a -> deal_recv_route cfg data a = Ok a' -> agent_typed a') /\
  (forall i rs u, server_ok i u -> server_typed u ->
     match agent_do_read cfg sendto_at rs u with Ok u' => server_typed u' | Err f => f = Blocked end).
Proof.
  split; [apply init_typed|]. split; [apply conn_init_typed|]. split; [intros data a a' Ha Hd; eapply effect_typed; [by eapply deal_effect|done]|].
  intros i rs u Hu Ht. pose proof (server_stays_typed i rs u Hu Ht). by destruct (agent_do_read _ _ rs u); [intuition|].
Qed.
End agent_types.

Module TypesDemo.
#[local] Existing Instances epoll_map wire_varint.
#[local] Instance demo_order : HashOrder := hash_order_list.
#[local] Instance demo_clock : Clock := clock_const 1000.

(** A request with the largest seq there is. *)
Definition big_req : GetHostRequest := {| ghq_seq := 2 ^ 32 - 1; ghq_modid := 2 ^ 31 - 1; ghq_cmdid := - 2 ^ 31 |}.

Lemma agent_stays_typed_witness :
  match agent_do_read lb_agent_ini AgentDemo.always_sent
          [RecvDatagram (frame ID_GetHostRequest (msg_encode big_req)) 2%nat; RecvEagain] AgentDemo.server2 with
  | Ok u' => server_typed u'
  | Err f => f = Blocked
  end.
Proof.
  apply (agent_stays_typed (T := unit) (K := gmap Z Z) lb_agent_ini AgentDemo.always_sent ltac:(unfold is_i32; cbn; lia)) with (i := 2%nat).
  - exact AgentDemo.server2_ok.
  - split; [exact (init_typed)|constructor].
Defined.
End TypesDemo.
