(* ===== verification/FloatText.v ===== *)
(** * FloatText: floats in decimal, as streams read and print them

    What [istream >> float] and [ostream << float] do in the "C" locale (libstdc++):
    the characters a number may consist of are collected ([extract_float]), then
    converted by strtof, rounding the exact decimal value to the nearest float; output
    is that of printf's %.6g.  A [float] is a [spec_float] of precision 24. *)

From S2P Require Import Prelude Text.
From stdpp Require Import base numbers list strings.
From Stdlib Require Import ZArith Lia Ascii SpecFloat.
Open Scope Z_scope.

Definition is_char (c : string) (d : ascii) : bool := bool_decide (str c = [d]).
Definition is_digit (c : ascii) : bool := if digit_of c is Some _ then true else false.
Definition is_exp (c : ascii) : bool := is_char "e" c || is_char "E" c.
Definition is_sign (c : ascii) : bool := is_char "-" c || is_char "+" c.

(** ** Reading *)

(** The digits at the front, and the rest. *)
Fixpoint span_digits (s : text) : text * text :=
  match s with
  | c :: s' => if is_digit c then let '(ds, r) := span_digits s' in (c :: ds, r) else ([], s)
  | [] => ([], [])
  end.

Definition take_sign (s : text) : text * text :=
  match s with c :: s' => if is_sign c then ([c], s') else ([], s) | [] => ([], []) end.

(** Stage 2 of the extraction ([_M_extract_float]) after the sign: digits with at most
    one point; after at least one digit, an exponent letter with a sign and digits.
    Nothing but the characters is checked. *)
Definition extract_mantissa (s : text) : text * text * text * text :=
  let '(ip, s) := span_digits s in
  match s with
  | c :: s' => if is_char "." c then let '(fp, s) := span_digits s' in (ip, [c], fp, s) else (ip, [], [], s)
  | [] => (ip, [], [], [])
  end.

Record float_text := FloatText {
  ft_sign : text; ft_int : text; ft_point : text; ft_frac : text; ft_e : text; ft_esign : text; ft_exp : text
}.

Definition extract_float (s : text) : float_text :=
  let s := skip_spaces s in
  let '(sign, s) := take_sign s in
  let '(ip, pt, fp, s) := extract_mantissa s in
  match s with
  | c :: s' =>
      if is_exp c && negb (bool_decide (ip ++ fp = [])) then
        let '(es, s) := take_sign s' in
        let '(ed, _) := span_digits s in
        FloatText sign ip pt fp [c] es ed
      else FloatText sign ip pt fp [] [] []
  | [] => FloatText sign ip pt fp [] [] []
  end.

(** The nearest float (ties to even) to [n * 10 ^ e]; beyond the range it is infinite. *)
Definition nearest_float (neg : bool) (n e : Z) : spec_float :=
  match n * 10 ^ Z.max e 0, 10 ^ Z.max (- e) 0 with
  | Zpos num, Zpos den => SFdiv 24 128 (S754_finite neg num 0) (S754_finite false den 0)
  | _, _ => S754_zero neg
  end.

(** [strtof] on what was collected, which has to be a number as a whole: [None] is the
    failbit; an overflow sets it too. *)
Definition convert_float (t : float_text) : option spec_float :=
  if bool_decide (ft_int t ++ ft_frac t = []) then None
  else if negb (bool_decide (ft_e t = [])) && bool_decide (ft_exp t = []) then None
  else
    let neg := bool_decide (ft_sign t = str "-") in
    let n := read_digits 0 (ft_int t ++ ft_frac t) in
    let x := read_digits 0 (ft_exp t) in
    let x := if bool_decide (ft_esign t = str "-") then - x else x in
    match nearest_float neg n (x - Z.of_nat (length (ft_frac t))) with
    | S754_infinity _ => None
    | f => Some f
    end.

(** [float fresult; if (!(convert2 >> fresult)) fresult = 0;] *)
Definition read_float (s : text) : spec_float := default (S754_zero false) (convert_float (extract_float s)).

(** ** Printing *)

(** [n] in decimal, with as many digits as it has (at most 60). *)
Definition digits (n : Z) : text := digits_fuel 60 n [].

(** [num / den] rounded to an integer, ties to even. *)
Definition round_div (num den : Z) : Z :=
  let q := num / den in
  match Z.compare (2 * (num mod den)) den with
  | Lt => q
  | Gt => q + 1
  | Eq => if Z.even q then q else q + 1
  end.

Definition scaled_div (num den e : Z) : Z := round_div (num * 10 ^ Z.max e 0) (den * 10 ^ Z.max (- e) 0).

(** The decimal exponent and the six significant digits of [num / den]. *)
Definition six_digits (num den : Z) : Z * Z :=
  let x := Z.of_nat (length (digits num)) - Z.of_nat (length (digits den)) in
  let x := if num * 10 ^ Z.max (- x) 0 <? den * 10 ^ Z.max x 0 then x - 1 else x in
  let d := scaled_div num den (5 - x) in
  if d =? 1000000 then (x + 1, 100000) else (x, d).

Definition is_zero (c : ascii) : bool := is_char "0" c.
Definition strip_zeros (s : text) : text := reverse ((fix go l := match l with c :: l' => if is_zero c then go l' else l | [] => [] end) (reverse s)).
(** A point and the digits after it, if any are left. *)
Definition with_fraction (ip fp : text) : text :=
  match strip_zeros fp with [] => ip | fp => ip ++ str "." ++ fp end.
Definition zeros (n : Z) : text := replicate (Z.to_nat n) "0"%char.

(** %.6g of a positive number with digits [d] and exponent [x] *)
Definition show_g (x d : Z) : text :=
  let ds := digits d in
  if (-4 <=? x) && (x <? 6) then
    if x <? 0 then with_fraction (str "0") (zeros (- x - 1) ++ ds)
    else with_fraction (take (Z.to_nat (x + 1)) ds) (drop (Z.to_nat (x + 1)) ds)
  else
    with_fraction (take 1 ds) (drop 1 ds) ++ str "e" ++ (if x <? 0 then str "-" else str "+") ++
      (if Z.abs x <? 10 then str "0" else []) ++ digits (Z.abs x).

(** [convert1 << default_value] *)
Definition show_float (f : spec_float) : text :=
  match f with
  | S754_zero s => if s then str "-0" else str "0"
  | S754_infinity s => if s then str "-inf" else str "inf"
  | S754_nan => str "nan"
  | S754_finite s m e =>
      let '(x, d) := six_digits (Zpos m * 2 ^ Z.max e 0) (2 ^ Z.max (- e) 0) in
      (if s then str "-" else []) ++ show_g x d
  end.

(** ** Lemmas *)

Lemma decimal_digits z : 0 <= z -> Forall (fun c => is_digit c = true) (str (decimal z)).
Proof.
  intros Hz. unfold decimal, str. rewrite String.list_ascii_of_string_of_list_ascii.
  assert (forall fuel z acc, 0 <= z -> Forall (fun c => is_digit c = true) acc -> Forall (fun c => is_digit c = true) (digits_fuel fuel z acc)) as Hg.
  { clear. induction fuel as [|fuel IH]; intros z acc Hz Hacc; [done|]. cbn [digits_fuel].
    pose proof (Z.mod_pos_bound z 10). destruct (digit_of_digit (z mod 10)) as (Hd & _); [lia|].
    assert (Forall (fun c => is_digit c = true) (ascii_of_N (Z.to_N (48 + z mod 10)) :: acc)) by (constructor; [unfold is_digit; by rewrite Hd|done]).
    destruct (_ =? 0); [done|]. apply IH; [|done]. apply Z.div_pos; lia. }
  by apply Hg.
Qed.

Lemma span_all ds rest : Forall (fun c => is_digit c = true) ds -> (forall c, head rest = Some c -> is_digit c = false) ->
  span_digits (ds ++ rest) = (ds, rest).
Proof.
  intros Hds Hr. induction Hds as [|c ds Hc _ IH].
  - destruct rest as [|c rest]; [done|]. cbn. by rewrite (Hr c eq_refl).
  - cbn [app span_digits]. by rewrite Hc, IH.
Qed.

Lemma digit_is_plain c : is_digit c = true -> is_space c = false /\ is_sign c = false.
Proof. destruct c as [[] [] [] [] [] [] [] []]; intros Hd; try (vm_compute in Hd; discriminate Hd); by vm_compute. Qed.

(** A number without exponent, [ip.fp], followed by nothing. *)
Lemma read_fixed ip fp :
  ip <> [] -> Forall (fun c => is_digit c = true) ip -> Forall (fun c => is_digit c = true) fp ->
  read_float (ip ++ str "." ++ fp) =
    match nearest_float false (read_digits 0 (ip ++ fp)) (- Z.of_nat (length fp)) with S754_infinity _ => S754_zero false | f => f end.
Proof.
  intros Hne Hip Hfp. unfold read_float, extract_float. destruct ip as [|c ip]; [done|].
  pose proof (Forall_inv Hip) as Hc. cbv beta in Hc. destruct (digit_is_plain c Hc) as [Hsp Hsg].
  cbn [app skip_spaces]. rewrite Hsp. cbn [take_sign]. rewrite Hsg.
  unfold extract_mantissa. change (c :: ip ++ str "." ++ fp) with ((c :: ip) ++ str "." ++ fp).
  rewrite span_all by (done || by intros ? [= <-]). cbn [str String.list_ascii_of_string app].
  change (is_char "." ".") with true. cbv iota. rewrite <-(app_nil_r fp), (span_all fp []) by done.
  unfold convert_float. cbn [ft_int ft_frac ft_e ft_esign ft_sign ft_exp app].
  rewrite bool_decide_false by done. rewrite (bool_decide_true ([] = [])) by done. cbn [negb andb]. rewrite app_nil_r.
  rewrite !bool_decide_false by done. cbn [read_digits]. rewrite Z.sub_0_l. by destruct (nearest_float _ _ _).
Qed.

(** An integer, followed by anything that cannot belong to a number. *)
Example read_semicolon : read_float (str "15;") = read_float (str "15").
Proof. vm_compute. reflexivity. Qed.
Example read_exponent : read_float (str " -12.50e-2 x") = S754_finite true 8388608 (-26).
Proof. vm_compute. reflexivity. Qed.
Example read_no_number : read_float (str "1e") = S754_zero false /\ read_float (str "3.5e38") = S754_zero false.
Proof. by vm_compute. Qed.
Example show_tenth : show_float (read_float (str "0.1")) = str "0.1" /\ show_float (read_float (str "1234567")) = str "1.23457e+06".
Proof. by vm_compute. Qed.
