(* ===== verification/ConfigFile.v ===== *)
(** * ConfigFile: the .ini files of the services (lars_reactor, config_file.cpp)

    A [std::string] is the list of its characters.  The file is given by its
    contents ([None]: it cannot be opened). *)

From S2P Require Import Prelude Text FloatText.
From stdpp Require Import base numbers list gmap fin_maps strings.
From Stdlib Require Import ZArith Lia Ascii SpecFloat.
Open Scope Z_scope.

#[export] Instance text_countable : Countable ascii := inj_countable' N_of_ascii ascii_of_N ascii_N_embedding.

Definition newline : ascii := "010".

(** ** Trimming *)

Fixpoint leading_spaces (s : text) : nat :=
  match s with c :: s => if is_space c then S (leading_spaces s) else O | [] => O end.

(** [trimLeft], [trimRight], [trim] *)
Definition trimLeft (s : text) : text := drop (leading_spaces s) s.
Definition trimRight (s : text) : text := take (length s - leading_spaces (reverse s)) s.
Definition trim (s : text) : text := trimLeft (trimRight s).

(** ** Lines *)

(** [line.find(c)] *)
Definition find_char (c : ascii) (s : text) : option nat := fst <$> list_find (fun d => d = c) s.

(** What [getline] gives, one call after the other, until it fails: the last line is
    what follows the last newline, maybe nothing. *)
Fixpoint lines (s : text) : list text :=
  match s with
  | [] => [[]]
  | c :: s =>
      if decide (c = newline) then [] :: lines s
      else match lines s with l :: ls => (c :: l) :: ls | [] => [[c]] end
  end.

(** [bool isSection(std::string line, std::string &section)] *)
Definition isSection (line : text) : option text :=
  let section := trim line in
  if Nat.leb (length section) 2 then None
  else if negb (bool_decide (head section = Some "["%char)) || negb (bool_decide (last section = Some "]"%char)) then None
  else Some (trim (take (length section - 2) (drop 1 section))).

(** ** Loading *)

Abbreviation str_map := (gmap text (gmap text text)).

(** [_map], and the section [m] points to. *)
Record loader := Loader { ld_map : str_map; ld_m : option text }.

(** The entry of a line that is not a section: nothing without '=', without a key, or
    for a comment. *)
Definition line_entry (line : text) : option (text * text) :=
  match find_char "=" line with
  | None => None
  | Some equ_pos =>
      let key := trim (take equ_pos line) in
      let value := trim (drop (S equ_pos) line) in
      match key with
      | [] => None
      | c :: _ => if bool_decide (c = "#"%char) || bool_decide (c = ";"%char) then None else Some (key, value)
      end
  end.

(** The body of the loop of [Load]. *)
Definition load_line (st : loader) (line : text) : res loader :=
  match isSection line with
  | Some section =>
      let map := match ld_map st !! section with None => <[section := ∅]> (ld_map st) | Some _ => ld_map st end in
      Ok (Loader map (Some section))
  | None =>
      match line_entry line with
      | None => Ok st
      | Some (key, value) =>
          m ← of_option NullDeref (ld_m st);
          Ok (Loader (<[m := <[key := value]> (ld_map st !!! m)]> (ld_map st)) (ld_m st))
      end
  end.

(** [bool Load(const std::string &path)] *)
Definition Load (file : option text) (map : str_map) : res (bool * str_map) :=
  match file with
  | None => Ok (false, map)
  | Some contents =>
      st ← foldM load_line (Loader map None) (lines contents);
      Ok (true, ld_map st)
  end.

(** [static bool setPath(const std::string &path)], [static config_file *instance()] *)
Definition setPath (file : option text) (config : option str_map) : res (bool * option str_map) :=
  ensure bool_decide (config = None) or AssertFail;
  '(ret, map) ← Load file ∅;
  Ok (ret, Some map).
Definition instance (config : option str_map) : res str_map := of_option AssertFail config.

(** ** Getters *)

Definition find_value (section key : text) (map : str_map) : option text := map !! section ≫= fun m => m !! key.

(** [std::string GetString(section, key, default_value)] *)
Definition GetString (section key default_value : text) (map : str_map) : text :=
  match find_value section key map with Some v => v | None => default_value end.

(** [unsigned parseNumber(const std::string &s)], [unsigned GetNumber(...)] *)
Definition parseNumber (s : text) : Z := u32 (strtol s).
Definition GetNumber (section key : text) (default_value : Z) (map : str_map) : Z :=
  match find_value section key map with Some v => parseNumber v | None => default_value end.

(** [float GetFloat(section, key, default_value)]: the default is printed and read
    back. *)
Definition GetFloat (section key : text) (default_value : spec_float) (map : str_map) : spec_float :=
  read_float (GetString section key (show_float default_value) map).

(** [tolower]; [strcasecmp(s.c_str(), t) == 0] *)
Definition lower (c : ascii) : ascii :=
  let n := N_of_ascii c in if (N.leb 65 n && N.leb n 90)%bool then ascii_of_N (n + 32) else c.
Fixpoint c_str (s : text) : text :=
  match s with c :: s => if bool_decide (c = zero) then [] else c :: c_str s | [] => [] end.
Definition same_nocase (s t : text) : bool := bool_decide (lower <$> c_str s = lower <$> t).

(** [bool GetBool(section, key, default_value)] *)
Definition GetBool (section key : text) (default_value : bool) (map : str_map) : bool :=
  match find_value section key map with
  | Some v => if same_nocase v (str "true") then true else default_value
  | None => default_value
  end.

(** [std::vector<std::string> GetStringList(section, key)]: the loop over
    [str.find_first_of(sep, start)]; what is before [start] is gone. *)
Definition is_sep (c : ascii) : bool := bool_decide (c ∈ str ", " ++ [ascii_of_N 9]).
Definition find_sep (s : text) : option nat := fst <$> list_find is_sep s.

Fixpoint split_list (fuel : nat) (s : text) : res (list text) :=
  match fuel with
  | O => Err OutOfFuel
  | S fuel =>
      match find_sep s with
      | None => Ok [s]
      | Some index =>
          let substr := take index s in
          let rest := drop index s in
          match list_find (fun c => is_sep c = false) rest with
          | None => Ok [substr]
          | Some (start, _) => l ← split_list fuel (drop start rest); Ok (substr :: l)
          end
      end
  end.
Definition GetStringList (section key : text) (map : str_map) : res (list text) :=
  let s := GetString section key [] map in split_list (S (length s)) s.

(** ** Lemmas *)

Lemma lines_app l rest : newline ∉ l -> lines (l ++ newline :: rest) = l :: lines rest.
Proof.
  induction l as [|c l IH]; intros Hn; cbn [app lines]; [by rewrite decide_True|].
  rewrite decide_False by (intros ->; apply Hn; by left). rewrite IH; [done|]. intros Hin. apply Hn. by right.
Qed.

Lemma lines_concat ls : Forall (fun l => newline ∉ l) ls -> lines (concat ((fun l => l ++ [newline]) <$> ls)) = ls ++ [[]].
Proof.
  induction 1 as [|l ls Hl _ IH]; [done|]. cbn [fmap list_fmap concat]. rewrite <-app_assoc. cbn [app].
  rewrite lines_app by done. by rewrite IH.
Qed.

(** No space at either end. *)
Definition clean (s : text) : Prop :=
  (forall c, head s = Some c -> is_space c = false) /\ (forall c, last s = Some c -> is_space c = false).

Lemma no_leading s : (forall c, head s = Some c -> is_space c = false) -> leading_spaces s = 0%nat.
Proof. destruct s as [|c s]; intros Hh; [done|]. cbn. by rewrite (Hh c eq_refl). Qed.

Lemma trim_clean s : clean s -> trim s = s.
Proof.
  intros [Hh Hl]. assert (trimRight s = s) as Hr.
  { unfold trimRight. rewrite no_leading; [by rewrite Nat.sub_0_r, firstn_all|].
    intros c Hc. apply Hl. by rewrite <-head_reverse. }
  unfold trim. rewrite Hr. unfold trimLeft. by rewrite no_leading.
Qed.

Lemma find_char_app c s t : c ∉ s -> find_char c (s ++ c :: t) = Some (length s).
Proof.
  intros Hs. unfold find_char. rewrite list_find_app_r.
  - cbn [list_find]. rewrite decide_True by done. cbn. done.
  - apply list_find_None, Forall_forall. intros d Hd ->. done.
Qed.

(** *** Lines as they are written *)

Definition section_line (s : text) : text := "["%char :: s ++ ["]"%char].
Definition entry_line (kv : text * text) : text := kv.1 ++ "="%char :: kv.2.

Record section_ok (s : text) : Prop := { sn_clean : clean s; sn_some : s <> []; sn_line : newline ∉ s }.
Record entry_ok (kv : text * text) : Prop := {
  en_clean : clean kv.1;
  en_key : exists c k, kv.1 = c :: k /\ c <> "["%char /\ c <> "#"%char /\ c <> ";"%char;
  en_eq : "="%char ∉ kv.1;
  en_line : newline ∉ kv.1;
  en_value : clean kv.2;
  en_value_line : newline ∉ kv.2
}.

Lemma isSection_section s : section_ok s -> isSection (section_line s) = Some s.
Proof.
  intros [Hc Hne _]. unfold isSection. unfold section_line.
  rewrite trim_clean.
  2:{ split; intros c; [by intros [= <-]|]. rewrite app_comm_cons, last_snoc. by intros [= <-]. }
  cbn [head]. rewrite app_comm_cons, last_snoc, length_app. cbn [length].
  destruct s as [|c s]; [done|]. cbn [length]. destruct (Nat.leb_spec (S (S (length s)) + 1) 2); [lia|].
  rewrite !bool_decide_true by done. cbn [negb orb]. f_equal.
  change (drop 1 (("["%char :: c :: s) ++ ["]"%char])) with ((c :: s) ++ ["]"%char]). replace (S (S (length s)) + 1 - 2)%nat with (length (c :: s)) by (cbn; lia).
  rewrite take_app_length. by apply trim_clean.
Qed.

Lemma entry_clean kv : entry_ok kv -> clean (entry_line kv).
Proof.
  intros [[Hh _] (c & k & Hk & _) _ _ [_ Hv] _]. unfold entry_line. split.
  - intros d. rewrite Hk in *. cbn. intros [= <-]. by apply Hh.
  - intros d. destruct (kv.2) as [|e v] using rev_ind; [rewrite last_snoc; by intros [= <-]|].
    rewrite app_comm_cons, app_assoc, last_snoc. intros [= <-]. apply Hv. by rewrite last_snoc.
Qed.

Lemma isSection_entry kv : entry_ok kv -> isSection (entry_line kv) = None.
Proof.
  intros Hok. unfold isSection. rewrite trim_clean by by apply entry_clean.
  destruct (Nat.leb _ 2); [done|]. destruct (en_key _ Hok) as (c & k & Hk & Hc & _).
  unfold entry_line. rewrite Hk. cbn [head app]. rewrite bool_decide_false; [done|]. congruence.
Qed.

Lemma line_entry_entry kv : entry_ok kv -> line_entry (entry_line kv) = Some kv.
Proof.
  intros Hok. unfold line_entry, entry_line. rewrite find_char_app by apply Hok.
  rewrite take_app_length. rewrite (trim_clean (kv.1)) by apply Hok.
  destruct (en_key _ Hok) as (c & k & Hk & _ & Hc1 & Hc2). rewrite Hk.
  rewrite !bool_decide_false by done. cbn [orb]. rewrite <-Hk.
  assert (drop (S (length kv.1)) (kv.1 ++ "="%char :: kv.2) = kv.2) as ->.
  { rewrite drop_app_ge by lia. replace (S (length kv.1) - length kv.1)%nat with 1%nat by lia. done. }
  rewrite trim_clean by apply Hok. by destruct kv.
Qed.

(** *** A configuration and what it means *)

Abbreviation config_text := (list (text * list (text * text))).

Definition render_lines (cfg : config_text) : list text :=
  concat ((fun sec => section_line sec.1 :: (entry_line <$> sec.2)) <$> cfg).
Definition render (cfg : config_text) : text := concat ((fun l => l ++ [newline]) <$> render_lines cfg).

Definition config_ok (cfg : config_text) : Prop := Forall (fun sec => section_ok sec.1 /\ Forall entry_ok sec.2) cfg.

(** The last value given to a key of a section. *)
Definition meaning_from (m : gmap (text * text) text) (cfg : config_text) : gmap (text * text) text :=
  foldl (fun m sec => foldl (fun m kv => <[(sec.1, kv.1) := kv.2]> m) m sec.2) m cfg.
Definition meaning : config_text -> gmap (text * text) text := meaning_from ∅.

Definition reads (st : loader) (m : gmap (text * text) text) : Prop :=
  forall s k, find_value s k (ld_map st) = m !! (s, k).

Lemma load_section st m s : reads st m -> section_ok s ->
  exists st', load_line st (section_line s) = Ok st' /\ reads st' m /\ ld_m st' = Some s.
Proof.
  intros Hr Hs. unfold load_line. rewrite isSection_section by done. eexists. split; [done|]. split; [|done].
  intros s' k. rewrite <-Hr. cbn. destruct (ld_map st !! s) as [x|] eqn:Hx; [done|]. unfold find_value.
  destruct (decide (s = s')) as [<-|Hne]; [by rewrite lookup_insert_eq, Hx|by rewrite lookup_insert_ne].
Qed.

Lemma load_entry st m s kv : reads st m -> ld_m st = Some s -> entry_ok kv ->
  exists st', load_line st (entry_line kv) = Ok st' /\ reads st' (<[(s, kv.1) := kv.2]> m) /\ ld_m st' = Some s.
Proof.
  intros Hr Hs Hok. unfold load_line. rewrite isSection_entry, line_entry_entry by done. destruct kv as [k v]. rewrite Hs.
  cbn [of_option mbind res_bind]. eexists. split; [done|]. split; [|done].
  intros s' k'. cbn. unfold find_value. destruct (decide (s = s')) as [<-|Hne].
  - rewrite lookup_insert_eq. cbn. destruct (decide (k = k')) as [<-|Hk]; [by rewrite !lookup_insert_eq|].
    rewrite !lookup_insert_ne by congruence. rewrite <-Hr. unfold find_value. rewrite lookup_total_alt. by destruct (ld_map st !! s).
  - rewrite !lookup_insert_ne by congruence. apply Hr.
Qed.

Lemma load_entries st m s kvs : reads st m -> ld_m st = Some s -> Forall entry_ok kvs ->
  exists st', foldM load_line st (entry_line <$> kvs) = Ok st' /\
    reads st' (foldl (fun m kv => <[(s, kv.1) := kv.2]> m) m kvs) /\ ld_m st' = Some s.
Proof.
  intros Hr Hs Hok. revert st m Hr Hs. induction Hok as [|kv kvs Hkv _ IH]; intros st m Hr Hs; cbn [fmap list_fmap foldM foldl].
  - by exists st.
  - destruct (load_entry st m s kv Hr Hs Hkv) as (st1 & -> & Hr1 & Hs1). cbn [mbind res_bind]. by apply IH.
Qed.

Lemma load_config st m cfg : reads st m -> config_ok cfg ->
  exists st', foldM load_line st (render_lines cfg) = Ok st' /\ reads st' (meaning_from m cfg).
Proof.
  intros Hr Hok. revert st m Hr. induction Hok as [|sec cfg [Hs Hes] _ IH]; intros st m Hr.
  - by exists st.
  - unfold render_lines. cbn [fmap list_fmap concat]. rewrite foldM_app. cbn [foldM].
    destruct (load_section st m _ Hr Hs) as (st1 & -> & Hr1 & Hm1). cbn [mbind res_bind].
    destruct (load_entries st1 m _ _ Hr1 Hm1 Hes) as (st2 & -> & Hr2 & _). cbn [mbind res_bind].
    destruct (IH st2 _ Hr2) as (st3 & Hf & Hr3). by exists st3.
Qed.

(** *** What a line is *)

Inductive line_kind := SectionLine (s : text) | EntryLine (k v : text) | OtherLine.
Definition classify (line : text) : line_kind :=
  match isSection line with
  | Some s => SectionLine s
  | None => match line_entry line with Some (k, v) => EntryLine k v | None => OtherLine end
  end.
Definition is_entry (k : line_kind) : bool := match k with EntryLine _ _ => true | _ => false end.
Definition is_section (k : line_kind) : bool := match k with SectionLine _ => true | _ => false end.

(** An entry stands before every section. *)
Fixpoint orphan_entry (ls : list text) : bool :=
  match ls with
  | [] => false
  | l :: ls => if is_entry (classify l) then true else if is_section (classify l) then false else orphan_entry ls
  end.

(** One line, by its kind. *)
Lemma load_line_kind st l :
  load_line st l = match classify l with
                   | SectionLine s => Ok (Loader (match ld_map st !! s with None => <[s := ∅]> (ld_map st) | Some _ => ld_map st end) (Some s))
                   | EntryLine k v => m ← of_option NullDeref (ld_m st); Ok (Loader (<[m := <[k := v]> (ld_map st !!! m)]> (ld_map st)) (ld_m st))
                   | OtherLine => Ok st
                   end.
Proof. unfold load_line, classify. destruct (isSection l); [done|]. by destruct (line_entry l) as [[k v]|]. Qed.

Lemma load_in_section ls st s : ld_m st = Some s -> exists st', foldM load_line st ls = Ok st'.
Proof.
  revert st s. induction ls as [|l ls IH]; intros st s Hs; cbn [foldM]; [by exists st|].
  rewrite load_line_kind. destruct (classify l) as [s'|k v|]; [by eapply IH| |by eapply IH].
  rewrite Hs. by eapply IH.
Qed.

Lemma load_from_start ls st : ld_m st = None ->
  if orphan_entry ls then foldM load_line st ls = Err NullDeref else exists st', foldM load_line st ls = Ok st'.
Proof.
  revert st. induction ls as [|l ls IH]; intros st Hs; cbn [foldM orphan_entry]; [by exists st|].
  rewrite load_line_kind. destruct (classify l) as [s'|k v|]; cbn [is_entry is_section].
  - by eapply load_in_section.
  - by rewrite Hs.
  - by apply IH.
Qed.

(** *** Lists of strings *)

Lemma find_sep_first item sep rest :
  Forall (fun c => is_sep c = false) item -> is_sep sep = true -> find_sep (item ++ sep :: rest) = Some (length item).
Proof.
  intros Hi Hs. unfold find_sep. rewrite list_find_app_r.
  - cbn [list_find]. rewrite decide_True by (rewrite Hs; exact I). done.
  - apply list_find_None. eapply Forall_impl; [exact Hi|]. intros c Hc Hn. rewrite Hc in Hn. destruct Hn.
Qed.

Lemma find_sep_none item : Forall (fun c => is_sep c = false) item -> find_sep item = None.
Proof.
  intros Hi. unfold find_sep. assert (list_find is_sep item = None) as ->; [|done].
  apply list_find_None. eapply Forall_impl; [exact Hi|]. intros c Hc Hn. rewrite Hc in Hn. destruct Hn.
Qed.

Definition item_ok (item : text) : Prop := item <> [] /\ Forall (fun c => is_sep c = false) item.

(** Items with one separator between them. *)
Fixpoint join_items (sep : ascii) (item : text) (items : list text) : text :=
  match items with [] => item | i :: items => item ++ sep :: join_items sep i items end.

Lemma join_head sep item items : item_ok item -> exists c s, join_items sep item items = c :: s /\ is_sep c = false.
Proof.
  intros [Hne Hi]. destruct item as [|c item]; [done|]. inversion Hi; subst.
  destruct items; cbn; by exists c; eexists.
Qed.

Lemma split_join fuel sep item items :
  is_sep sep = true -> item_ok item -> Forall item_ok items -> (length (join_items sep item items) < fuel)%nat ->
  split_list fuel (join_items sep item items) = Ok (item :: items).
Proof.
  intros Hsep. revert fuel item. induction items as [|i items IH]; intros fuel item Hi His Hf.
  - destruct fuel; [lia|]. cbn [split_list join_items]. by rewrite find_sep_none by apply Hi.
  - destruct fuel; [lia|]. inversion His as [|? ? Hi' His']; subst. cbn [split_list join_items] in *.
    rewrite length_app in Hf. cbn [length] in Hf.
    rewrite find_sep_first by (done || apply Hi). rewrite take_app_length, drop_app_length.
    destruct (join_head sep i items Hi') as (c & s & Hj & Hc). cbn [list_find].
    rewrite decide_False by (by rewrite Hsep). rewrite Hj. cbn [list_find]. rewrite decide_True by done.
    cbn [fmap option_fmap option_map prod_map fst snd id drop]. rewrite <-Hj, IH; [done|done|done|lia].
Qed.

Lemma split_list_total fuel s : (length s < fuel)%nat -> exists l, split_list fuel s = Ok l.
Proof.
  revert s. induction fuel as [|fuel IH]; intros s Hs; [lia|]. cbn [split_list]. unfold find_sep.
  destruct (list_find is_sep s) as [[index c]|] eqn:Hf; cbn [fmap option_fmap option_map fst]; [|by eexists].
  apply list_find_Some in Hf as (Hc & Hsep & _). pose proof (lookup_lt_Some _ _ _ Hc) as Hlt.
  destruct (list_find _ (drop index s)) as [[start d]|] eqn:Hg; [|by eexists].
  apply list_find_Some in Hg as (Hd & Hnsep & _).
  assert (start <> 0%nat) as Hne.
  { intros ->. rewrite lookup_drop, Nat.add_0_r, Hc in Hd. injection Hd as ->. by rewrite Hnsep in Hsep. }
  destruct (IH (drop start (drop index s))) as [l ->]; [rewrite !length_drop; lia|]. by eexists.
Qed.

(** The lines of a configuration, loaded. *)
Lemma load_render cfg : config_ok cfg ->
  exists map, Load (Some (render cfg)) ∅ = Ok (true, map) /\ forall s k, find_value s k map = meaning cfg !! (s, k).
Proof.
  intros Hok. unfold Load, render.
  assert (Forall (fun l => newline ∉ l) (render_lines cfg)) as Hl.
  { unfold render_lines. apply Forall_concat, Forall_fmap. eapply Forall_impl; [exact Hok|].
    intros [s kvs] [Hs Hkvs]. cbn. constructor.
    - unfold section_line. pose proof (sn_line _ Hs) as Hn. cbn in Hn. intros Hin. set_unfold in Hin. naive_solver.
    - apply Forall_fmap. eapply Forall_impl; [exact Hkvs|]. intros [k v] He. cbn. unfold entry_line. cbn.
      pose proof (en_line _ He) as H1. pose proof (en_value_line _ He) as H2. cbn in *. intros Hin. set_unfold in Hin. naive_solver. }
  rewrite lines_concat by done. rewrite foldM_app.
  destruct (load_config (Loader ∅ None) ∅ cfg) as (st & -> & Hr); [|done|].
  { intros s k. unfold find_value. cbn. by rewrite !lookup_empty. }
  cbn [mbind res_bind foldM]. assert (load_line st [] = Ok st) as -> by done. cbn [mbind res_bind].
  exists (ld_map st). split; [done|]. exact Hr.
Qed.

(** ** Properties *)

(** C26: A configuration file is read as it was written: for every text made of
    section lines and key=value lines (in any number and order, repeated sections and
    keys included), [Load] succeeds and [GetString] gives the last value of a key
    in a section, and the default for everything else. *)
Theorem load_reads_back cfg :
  config_ok cfg ->
  exists map, Load (Some (render cfg)) ∅ = Ok (true, map) /\
    forall section key default_value,
      GetString section key default_value map = default default_value (meaning cfg !! (section, key)).
Proof.
  intros Hok. destruct (load_render cfg Hok) as (map & Hl & Hr). exists map. split; [done|].
  intros s k d. unfold GetString. rewrite Hr. by destruct (meaning cfg !! (s, k)).
Qed.

(** [Load] ends on every file, and its only fault is the null pointer of an entry
    that stands before the first section; which happens for exactly the texts that have
    one. *)
Theorem load_faults_on_orphan_entry contents map :
  match Load (Some contents) map with
  | Ok (ret, _) => ret = true /\ orphan_entry (lines contents) = false
  | Err f => f = NullDeref /\ orphan_entry (lines contents) = true
  end.
Proof.
  unfold Load. pose proof (load_from_start (lines contents) (Loader map None) eq_refl) as Hl.
  destruct (orphan_entry (lines contents)); [by rewrite Hl|]. by destruct Hl as [st ->].
Qed.

(** The getters on a value that is there; [GetBool] cannot turn an option off whose
    default is on. *)
Theorem getters section key v map :
  find_value section key map = Some v ->
  (forall d, GetString section key d map = v) /\
  (forall n d, 0 <= n < 2 ^ 32 -> v = str (decimal n) -> GetNumber section key d map = n) /\
  (forall d, v = str "false" -> GetBool section key d map = d).
Proof.
  intros Hv. split; [|split].
  - intros d. unfold GetString. by rewrite Hv.
  - intros n d Hn ->. unfold GetNumber. rewrite Hv. unfold parseNumber.
    assert (strtol (str (decimal n)) = n) as ->; [|by apply u32_id].
    apply strtol_decimal. lia.
  - intros d ->. unfold GetBool. by rewrite Hv.
Qed.

(** [GetStringList] ends on every value, and gives back a list that was written with
    separators between its items. *)
Theorem string_list section key map :
  (exists l, GetStringList section key map = Ok l) /\
  forall sep item items, is_sep sep = true -> item_ok item -> Forall item_ok items ->
    find_value section key map = Some (join_items sep item items) -> GetStringList section key map = Ok (item :: items).
Proof.
  unfold GetStringList. split; [apply split_list_total; lia|].
  intros sep item items Hsep Hi His Hv. unfold GetString. rewrite Hv. apply split_join; [done|done|done|lia].
Qed.

Module ConfigDemo.
Definition cfg0 : config_text := [(str "reactor", [(str "ip", str "127.0.0.1"); (str "port", str "7778"); (str "port", str "7779")])].

Lemma load_reads_back_witness : exists map, Load (Some (render cfg0)) ∅ = Ok (true, map) /\
  GetString (str "reactor") (str "port") [] map = str "7779".
Proof.
  destruct (load_reads_back cfg0) as (map & Hl & Hg).
  - constructor; [|constructor]. split.
    + split; [split; intros c; by intros [= <-]|discriminate|by apply (bool_decide_unpack _)].
    + repeat constructor; try (intros c; by intros [= <-]); try (by apply (bool_decide_unpack _));
        by (eexists _, _; split; [reflexivity|]; by vm_compute).
  - exists map. split; [exact Hl|]. rewrite Hg. vm_compute. reflexivity.
Defined.
End ConfigDemo.
