(* ===== verification/Reporter.v ===== *)
(** * Reporter: the reports on their way into the database (lars_reporter:
    reporter_service.cpp, store_thread.cpp, store_report.cpp)

    [get_report_status] deals the reports it receives to the queues of the store
    threads; a store thread writes each result of a report as one SQL statement.
    The statements are kept as text; what MySQL answers is only logged. *)

From S2P Require Import Prelude Proto Bytes Wire Messages Text EventLoop ThreadPool.
From stdpp Require Import base numbers list strings.
From Stdlib Require Import ZArith Lia Ascii.
Open Scope Z_scope.

(** ** Storing *)


(** The conversions %d and %u of [printf] for 32-bit arguments. *)
Definition fmt_d (z : Z) : text := if z <? 0 then str "-" ++ str (decimal (- z)) else str (decimal z).
Definition fmt_u (z : Z) : text := str (decimal (u32 z)).

(** [snprintf(buf, n, ...)]: what the buffer holds as a string. *)
Definition snprintf (n : Z) (s : text) : text := take (Z.to_nat (n - 1)) s.

(** The statement for one result of a report. *)
Definition store_sql (req : ReportStatusRequest) (result : HostCallResult) : text :=
  let overload := if hcr_overload result then 1 else 0 in
  str "INSERT INTO ServerCallStatus " ++
  str "(modid, cmdid, ip, port, caller, succ_cnt, err_cnt, ts, overload) " ++
  str "VALUES (" ++ fmt_d (rsr_modid req) ++ str ", " ++ fmt_d (rsr_cmdid req) ++ str ", " ++ fmt_u (hcr_ip result) ++
  str ", " ++ fmt_u (hcr_port result) ++ str ", " ++ fmt_u (rsr_caller req) ++ str ", " ++ fmt_u (hcr_succ result) ++
  str ", " ++ fmt_u (hcr_err result) ++ str ", " ++ fmt_u (rsr_ts req) ++ str ", " ++ fmt_d overload ++
  str ") ON DUPLICATE KEY " ++ str "UPDATE succ_cnt = " ++ fmt_u (hcr_succ result) ++ str ", err_cnt = " ++ fmt_u (hcr_err result) ++
  str ", ts = " ++ fmt_u (rsr_ts req) ++ str ", overload = " ++ fmt_d overload.

(** [void StoreReport::store(lars::ReportStatusRequest &req)]: the statements run. *)
Definition store (req : ReportStatusRequest) : list text := (fun result => snprintf 1024 (store_sql req result)) <$> rsr_results req.

(** No statement comes near the 1024 bytes of its buffer. *)
Lemma fmt_d_length z : (length (fmt_d z) <= 21)%nat.
Proof.
  unfold fmt_d. destruct (z <? 0); [|pose proof (decimal_length z); unfold str; lia].
  rewrite length_app. pose proof (decimal_length (- z)). cbn [length str]. unfold str. cbn [String.list_ascii_of_string length]. lia.
Qed.

Lemma fmt_u_length z : (length (fmt_u z) <= 21)%nat.
Proof. pose proof (decimal_length (u32 z)). unfold fmt_u, str. lia. Qed.

Ltac literal_lengths := repeat match goal with
  | |- context [length (str ?s)] => let n := eval vm_compute in (length (str s)) in change (length (str s)) with n
  end.

Lemma store_sql_length req result : (length (store_sql req result) < 1023)%nat.
Proof.
  unfold store_sql. set (overload := if hcr_overload result then 1 else 0).
  pose proof (fmt_d_length overload). pose proof (fmt_d_length (rsr_modid req)). pose proof (fmt_d_length (rsr_cmdid req)).
  pose proof (fmt_u_length (hcr_ip result)). pose proof (fmt_u_length (hcr_port result)). pose proof (fmt_u_length (rsr_caller req)).
  pose proof (fmt_u_length (hcr_succ result)). pose proof (fmt_u_length (hcr_err result)). pose proof (fmt_u_length (rsr_ts req)).
  rewrite !length_app. literal_lengths. lia.
Qed.

Lemma store_whole req : store req = store_sql req <$> rsr_results req.
Proof.
  unfold store. apply list_fmap_ext. intros _ result _. unfold snprintf. apply take_ge.
  pose proof (store_sql_length req result). change (Z.to_nat (1024 - 1)) with 1023%nat. lia.
Qed.

Section reporter.
Context {V C TF A K : Type} `{EventFd V} `{Epoll K} `{!Codec ReportStatusRequest}.
Abbreviation queue := (thread_queue V ReportStatusRequest).

(** [void thread_report(event_loop *loop, int fd, void *args)]: the statements run and
    the queue. *)
Definition thread_report (q : queue) : list text * queue :=
  let '(report_msgs, q) := tq_recv q in
  (concat (store <$> report_msgs), q).

(** [void *store_main(void *args)] before its endless [event_process]: the loop watches
    the queue, with [thread_report] as the callback [cb]. *)
Definition store_main (cb : C) (args : A) (q : queue) (kern : K) : option (event_loop C TF A K) :=
  tq_set_callback cb args q (Some (event_loop_new kern)).

(** ** Dealing *)

(** [reportQueues], [thread_cnt] and the static [index]. *)
Record reporter := Reporter {
  rp_queues : list queue;
  rp_thread_cnt : Z;
  rp_index : Z
}.

(** [void create_report_threads()]: [thread_cnt] queues, with the eventfds that are
    opened for them. *)
Definition create_report_threads (thread_cnt : Z) (evfds : list (option (Z * V))) : res reporter :=
  ensure 0 <=? thread_cnt or ExitFailure;           (* the array new throws, which nothing catches *)
  queues ← new_queues (take (Z.to_nat thread_cnt) evfds);
  Ok (Reporter queues thread_cnt 0).

(** [void get_report_status(...)] when no other thread is in it. *)
Definition get_report_status (data : bytes) (s : reporter) : res reporter :=
  req ← msg_decode data;
  ensure 0 <=? rp_index s or OutOfBounds;
  q ← of_option OutOfBounds (rp_queues s !! Z.to_nat (rp_index s));
  Ok (Reporter (<[Z.to_nat (rp_index s) := tq_send req q]> (rp_queues s)) (rp_thread_cnt s)
        (Z.rem (rp_index s + 1) (rp_thread_cnt s))).

(** ** Two threads in [get_report_status]

    The connections' threads run it at once: what they do to [index], access by
    access, each access being indivisible. *)
Inductive report_pc := AtSend | AtIncrement | AtModulo.

Definition index_step (thread_cnt : Z) (who : nat) (st : Z * list report_pc) : res (Z * list report_pc) :=
  let '(index, pcs) := st in
  match pcs !! who with
  | None => Ok st
  | Some AtSend =>
      ensure (0 <=? index) && (index <? thread_cnt) or OutOfBounds;     (* reportQueues[index]->send(req) *)
      Ok (index, <[who := AtIncrement]> pcs)
  | Some AtIncrement => Ok (index + 1, <[who := AtModulo]> pcs)          (* ++index *)
  | Some AtModulo => Ok (Z.rem index thread_cnt, <[who := AtSend]> pcs)  (* index = index % thread_cnt *)
  end.
Definition run_schedule (thread_cnt : Z) (schedule : list nat) (st : Z * list report_pc) : res (Z * list report_pc) :=
  foldM (fun st who => index_step thread_cnt who st) st schedule.

(** ** Lemmas *)

(** After [l] the [i]-th of [cnt] queues holds every [cnt]-th request from the [i]-th. *)
Definition dealt (cnt : nat) (l : list ReportStatusRequest) (i : nat) (q : queue) : Prop :=
  (forall j, tq_queue q !! j = l !! (j * cnt + i)%nat) /\ (tq_queue q <> [] -> awake q = true).

Definition dealing (cnt : nat) (l : list ReportStatusRequest) (s : reporter) : Prop :=
  length (rp_queues s) = cnt /\ rp_thread_cnt s = cnt /\ rp_index s = (length l mod cnt)%nat /\
  forall i q, rp_queues s !! i = Some q -> dealt cnt l i q.

Lemma dealt_next cnt l i q req :
  (i < cnt)%nat -> dealt cnt l i q ->
  dealt cnt (l ++ [req]) i (if decide (i = length l mod cnt)%nat then tq_send req q else q).
Proof.
  intros Hi [Hq Ha]. pose proof (Nat.div_mod (length l) cnt ltac:(lia)) as Hdm.
  destruct (decide (i = length l mod cnt)%nat) as [Heq|Hne].
  - rewrite <-Heq, Nat.mul_comm in Hdm. set (d := (length l / cnt)%nat) in *.
    assert (length (tq_queue q) = d) as Hlen.
    { apply Nat.le_antisymm.
      - apply lookup_ge_None. rewrite Hq. apply lookup_ge_None. nia.
      - destruct d as [|n]; [lia|].
        apply lookup_lt_is_Some. rewrite Hq. apply lookup_lt_is_Some. nia. }
    split; [|intros _; apply send_wakes]. intros j. cbn.
    destruct (Nat.lt_trichotomy j d) as [Hj|[Hj|Hj]].
    + rewrite !lookup_app_l by nia. apply Hq.
    + rewrite lookup_app_r, Hlen, Hj by lia. rewrite lookup_app_r by nia.
      replace (d * cnt + i - length l)%nat with O by lia. by rewrite Nat.sub_diag.
    + rewrite !lookup_ge_None_2; [done|rewrite length_app; cbn; nia|rewrite length_app; cbn; lia].
  - split; [|done]. intros j. rewrite Hq. destruct (Nat.lt_trichotomy (j * cnt + i) (length l)) as [Hj|[Hj|Hj]].
    + by rewrite lookup_app_l.
    + exfalso. apply Hne. rewrite <-Hj, Nat.add_comm, Nat.Div0.mod_add. by rewrite Nat.mod_small.
    + rewrite !lookup_ge_None_2; [done|rewrite length_app; cbn; lia|lia].
Qed.

Lemma next_index cnt n : (0 < cnt)%nat -> Z.rem ((n mod cnt)%nat + 1) cnt = (S n mod cnt)%nat.
Proof.
  intros Hc. pose proof (Nat.mod_upper_bound n cnt). rewrite Z.rem_mod_nonneg by lia.
  replace ((n mod cnt)%nat + 1) with (Z.of_nat (n mod cnt + 1)) by lia.
  by rewrite <-Nat2Z.inj_mod, Nat.Div0.add_mod_idemp_l, Nat.add_1_r.
Qed.

Lemma deal_next cnt l s req :
  (0 < cnt)%nat -> msg_ok req -> dealing cnt l s ->
  exists s', get_report_status (msg_encode req) s = Ok s' /\ dealing cnt (l ++ [req]) s'.
Proof.
  intros Hc Hok (Hlen & Hcnt & Hidx & Hq). assert (length l mod cnt < cnt)%nat as Hmod by (apply Nat.mod_upper_bound; lia).
  unfold get_report_status. rewrite msg_roundtrip by done. cbn [mbind res_bind]. rewrite Hidx, Hcnt.
  rewrite (proj2 (Z.leb_le _ _)) by apply Nat2Z.is_nonneg. rewrite Nat2Z.id.
  destruct (lookup_lt_is_Some_2 (rp_queues s) (length l mod cnt)) as [q Hlk]; [congruence|]. rewrite Hlk. cbn [of_option mbind res_bind].
  eexists. split; [done|]. split; [by cbn; rewrite length_insert|]. split; [done|].
  split; [cbn; rewrite next_index, length_app, Nat.add_1_r by done; done|].
  intros i q' Hi. pose proof (lookup_lt_Some _ _ _ Hi) as Hlt. cbn in Hi, Hlt. rewrite length_insert in Hlt.
  destruct (decide (i = length l mod cnt)%nat) as [->|Hne].
  - rewrite list_lookup_insert_eq in Hi by congruence. injection Hi as <-.
    pose proof (dealt_next cnt l _ q req Hmod (Hq _ _ Hlk)) as Hd. by rewrite decide_True in Hd.
  - rewrite list_lookup_insert_ne in Hi by done.
    pose proof (dealt_next cnt l i q' req ltac:(congruence) (Hq _ _ Hi)) as Hd. by rewrite decide_False in Hd.
Qed.

Lemma deal_all cnt l reqs s :
  (0 < cnt)%nat -> Forall msg_ok reqs -> dealing cnt l s ->
  exists s', foldM (fun s req => get_report_status (msg_encode req) s) s reqs = Ok s' /\ dealing cnt (l ++ reqs) s'.
Proof.
  intros Hc Hok. revert l s. induction Hok as [|req reqs Hr Hok IH]; intros l s Hd.
  - exists s. by rewrite app_nil_r.
  - destruct (deal_next cnt l s req Hc Hr Hd) as (s1 & Hs & Hd1). destruct (IH _ _ Hd1) as (s' & Hf & Hd').
    exists s'. cbn [foldM]. rewrite Hs. cbn [mbind res_bind]. split; [done|]. by rewrite <-app_assoc in Hd'.
Qed.

Lemma deal_start (cnt : nat) evfds s :
  length evfds = cnt -> create_report_threads cnt evfds = Ok s -> dealing cnt [] s.
Proof.
  intros Hl. unfold create_report_threads. destruct (0 <=? _); [|done]. intros Hs. apply bind_ok in Hs as (qs & Hqs & [= <-]).
  rewrite Nat2Z.id, take_ge in Hqs by lia. apply new_queues_spec in Hqs as [Hlen Hall].
  split; [cbn; lia|]. split; [done|]. split; [cbn; by rewrite Nat.Div0.mod_0_l|].
  intros i q Hq. apply (Forall_lookup_1 _ _ _ _ Hall) in Hq. split; [|by rewrite Hq]. intros j. by rewrite Hq.
Qed.

Lemma run_alone thread_cnt (index : Z) :
  0 <= index < thread_cnt ->
  run_schedule thread_cnt [0; 0; 0]%nat (index, [AtSend]) = Ok (Z.rem (index + 1) thread_cnt, [AtSend]).
Proof.
  intros Hi. unfold run_schedule, index_step. cbn.
  destruct (Z.leb_spec 0 index); [|lia]. destruct (Z.ltb_spec index thread_cnt); [|lia]. done.
Qed.

(** ** Properties *)

(** C23: The reports received, one after the other, are dealt to the store threads in
    turn: the j-th entry of queue i is report j * cnt + i, so none is lost, stored
    twice or reordered within a thread; a thread with work is woken, and writes
    one statement per result, whole. *)
Theorem reports_dealt_and_stored (cnt : nat) evfds reqs s :
  (0 < cnt)%nat -> length evfds = cnt -> Forall msg_ok reqs -> create_report_threads cnt evfds = Ok s ->
  exists s', foldM (fun s req => get_report_status (msg_encode req) s) s reqs = Ok s' /\
    forall i, (i < cnt)%nat -> exists q, rp_queues s' !! i = Some q /\
      (forall j, tq_queue q !! j = reqs !! (j * cnt + i)%nat) /\ (tq_queue q <> [] -> awake q = true) /\
      (thread_report q).1 = concat ((fun req => store_sql req <$> rsr_results req) <$> tq_queue q).
Proof.
  intros Hc Hl Hok Hs. destruct (deal_all cnt [] reqs s Hc Hok (deal_start cnt evfds s Hl Hs)) as (s' & Hf & Hd).
  exists s'. split; [done|]. destruct Hd as (Hlen & _ & _ & Hq). intros i Hi.
  destruct (lookup_lt_is_Some_2 (rp_queues s') i) as [q Hlk]; [congruence|]. exists q. split; [done|].
  destruct (Hq i q Hlk) as [Hj Ha]. split; [done|]. split; [done|]. cbn. f_equal.
  apply list_fmap_ext. intros _ req _. apply store_whole.
Qed.
End reporter.

(** The index is shared by the threads of the connections without a lock: for any
    number of store threads two of them have a schedule in which the second uses
    the index between the first one's increment and its modulo, and the queue
    read lies past the end of the array.  One thread alone never does that. *)
Theorem report_index_race (thread_cnt : nat) :
  (0 < thread_cnt)%nat ->
  (exists schedule, run_schedule thread_cnt schedule (0, [AtSend; AtSend]) = Err OutOfBounds) /\
  (forall n, exists st, run_schedule thread_cnt (replicate n 0%nat) (0, [AtSend]) = Ok st).
Proof.
  intros Hc. split.
  - assert (exists k, Z.of_nat thread_cnt = Z.of_nat k + 1) as [last Hlast] by (exists (thread_cnt - 1)%nat; lia).
    exists (concat (replicate last [0; 0; 0]%nat) ++ [0; 0; 1]%nat). unfold run_schedule. rewrite foldM_app, Hlast.
    assert (forall k, (k <= last)%nat ->
      foldM (fun st who => index_step (last + 1) who st) (0, [AtSend; AtSend]) (concat (replicate k [0; 0; 0]%nat)) =
      Ok (Z.of_nat k, [AtSend; AtSend])) as Hk.
    { induction k as [|k IH]; intros Hle; [done|].
      rewrite <-Nat.add_1_r, replicate_add, concat_app, foldM_app, IH by lia. cbn.
      destruct (Z.leb_spec 0 k); [|lia]. destruct (Z.ltb_spec k (last + 1)); [|lia]. cbn.
      rewrite Z.rem_small by lia. do 2 f_equal. lia. }
    rewrite Hk by lia. cbn. destruct (Z.leb_spec 0 last); [|lia]. destruct (Z.ltb_spec last (last + 1)); [|lia]. cbn.
    destruct (Z.ltb_spec (last + 1) (last + 1)); [lia|]. by rewrite andb_false_r.
  - intros n. unfold run_schedule.
    assert (forall n (st : Z * list report_pc), (exists pc, st.2 = [pc] /\ (pc = AtSend -> 0 <= st.1 < thread_cnt) /\ 0 <= st.1) ->
      exists st', foldM (fun st who => index_step thread_cnt who st) st (replicate n 0%nat) = Ok st') as Hg.
    { clear n. induction n as [|n IH]; intros [index pcs] (pc & Hp & Hs & H0); cbn in *; [by eexists|]. subst pcs.
      destruct pc; cbn.
      - specialize (Hs eq_refl). destruct (Z.leb_spec 0 index); [|lia]. destruct (Z.ltb_spec index thread_cnt); [|lia]. cbn.
        apply IH. exists AtIncrement. split; [done|]. split; [done|]. cbn. lia.
      - apply IH. exists AtModulo. split; [done|]. split; [done|]. cbn. lia.
      - apply IH. exists AtSend. split; [done|]. cbn. pose proof (Z.rem_bound_pos index thread_cnt). lia. }
    apply Hg. exists AtSend. split; [done|]. cbn. lia.
Qed.

Module ReporterDemo.
#[local] Existing Instance efd_counter.
#[local] Existing Instance wire_varint.

Definition result0 : HostCallResult := {| hcr_ip := -1062731335; hcr_port := 7777; hcr_succ := 5; hcr_err := 2; hcr_overload := true |}.
Definition report0 : ReportStatusRequest := {| rsr_modid := 1; rsr_cmdid := 2; rsr_caller := 3; rsr_results := [result0]; rsr_ts := 4 |}.
Definition reporter0 : reporter :=
  match create_report_threads 2 [Some (10, 0); Some (11, 0)] with Ok s => s | Err _ => Reporter [] 0 0 end.

Example store_one : store report0 = [str ("INSERT INTO ServerCallStatus (modid, cmdid, ip, port, caller, succ_cnt, err_cnt, ts, overload) " ++
  "VALUES (1, 2, 3232235961, 7777, 3, 5, 2, 4, 1) ON DUPLICATE KEY UPDATE succ_cnt = 5, err_cnt = 2, ts = 4, overload = 1")].
Proof. vm_compute. reflexivity. Qed.

Lemma reports_dealt_and_stored_witness :
  exists s', foldM (fun s req => get_report_status (msg_encode req) s) reporter0 [report0; report0; report0] = Ok s' /\
    exists q, rp_queues s' !! 0%nat = Some q /\ tq_queue q !! 1%nat = Some report0.
Proof.
  destruct (reports_dealt_and_stored 2 [Some (10, 0); Some (11, 0)] [report0; report0; report0] reporter0) as (s' & Hf & Hq).
  - lia.
  - reflexivity.
  - repeat constructor; cbn; unfold is_i32, is_u32; lia.
  - vm_compute. reflexivity.
  - exists s'. split; [exact Hf|]. destruct (Hq 0%nat) as (q & Hlk & Hj & _); [lia|]. exists q. split; [exact Hlk|]. apply (Hj 1%nat).
Defined.

Lemma report_index_race_witness : exists schedule, run_schedule 3 schedule (0, [AtSend; AtSend]) = Err OutOfBounds.
Proof. exact (proj1 (report_index_race 3 ltac:(lia))). Defined.
End ReporterDemo.
