(* ===== verification/Statistics.v ===== *)
(** * Statistics: from a report of an application to the database

    The agent puts a ReportStatusRequest on [report_queue] for every report of a known
    module; the report client sends it to the reporter, which deals it to a store
    thread, which writes one statement per host.  Here these threads run together, in
    any interleaving.  A message on the tcp connection is the body of a frame, as in
    System; one agent is one connection, whose frames one thread of the reporter
    handles. *)

From S2P Require Import Prelude Keys Proto HostNode LoadBalance BalanceSpec RouteLb RouteSpec Bytes.
From S2P Require Import Wire Messages Text EventLoop BufPool ReactorBuf Stream StreamSpec TcpConn TcpClient Udp ThreadPool.
From S2P Require Import AgentService AgentTypes Reporter.
From stdpp Require Import base numbers list gmap fin_maps strings.
From Stdlib Require Import ZArith Lia.
Open Scope Z_scope.

(** ** Operations only add to the report queue *)

Section grows.
Context `{Clock} (cfg : load_balance_config).

Abbreviation grows w w' := (w_report_queue w `prefix_of` w_report_queue w').

Lemma inserts_grow hosts R lb w : w_report_queue (foldl (update_insert cfg) (R, lb, w) hosts).2 = w_report_queue w.
Proof.
  revert R lb w. induction hosts as [|h hosts IH]; intros R lb w; [done|]. cbn [foldl]. unfold update_insert at 2.
  destruct (lb_host_map lb !! _); [apply IH|]. cbn [time_now]. by rewrite IH.
Qed.

Lemma update_grows rsp lb w lb' w' : update cfg rsp lb w = Ok (lb', w') -> grows w w'.
Proof.
  unfold update, time_now. destruct (negb _); [|done].
  pose proof (inserts_grow (grs_host rsp) ∅ lb (World (S (w_ticks w)) (w_dns_queue w) (w_report_queue w))) as Hi.
  destruct (foldl _ _ _) as [[R lb1] w1]. cbn in Hi. intros Hb. apply bind_ok in Hb as (lb2 & _ & [= _ <-]). by rewrite Hi.
Qed.

Lemma windows_grow t p hi lb w lb' w' : report_windows cfg t p hi lb w = Ok (lb', w') -> grows w w'.
Proof.
  unfold report_windows. destruct (negb _).
  - destruct (_ <=? _); by intros [= _ <-].
  - intros Hb. apply bind_ok in Hb as (ts & _ & Hb). destruct (_ <=? _); by injection Hb as _ <-.
Qed.

Lemma report_grows ip port rc lb w lb' w' : LoadBalance.report cfg ip port rc lb w = Ok (lb', w') -> grows w w'.
Proof.
  unfold LoadBalance.report. cbn [time_now]. intros Hr. destruct (lb_host_map lb !! _) as [p|]; [|by injection Hr as _ <-].
  apply bind_ok in Hr as (h & _ & Hr). cbv zeta in Hr.
  repeat case_match; try (by injection Hr as _ <-); apply windows_grow in Hr; exact Hr.
Qed.

Lemma commit_grows lb w w' : commit lb w = Ok w' -> grows w w'.
Proof.
  unfold commit. destruct (lb_empty lb); [by intros [= <-]|]. cbn [time_now]. intros Hc.
  apply bind_ok in Hc as (r1 & _ & Hc). apply bind_ok in Hc as (r2 & _ & [= <-]). by eexists.
Qed.

Lemma refresh_grows lb w : grows w (refresh cfg lb w).2.
Proof. unfold refresh. destruct (lb_status lb); [done|]. cbn [time_now]. by destruct (_ <? _). Qed.
Lemma create_grows m c r w : grows w (create_module m c r w).2.
Proof. done. Qed.

Context `{HashOrder}.

Lemma update_host_grows m c rsp r w ret r' w' : update_host cfg m c rsp r w = Ok (ret, r', w') -> grows w w'.
Proof.
  unfold update_host. destruct (rl_map r !! _); [|by intros [= _ _ <-]]. destruct (Nat.eqb _ _); [by intros [= _ _ <-]|].
  intros Hb. apply bind_ok in Hb as ([lb1 w1] & Hu & [= _ _ <-]). by eapply update_grows.
Qed.
Lemma get_host_grows m c rsp r w ret rsp' r' w' : RouteLb.get_host cfg m c rsp r w = Ok (ret, rsp', r', w') -> grows w w'.
Proof.
  unfold RouteLb.get_host. destruct (rl_map r !! _) as [lb|].
  - destruct (lb_empty lb); [by intros [= _ _ _ <-]|]. intros Hb. apply bind_ok in Hb as ([[x y] lb1] & _ & Hb).
    pose proof (refresh_grows lb1 w). destruct (refresh cfg lb1 w). by injection Hb as _ _ _ <-.
  - pose proof (create_grows m c r w). destruct (create_module m c r w). by intros [= _ _ _ <-].
Qed.
Lemma get_route_grows m c rsp r w ret rsp' r' w' : RouteLb.get_route cfg m c rsp r w = Ok (ret, rsp', r', w') -> grows w w'.
Proof.
  unfold RouteLb.get_route. destruct (rl_map r !! _) as [lb|].
  - intros Hb. apply bind_ok in Hb as (x & _ & Hb). pose proof (refresh_grows lb w). destruct (refresh cfg lb w). by injection Hb as _ _ _ <-.
  - pose proof (create_grows m c r w). destruct (create_module m c r w). by intros [= _ _ _ <-].
Qed.
Lemma report_host_grows req r w r' w' : report_host cfg req r w = Ok (r', w') -> grows w w'.
Proof.
  unfold report_host. destruct (rl_map r !! _) as [lb|]; [|by intros [= _ <-]]. intros Hb.
  apply bind_ok in Hb as ([lb1 w1] & Hr & Hb). apply bind_ok in Hb as (w2 & Hc & [= _ <-]).
  etransitivity; [by eapply report_grows|by eapply commit_grows].
Qed.
End grows.

(** ** The threads together *)

(** [st_committed] and [st_lost] are the history: the requests the agent has put on
    [report_queue], and what was in flight when a connection broke. *)
Record stats (V : Type) := Stats {
  st_agent : agent;
  st_wire : list bytes;              (* sent by new_report_request *)
  st_reporter : reporter (V := V);
  st_sql : list text;                (* the statements run *)
  st_committed : list ReportStatusRequest;
  st_lost : list bytes
}.
Arguments Stats {V}.
Arguments st_agent {V}.
Arguments st_wire {V}.
Arguments st_reporter {V}.
Arguments st_sql {V}.
Arguments st_committed {V}.
Arguments st_lost {V}.

(** [report_queue->recv(msgs)] *)
Definition reports_taken (a : agent) : agent :=
  Agent (ag_lb a) (World (w_ticks (ag_world a)) (w_dns_queue (ag_world a)) []) (ag_sends a).
Definition report_queue (a : agent) : list ReportStatusRequest := w_report_queue (ag_world a).

Section stats.
Context {V T K Addr : Type} `{EventFd V} `{Epoll K} `{Clock} `{HashOrder} `{WireFormat} (cfg : load_balance_config).
Context (sendto_at : nat -> send_result).
Context (Hprobe : is_i32 (probe_num cfg)).
Implicit Types (u : udp T K agent agent_cb nat Addr) (s : stats V).

(** The agent has become [a]: what is new on its queue has been committed. *)
Definition with_agent (a : agent) s : stats V :=
  Stats a (st_wire s) (st_reporter s) (st_sql s)
    (st_committed s ++ drop (length (report_queue (st_agent s))) (report_queue a)) (st_lost s).

(** The steps that move the statistics on: [new_report_request], [get_report_status] on
    the next frame, [thread_report] of the [i]-th store thread. *)
Inductive flow_step : stats V -> stats V -> Prop :=
| fl_take s :
    flow_step s (Stats (reports_taken (st_agent s)) (st_wire s ++ (msg_encode <$> report_queue (st_agent s)))
                   (st_reporter s) (st_sql s) (st_committed s) (st_lost s))
| fl_arrive d rest rp s :
    st_wire s = d :: rest -> get_report_status d (st_reporter s) = Ok rp ->
    flow_step s (Stats (st_agent s) rest rp (st_sql s) (st_committed s) (st_lost s))
| fl_store (i : nat) q s :
    rp_queues (st_reporter s) !! i = Some q ->
    let '(sql, q) := thread_report q in
    flow_step s (Stats (st_agent s) (st_wire s)
      (Reporter (<[i := q]> (rp_queues (st_reporter s))) (rp_thread_cnt (st_reporter s)) (rp_index (st_reporter s)))
      (st_sql s ++ sql) (st_committed s) (st_lost s)).

Inductive stats_step : stats V -> stats V -> Prop :=
(** a callback of a udp server, for whatever datagram *)
| st_callback cb user_data data msgid u u' s :
    u_env u = st_agent s -> run_agent_callback cfg sendto_at cb user_data data msgid u = Ok u' ->
    stats_step s (with_agent (u_env u') s)
(** the threads of the dns client: an answer, the requests taken, a new connection *)
| st_answer data a s : deal_recv_route cfg data (st_agent s) = Ok a -> stats_step s (with_agent a s)
| st_requests s : stats_step s (with_agent (requests_taken (st_agent s)) s)
| st_reconnect s : stats_step s (with_agent (conn_init (st_agent s)) s)
| st_flow s s' : flow_step s s' -> stats_step s s'
(** the connection to the reporter breaks *)
| st_break s :
    stats_step s (Stats (st_agent s) [] (st_reporter s) (st_sql s) (st_committed s) (st_lost s ++ st_wire s))
(** [new_report_request] with a connection whose buffer is full for some of them:
    [send_message] answers -1 for [refused], which is not looked at *)
| st_refuse sent refused s :
    sent `sublist_of` report_queue (st_agent s) -> report_queue (st_agent s) ≡ₚ sent ++ refused ->
    stats_step s (Stats (reports_taken (st_agent s)) (st_wire s ++ (msg_encode <$> sent)) (st_reporter s)
      (st_sql s) (st_committed s) (st_lost s ++ (msg_encode <$> refused))).

Definition stats_start (rp : reporter) : stats V := Stats init_lb_agent [] rp [] [] [].

Inductive stats_reachable (rp : reporter) : stats V -> Prop :=
| stats_init : stats_reachable rp (stats_start rp)
| stats_next s s' : stats_reachable rp s -> stats_step s s' -> stats_reachable rp s'.

(** ** The invariant *)

(** What the reporter holds. *)
Definition queued (rp : reporter (V := V)) : list ReportStatusRequest := concat (tq_queue <$> rp_queues rp).

Record reporter_ok (rp : reporter (V := V)) : Prop := {
  ro_cnt : rp_thread_cnt rp = length (rp_queues rp);
  ro_index : 0 <= rp_index rp < rp_thread_cnt rp
}.

(** Where the committed requests are: [flight] on the connection, [stored] in the
    database, [lost] gone with a connection or refused. *)
Record accounts (s : stats V) (flight stored lost : list ReportStatusRequest) : Prop := {
  ac_total : st_committed s ≡ₚ report_queue (st_agent s) ++ flight ++ queued (st_reporter s) ++ stored ++ lost;
  ac_wire : st_wire s = msg_encode <$> flight;
  ac_sql : st_sql s = concat (store <$> stored);
  ac_lost : st_lost s = msg_encode <$> lost
}.

Record stats_inv (s : stats V) : Prop := {
  sv_agent : agent_typed (st_agent s);
  sv_reporter : reporter_ok (st_reporter s);
  sv_accounts : exists flight stored lost, accounts s flight stored lost /\ Forall ReportStatusRequest_ok flight
}.

Lemma create_ok evfds (cnt : nat) rp :
  (0 < cnt)%nat -> length evfds = cnt -> create_report_threads cnt evfds = Ok rp -> reporter_ok rp /\ queued rp = [].
Proof.
  intros Hc Hl Hcr. unfold create_report_threads in Hcr. destruct (0 <=? _); [|done].
  apply bind_ok in Hcr as (qs & Hqs & [= <-]). rewrite Nat2Z.id, take_ge in Hqs by lia.
  apply new_queues_spec in Hqs as [Hlen Hall]. split; [split; cbn; lia|]. unfold queued. cbn [rp_queues].
  clear -Hall. induction Hall as [|q qs Hq _ IH]; [done|]. cbn. by rewrite Hq, IH.
Qed.

Lemma start_inv rp : reporter_ok rp -> queued rp = [] -> stats_inv (stats_start rp).
Proof.
  intros Hro Hq. split; [apply init_typed|done|]. exists [], [], []. split; [|constructor].
  split; cbn; [by rewrite Hq|done|done|done].
Qed.

(** A change of one queue, as a permutation of everything queued. *)
Lemma queued_insert (i : nat) q q' qs :
  qs !! i = Some q -> concat (tq_queue <$> <[i := q']> qs) ++ tq_queue q ≡ₚ concat (tq_queue <$> qs) ++ tq_queue (q' : thread_queue V ReportStatusRequest).
Proof.
  revert i. induction qs as [|x qs IH]; intros [|i] Hi; cbn in *; try done.
  - injection Hi as ->. solve_perm.
  - rewrite <-!app_assoc. apply Permutation_app_head, IH. done.
Qed.

Lemma get_status_ok d rp rp' : get_report_status d rp = Ok rp' -> reporter_ok rp -> reporter_ok rp'.
Proof.
  unfold get_report_status. intros Hg [Hc Hi]. apply bind_ok in Hg as (req & _ & Hg). destruct (0 <=? _); [|done].
  apply bind_ok in Hg as (q & _ & [= <-]). split; cbn; [by rewrite length_insert|].
  rewrite Z.rem_mod_nonneg by lia. apply Z.mod_pos_bound. lia.
Qed.

Lemma arrive_total req rp : ReportStatusRequest_ok req -> reporter_ok rp ->
  exists rp', get_report_status (msg_encode req) rp = Ok rp' /\ queued rp' ≡ₚ req :: queued rp.
Proof.
  intros Hok [Hc Hi]. unfold get_report_status. rewrite msg_roundtrip by exact Hok. cbn [mbind res_bind].
  destruct (Z.leb_spec 0 (rp_index rp)); [|lia].
  destruct (lookup_lt_is_Some_2 (rp_queues rp) (Z.to_nat (rp_index rp))) as [q Hq]; [lia|]. rewrite Hq. cbn [of_option mbind res_bind].
  eexists. split; [done|]. unfold queued. cbn [rp_queues]. pose proof (queued_insert _ _ (tq_send req q) _ Hq) as Hp.
  cbn [tq_send tq_queue] in Hp. rewrite (Permutation_app_comm (tq_queue q) [req]), app_assoc in Hp.
  apply Permutation_app_inv_r in Hp. rewrite Hp. by rewrite Permutation_app_comm.
Qed.

(** *** Every step keeps the accounts *)

Lemma agent_grows_inv a s : stats_inv s -> agent_typed a -> report_queue (st_agent s) `prefix_of` report_queue a -> stats_inv (with_agent a s).
Proof.
  intros [_ Hro (fl & sd & lo & [Ht Hw Hq Hl] & Hok)] Ha [new Hn]. split; [done|done|]. exists fl, sd, lo. split; [|done].
  split; cbn; [|done|done|done]. rewrite Hn, drop_app_length, Ht.
  solve_perm.
Qed.

Lemma effect_grows a a' : agent_effect cfg a a' -> report_queue a `prefix_of` report_queue a'.
Proof.
  intros (i & r & r' & _ & _ & [m c rsp ret rsp' _ _ _ Hg|m c rsp ret rsp' _ _ _ Hg|req _ Hg|m c rsp ret _ Hg]).
  - by eapply get_host_grows.
  - by eapply get_route_grows.
  - by eapply report_host_grows.
  - by eapply update_host_grows.
Qed.

Lemma flow_inv s s' : stats_inv s -> flow_step s s' -> stats_inv s'.
Proof.
  intros [Ha Hro (fl & sd & lo & [Ht Hw Hq Hl] & Hok)] Hstep. destruct Hstep as [s|d rest rp s Hd Hg|i q s Hi].
  - destruct Ha as [Halb [Hdns Hrep]]. split; [by split|done|]. exists (fl ++ report_queue (st_agent s)), sd, lo. split.
    + split; cbn; [|by rewrite fmap_app, Hw|done|done]. rewrite Ht. solve_perm.
    + by apply Forall_app_2.
  - rewrite Hw in Hd. destruct fl as [|req fl]; [done|]. assert (d = msg_encode req /\ rest = msg_encode <$> fl) as [-> ->] by by injection Hd. apply Forall_cons in Hok as [Hreq Hok].
    destruct (arrive_total req _ Hreq Hro) as (rp' & Hg' & Hqd). rewrite Hg in Hg'. injection Hg' as <-.
    split; cbn; [done|by eapply get_status_ok|]. exists fl, sd, lo. split; [|done]. split; cbn; [|done|done|done].
    rewrite Ht, Hqd. apply Permutation_app_head. cbn. by rewrite Permutation_middle.
  - cbn. split; cbn; [done|destruct Hro; split; cbn; [by rewrite length_insert|done]|]. exists fl, (sd ++ tq_queue q), lo. split; [|done].
    split; cbn; [|done|by rewrite fmap_app, concat_app, Hq|done]. rewrite Ht. apply Permutation_app_head, Permutation_app_head.
    pose proof (queued_insert i q (tq_recv q).2 _ Hi) as Hp. cbn [tq_recv snd tq_queue] in Hp. rewrite app_nil_r in Hp.
    unfold queued. cbn [rp_queues]. rewrite <-Hp. solve_perm.
Qed.

Lemma step_inv s s' : stats_inv s -> stats_step s s' -> stats_inv s'.
Proof.
  intros Hs Hstep. destruct Hstep as [cb ud data msgid u u' s Hu Hrun|data a s Hd|s|s|s s' Hf|s|sent refused s Hsub Hq].
  - apply callback_effect in Hrun. rewrite Hu in Hrun. apply agent_grows_inv; [done| |by apply effect_grows].
    eapply (effect_typed cfg sendto_at Hprobe); [exact Hrun|apply Hs].
  - apply deal_effect in Hd. apply agent_grows_inv; [done| |by apply effect_grows]. eapply (effect_typed cfg sendto_at Hprobe); [exact Hd|apply Hs].
  - apply agent_grows_inv; [done| |done]. destruct (sv_agent _ Hs) as [Hl [Hd Hr]]. by repeat split.
  - apply agent_grows_inv; [done| |done]. apply conn_init_typed, Hs.
  - by eapply flow_inv.
  - destruct Hs as [Ha Hro (fl & sd & lo & [Ht Hw Hq Hl] & Hok)]. split; [done|done|]. exists [], sd, (lo ++ fl). split; [|constructor].
    split; cbn; [|done|done|by rewrite fmap_app, Hw, Hl]. rewrite Ht. solve_perm.
  - destruct Hs as [Ha Hro (fl & sd & lo & [Ht Hw Hsq Hl] & Hok)].
    destruct Ha as [Halb [Hdns Hrep]]. split; [by split|done|]. exists (fl ++ sent), sd, (lo ++ refused). split.
    + split; cbn; [|by rewrite fmap_app, Hw|done|by rewrite fmap_app, Hl]. rewrite Ht, Hq. solve_perm.
    + apply Forall_app_2; [done|]. change (Forall ReportStatusRequest_ok (report_queue (st_agent s))) in Hrep. rewrite Hq in Hrep. by apply Forall_app in Hrep as [? _].
Qed.

Lemma reachable_inv rp s : reporter_ok rp -> queued rp = [] -> stats_reachable rp s -> stats_inv s.
Proof. intros Hro Hq Hr. induction Hr as [|s s' _ IH Hstep]; [by apply start_inv|by eapply step_inv]. Qed.

(** *** From everywhere the statistics reach the database *)

Lemma flows_inv s s' : stats_inv s -> rtc flow_step s s' -> stats_inv s'.
Proof. intros Hs Hr. induction Hr as [|s1 s2 s3 Hstep _ IH]; [done|]. apply IH. by eapply flow_inv. Qed.

Lemma flow_history s s' : rtc flow_step s s' -> st_committed s' = st_committed s /\ st_lost s' = st_lost s.
Proof. intros Hr. induction Hr as [|s1 s2 s3 Hstep _ [-> ->]]; [done|]. by destruct Hstep. Qed.

Lemma arrivals s : stats_inv s -> exists s', rtc flow_step s s' /\ st_wire s' = [] /\ st_agent s' = st_agent s.
Proof.
  intros Hs. destruct (sv_accounts _ Hs) as (fl & sd & lo & [_ Hw _ _] & _). revert s Hs Hw.
  induction fl as [|req fl IH]; intros s Hs Hw; [by exists s|]. cbn [fmap list_fmap] in Hw.
  destruct (sv_accounts _ Hs) as (fl' & sd' & lo' & [_ Hw' _ _] & Hok). rewrite Hw in Hw'. destruct fl' as [|req' fl']; [done|].
  assert (msg_encode req = msg_encode req') as He by by injection Hw'. apply Forall_cons in Hok as [Hreq _].
  destruct (arrive_total req' _ Hreq (sv_reporter _ Hs)) as (rp & Hg & _).
  set (s1 := Stats (st_agent s) (msg_encode <$> fl) rp (st_sql s) (st_committed s) (st_lost s)).
  assert (flow_step s s1) as Hf by (apply (fl_arrive (msg_encode req)); [done|by rewrite He]).
  destruct (IH s1) as (s' & Hr & Hw1 & Ha1); [by eapply flow_inv|done|]. exists s'. split; [by eapply rtc_l|done].
Qed.

Lemma stores (k : nat) s : (k <= length (rp_queues (st_reporter s)))%nat ->
  exists s', rtc flow_step s s' /\ st_wire s' = st_wire s /\ st_agent s' = st_agent s /\
    length (rp_queues (st_reporter s')) = length (rp_queues (st_reporter s)) /\
    Forall (fun q => tq_queue q = []) (take k (rp_queues (st_reporter s'))).
Proof.
  induction k as [|k IH]; intros Hk; [by exists s|]. destruct IH as (s1 & Hr & Hw & Ha & Hl & Hall); [lia|].
  destruct (lookup_lt_is_Some_2 (rp_queues (st_reporter s1)) k) as [q Hq]; [lia|].
  pose proof (fl_store k q s1 Hq) as Hf. cbn [thread_report tq_recv] in Hf. cbv iota in Hf.
  eexists. split; [eapply rtc_r; [exact Hr|exact Hf]|]. cbn. split; [done|]. split; [done|]. split; [by rewrite length_insert|].
  rewrite (take_S_r _ _ (snd (tq_recv q))) by (apply list_lookup_insert_eq; by apply lookup_lt_Some in Hq).
  apply Forall_app_2; [|by apply Forall_singleton]. by rewrite take_insert_ge by done.
Qed.

Lemma drained s : stats_inv s -> exists s', rtc flow_step s s' /\ report_queue (st_agent s') = [] /\ st_wire s' = [] /\ queued (st_reporter s') = [].
Proof.
  intros Hs. pose proof (fl_take s) as Hf. match type of Hf with flow_step _ ?x => set (s1 := x) in Hf end.
  destruct (arrivals s1) as (s2 & Hr2 & Hw2 & Ha2); [by eapply flow_inv|].
  destruct (stores (length (rp_queues (st_reporter s2))) s2) as (s3 & Hr3 & Hw3 & Ha3 & Hl3 & Hall); [lia|].
  exists s3. split; [by eapply rtc_l; [exact Hf|]; etransitivity|]. split; [by rewrite Ha3, Ha2|]. split; [by rewrite Hw3|].
  rewrite <-Hl3, firstn_all in Hall. unfold queued. clear -Hall. induction Hall as [|q qs Hq _ IH]; [done|]. cbn. by rewrite Hq, IH.
Qed.

(** C9: Statistics are stored exactly once.  In every interleaving of the agent's threads,
    the report client, the reporter and its store threads, for whatever datagrams and
    answers arrive: the statements run so far are those of [stored], each request the
    agent ever committed is either on its queue, on the connection, with the reporter,
    in [stored], or lost with a connection that broke or was full, and counts once; and from every
    such state the remaining steps (the agent's threads doing nothing more) run without
    a fault to the state where every request not lost is in the database. *)
Theorem reports_reach_database (cnt : nat) evfds rp s :
  (0 < cnt)%nat -> length evfds = cnt -> create_report_threads cnt evfds = Ok rp -> stats_reachable rp s ->
  (exists flight stored lost, accounts s flight stored lost) /\
  exists s' stored lost, rtc flow_step s s' /\ st_committed s' = st_committed s /\
    st_committed s ≡ₚ stored ++ lost /\ st_lost s = msg_encode <$> lost /\
    st_sql s' = concat ((fun req => store_sql req <$> rsr_results req) <$> stored).
Proof.
  intros Hc Hl Hcr Hr. destruct (create_ok evfds cnt rp Hc Hl Hcr) as [Hro Hq]. pose proof (reachable_inv rp s Hro Hq Hr) as Hs.
  split; [destruct (sv_accounts _ Hs) as (fl & sd & lo & Ha & _); by exists fl, sd, lo|].
  destruct (drained s Hs) as (s' & Hf & Hrq & Hw & Hqd). pose proof (flows_inv _ _ Hs Hf) as Hs'.
  destruct (flow_history _ _ Hf) as [Hcm Hlo]. destruct (sv_accounts _ Hs') as (fl & sd & lo & [Ht Hw' Hsql Hlost] & _).
  rewrite Hw in Hw'. destruct fl; [|done]. exists s', sd, lo. split; [done|]. split; [done|]. rewrite <-Hcm, <-Hlo.
  rewrite Hrq, Hqd in Ht. split; [done|]. split; [done|]. rewrite Hsql. f_equal. apply list_fmap_ext. intros _ req _. apply store_whole.
Qed.
End stats.

Module StatisticsDemo.
#[local] Existing Instances epoll_map wire_varint efd_counter.
#[local] Instance demo_order : HashOrder := hash_order_list.
#[local] Instance demo_clock : Clock := clock_const 1000.
Abbreviation step := (stats_step (V := Z) (T := unit) (K := gmap Z Z) (Addr := nat) lb_agent_ini AgentDemo.always_sent).

(** A datagram on the udp server of port 8890, an answer of the dns service. *)
Definition datagram (cb : agent_cb) (data : bytes) (s : stats Z) : option (stats Z) :=
  match run_agent_callback lb_agent_ini AgentDemo.always_sent cb (Some 2%nat) data 0 (u_set_env (st_agent s) AgentDemo.server2) with
  | Ok u => Some (with_agent (u_env u) s)
  | Err _ => None
  end.
Definition answer (data : bytes) (s : stats Z) : option (stats Z) :=
  match deal_recv_route lb_agent_ini data (st_agent s) with Ok a => Some (with_agent a s) | Err _ => None end.

Lemma datagram_step cb data s s' : datagram cb data s = Some s' -> step s s'.
Proof. unfold datagram. destruct (run_agent_callback _ _ _ _ _ _ _) as [u|f] eqn:Hr; [|done]. intros [= <-]. by eapply st_callback; [|exact Hr]. Qed.
Lemma answer_step data s s' : answer data s = Some s' -> step s s'.
Proof. unfold answer. destruct (deal_recv_route _ _ _) as [a|f] eqn:Hd; [|done]. intros [= <-]. by eapply st_answer. Qed.

(** Somebody asks for a module, its host arrives, and a call of it is reported. *)
Definition report1 : ReportRequest := {| rrq_modid := 1; rrq_cmdid := 1; rrq_host := Some WireDemo.host0; rrq_retcode := 0 |}.
Definition s0 : stats Z := stats_start ReporterDemo.reporter0.
Definition s1 : stats Z := default s0 (datagram get_host_cb_id (msg_encode AgentDemo.req0) s0).
Definition s2 : stats Z := default s0 (answer (msg_encode AgentDemo.rsp0) s1).
Definition s3 : stats Z := default s0 (datagram report_cb_id (msg_encode report1) s2).

Definition request3 : ReportStatusRequest :=
  {| rsr_modid := 1; rsr_cmdid := 1; rsr_caller := 127; rsr_ts := 1000;
     rsr_results := [{| hcr_ip := i32 3232235953; hcr_port := 7777; hcr_succ := 1; hcr_err := 0; hcr_overload := false |}] |}.

Lemma reach3 : stats_reachable (T := unit) (K := gmap Z Z) (Addr := nat) lb_agent_ini AgentDemo.always_sent ReporterDemo.reporter0 s3 /\
  st_committed s3 = [request3] /\ st_lost s3 = [].
Proof.
  split; [|by vm_compute]. apply (stats_next _ _ _ s2); [apply (stats_next _ _ _ s1); [apply (stats_next _ _ _ s0); [apply stats_init|]|]|].
  - apply (datagram_step get_host_cb_id (msg_encode AgentDemo.req0)). vm_compute. reflexivity.
  - apply (answer_step (msg_encode AgentDemo.rsp0)). vm_compute. reflexivity.
  - apply (datagram_step report_cb_id (msg_encode report1)). vm_compute. reflexivity.
Qed.

Lemma reports_reach_database_witness : exists s', rtc flow_step s3 s' /\ st_sql s' = store_sql request3 <$> rsr_results request3.
Proof.
  destruct reach3 as (Hr & Hc & Hl).
  destruct (reports_reach_database (T := unit) (K := gmap Z Z) (Addr := nat) lb_agent_ini AgentDemo.always_sent ltac:(unfold is_i32; cbn; lia)
    2 [Some (10, 0); Some (11, 0)] ReporterDemo.reporter0 s3) as (_ & s' & stored & lost & Hf & _ & Ht & Hlost & Hs); [lia|done|vm_compute; reflexivity|exact Hr|].
  exists s'. split; [exact Hf|]. rewrite Hl in Hlost. destruct lost; [|discriminate]. rewrite app_nil_r, Hc in Ht.
  apply Permutation_length_1_inv in Ht as ->. rewrite Hs. cbn [fmap list_fmap concat]. apply app_nil_r.
Defined.
End StatisticsDemo.
