(* ===== verification/AgentMain.v ===== *)
(** * AgentMain: how the agent starts (lars_lb_agent: main_server.cpp and the thread
    functions of agent_udp_server.cpp, dns_client.cpp, report_client.cpp)

    [init_lb_agent] reads the configuration; the thread functions set their endpoint
    up before they enter [event_process]; [main] starts the threads and creates the two
    queues they share, in the order of [agent_main]. *)

From S2P Require Import Prelude Keys Proto HostNode LoadBalance BalanceSpec RouteLb RouteSpec Bytes.
From S2P Require Import Wire Messages Text FloatText ConfigFile EventLoop BufPool ReactorBuf Stream StreamSpec TcpConn TcpClient.
From S2P Require Import Udp ThreadPool AgentService.
From stdpp Require Import base numbers list gmap fin_maps strings.
From Stdlib Require Import ZArith Lia SpecFloat.
Open Scope Z_scope.

(** ** Configuration *)

Definition loadbalance : text := str "loadbalance".

(** An [unsigned] of the file in an [int] of the configuration. *)
Definition int_setting (key : string) (default_value : Z) (map : str_map) : Z :=
  i32 (GetNumber loadbalance (str key) default_value map).

(** The assignments to [lb_config]; [update_timeout] is a [long]. *)
Definition lb_config_of (map : str_map) : load_balance_config := {|
  probe_num := int_setting "probe_num" 10 map;
  init_succ_cnt := int_setting "init_succ_cnt" 180 map;
  init_err_cnt := int_setting "init_err_cnt" 5 map;
  err_rate := GetFloat loadbalance (str "err_rate") (float_ratio 1 10) map;
  succ_rate := GetFloat loadbalance (str "succ_rate") (float_ratio 95 100) map;
  contin_succ_limit := int_setting "contin_succ_limit" 10 map;
  contin_err_limit := int_setting "contin_err_limit" 10 map;
  idle_timeout := int_setting "idle_timeout" 15 map;
  overload_timeout := int_setting "overload_timeout" 15 map;
  update_timeout := GetNumber loadbalance (str "update_timeout") 15 map
|}.

(** [void init_lb_agent()]: that the file could not be read is not looked at. *)
Definition init_lb_agent_main (file : option text) (config : option str_map) : res (option str_map * load_balance_config * agent) :=
  '(_, config) ← setPath file config;
  map ← instance config;
  Ok (config, lb_config_of map, init_lb_agent).


(** The field of the configuration for each key, and its default. *)
Definition int_settings : list (string * (load_balance_config -> Z) * Z) :=
  [("probe_num"%string, probe_num, 10); ("init_succ_cnt"%string, init_succ_cnt, 180); ("init_err_cnt"%string, init_err_cnt, 5);
   ("contin_succ_limit"%string, contin_succ_limit, 10); ("contin_err_limit"%string, contin_err_limit, 10);
   ("idle_timeout"%string, idle_timeout, 15); ("overload_timeout"%string, overload_timeout, 15); ("update_timeout"%string, update_timeout, 15)].
Definition float_settings : list (string * (load_balance_config -> spec_float) * spec_float) :=
  [("err_rate"%string, err_rate, nearest_float false 1 (-1)); ("succ_rate"%string, succ_rate, nearest_float false 95 (-2))].

(** The value a number has in the configuration when the file says [v]. *)
Definition int_reads (v : option text) (d x : Z) : Prop :=
  match v with Some v => forall n, 0 <= n < 2 ^ 31 -> v = str (decimal n) -> x = n | None => x = d end.
(** A value out of range reads as 0. *)
Definition fitting (f : spec_float) : spec_float := match f with S754_infinity _ => S754_zero false | f => f end.
(** A rate is written with a point: [ip.fp], both in digits. *)
Definition float_reads (v : option text) (d x : spec_float) : Prop :=
  match v with
  | Some v => forall ip fp, ip <> [] -> Forall (fun c => is_digit c = true) (ip ++ fp) -> v = ip ++ str "." ++ fp ->
      x = fitting (nearest_float false (read_digits 0 (ip ++ fp)) (- Z.of_nat (length fp)))
  | None => x = d
  end.

Lemma int_setting_reads map key d v :
  find_value loadbalance (str key) map = v -> 0 <= d < 2 ^ 31 -> int_reads v d (int_setting key d map).
Proof.
  intros Hv Hd. unfold int_setting, GetNumber. rewrite Hv. destruct v as [v|]; unfold int_reads, float_reads.
  - intros n Hn ->. unfold parseNumber. unfold str. rewrite strtol_decimal by lia. rewrite i32_u32. apply i32_id. unfold is_i32. lia.
  - apply i32_id. unfold is_i32. lia.
Qed.

Lemma long_setting_reads map key d v :
  find_value loadbalance (str key) map = v -> int_reads v d (GetNumber loadbalance (str key) d map).
Proof.
  intros Hv. unfold GetNumber. rewrite Hv. destruct v as [v|]; unfold int_reads, float_reads; [|done].
  intros n Hn ->. unfold parseNumber, str. rewrite strtol_decimal by lia. apply u32_id. unfold is_u32. lia.
Qed.

Lemma float_setting_reads map key d d' v :
  find_value loadbalance (str key) map = v -> read_float (show_float d) = d' -> float_reads v d' (GetFloat loadbalance (str key) d map).
Proof.
  intros Hv Hd. unfold GetFloat, GetString. rewrite Hv. destruct v as [v|]; [|exact Hd].
  intros ip fp Hne Hds ->. apply Forall_app in Hds as [Hip Hfp]. rewrite read_fixed by done. unfold fitting. by destruct (nearest_float _ _ _).
Qed.

(** C35: What is written in conf/lb_agent.ini is what the agent runs with: for every file of
    section and key=value lines, [init_lb_agent] succeeds, each of the ten settings is
    the last value its key has in section loadbalance (numbers as they are, rates as the
    float nearest to the decimal fraction), a setting that is missing has its default,
    and the three route_lbs are empty. *)
Theorem settings_from_file cfg :
  config_ok cfg ->
  exists map c, init_lb_agent_main (Some (render cfg)) None = Ok (Some map, c, init_lb_agent) /\
    Forall (fun '(key, field, d) => int_reads (meaning cfg !! (loadbalance, str key)) d (field c)) int_settings /\
    Forall (fun '(key, field, d) => float_reads (meaning cfg !! (loadbalance, str key)) d (field c)) float_settings.
Proof.
  intros Hok. destruct (load_render cfg Hok) as (map & Hl & Hr). unfold init_lb_agent_main, setPath.
  rewrite bool_decide_true by done. rewrite Hl. cbn [mbind res_bind instance of_option].
  exists map, (lb_config_of map). split; [done|]. split.
  - repeat (apply Forall_cons; split); [..|apply Forall_nil; done];
      first [apply int_setting_reads; [apply Hr|lia]|apply long_setting_reads, Hr].
  - repeat (apply Forall_cons; split); [..|apply Forall_nil; done]; (eapply float_setting_reads; [apply Hr|by vm_compute]).
Qed.

(** ** The threads, up to [event_process] *)

Section threads.
Context {V T K Addr : Type} `{EventFd V} `{Epoll K}.
Abbreviation server := (udp T K agent agent_cb nat Addr).
Abbreviation client := (endpoint io_proc T Z K (client_env agent unit unit unit)).
Abbreviation loop := (event_loop io_proc T Z K).

(** [void *agent_server_main(void *args)] with [args] the index: the port and the
    server. *)
Definition agent_server_main (index self : Z) (sock : option Z) (l : loop) (rbuf wbuf : bytes) (peer : Addr) (a : agent)
    : res (Z * server) :=
  let port := i16 (index + 8888) in
  server ← udp_server_new self sock l rbuf wbuf peer a;
  ensure (0 <=? port - 8888) && (port - 8888 <? 3) or OutOfBounds;
  let r_lb := Z.to_nat (port - 8888) in
  let server := udp_add_msg_router ID_GetHostRequest get_host_cb_id r_lb server in
  let server := udp_add_msg_router ID_ReportRequest report_cb_id r_lb server in
  let server := udp_add_msg_router ID_API_GetRouteRequest get_route_cb_id r_lb server in
  Ok (port, server).

(** The callbacks the two clients register for their queue. *)
Definition new_dns_request_cb : io_proc := user_io_callback 1.
Definition new_report_request_cb : io_proc := user_io_callback 2.

(** [queue->set_loop(&loop); queue->set_callback(cb, &client);] *)
Definition watch_queue {M} (q : thread_queue V M) (cb : io_proc) (c : client) : client :=
  set_loop (default (e_loop c) (tq_set_callback cb (e_self c) q (Some (e_loop c)))) c.

Context (run_conn_callback : unit -> option unit -> client -> res client).

(** [void *dns_client_thread(void *args)]: the address it connects to and the client. *)
Definition dns_client_thread (config : option str_map) (q : thread_queue V GetRouteRequest) (self : Z) (l : loop) (p : buf_pool)
    (a : agent) (sock : option Z) (result : connect_result) : res (text * Z * client) :=
  map ← instance config;
  let ip := GetString (str "dns") (str "ip") (str "127.0.0.1") map in
  let port := i16 (GetNumber (str "dns") (str "port") 7778 map) in
  client ← tcp_client_new run_conn_callback self l p a sock result;
  let client := watch_queue q new_dns_request_cb client in
  let client := add_msg_router ID_GetRouteResponse tt tt client in
  let client := set_conn_start tt None client in
  Ok (ip, u16 port, client).

(** [void *report_client_thread(void *args)] *)
Definition report_client_thread (config : option str_map) (q : thread_queue V ReportStatusRequest) (self : Z) (l : loop) (p : buf_pool)
    (a : agent) (sock : option Z) (result : connect_result) : res (text * Z * client) :=
  map ← instance config;
  let ip := GetString (str "reporter") (str "ip") (str "127.0.0.1") map in
  let port := i16 (GetNumber (str "reporter") (str "port") 7779 map) in
  client ← tcp_client_new run_conn_callback self l p a sock result;
  Ok (ip, u16 port, watch_queue q new_report_request_cb client).

(** ** The set-up of the threads is the one the services are proved for *)

Lemma agent_server_wired (i : nat) self fd l rbuf wbuf peer a :
  (i < 3)%nat -> agent_ok a -> length rbuf = Z.to_nat MESSAGE_LENGTH_LIMIT -> length wbuf = Z.to_nat MESSAGE_LENGTH_LIMIT ->
  exists server, agent_server_main i self (Some fd) l rbuf wbuf peer a = Ok (8888 + i, server) /\
    server_ok i server /\ u_env server = a /\ u_sent server = [] /\
    el_evs (u_loop server) !! fd = el_evs (add_io_event fd server_read_callback EPOLLIN self l) !! fd.
Proof.
  intros Hi Ha Hr Hw. unfold agent_server_main.
  assert (i16 (Z.of_nat i + 8888) = 8888 + i) as -> by (unfold i16; rewrite Z.mod_small by lia; lia).
  unfold udp_server_new, udp_new. cbn [of_option mbind res_bind].
  destruct (Z.leb_spec 0 (8888 + i - 8888)); [|lia]. destruct (Z.ltb_spec (8888 + i - 8888) 3); [|lia]. cbn [andb].
  replace (Z.to_nat (8888 + i - 8888)) with i by lia. eexists. split; [done|]. by repeat split; try apply Ha.
Qed.

(** A descriptor that is watched for reading with a callback. *)
Definition watches (fd : Z) (cb : io_proc) (l : loop) : Prop :=
  exists ev, el_evs l !! fd = Some ev /\ has (ev_mask ev) EPOLLIN = true /\ ev_read ev = Some cb.

Lemma has_lor_same x m : has (Z.lor x m) m = negb (m =? 0).
Proof. unfold has. f_equal. f_equal. apply Z.bits_inj'. intros n Hn. rewrite Z.land_spec, Z.lor_spec. by destruct (Z.testbit x n), (Z.testbit m n). Qed.

Lemma watch_queue_watches {M} (q : thread_queue V M) cb (c : client) : watches (tq_evfd q) cb (e_loop (watch_queue q cb c)).
Proof.
  unfold watch_queue, tq_set_callback. cbn [fmap option_fmap option_map default e_loop set_loop].
  destruct (add_event_lookup (e_loop c) (tq_evfd q) cb (e_self c) EPOLLIN) as (ev & Hev & Hm & Hr & _); [by left|].
  exists ev. split; [done|]. rewrite Hm, Hr, has_lor_same. done.
Qed.

Lemma watch_queue_keeps {M} (q : thread_queue V M) cb (c : client) fd :
  tq_evfd q <> fd -> el_evs (e_loop (watch_queue q cb c)) !! fd = el_evs (e_loop c) !! fd.
Proof.
  intros Hne. unfold watch_queue, tq_set_callback, add_io_event. cbn [fmap option_fmap option_map default e_loop set_loop].
  destruct (el_evs (e_loop c) !! tq_evfd q); destruct (epoll_ctl _ _ _ _) as [[] k]; cbn; by rewrite lookup_insert_ne.
Qed.

(** A client that is connecting waits to be told. *)
Definition connecting (fd : Z) (c : client) : Prop :=
  e_fd c = fd /\ exists ev, el_evs (e_loop c) !! fd = Some ev /\ has (ev_mask ev) EPOLLOUT = true /\ ev_write ev = Some connection_succ.

Lemma client_connecting self l p a fd :
  exists c, tcp_client_new run_conn_callback self l p a (Some fd) ConnectInProgress = Ok c /\ connecting fd c /\
    e_env c = ClientEnv None None None None msg_router_new a.
Proof.
  unfold tcp_client_new, do_connect. cbn [e_fd Z.eqb negb of_option mbind res_bind]. eexists. split; [done|]. split; [|done].
  split; [done|]. cbn [e_loop set_loop]. destruct (add_event_lookup l fd connection_succ self EPOLLOUT) as (ev & Hev & Hm & _ & Hw); [by right|].
  exists ev. split; [exact Hev|]. rewrite Hm, Hw, has_lor_same. done.
Qed.

Lemma dns_client_wired map (q : thread_queue V GetRouteRequest) self l p a fd :
  tq_evfd q <> fd -> exists c,
    dns_client_thread (Some map) q self l p a (Some fd) ConnectInProgress =
      Ok (GetString (str "dns") (str "ip") (str "127.0.0.1") map, u16 (i16 (GetNumber (str "dns") (str "port") 7778 map)), c) /\
    connecting fd c /\ watches (tq_evfd q) new_dns_request_cb (e_loop c) /\
    router_call ID_GetRouteResponse (ce_router (e_env c)) = Some (tt, Some tt) /\ ce_start_cb (e_env c) = Some tt /\ ce_app (e_env c) = a.
Proof.
  intros Hne. destruct (client_connecting self l p a fd) as (c & Hc & [Hfd Hcon] & He).
  unfold dns_client_thread. cbn [instance of_option mbind res_bind]. rewrite Hc. cbn [mbind res_bind].
  eexists. split; [done|]. split; [|split; [|split; [|split]]].
  - split; [done|]. cbn [set_conn_start add_msg_router set_env e_loop]. by rewrite watch_queue_keeps.
  - apply watch_queue_watches.
  - cbn [set_conn_start add_msg_router set_env e_env watch_queue set_loop ce_router]. by rewrite He.
  - done.
  - cbn [set_conn_start add_msg_router set_env e_env watch_queue set_loop ce_app]. by rewrite He.
Qed.

Lemma report_client_wired map (q : thread_queue V ReportStatusRequest) self l p a fd :
  tq_evfd q <> fd -> exists c,
    report_client_thread (Some map) q self l p a (Some fd) ConnectInProgress =
      Ok (GetString (str "reporter") (str "ip") (str "127.0.0.1") map, u16 (i16 (GetNumber (str "reporter") (str "port") 7779 map)), c) /\
    connecting fd c /\ watches (tq_evfd q) new_report_request_cb (e_loop c) /\ ce_app (e_env c) = a.
Proof.
  intros Hne. destruct (client_connecting self l p a fd) as (c & Hc & [Hfd Hcon] & He).
  unfold report_client_thread. cbn [instance of_option mbind res_bind]. rewrite Hc. cbn [mbind res_bind].
  eexists. split; [done|]. split; [|split].
  - split; [done|]. by rewrite watch_queue_keeps.
  - apply watch_queue_watches.
  - cbn [watch_queue set_loop e_env]. by rewrite He.
Qed.
End threads.

(** ** The order in which main starts them *)

#[export] Instance agent_cb_eq_dec : EqDecision agent_cb.
Proof. solve_decision. Defined.

Inductive main_step := SpawnUdp (i : nat) | NewReportQueue | SpawnReportClient | NewDnsQueue | SpawnDnsClient.
(** [start_UDP_server(); report_queue = new ...; start_report_client(); ...] *)
Definition agent_main : list main_step :=
  [SpawnUdp 0; SpawnUdp 1; SpawnUdp 2; NewReportQueue; SpawnReportClient; NewDnsQueue; SpawnDnsClient].

(** What main has still to do, which udp servers run, which queues exist. *)
Record boot := Boot {
  bo_todo : list main_step;
  bo_udp : list nat;
  bo_report_queue : bool;
  bo_dns_queue : bool;
  bo_agent : agent
}.
Definition boot0 : boot := Boot agent_main [] false false init_lb_agent.

Definition do_main_step (st : main_step) (todo : list main_step) (b : boot) : boot :=
  match st with
  | SpawnUdp i => Boot todo (bo_udp b ++ [i]) (bo_report_queue b) (bo_dns_queue b) (bo_agent b)
  | NewReportQueue => Boot todo (bo_udp b) true (bo_dns_queue b) (bo_agent b)
  | NewDnsQueue => Boot todo (bo_udp b) (bo_report_queue b) true (bo_agent b)
  | SpawnReportClient | SpawnDnsClient => Boot todo (bo_udp b) (bo_report_queue b) (bo_dns_queue b) (bo_agent b)
  end.

(** A call that sends to a queue that is still NULL faults. *)
Definition sends {M} (before after : list M) : bool := negb (Nat.eqb (length after) (length before)).
Definition through_queues (b : boot) (a : agent) : res boot :=
  let w := ag_world (bo_agent b) in
  let w' := ag_world a in
  ensure negb (sends (w_dns_queue w) (w_dns_queue w')) || bo_dns_queue b or NullDeref;
  ensure negb (sends (w_report_queue w) (w_report_queue w')) || bo_report_queue b or NullDeref;
  Ok (Boot (bo_todo b) (bo_udp b) (bo_report_queue b) (bo_dns_queue b) a).

Section boot.
Context {T K Addr : Type} `{Epoll K} `{Clock} `{HashOrder} `{WireFormat} (cfg : load_balance_config).
Context (sendto_at : nat -> send_result).
Abbreviation server := (udp T K agent agent_cb nat Addr).

(** Main goes on, or a datagram comes in on the [i]-th server, which [u] is but for the
    state it shares. *)
Inductive boot_event := MainStep | Datagram (i : nat) (cb : agent_cb) (data : bytes) (u : server).

Definition boot_exec (b : boot) (ev : boot_event) : res boot :=
  match ev with
  | MainStep => match bo_todo b with [] => Ok b | st :: todo => Ok (do_main_step st todo b) end
  | Datagram i cb data u =>
      if decide (i ∈ bo_udp b) then
        u ← run_agent_callback cfg sendto_at cb (Some i) data 0 (u_set_env (bo_agent b) u);
        through_queues b (u_env u)
      else Ok b
  end.

Definition event_ok (ev : boot_event) : Prop := match ev with MainStep => True | Datagram i _ _ u => server_ok i u end.

Definition no_modules (a : agent) : Prop := Forall (fun r => rl_map r = ∅) (ag_lb a).

Record boot_inv (b : boot) : Prop := {
  bi_agent : agent_ok (bo_agent b);
  bi_main : exists k : nat, bo_todo b = drop k agent_main /\ bo_report_queue b = Nat.ltb 3 k /\ bo_dns_queue b = Nat.ltb 5 k /\
    bo_udp b = take k [0; 1; 2]%nat;
  bi_window : bo_dns_queue b = false -> no_modules (bo_agent b)
}.

Lemma boot_start : boot_inv boot0.
Proof.
  split; [apply init_agent_ok|by exists 0%nat|]. intros _. apply Forall_fmap, Forall_forall. done.
Qed.

Lemma callback_ok i cb data msgid (u : server) a :
  server_ok i u -> agent_ok a -> exists u', run_agent_callback cfg sendto_at cb (Some i) data msgid (u_set_env a u) = Ok u' /\ agent_ok (u_env u').
Proof.
  intros Hu Ha. destruct (agent_callback_ok cfg sendto_at host_fits route_fits i cb data msgid (u_set_env a u)) as (u' & Hr & Hu').
  { by apply server_ok_env. }
  exists u'. split; [done|apply Hu'].
Qed.

(** Before there are modules: a report changes nothing, a request is sent on to the dns
    service. *)
Lemma early_report i data (u : server) a :
  server_ok i u -> agent_ok a -> no_modules a ->
  exists u', run_agent_callback cfg sendto_at report_cb_id (Some i) data 0 (u_set_env a u) = Ok u' /\ u_env u' = a.
Proof.
  intros Hu [H3 _] Hn. cbn [run_agent_callback]. unfold report_cb. destruct (msg_decode_total (M := ReportRequest) data) as [req ->].
  cbn [mbind res_bind u_env u_set_env]. unfold on_lb. cbn [of_option mbind res_bind].
  destruct (lookup_lt_is_Some_2 (ag_lb a) i) as [r Hr]; [pose proof (so_index _ _ Hu); lia|]. rewrite Hr. cbn [of_option mbind res_bind].
  unfold report_host. rewrite (Forall_lookup_1 _ _ _ _ Hn Hr), lookup_empty. cbn [mbind res_bind].
  eexists. split; [done|]. cbn [u_env u_set_env]. rewrite list_insert_id by done. by destruct a.
Qed.

Lemma early_request i cb data (u : server) a :
  server_ok i u -> agent_ok a -> no_modules a -> cb <> report_cb_id ->
  exists u' req, run_agent_callback cfg sendto_at cb (Some i) data 0 (u_set_env a u) = Ok u' /\
    w_dns_queue (ag_world (u_env u')) = w_dns_queue (ag_world a) ++ [req].
Proof.
  intros Hu Ha Hn Hcb. destruct (callback_ok i cb data 0 u a Hu Ha) as (u' & Hrun & _).
  destruct (lookup_lt_is_Some_2 (ag_lb a) i) as [r Hr]; [pose proof (so_index _ _ Hu); pose proof (ao_three _ Ha); lia|].
  pose proof (Forall_lookup_1 _ _ _ _ Hn Hr) as Hm.
  destruct cb; [|done|]; cbn [run_agent_callback] in Hrun |- *; exists u'.
  - unfold get_host_cb in Hrun |- *. destruct (msg_decode_total (M := GetHostRequest) data) as [req Hreq]. rewrite Hreq in Hrun |- *.
    destruct (create_module_spec (ghq_modid req) (ghq_cmdid req) r (ag_world a)) as (w1 & Hcr & Hq & _).
    unfold on_lb, RouteLb.get_host in Hrun |- *. cbn [mbind res_bind of_option u_env u_set_env] in Hrun |- *. rewrite Hr in Hrun |- *.
    cbn [mbind res_bind of_option] in Hrun |- *. rewrite Hm, lookup_empty, Hcr in Hrun |- *. cbn [mbind res_bind] in Hrun |- *.
    eexists. split; [exact Hrun|]. unfold reply in Hrun. apply bind_ok in Hrun as ([n u1] & _ & [= <-]). exact Hq.
  - unfold get_route_cb in Hrun |- *. destruct (msg_decode_total (M := GetRouteRequest) data) as [req Hreq]. rewrite Hreq in Hrun |- *.
    destruct (create_module_spec (grq_modid req) (grq_cmdid req) r (ag_world a)) as (w1 & Hcr & Hq & _).
    unfold on_lb, RouteLb.get_route in Hrun |- *. cbn [mbind res_bind of_option u_env u_set_env] in Hrun |- *. rewrite Hr in Hrun |- *.
    cbn [mbind res_bind of_option] in Hrun |- *. rewrite Hm, lookup_empty, Hcr in Hrun |- *. cbn [mbind res_bind] in Hrun |- *.
    eexists. split; [exact Hrun|]. unfold reply in Hrun. apply bind_ok in Hrun as ([n u1] & _ & [= <-]). exact Hq.
Qed.

Lemma sends_same {M} (l : list M) : sends l l = false.
Proof. unfold sends. by rewrite Nat.eqb_refl. Qed.
Lemma sends_more {M} (l : list M) x : sends l (l ++ [x]) = true.
Proof. unfold sends. rewrite length_app. destruct (Nat.eqb_spec (length l + length [x]) (length l)) as [Hl|]; [cbn in Hl; lia|done]. Qed.

Lemma served_early i cb data u b :
  boot_inv b -> bo_dns_queue b = false -> i ∈ bo_udp b -> server_ok i u ->
  boot_exec b (Datagram i cb data u) = (if decide (cb = report_cb_id) then Ok b else Err NullDeref).
Proof.
  intros [Ha _ Hn] Hd Hi Hu. specialize (Hn Hd). unfold boot_exec. rewrite decide_True by done. case_decide as Hcb.
  - subst cb. destruct (early_report i data u (bo_agent b) Hu Ha Hn) as (u' & -> & He). cbn [mbind res_bind]. rewrite He.
    unfold through_queues. rewrite !sends_same. cbn. by destruct b.
  - destruct (early_request i cb data u (bo_agent b) Hu Ha Hn Hcb) as (u' & req & -> & He). cbn [mbind res_bind].
    unfold through_queues. by rewrite He, sends_more, Hd.
Qed.

Lemma boot_step b ev b' : boot_inv b -> event_ok ev -> boot_exec b ev = Ok b' -> boot_inv b'.
Proof.
  intros Hb Hev He. destruct ev as [|i cb data u].
  - destruct Hb as [Ha (k & Ht & Hr & Hd & Hu) Hn]. cbn [boot_exec] in He.
    do 7 (destruct k as [|k]; [cbn in Ht, Hr, Hd, Hu; rewrite Ht in He; injection He as <-; (split; cbn; [done| |try done; try (by intros _; apply Hn)]);
      rewrite ?Hr, ?Hd, ?Hu; first [by exists 1%nat|by exists 2%nat|by exists 3%nat|by exists 4%nat|by exists 5%nat|by exists 6%nat|by exists 7%nat]|]).
    cbn in Ht. rewrite drop_nil in Ht. rewrite Ht in He. injection He as <-. split; [done| |done]. exists (S (S (S (S (S (S (S k))))))). by rewrite Ht, drop_ge by (cbn; lia).
  - cbn [event_ok] in Hev. destruct (decide (i ∈ bo_udp b)) as [Hi|Hi].
    2:{ unfold boot_exec in He. rewrite decide_False in He by done. by injection He as <-. }
    destruct (bo_dns_queue b) eqn:Hd.
    + unfold boot_exec in He. rewrite decide_True in He by done. destruct Hb as [Ha Hm _].
      destruct (callback_ok i cb data 0 u (bo_agent b) Hev Ha) as (u' & Hrun & Ha'). rewrite Hrun in He. cbn [mbind res_bind] in He.
      unfold through_queues in He. destruct (_ || _) in He; [|done]. destruct (_ || _) in He; [|done]. injection He as <-.
      split; cbn; [done|exact Hm|congruence].
    + rewrite (served_early i cb data u b Hb Hd Hi Hev) in He. case_decide; [by injection He as <-|done].
Qed.

Lemma boots_inv evs b b' : boot_inv b -> Forall event_ok evs -> foldM boot_exec b evs = Ok b' -> boot_inv b'.
Proof.
  intros Hb Hevs. revert b Hb. induction Hevs as [|ev evs Hev _ IH]; intros b Hb Hf; cbn [foldM] in Hf; [by injection Hf as <-|].
  apply bind_ok in Hf as (b1 & He & Hf). eapply IH; [|exact Hf]. by eapply boot_step.
Qed.

(** C37: The udp servers answer before the queues exist.  Whatever main and the datagrams
    have done so far: as long as [dns_queue] is NULL, on every server that runs any
    get_host or get_route datagram, whatever its bytes, makes the agent send through
    the null pointer, while reports are harmless (there is no module yet); once
    [dns_queue] exists, no datagram does. *)
Theorem startup_window evs b :
  Forall event_ok evs -> foldM boot_exec boot0 evs = Ok b ->
  (bo_dns_queue b = false -> forall i cb data u, i ∈ bo_udp b -> server_ok i u ->
     boot_exec b (Datagram i cb data u) = if decide (cb = report_cb_id) then Ok b else Err NullDeref) /\
  (bo_dns_queue b = true -> forall i cb data u, server_ok i u -> exists b', boot_exec b (Datagram i cb data u) = Ok b').
Proof.
  intros Hevs Hf. pose proof (boots_inv evs boot0 b boot_start Hevs Hf) as Hb. split.
  - intros Hd i cb data u Hi Hu. by apply served_early.
  - intros Hd i cb data u Hu. unfold boot_exec. destruct (decide (i ∈ bo_udp b)); [|by eexists].
    destruct (callback_ok i cb data 0 u (bo_agent b) Hu (bi_agent _ Hb)) as (u' & -> & _). cbn [mbind res_bind].
    destruct (bi_main _ Hb) as (k & _ & Hr & Hdq & _). rewrite Hd in Hdq. symmetry in Hdq. apply Nat.ltb_lt in Hdq.
    assert (bo_report_queue b = true) as Hrq by (rewrite Hr; apply Nat.ltb_lt; lia).
    unfold through_queues. rewrite Hd, Hrq, !orb_true_r. by eexists.
Qed.
End boot.

(** The threads of the agent are wired as its parts expect.  The [i]-th server thread
    listens on port 8888 + i and hands the three requests of the api to route_lb i (it
    satisfies [server_ok], from which the datagram theorems start); the dns client
    connects to the address of section dns, takes answers to [deal_recv_route], resets
    the modules when it is connected and is woken by [dns_queue]; the report client
    connects to the address of section reporter and is woken by [report_queue]. *)
Theorem agent_threads_wired {V T K Addr : Type} `{EventFd V} `{Epoll K} map self fd (l : event_loop io_proc T Z K) p :
  (forall (i : nat) rbuf wbuf (peer : Addr) a,
     (i < 3)%nat -> agent_ok a -> length rbuf = Z.to_nat MESSAGE_LENGTH_LIMIT -> length wbuf = Z.to_nat MESSAGE_LENGTH_LIMIT ->
     exists server, agent_server_main i self (Some fd) l rbuf wbuf peer a = Ok (8888 + i, server) /\
       server_ok i server /\ watches fd server_read_callback (u_loop server)) /\
  (forall run (q : thread_queue V GetRouteRequest) a, tq_evfd q <> fd -> exists c,
     dns_client_thread run (Some map) q self l p a (Some fd) ConnectInProgress =
       Ok (GetString (str "dns") (str "ip") (str "127.0.0.1") map, u16 (i16 (GetNumber (str "dns") (str "port") 7778 map)), c) /\
     connecting fd c /\ watches (tq_evfd q) new_dns_request_cb (e_loop c) /\
     router_call ID_GetRouteResponse (ce_router (e_env c)) = Some (tt, Some tt) /\ ce_start_cb (e_env c) = Some tt) /\
  (forall run (q : thread_queue V ReportStatusRequest) a, tq_evfd q <> fd -> exists c,
     report_client_thread run (Some map) q self l p a (Some fd) ConnectInProgress =
       Ok (GetString (str "reporter") (str "ip") (str "127.0.0.1") map, u16 (i16 (GetNumber (str "reporter") (str "port") 7779 map)), c) /\
     connecting fd c /\ watches (tq_evfd q) new_report_request_cb (e_loop c)).
Proof.
  split; [|split].
  - intros i rbuf wbuf peer a Hi Ha Hr Hw.
    destruct (agent_server_wired i self fd l rbuf wbuf peer a Hi Ha Hr Hw) as (server & Hs & Hok & _ & _ & Hev).
    exists server. split; [done|]. split; [done|]. unfold watches. rewrite Hev.
    destruct (add_event_lookup l fd server_read_callback self EPOLLIN) as (ev & He & Hm & Hrd & _); [by left|].
    exists ev. split; [done|]. rewrite Hm, Hrd, has_lor_same. done.
  - intros run q a Hq. destruct (dns_client_wired run map q self l p a fd Hq) as (c & Hc & Hcon & Hw & Hro & Hst & _). by exists c.
  - intros run q a Hq. destruct (report_client_wired run map q self l p a fd Hq) as (c & Hc & Hcon & Hw & _). by exists c.
Qed.

Module AgentMainDemo.
#[local] Existing Instances epoll_map wire_varint efd_counter.
#[local] Instance demo_order : HashOrder := hash_order_list.
#[local] Instance demo_clock : Clock := clock_const 1000.

(** conf/lb_agent.ini as it is shipped: the ';' after three of the numbers does not
    matter. *)
Definition lb_agent_ini_text : text := str
"[dns]
ip=127.0.0.1
port=7778

[reporter]
ip=127.0.0.1
port=7779

[loadbalance]
;经过若干次请求host节点后， 试探1次overload的裹在节点
probe_num=10

;初始化一个host_info主机访问的成功次数，防止刚启动少量失败就认为过载
init_succ_cnt=180

;如果一个idle被判定为overload
init_err_cnt=5

;当idle节点失败率高于此值，节点变为overload状态
err_rate=0.1

;当overload节点成功率高于此值，节点变为idle状态
succ_rate=0.95

;当idle节点连续失败次数超过此值，节点变为overload状态
contin_err_limit=15

;当overload节点连续成功次数超过此值，节点变为idle状态
contin_succ_limit=15

;对于某个modid/cmdid下的idle状态的主机，需要清理一次负载窗口的时间
idle_timeout=15;

;对于某个modid/cmdid下的overload状态的主机，在过载队列等待的最大时间
overload_timeout=15;

;对于每个NEW状态的modid/cmdid多久从远程dns更新一次到本地路由
update_timeout=15;
".

Example shipped_config : match init_lb_agent_main (Some lb_agent_ini_text) None with
  | Ok (_, c, _) => c = lb_agent_ini
  | Err _ => False
  end.
Proof. vm_compute. reflexivity. Qed.

Definition cfg1 : config_text := [(loadbalance, [(str "probe_num", str "7"); (str "err_rate", str "0.25")])].

Lemma cfg1_ok : config_ok cfg1.
Proof.
  constructor; [|constructor]. split.
  - split; [split; intros c; by intros [= <-]|discriminate|by apply (bool_decide_unpack _)].
  - repeat constructor; try (intros c; by intros [= <-]); try (by apply (bool_decide_unpack _));
      by (eexists _, _; split; [reflexivity|]; by vm_compute).
Qed.

Lemma settings_from_file_witness : exists map c, init_lb_agent_main (Some (render cfg1)) None = Ok (Some map, c, init_lb_agent) /\
  probe_num c = 7 /\ init_succ_cnt c = 180 /\ err_rate c = nearest_float false 25 (-2).
Proof.
  destruct (settings_from_file cfg1 cfg1_ok) as (map & c & Hi & Hints & Hfloats). exists map, c. split; [exact Hi|].
  apply Forall_cons in Hints as [Hp Hints]. apply Forall_cons in Hints as [Hs _]. apply Forall_cons in Hfloats as [Hf _].
  cbv beta iota in Hp, Hs, Hf. split; [|split].
  - apply (Hp 7); [lia|vm_compute; reflexivity].
  - exact Hs.
  - apply (Hf (str "0") (str "25")); [discriminate|repeat constructor|reflexivity].
Defined.

Abbreviation exec := (boot_exec (T := unit) (K := gmap Z Z) (Addr := nat) lb_agent_ini AgentDemo.always_sent).

(** Main has started the first server when a request comes in. *)
Lemma startup_window_witness : exists b, foldM exec boot0 [MainStep] = Ok b /\
  exec b (Datagram 0 get_host_cb_id (msg_encode AgentDemo.req0) (u_set_router (agent_router 0) AgentDemo.server2)) = Err NullDeref.
Proof.
  eexists. split; [reflexivity|].
  destruct (startup_window (T := unit) (K := gmap Z Z) (Addr := nat) lb_agent_ini AgentDemo.always_sent [MainStep] (do_main_step (SpawnUdp 0) (tail agent_main) boot0)
    ltac:(by constructor) eq_refl) as [Hw _].
  rewrite (Hw eq_refl 0%nat get_host_cb_id); [by rewrite decide_False|by left|].
  destruct AgentDemo.server2_ok as [_ Ha _ Hr Hwr]. split; [lia|exact Ha|reflexivity|exact Hr|exact Hwr].
Defined.

Lemma agent_threads_wired_witness : exists server,
  agent_server_main (T := unit) (K := gmap Z Z) (Addr := nat) 2 0 (Some 5) (event_loop_new ∅) (u_read_buf AgentDemo.server2)
    (u_write_buf AgentDemo.server2) 0%nat init_lb_agent = Ok (8890, server) /\ server_ok 2 server.
Proof.
  destruct (agent_threads_wired (V := Z) (T := unit) (K := gmap Z Z) (Addr := nat) ∅ 0 5 (event_loop_new ∅) buf_pool_init) as (Hs & _ & _).
  destruct (Hs 2%nat (u_read_buf AgentDemo.server2) (u_write_buf AgentDemo.server2) 0%nat init_lb_agent) as (server & Hr & Hok & _);
    [lia|apply init_agent_ok|apply length_replicate|apply length_replicate|]. exists server. by split.
Defined.
End AgentMainDemo.
