(* ===== verification/ServiceMain.v ===== *)
(** * ServiceMain: how the dns service and the reporter start (main of dns_service.cpp and
    reporter_service.cpp, the settings tcp_server, Route and StoreReport read)

    Both mains read the configuration, make the tcp server (its workers start at once,
    but connections are only accepted in [event_process]), register hooks and callbacks
    and start their own threads. *)

From S2P Require Import Prelude Proto Bytes Wire Messages Text FloatText ConfigFile EventLoop BufPool ReactorBuf Stream TcpConn.
From S2P Require Import ThreadPool TcpServer DnsRoute Subscribe DnsService Reporter.
From stdpp Require Import base numbers list gmap fin_maps strings.
From Stdlib Require Import ZArith Lia.
Open Scope Z_scope.

(** ** Settings *)

(** What the programs ask [config_file] for: strings, and numbers as [int] or [short]. *)
Definition string_setting (section key default_value : string) (map : str_map) : text :=
  GetString (str section) (str key) (str default_value) map.
Definition number_setting (section key : string) (default_value : Z) (map : str_map) : Z :=
  i32 (GetNumber (str section) (str key) default_value map).
Definition short_setting (section key : string) (default_value : Z) (map : str_map) : Z :=
  i16 (GetNumber (str section) (str key) default_value map).

(** The arguments of [mysql_real_connect], in [Route::connect_db] and in [StoreReport()]. *)
Record db_settings := DbSettings { db_host : text; db_port : Z; db_user : text; db_passwd : text; db_name : text }.

Definition connect_db_settings (map : str_map) : db_settings :=
  DbSettings (string_setting "mysql" "db_host" "127.0.0.1" map) (short_setting "mysql" "db_port" 3306 map)
    (string_setting "mysql" "db_user" "root" map) (string_setting "mysql" "db_passwd" "dell12345678" map)
    (string_setting "mysql" "db_name" "lar_dns" map).

(** [StoreReport()]: exit(1) when the database does not answer. *)
Definition StoreReport_new (map : str_map) (connects : db_settings -> bool) : res db_settings :=
  let s := connect_db_settings map in
  ensure connects s or ExitFailure;
  Ok s.

(** [Route()] with [connect_db] *)
Definition Route_connect (map : str_map) (connects : db_settings -> bool) (rows : option (list row)) : res Route :=
  Route_new (connects (connect_db_settings map)) rows.

(** Queues are made when their eventfds are. *)
Lemma new_queues_total {V T} `{EventFd V} (evfds : list (option (Z * V))) :
  Forall is_Some evfds -> exists qs : list (thread_queue V T), new_queues evfds = Ok qs.
Proof.
  intros Hs. unfold new_queues.
  assert (forall acc : list (thread_queue V T), exists qs, foldM (fun qs evfd => q ← thread_queue_new evfd; Ok (qs ++ [q])) acc evfds = Ok qs) as Hg;
    [|apply Hg].
  induction Hs as [|e l [[fd v] ->] _ IH]; intros acc; cbn; [by eexists|apply IH].
Qed.

Lemma pool_total {V TF A} `{EventFd V} n (evfds : list (option (Z * V))) :
  0 < n -> Forall is_Some evfds -> exists p : thread_pool V TF A, thread_pool_new n evfds = Ok p.
Proof.
  intros Hn Hs. unfold thread_pool_new. destruct (Z.leb_spec n 0); [lia|]. cbn [negb].
  destruct (new_queues_total (T := task_msg TF A) (take (Z.to_nat n) evfds)) as [qs ->]; [by apply Forall_take|]. by eexists.
Qed.

Section services.
Context {V TF K S Hk M U : Type} `{EventFd V} `{Epoll K}.

(** [tcp_server(event_loop *loop, const char *ip, uint16_t port)] with its settings. *)
Definition configured_server (map : str_map) (sock : option Z) (bind_ok listen_ok : bool) (self : Z) (evfds : list (option (Z * V)))
    (loop : event_loop io_proc TF Z K) (bufs : buf_pool) (app : S) : res (tcp_server (V := V) (TF := TF) (K := K) (S := S)) :=
  let thread_cnt := number_setting "reactor" "threadNum" 3 map in
  let max_conns := number_setting "reactor" "maxConn" 1000 map in
  tcp_server_new sock bind_ok listen_ok self thread_cnt max_conns evfds loop bufs app.

(** A service when its main enters [event_process]. *)
Record service := Service {
  sc_ip : text;
  sc_port : Z;
  sc_server : tcp_server (V := V) (TF := TF) (K := K) (S := S);
  sc_start : option Hk;                 (* conn_start_cb, conn_close_cb *)
  sc_close : option Hk;
  sc_router : msg_router M U
}.

(** What both mains begin with: the address, then the server. *)
Definition start_service (file : option text) (config : option str_map) (sock : option Z) (bind_ok listen_ok : bool) (self : Z)
    (evfds : list (option (Z * V))) (loop : event_loop io_proc TF Z K) (bufs : buf_pool) (app : S)
    : res (str_map * service) :=
  '(_, config) ← setPath file config;
  map ← instance config;
  let ip := string_setting "reactor" "ip" "0.0.0.0" map in
  let port := short_setting "reactor" "port" 8888 map in
  server ← configured_server map sock bind_ok listen_ok self evfds loop bufs app;
  Ok (map, Service ip (u16 port) server None None msg_router_new).

(** main of the dns service; [check_route_changes] is started last; [pthread_create]
    is what that call returns, 0 or an error number. *)
Definition dns_main (file : option text) (config : option str_map) (sock : option Z) (bind_ok listen_ok : bool) (self pthread_create : Z)
    (evfds : list (option (Z * V))) (loop : event_loop io_proc TF Z K) (bufs : buf_pool) (app : S)
    (create_subscribe clear_subscribe : Hk) (get_route : M) (null : U) : res service :=
  '(map, s) ← start_service file config sock bind_ok listen_ok self evfds loop bufs app;
  let s := Service (sc_ip s) (sc_port s) (sc_server s) (Some create_subscribe) (Some clear_subscribe)
             (register_msg_router ID_GetRouteRequest get_route null (sc_router s)).2 in
  ensure negb (pthread_create =? -1) or ExitFailure;
  Ok s.

(** main of the reporter, with [create_report_threads]. *)
Definition reporter_main (file : option text) (config : option str_map) (sock : option Z) (bind_ok listen_ok : bool) (self : Z)
    (evfds report_evfds : list (option (Z * V))) (loop : event_loop io_proc TF Z K) (bufs : buf_pool) (app : S)
    (get_report_status : M) (null : U) : res (service * reporter (V := V)) :=
  '(map, s) ← start_service file config sock bind_ok listen_ok self evfds loop bufs app;
  let s := Service (sc_ip s) (sc_port s) (sc_server s) None None
             (register_msg_router ID_ReportStatusRequest get_report_status null (sc_router s)).2 in
  reporter ← create_report_threads (number_setting "reporter" "db_thread_cnt" 3 map) report_evfds;
  Ok (s, reporter).

(** ** What a configuration makes of them *)

Lemma number_setting_reads map section key d n :
  find_value (str section) (str key) map = Some (str (decimal n)) -> 0 <= n < 2 ^ 31 -> number_setting section key d map = n.
Proof.
  intros Hv Hn. unfold number_setting, GetNumber. rewrite Hv. unfold parseNumber, str. rewrite strtol_decimal by lia.
  rewrite i32_u32. apply i32_id. unfold is_i32. lia.
Qed.

(** A dns service whose file asks for [n] threads and [m] connections: [n] empty queues,
    a table for [m] connections and a few more, the socket watched, hooks and callback
    set. *)
Lemma dns_main_outcome contents map n m fd self evfds loop bufs app create clear route null :
  Load (Some contents) ∅ = Ok (true, map) -> 0 < n < 2 ^ 31 -> 0 <= m < 2 ^ 31 -> n <= length evfds ->
  Forall is_Some evfds ->
  find_value (str "reactor") (str "threadNum") map = Some (str (decimal n)) ->
  find_value (str "reactor") (str "maxConn") map = Some (str (decimal m)) ->
  exists s p, dns_main (Some contents) None (Some fd) true true self 0 evfds loop bufs app create clear route null = Ok s /\
    sv_pool (sc_server s) = Some p /\ tp_cnt p = n /\ pool_wf p /\
    ts_max (se_statics (sv_env (sc_server s))) = m /\ ts_size (se_statics (sv_env (sc_server s))) = m + 5 + 2 * n /\
    sc_start s = Some create /\ sc_close s = Some clear /\ router_call ID_GetRouteRequest (sc_router s) = Some (route, Some null).
Proof.
  intros Hl Hn Hm Hev Hsome Hvn Hvm. unfold dns_main, start_service, setPath. rewrite bool_decide_true by done. rewrite Hl.
  cbn [mbind res_bind instance of_option]. unfold configured_server.
  rewrite (number_setting_reads _ _ _ _ n Hvn), (number_setting_reads _ _ _ _ m Hvm) by lia.
  unfold tcp_server_new, listening. cbn [mbind res_bind of_option]. destruct (Z.ltb_spec 0 n); [|lia].
  destruct (pool_total (TF := TF) (A := Z) n evfds) as [p Hp]; [lia|done|]. rewrite Hp. cbn [mbind res_bind].
  destruct (thread_pool_new_wf n evfds p Hev Hp) as (Hwf & _ & Hc). eexists _, p. split; [reflexivity|]. by split_and!.
Qed.
End services.
