(* ===== verification/LarsApi.v ===== *)
(** * LarsApi: the client library of the applications (api/cpp/lars_api)

    [lars_client] asks the udp servers of the local agent, one of three by module,
    and waits for the answer.  What the sockets answer is part of the state: the
    datagrams that will come in on each. *)

From S2P Require Import Prelude Proto HostNode LoadBalance RouteLb Bytes Wire Messages Text EventLoop Stream TcpConn Udp AgentService.
From stdpp Require Import base numbers list gmap strings.
From coqutil Require Import Byte.
From Stdlib Require Import ZArith Lia Ascii.
Open Scope Z_scope.

(** ** Addresses

    [inet_ntoa] and [inet_aton] of the C library, on the number in a [struct in_addr],
    whose bytes are in network order in memory. *)
Class InetAddr := {
  inet_ntoa : Z -> string;
  inet_aton : string -> option Z;
  inet_roundtrip a : is_u32 a -> inet_aton (inet_ntoa a) = Some a;
  inet_aton_empty : inet_aton EmptyString = None
}.

(** [ntohl] on a little-endian machine *)
Definition octet (i : Z) (a : Z) : Z := Z.land (Z.shiftr a (8 * i)) 255.
Definition ntohl (a : Z) : Z :=
  Z.lor (Z.shiftl (octet 0 a) 24) (Z.lor (Z.shiftl (octet 1 a) 16) (Z.lor (Z.shiftl (octet 2 a) 8) (octet 3 a))).

(** Dotted decimal, to evaluate the definitions. *)
Definition dotted (a : Z) : string :=
  (decimal (octet 0 a) +:+ "." +:+ decimal (octet 1 a) +:+ "." +:+ decimal (octet 2 a) +:+ "." +:+ decimal (octet 3 a))%string.

Fixpoint read_octet (acc : Z) (s : list ascii) : Z * list ascii :=
  match s with
  | ch :: s' => match digit_of ch with Some d => read_octet (10 * acc + d) s' | None => (acc, s) end
  | [] => (acc, [])
  end.
Definition dotted_value (text : string) : option Z :=
  let '(a, s) := read_octet 0 (String.list_ascii_of_string text) in
  let '(b, s) := read_octet 0 (tail s) in
  let '(c, s) := read_octet 0 (tail s) in
  let '(d, s) := read_octet 0 (tail s) in
  if (a <? 256) && (b <? 256) && (c <? 256) && (d <? 256) && bool_decide (s = []) && negb (String.eqb text EmptyString)
  then Some (a + Z.shiftl b 8 + Z.shiftl c 16 + Z.shiftl d 24) else None.

Lemma octet_range i a : 0 <= octet i a < 256.
Proof. unfold octet. change 255 with (Z.ones 8). rewrite Z.land_ones by lia. apply Z.mod_pos_bound. lia. Qed.

Lemma octets a : is_u32 a -> a = octet 0 a + Z.shiftl (octet 1 a) 8 + Z.shiftl (octet 2 a) 16 + Z.shiftl (octet 3 a) 24.
Proof.
  unfold is_u32, octet. intros Ha. change 255 with (Z.ones 8). rewrite !Z.land_ones, !Z.shiftl_mul_pow2, !Z.shiftr_div_pow2 by lia.
  change (8 * 0) with 0. change (8 * 1) with 8. change (8 * 2) with (8 + 8). change (8 * 3) with (8 + 8 + 8).
  rewrite !Z.pow_add_r, <-!Z.div_div by lia. change (2 ^ 0) with 1. change (2 ^ 8) with 256.
  change (2 ^ 16) with 65536. change (2 ^ 24) with 16777216. change (2 ^ 32) with 4294967296 in Ha. rewrite Z.div_1_r.
  pose proof (Z.div_mod a 256). pose proof (Z.div_mod (a / 256) 256). pose proof (Z.div_mod (a / 256 / 256) 256).
  assert (0 <= a / 256 / 256 / 256 < 256) as H3.
  { rewrite !Z.div_div by lia. split; [apply Z.div_pos; lia|apply Z.div_lt_upper_bound; lia]. }
  rewrite (Z.mod_small (a / 256 / 256 / 256)) by done. lia.
Qed.

Lemma ntohl_range a : is_u32 (ntohl a).
Proof.
  unfold ntohl, is_u32. pose proof (octet_range 0 a). pose proof (octet_range 1 a). pose proof (octet_range 2 a). pose proof (octet_range 3 a).
  assert (forall n x y, 0 <= x < 256 -> 0 <= n -> 0 <= y < 2 ^ n -> 0 <= Z.lor (Z.shiftl x n) y < 2 ^ (n + 8)) as Hlor.
  { clear. intros n x y Hx Hn Hy. rewrite Z.shiftl_mul_pow2 by lia. pose proof (Z.pow_pos_nonneg 2 n ltac:(lia) Hn).
    rewrite Z.pow_add_r by lia. assert (0 <= Z.lor (x * 2 ^ n) y) by (apply Z.lor_nonneg; nia). split; [done|].
    assert (Z.lor (x * 2 ^ n) y <= x * 2 ^ n + y) as Hle.
    { rewrite <-Z.add_lor_land. assert (0 <= Z.land (x * 2 ^ n) y) by (apply Z.land_nonneg; nia). lia. }
    change (2 ^ 8) with 256. nia. }
  apply (Hlor 24); [done|lia|]. apply (Hlor 16); [done|lia|]. apply (Hlor 8); [done|lia|]. done.
Qed.

Lemma read_octet_decimal b rest :
  0 <= b < 256 -> (forall ch s, rest = ch :: s -> digit_of ch = None) ->
  read_octet 0 (String.list_ascii_of_string (decimal b) ++ rest) = (b, rest).
Proof.
  intros Hb Hrest.
  assert (forall l acc, forallb (fun ch => bool_decide (is_Some (digit_of ch))) l = true ->
    read_octet acc (l ++ rest) = ((read_octet acc l).1, rest)) as Happ.
  { induction l as [|ch l IH]; intros acc; cbn.
    - destruct rest as [|ch s]; [done|]. intros _. cbn. by rewrite (Hrest ch s eq_refl).
    - intros [Hd Hl]%andb_prop. apply bool_decide_eq_true in Hd as [d ->]. by apply IH. }
  set (t := fun b => let l := String.list_ascii_of_string (decimal b) in
    forallb (fun ch => bool_decide (is_Some (digit_of ch))) l && ((read_octet 0 l).1 =? b)).
  assert (forallb (fun n => t (Z.of_nat n)) (seq 0 256) = true) as Hall by (vm_compute; reflexivity).
  rewrite forallb_forall in Hall. specialize (Hall (Z.to_nat b)). rewrite Z2Nat.id in Hall by lia.
  assert (t b = true) as Ht by (apply Hall, in_seq; lia). apply andb_prop in Ht as [Hd Hv]. apply Z.eqb_eq in Hv.
  rewrite Happ by done. by rewrite Hv.
Qed.

#[program] Definition inet_dotted : InetAddr := {| inet_ntoa := dotted; inet_aton := dotted_value |}.
Next Obligation.
  intros a Ha. unfold dotted_value, dotted.
  assert (forall s t : string, String.list_ascii_of_string (s +:+ t) = String.list_ascii_of_string s ++ String.list_ascii_of_string t) as Happ.
  { induction s as [|ch s IH]; intros t; [done|]. change (String ch s +:+ t) with (String ch (s +:+ t)). cbn. by rewrite IH. }
  rewrite !Happ. change (String.list_ascii_of_string ".") with ["."%char].
  assert (forall i rest, read_octet 0 (String.list_ascii_of_string (decimal (octet i a)) ++ "."%char :: rest) = (octet i a, "."%char :: rest)) as Hdot.
  { intros i rest. apply read_octet_decimal; [apply octet_range|]. by intros ch s [= <- _]. }
  assert (read_octet 0 (String.list_ascii_of_string (decimal (octet 3 a))) = (octet 3 a, [])) as Hend.
  { rewrite <-(app_nil_r (String.list_ascii_of_string _)). apply read_octet_decimal; [apply octet_range|done]. }
  cbn [app]. rewrite (Hdot 0). cbn [tail]. rewrite (Hdot 1). cbn [tail]. rewrite (Hdot 2). cbn [tail]. rewrite Hend.
  pose proof (octet_range 0 a). pose proof (octet_range 1 a). pose proof (octet_range 2 a). pose proof (octet_range 3 a).
  destruct (Z.ltb_spec (octet 0 a) 256); [|lia]. destruct (Z.ltb_spec (octet 1 a) 256); [|lia].
  destruct (Z.ltb_spec (octet 2 a) 256); [|lia]. destruct (Z.ltb_spec (octet 3 a) 256); [|lia]. cbn [andb].
  rewrite bool_decide_true by done. destruct (String.eqb_spec (decimal (octet 0 a) +:+ "." +:+ decimal (octet 1 a) +:+ "." +:+ decimal (octet 2 a) +:+ "." +:+ decimal (octet 3 a)) EmptyString) as [He|_];
    [by destruct (decimal (octet 0 a))|]. by rewrite <-octets.
Qed.
Next Obligation. reflexivity. Qed.

(** ** class lars_client *)

Abbreviation socket_input := (list (recv_result unit)).
Abbreviation ip_port := (string * Z)%type.

Record lars_client := LarsClient {
  lc_sockfd : list Z;               (* _sockfd[3] *)
  lc_seqid : Z;                     (* _seqid *)
  lc_input : list socket_input;     (* what will come in on each socket *)
  lc_sent : list (Z * bytes)        (* the datagrams handed to the kernel *)
}.

Definition lc_set_seqid (seq : Z) (c : lars_client) : lars_client := LarsClient (lc_sockfd c) seq (lc_input c) (lc_sent c).
Definition lc_set_input (i : nat) (l : socket_input) (c : lars_client) : lars_client :=
  LarsClient (lc_sockfd c) (lc_seqid c) (<[i := l]> (lc_input c)) (lc_sent c).
Definition lc_put_sent (fd : Z) (pkt : bytes) (c : lars_client) : lars_client :=
  LarsClient (lc_sockfd c) (lc_seqid c) (lc_input c) (lc_sent c ++ [(fd, pkt)]).

(** [lars_client()]: the answers of [socket] and [connect] for the three. *)
Definition lars_client_new (answers : list (option Z * bool)) (input : list socket_input) : res lars_client :=
  fds ← foldM (fun fds '(sock, connected) =>
    fd ← of_option ExitFailure sock;
    ensure (connected : bool) or ExitFailure;
    Ok (fds ++ [fd])) [] (take 3 answers);
  Ok (LarsClient fds 0 input []).

Section api.
Context `{InetAddr} `{!Codec GetRouteRequest} `{!Codec GetRouteResponse} `{!Codec GetHostRequest} `{!Codec GetHostResponse}
  `{!Codec ReportRequest}.
(** What the [n]-th [sendto] answers. *)
Context (sendto_at : nat -> send_result).

(** The part the three calls share: the message in [write_buf[4096]], the socket of the
    module, [sendto].  The socket's number, and whether it was sent. *)
Definition api_send (modid cmdid msgid : Z) (body : bytes) (c : lars_client) : res (nat * bool * lars_client) :=
  ensure MESSAGE_HEAD_LEN + length body <=? 4096 or OutOfBounds;
  let index := route_index modid cmdid in
  ensure 0 <=? index or OutOfBounds;
  let i := Z.to_nat index in
  fd ← of_option OutOfBounds (lc_sockfd c !! i);
  match sendto_at (length (lc_sent c)) with
  | SendOk => Ok (i, true, lc_put_sent fd (frame msgid body) c)
  | SendError => Ok (i, false, c)
  end.

(** [sizeof(read_buf)] *)
Definition read_buf_size : nat := Z.to_nat (20 * 4096).

(** [recvfrom(_sockfd[index], read_buf, sizeof(read_buf), ...)]: [None] is -1. *)
Definition api_recv (i : nat) (c : lars_client) : res (option bytes * lars_client) :=
  match lc_input c !! i with
  | None | Some [] => Err Blocked
  | Some (r :: rs) =>
      let c := lc_set_input i rs c in
      match r with
      | RecvDatagram pkt _ => Ok (Some (take read_buf_size pkt), c)
      | _ => Ok (None, c)
      end
  end.

(** Receiving one answer and checking its head and format; [read_buf] is as long as the
    part of the array that was ever written. *)
Definition read_answer {M} `{!Codec M} (id : Z) (i : nat) (read_buf : bytes) (c : lars_client)
    : res (option M * bytes * lars_client) :=
  '(pkt, c) ← api_recv i c;
  match pkt with
  | None => Ok (None, read_buf, c)
  | Some pkt =>
      let read_buf := pkt ++ drop (length pkt) read_buf in
      ensure Nat.leb 8 (length read_buf) or Uninit;
      if negb (msgid (head_of_bytes (take 8 read_buf)) =? id) then Ok (None, read_buf, c)
      else
        ensure Nat.leb 8 (length pkt) or OutOfBounds;        (* a negative size *)
        '(ret, rsp) ← msg_parse (drop 8 pkt);
        Ok (if (ret : bool) then Some rsp else None, read_buf, c)
  end.

(** The [do ... while (rsp.seq() < seq)] of [get_host]. *)
Fixpoint await_host (fuel : nat) (seq : Z) (i : nat) (read_buf : bytes) (c : lars_client)
    : res (option GetHostResponse * lars_client) :=
  match fuel with
  | O => Err OutOfFuel
  | S fuel =>
      '(rsp, read_buf, c) ← read_answer ID_GetHostResponse i read_buf c;
      match rsp with
      | None => Ok (None, c)
      | Some rsp => if ghs_seq rsp <? seq then await_host fuel seq i read_buf c else Ok (Some rsp, c)
      end
  end.
(** One turn for each thing that can come in, and one that waits for good. *)
Definition input_len (i : nat) (c : lars_client) : nat := S (length (default [] (lc_input c !! i))).

(** [int get_host(int modid, int cmdid, std::string &ip, int &port)]: the return value
    and [ip], [port]. *)
Definition get_host (modid cmdid : Z) (out : ip_port) (c : lars_client) : res (Z * ip_port * lars_client) :=
  let seq := lc_seqid c in
  let c := lc_set_seqid (u32 (seq + 1)) c in
  let req := {| ghq_seq := seq; ghq_modid := modid; ghq_cmdid := cmdid |} in
  '(i, sent, c) ← api_send modid cmdid ID_GetHostRequest (msg_encode req) c;
  if negb sent then Ok (RET_SYSTEM_ERROR, out, c)
  else
    '(rsp, c) ← await_host (input_len i c) seq i [] c;
    match rsp with
    | None => Ok (RET_SYSTEM_ERROR, out, c)
    | Some rsp =>
        if negb (ghs_seq rsp =? seq) || negb (ghs_modid rsp =? modid) || negb (ghs_cmdid rsp =? cmdid)
        then Ok (RET_SYSTEM_ERROR, out, c)
        else if ghs_retcode rsp =? RET_SUCC
        then Ok (ghs_retcode rsp, (inet_ntoa (u32 (hi_ip (ghs_host_get rsp))), hi_port (ghs_host_get rsp)), c)
        else Ok (ghs_retcode rsp, out, c)
    end.

(** [void report(int modid, int cmdid, std::string &ip, int port, int retcode)]; an ip
    that is none leaves [inaddr] unset. *)
Definition report (modid cmdid : Z) (ip : string) (port retcode : Z) (c : lars_client) : res lars_client :=
  s_addr ← of_option Uninit (inet_aton ip);
  let req := {| rrq_modid := modid; rrq_cmdid := cmdid; rrq_host := Some {| hi_ip := i32 s_addr; hi_port := port |};
                rrq_retcode := retcode |} in
  '(_, _, c) ← api_send modid cmdid ID_ReportRequest (msg_encode req) c;
  Ok c.

(** [route.push_back(ip_port(ip, port))] for a host of the answer. *)
Definition route_entry (host : HostInfo) : ip_port := (inet_ntoa (ntohl (u32 (hi_ip host))), hi_port host).

(** [int get_route(int modid, int cmdid, route_set &route)] *)
Definition get_route (modid cmdid : Z) (route : list ip_port) (c : lars_client) : res (Z * list ip_port * lars_client) :=
  let req := {| grq_modid := modid; grq_cmdid := cmdid |} in
  '(i, sent, c) ← api_send modid cmdid ID_API_GetRouteRequest (msg_encode req) c;
  if negb sent then Ok (RET_SYSTEM_ERROR, route, c)
  else
    '(rsp, _, c) ← read_answer (M := GetRouteResponse) ID_API_GetRouteResponse i [] c;
    match rsp with
    | None => Ok (RET_SYSTEM_ERROR, route, c)
    | Some rsp =>
        if negb (grs_modid rsp =? modid) || negb (grs_cmdid rsp =? cmdid) then Ok (RET_SYSTEM_ERROR, route, c)
        else Ok (RET_SUCC, route ++ (route_entry <$> grs_host rsp), c)
    end.

(** The [while] of [reg_init] with [tries] turns left. *)
Fixpoint register_tries (tries : nat) (modid cmdid : Z) (route : list ip_port) (c : lars_client) : res (list ip_port * lars_client) :=
  match route, tries with
  | [], S tries => '(_, route, c) ← get_route modid cmdid route c; register_tries tries modid cmdid route c
  | _, _ => Ok (route, c)
  end.

(** [int reg_init(int modid, int cmdid)] *)
Definition reg_init (modid cmdid : Z) (c : lars_client) : res (Z * lars_client) :=
  '(route, c) ← register_tries 3 modid cmdid [] c;
  Ok (match route with [] => RET_NOEXIST | _ => RET_SUCC end, c).
End api.

(** ** Lemmas *)

(** A datagram's head and what follows it. *)
Lemma head_msgid id n body : is_i32 id -> msgid (head_of_bytes (take 8 (head_bytes {| msgid := id; msglen := n |} ++ body))) = id.
Proof.
  intros Hi. rewrite take_app_length' by (by rewrite length_head_bytes). unfold head_of_bytes, head_bytes. cbn [msgid msglen].
  rewrite take_app_length' by (by rewrite length_int_bytes). rewrite int_of_int_bytes. by apply i32_id.
Qed.

Lemma head_split (bs : bytes) : (8 <= length bs)%nat -> bs = head_bytes (head_of_bytes (take 8 bs)) ++ drop 8 bs.
Proof.
  intros Hl. rewrite <-(take_drop 8 bs) at 1. f_equal. apply (head_roundtrip _ []); [apply i32_range|apply i32_range| |done].
  rewrite length_take. lia.
Qed.

Section receiving.
Context {M : Type} `{!Codec M}.

(** A datagram with the message [m] under the id [id]: as much of it as fits the buffer
    is a head with this id and the bytes of [m]. *)
Definition carries (id : Z) (r : recv_result unit) (m : M) : Prop :=
  exists pkt from n body, r = RecvDatagram pkt from /\
    take read_buf_size pkt = head_bytes {| msgid := id; msglen := n |} ++ body /\ msg_parse body = Ok (true, m).

Lemma carries_functional id r m1 m2 : carries id r m1 -> carries id r m2 -> m1 = m2.
Proof.
  intros (pkt & from & n1 & b1 & -> & H1 & P1) (pkt' & from' & n2 & b2 & [= <- <-] & H2 & P2). rewrite H1 in H2.
  apply app_inj_1 in H2 as [_ ->]; [congruence|by rewrite !length_head_bytes].
Qed.

(** A datagram that has no head. *)
Definition short (r : recv_result unit) : Prop := exists pkt from, r = RecvDatagram pkt from /\ (length pkt < 8)%nat.

(** Receiving ends the execution when nothing comes in any more, and at a datagram
    without a head: the array it is read into has nothing else in it, or the size of the
    body is negative. *)
Definition recv_stops (coming : socket_input) (f : fault) : Prop :=
  coming = [] /\ f = Blocked \/ exists r rest, coming = r :: rest /\ short r /\ (f = Uninit \/ f = OutOfBounds).

(** What the steps of receiving can stop with. *)
Definition api_fault (f : fault) : Prop := f = OutOfBounds \/ f = Blocked \/ f = Uninit.

Lemma recv_stops_fault l f : recv_stops l f -> api_fault f.
Proof. unfold api_fault. intros [[_ ->]|(r & rest & _ & _ & [->| ->])]; auto. Qed.

Definition coming (i : nat) (c : lars_client) : socket_input := default [] (lc_input c !! i).

Lemma read_buf_large : (8 <= read_buf_size)%nat.
Proof. unfold read_buf_size. lia. Qed.
#[local] Opaque read_buf_size.

Lemma read_answer_outcome id i buf c : is_i32 id ->
  match read_answer (M := M) id i buf c with
  | Ok (rsp, _, c') => exists r rest, lc_input c !! i = Some (r :: rest) /\ c' = lc_set_input i rest c /\
      match rsp with Some m => carries id r m | None => forall m : M, ~ carries id r m end
  | Err f => recv_stops (coming i c) f
  end.
Proof.
  intros Hid. unfold read_answer, api_recv, coming. destruct (lc_input c !! i) as [[|r rest]|] eqn:Hin; cbn [default]; [by left| |by left].
  destruct r as [| | |pkt from]; cbn [mbind res_bind].
  1-3: by eexists _, rest; split; [done|]; split; [done|]; intros m (? & ? & ? & ? & ? & _).
  set (p := take read_buf_size pkt). set (buf' := p ++ drop (length p) buf).
  assert ((length p < 8)%nat -> short (RecvDatagram pkt from)) as Hshort.
  { intros Hl. exists pkt, from. split; [done|]. unfold p in Hl. rewrite length_take in Hl. pose proof read_buf_large. lia. }
  assert ((8 <= length p)%nat -> take 8 buf' = take 8 p) as Hhead by (intros Hl; unfold buf'; by rewrite take_app_le).
  assert (forall m n body, p = head_bytes {| msgid := id; msglen := n |} ++ body -> msg_parse body = Ok (true, m) ->
    (8 <= length p)%nat /\ msgid (head_of_bytes (take 8 p)) = id /\ drop 8 p = body) as Hcar.
  { intros m n body Hp Hb. rewrite Hp, length_app, length_head_bytes. split; [lia|]. split; [by apply head_msgid|].
    by rewrite drop_app_length' by (by rewrite length_head_bytes). }
  destruct (Nat.leb_spec 8 (length buf')) as [_|Hl].
  2:{ right. exists (RecvDatagram pkt from), rest. split; [done|]. split; [|by left]. apply Hshort. unfold buf' in Hl. rewrite length_app in Hl. lia. }
  destruct (Z.eqb_spec (msgid (head_of_bytes (take 8 buf'))) id) as [Heq|Hne]; cbn [negb].
  2:{ exists (RecvDatagram pkt from), rest. split; [done|]. split; [done|]. intros m (pkt' & from' & n & body & [= <- <-] & Hp & Hb).
      destruct (Hcar m n body Hp Hb) as (Hl & Hm & _). by rewrite Hhead in Hne. }
  destruct (Nat.leb_spec 8 (length p)) as [Hl|Hl].
  2:{ right. exists (RecvDatagram pkt from), rest. split; [done|]. split; [by apply Hshort|by right]. }
  rewrite Hhead in Heq by done. destruct (msg_parse_total (M := M) (drop 8 p)) as (ok & m & Hm). rewrite Hm. cbn [mbind res_bind].
  exists (RecvDatagram pkt from), rest. split; [done|]. split; [done|]. destruct ok.
  - exists pkt, from, (msglen (head_of_bytes (take 8 p))), (drop 8 p). split; [done|]. split; [|done].
    assert ({| msgid := id; msglen := msglen (head_of_bytes (take 8 p)) |} = head_of_bytes (take 8 p)) as ->
      by (rewrite <-Heq; by destruct (head_of_bytes (take 8 p))). exact (head_split p Hl).
  - intros m' (pkt' & from' & n & body & [= <- <-] & Hp & Hb). destruct (Hcar m' n body Hp Hb) as (_ & _ & Hd). rewrite Hd in Hm. congruence.
Qed.

#[local] Transparent read_buf_size.

Lemma read_answer_frame id i buf c m from rest :
  is_i32 id -> msg_ok m -> length (msg_encode m) <= 65519 ->
  lc_input c !! i = Some (RecvDatagram (frame id (msg_encode m)) from :: rest) ->
  exists buf', read_answer id i buf c = Ok (Some m, buf', lc_set_input i rest c).
Proof.
  intros Hid Hm Hl Hin. unfold read_answer, api_recv. rewrite Hin. cbn [mbind res_bind].
  pose proof (length_frame id (msg_encode m)) as Hlf.
  rewrite take_ge by (unfold read_buf_size; lia). eexists.
  destruct (Nat.leb_spec 8 (length (frame id (msg_encode m) ++ drop (length (frame id (msg_encode m))) buf)))
    as [_|Hlt]; [|rewrite length_app in Hlt; lia].
  rewrite take_app_le by lia. pose proof (packet_message_frame id (msg_encode m) Hid) as Hp.
  unfold MESSAGE_LENGTH_LIMIT, MESSAGE_HEAD_LEN in Hp. specialize (Hp ltac:(lia)). unfold packet_message in Hp.
  set (hd := head_of_bytes _) in *. destruct (_ <? MESSAGE_HEAD_LEN); [done|]. destruct (bad_head hd); [done|].
  destruct (_ =? _); [|done]. assert (msgid hd = id) as -> by congruence. rewrite Z.eqb_refl. cbn [negb].
  destruct (Nat.leb_spec 8 (length (frame id (msg_encode m)))); [|lia].
  change (drop 8 (frame id (msg_encode m))) with (msg_encode m). rewrite msg_parse_roundtrip by done. done.
Qed.
End receiving.

Section waiting.
Context `{!Codec GetHostResponse}.

(** An answer to an earlier call. *)
Definition stale (seq : Z) (r : recv_result unit) : Prop := exists m : GetHostResponse, carries ID_GetHostResponse r m /\ ghs_seq m < seq.

Lemma await_host_outcome fuel seq i buf c :
  (length (coming i c) < fuel)%nat ->
  match await_host fuel seq i buf c with
  | Ok (rsp, c') => exists before r rest, coming i c = before ++ r :: rest /\ lc_input c' = <[i := rest]> (lc_input c) /\
      Forall (stale seq) before /\
      match rsp with
      | Some rsp => carries ID_GetHostResponse r rsp /\ seq <= ghs_seq rsp
      | None => forall m : GetHostResponse, ~ carries ID_GetHostResponse r m
      end
  | Err f => exists before rest, coming i c = before ++ rest /\ Forall (stale seq) before /\ recv_stops rest f
  end.
Proof.
  revert buf c. induction fuel as [|fuel IH]; intros buf c Hl; [lia|]. cbn [await_host].
  pose proof (read_answer_outcome (M := GetHostResponse) ID_GetHostResponse i buf c ltac:(by vm_compute)) as Hr.
  destruct (read_answer _ i buf c) as [[[rsp buf'] c']|f]; cbn [mbind res_bind]; [|by exists [], (coming i c)].
  destruct Hr as (r & rest & Hin & -> & Hc). assert (coming i c = r :: rest) as Hco by (unfold coming; by rewrite Hin).
  rewrite Hco in Hl |- *. destruct rsp as [m|]; [|by exists [], r, rest].
  destruct (Z.ltb_spec (ghs_seq m) seq) as [Hlt|Hge]; [|by exists [], r, rest].
  assert (coming i (lc_set_input i rest c) = rest) as Hco'.
  { unfold coming. cbn [lc_input lc_set_input]. by rewrite list_lookup_insert_eq by (by apply lookup_lt_Some in Hin). }
  specialize (IH buf' (lc_set_input i rest c)). rewrite Hco' in IH. specialize (IH ltac:(cbn in Hl; lia)).
  assert (stale seq r) as Hst by (by exists m).
  destruct (await_host fuel _ _ _ _) as [[rsp c2]|f].
  - destruct IH as (before & r' & rest' & -> & Hc2 & Hall & Hrsp). exists (r :: before), r', rest'.
    split; [done|]. split; [rewrite Hc2; cbn; by rewrite list_insert_insert_eq|]. split; [by constructor|done].
  - destruct IH as (before & rest' & -> & Hall & Hs). exists (r :: before), rest'. split; [done|]. split; [by constructor|done].
Qed.
End waiting.

Section answers.
Context `{WireFormat} `{InetAddr} (sendto_at : nat -> send_result).

Lemma api_send_ok modid cmdid msgid body (i : nat) fd c :
  route_index modid cmdid = i -> lc_sockfd c !! i = Some fd -> length body <= 4088 -> sendto_at (length (lc_sent c)) = SendOk ->
  api_send sendto_at modid cmdid msgid body c = Ok (i, true, lc_put_sent fd (frame msgid body) c).
Proof.
  intros Hi Hfd Hl Hs. unfold api_send, MESSAGE_HEAD_LEN. rewrite Hi. destruct (Z.leb_spec (8 + length body) 4096); [|lia].
  destruct (Z.leb_spec 0 i); [|lia]. rewrite Nat2Z.id, Hfd. cbn [of_option mbind res_bind]. by rewrite Hs.
Qed.

(** The datagram of an answer. *)
Definition host_datagram (m : GetHostResponse) : recv_result unit := RecvDatagram (frame ID_GetHostResponse (msg_encode m)) tt.
Definition route_datagram (m : GetRouteResponse) : recv_result unit := RecvDatagram (frame ID_API_GetRouteResponse (msg_encode m)) tt.

(** Answers to earlier calls are skipped. *)
Lemma await_host_skips stale rsp rest fuel seq i buf c :
  lc_input c !! i = Some ((host_datagram <$> stale) ++ host_datagram rsp :: rest) -> (length stale < fuel)%nat ->
  Forall (fun m => msg_ok m /\ ghs_seq m < seq) stale -> msg_ok rsp -> seq <= ghs_seq rsp ->
  await_host fuel seq i buf c = Ok (Some rsp, lc_set_input i rest c).
Proof.
  revert fuel buf c. induction stale as [|m stale IH]; intros fuel buf c Hin Hf Hall Hok Hseq;
    (destruct fuel as [|fuel]; [cbn in Hf; lia|]); cbn [await_host].
  - destruct (read_answer_frame ID_GetHostResponse i buf c rsp tt rest) as [buf' ->];
      [unfold is_i32, ID_GetHostResponse; lia|done|apply host_fits|done|].
    cbn [mbind res_bind]. by destruct (Z.ltb_spec (ghs_seq rsp) seq); [lia|].
  - inversion Hall as [|? ? [Hm Hlt] Hall']; subst.
    destruct (read_answer_frame ID_GetHostResponse i buf c m tt ((host_datagram <$> stale) ++ host_datagram rsp :: rest)) as [buf' ->];
      [unfold is_i32, ID_GetHostResponse; lia|done|apply host_fits|done|].
    cbn [mbind res_bind]. destruct (Z.ltb_spec (ghs_seq m) seq); [|lia].
    rewrite IH; [|apply list_lookup_insert_eq; by apply lookup_lt_Some in Hin|cbn in Hf; lia|done|done|done].
    unfold lc_set_input. cbn [lc_sockfd lc_seqid lc_input lc_sent]. by rewrite list_insert_insert_eq.
Qed.

(** What [get_host] makes of the answer to its request. *)
Definition host_outcome (rsp : GetHostResponse) (out : ip_port) : Z * ip_port :=
  (ghs_retcode rsp, if ghs_retcode rsp =? RET_SUCC then (inet_ntoa (u32 (hi_ip (ghs_host_get rsp))), hi_port (ghs_host_get rsp)) else out).

Lemma get_host_answered modid cmdid out (i : nat) fd c stale rsp rest :
  route_index modid cmdid = i -> lc_sockfd c !! i = Some fd -> sendto_at (length (lc_sent c)) = SendOk ->
  lc_input c !! i = Some ((host_datagram <$> stale) ++ host_datagram rsp :: rest) ->
  Forall (fun m => msg_ok m /\ ghs_seq m < lc_seqid c) stale -> msg_ok rsp ->
  ghs_seq rsp = lc_seqid c -> ghs_modid rsp = modid -> ghs_cmdid rsp = cmdid ->
  get_host sendto_at modid cmdid out c =
    Ok (host_outcome rsp out, lc_set_input i rest (lc_put_sent fd
      (frame ID_GetHostRequest (msg_encode {| ghq_seq := lc_seqid c; ghq_modid := modid; ghq_cmdid := cmdid |}))
      (lc_set_seqid (u32 (lc_seqid c + 1)) c))).
Proof.
  intros Hi Hfd Hs Hin Hst Hok Hseq Hm Hc. unfold get_host.
  rewrite (api_send_ok modid cmdid _ _ i fd); [|done|done| |done].
  2:{ pose proof (GetHostRequest_length {| ghq_seq := lc_seqid c; ghq_modid := modid; ghq_cmdid := cmdid |}). cbn. lia. }
  cbn [mbind res_bind negb]. rewrite (await_host_skips stale rsp rest); [|done| |done|done|lia].
  2:{ unfold input_len. cbn [lc_input lc_put_sent lc_set_seqid]. rewrite Hin. cbn. rewrite length_app, length_fmap. cbn. lia. }
  cbn [mbind res_bind]. rewrite Hseq, Hm, Hc, !Z.eqb_refl. cbn [negb orb]. unfold host_outcome. by destruct (_ =? RET_SUCC).
Qed.

Lemma get_route_answered modid cmdid route (i : nat) fd c rsp rest :
  route_index modid cmdid = i -> lc_sockfd c !! i = Some fd -> sendto_at (length (lc_sent c)) = SendOk ->
  lc_input c !! i = Some (route_datagram rsp :: rest) -> msg_ok rsp -> length (grs_host rsp) <= max_hosts ->
  grs_modid rsp = modid -> grs_cmdid rsp = cmdid ->
  get_route sendto_at modid cmdid route c =
    Ok (RET_SUCC, route ++ (route_entry <$> grs_host rsp), lc_set_input i rest (lc_put_sent fd
      (frame ID_API_GetRouteRequest (msg_encode {| grq_modid := modid; grq_cmdid := cmdid |})) c)).
Proof.
  intros Hi Hfd Hs Hin Hok Hl Hm Hc. unfold get_route.
  rewrite (api_send_ok modid cmdid _ _ i fd); [|done|done| |done].
  2:{ cbn. unfold GetRouteRequest_serialize. cbn [grq_modid grq_cmdid]. rewrite length_app. pose proof (length_prim 1 modid). pose proof (length_prim 2 cmdid). lia. }
  cbn [mbind res_bind negb].
  destruct (read_answer_frame ID_API_GetRouteResponse i [] (lc_put_sent fd (frame ID_API_GetRouteRequest
    (msg_encode {| grq_modid := modid; grq_cmdid := cmdid |})) c) rsp tt rest) as [buf' ->];
    [unfold is_i32, ID_API_GetRouteResponse; lia|done|by apply route_fits|done|].
  cbn [mbind res_bind]. by rewrite Hm, Hc, !Z.eqb_refl.
Qed.
End answers.

Section agent.
Context {T K Addr : Type} `{Epoll K} `{Clock} `{HashOrder} `{WireFormat} `{InetAddr} (cfg : load_balance_config).
Context (agent_sendto sendto_at : nat -> send_result).
Implicit Types u : udp T K agent agent_cb nat Addr.

Definition same_request (rsp rsp' : GetHostResponse) : Prop :=
  ghs_seq rsp' = ghs_seq rsp /\ ghs_modid rsp' = ghs_modid rsp /\ ghs_cmdid rsp' = ghs_cmdid rsp.

Lemma from_list_echo lb rsp l rsp' l' : get_host_from_list lb rsp l = Ok (rsp', l') -> same_request rsp rsp'.
Proof. unfold get_host_from_list. destruct l as [|p l]; [done|]. intros Hl. by apply bind_ok in Hl as (h & _ & [= <- _]). Qed.

Lemma choice_echo rsp lb ret rsp' lb' : choice_one_host cfg rsp lb = Ok (ret, rsp', lb') -> same_request rsp rsp'.
Proof.
  unfold choice_one_host, choice_idle, choice_over. intros Hc.
  repeat (case_match; try (injection Hc as _ <- _; done)); apply bind_ok in Hc as ([rsp1 l1] & Hl & [= _ <- _]);
    by eapply from_list_echo.
Qed.

Lemma agent_get_host_echo modid cmdid rsp r w ret rsp' r' w' :
  RouteLb.get_host cfg modid cmdid rsp r w = Ok (ret, rsp', r', w') -> same_request rsp rsp'.
Proof.
  unfold RouteLb.get_host. destruct (rl_map r !! _) as [lb|].
  - destruct (lb_empty lb); [by intros [= _ <- _ _]|]. intros Hg. apply bind_ok in Hg as ([[ret1 rsp1] lb1] & Hc & Hg).
    apply choice_echo in Hc. destruct (refresh cfg lb1 w) as [lb2 w2]. by injection Hg as _ <- _ _.
  - destruct (create_module modid cmdid r w) as [r1 w1]. by intros [= _ <- _ _].
Qed.

(** The agent's turn: one request in, one answer out. *)
Lemma agent_turn (i : nat) u (from : Addr) req r ret rsp r' w' :
  server_ok i u -> msg_ok req -> ag_lb (u_env u) !! i = Some r -> agent_sendto (ag_sends (u_env u)) = SendOk ->
  RouteLb.get_host cfg (ghq_modid req) (ghq_cmdid req) (host_response req 0 None) r (ag_world (u_env u)) = Ok (ret, rsp, r', w') ->
  exists u', agent_do_read cfg agent_sendto [RecvDatagram (frame ID_GetHostRequest (msg_encode req)) from; RecvEagain] u = Ok u' /\
    u_sent u' = u_sent u ++ [(from, frame ID_GetHostResponse (msg_encode rsp))].
Proof.
  intros Hu Hreq Hr Hs Hg. unfold agent_do_read.
  destruct (server_do_read_frame (run_agent_callback cfg agent_sendto) ID_GetHostRequest (msg_encode req) from get_host_cb_id (Some i) u)
    as (bs & Hl & ->); [apply (so_read _ _ Hu)|unfold is_i32, ID_GetHostRequest; lia| | |].
  { pose proof (GetHostRequest_length req). cbn. lia. }
  { by rewrite (so_router _ _ Hu). }
  cbn [run_agent_callback]. destruct (get_host_cb_run cfg agent_sendto host_fits i
    (u_put_call (ID_GetHostRequest, msg_encode req) (u_set_read bs from u)) req r ret rsp r' w'
    (so_write _ _ Hu) Hreq Hr Hg) as (u' & Hcb & Hans & _).
  exists u'. split; [exact Hcb|]. unfold answered in Hans. cbn [u_env u_put_call u_set_read] in Hans. by rewrite Hs in Hans.
Qed.

(** ** Properties *)

(** C11: A request of an application and the agent's turn fit together: the datagram
    [get_host] sends is one the agent's udp server takes, and what the server
    sends back makes [get_host] return the agent's verdict, with the host the
    agent chose when there is one, even behind answers to earlier calls that
    arrive late; nothing else is taken from the socket. *)
Theorem host_request_served (i : nat) u (from : Addr) modid cmdid out fd c r ret rsp r' w' :
  server_ok i u -> ag_lb (u_env u) !! i = Some r -> agent_sendto (ag_sends (u_env u)) = SendOk ->
  route_index modid cmdid = i -> lc_sockfd c !! i = Some fd -> sendto_at (length (lc_sent c)) = SendOk ->
  is_i32 modid -> is_i32 cmdid -> is_u32 (lc_seqid c) ->
  RouteLb.get_host cfg modid cmdid {| ghs_seq := lc_seqid c; ghs_modid := modid; ghs_cmdid := cmdid; ghs_retcode := 0; ghs_host := None |}
    r (ag_world (u_env u)) = Ok (ret, rsp, r', w') -> msg_ok rsp ->
  let request := frame ID_GetHostRequest (msg_encode {| ghq_seq := lc_seqid c; ghq_modid := modid; ghq_cmdid := cmdid |}) in
  (exists u', agent_do_read cfg agent_sendto [RecvDatagram request from; RecvEagain] u = Ok u' /\
    u_sent u' = u_sent u ++ [(from, frame ID_GetHostResponse (msg_encode rsp))]) /\
  forall stale rest, Forall (fun m => msg_ok m /\ ghs_seq m < lc_seqid c) stale ->
    lc_input c !! i = Some ((host_datagram <$> stale) ++ host_datagram rsp :: rest) ->
    exists c', get_host sendto_at modid cmdid out c = Ok (host_outcome rsp out, c') /\
      lc_sent c' = lc_sent c ++ [(fd, request)] /\ lc_input c' !! i = Some rest.
Proof.
  intros Hu Hr Hs Hi Hfd Hs' Hm Hc Hseq Hg Hok request. split; [by eapply agent_turn|].
  intros stale rest Hst Hin. destruct (agent_get_host_echo _ _ _ _ _ _ _ _ _ Hg) as (Hq & Hm' & Hc').
  rewrite (get_host_answered sendto_at modid cmdid out i fd c stale rsp rest) by done. eexists. split; [done|]. split; [done|].
  apply list_lookup_insert_eq. by apply lookup_lt_Some in Hin.
Qed.
End agent.

Section api_properties.
Context `{WireFormat} `{InetAddr} (sendto_at : nat -> send_result).

(** What [get_host] returns, with what it takes from the sockets. *)
Lemma get_host_outcomes modid cmdid out c :
  let i := Z.to_nat (route_index modid cmdid) in
  let own (rsp : GetHostResponse) := ghs_seq rsp = lc_seqid c /\ ghs_modid rsp = modid /\ ghs_cmdid rsp = cmdid in
  match get_host sendto_at modid cmdid out c with
  | Ok (ret, out', c') =>
      sendto_at (length (lc_sent c)) = SendError /\ ret = RET_SYSTEM_ERROR /\ out' = out \/
      exists before r rest, coming i c = before ++ r :: rest /\ Forall (stale (lc_seqid c)) before /\ coming i c' = rest /\
        ((exists rsp, carries ID_GetHostResponse r rsp /\ own rsp /\ (ret, out') = host_outcome rsp out) \/
         (forall rsp, carries ID_GetHostResponse r rsp -> ~ own rsp) /\ ret = RET_SYSTEM_ERROR /\ out' = out)
  | Err f =>
      f = OutOfBounds /\ (route_index modid cmdid < 0 \/ lc_sockfd c !! i = None) \/
      exists before rest, coming i c = before ++ rest /\ Forall (stale (lc_seqid c)) before /\ recv_stops rest f
  end.
Proof.
  intros i own. unfold get_host, api_send.
  match goal with |- context [msg_encode ?q] => pose proof (GetHostRequest_length q) as Hlen; cbn in Hlen end.
  destruct (Z.leb_spec (MESSAGE_HEAD_LEN + length (msg_encode {| ghq_seq := lc_seqid c; ghq_modid := modid; ghq_cmdid := cmdid |})) 4096)
    as [_|Hbig]; [|cbn in Hbig; unfold MESSAGE_HEAD_LEN in Hbig; lia].
  destruct (Z.leb_spec 0 (route_index modid cmdid)) as [Hi|Hi]; [|by left; split; [|left]].
  cbn [lc_sockfd lc_set_seqid]. fold i. destruct (lc_sockfd c !! i) as [fd|] eqn:Hfd; cbn [of_option mbind res_bind]; [|by left; split; [|right]].
  cbn [lc_sent lc_set_seqid]. destruct (sendto_at (length (lc_sent c))) eqn:Hs; cbn [mbind res_bind negb]; [|by left].
  fold i. set (pkt := frame _ _). set (c1 := lc_put_sent fd pkt _). change (coming i c) with (coming i c1).
  pose proof (await_host_outcome (input_len i c1) (lc_seqid c) i [] c1 ltac:(unfold input_len, coming; lia)) as Ha.
  destruct (await_host _ _ _ _ _) as [[rsp c2]|f]; cbn [mbind res_bind]; [|by right].
  destruct Ha as (before & r & rest & Hco & Hc2 & Hall & Hrsp).
  assert (coming i c2 = rest) as Hrest.
  { unfold coming in *. rewrite Hc2. destruct (lc_input c1 !! i) eqn:Hin; [|by destruct before].
    by rewrite list_lookup_insert_eq by (by apply lookup_lt_Some in Hin). }
  destruct rsp as [rsp|].
  2:{ right; exists before, r, rest. split; [done|]. split; [done|]. split; [done|]. right. split; [|done]. intros rsp Hcar _. by apply (Hrsp rsp). }
  destruct Hrsp as [Hcar Hseq].
  assert (own rsp \/ ~ own rsp) as [Hown|Hown] by (unfold own; lia).
  - destruct Hown as (H1 & H2 & H3). rewrite H1, H2, H3, !Z.eqb_refl. cbn [negb orb]. unfold host_outcome.
    destruct (ghs_retcode rsp =? RET_SUCC) eqn:Hret; right; exists before, r, rest; (split; [done|]; split; [done|]; split; [done|]; left; exists rsp; by rewrite Hret).
  - assert (negb (ghs_seq rsp =? lc_seqid c) || negb (ghs_modid rsp =? modid) || negb (ghs_cmdid rsp =? cmdid) = true) as ->.
    { unfold own in Hown. destruct (Z.eqb_spec (ghs_seq rsp) (lc_seqid c)), (Z.eqb_spec (ghs_modid rsp) modid), (Z.eqb_spec (ghs_cmdid rsp) cmdid); cbn; tauto. }
    right; exists before, r, rest. split; [done|]. split; [done|]. split; [done|]. right. split; [|done]. intros rsp' Hcar'. by rewrite (carries_functional _ _ _ _ Hcar' Hcar).
Qed.

(** C24: Whatever comes in on the sockets, [get_host] reports success or another verdict
    only from an answer to this very call: a datagram whose head has the id of host
    answers and whose body has its seq, modid and cmdid, behind nothing but answers to
    earlier calls, which are skipped, and nothing behind it is taken.  It returns
    RET_SYSTEM_ERROR, with ip and port left alone, when the request cannot be sent or
    the first thing that is no answer to an earlier call is none to this one.  It never
    loops for ever, and stops the program only at a negative index or an index without
    a socket, at a datagram shorter than a head, or by waiting when nothing but answers
    to earlier calls has come in. *)
Theorem get_host_takes_own_answer modid cmdid out c :
  let i := Z.to_nat (route_index modid cmdid) in
  let own (rsp : GetHostResponse) := ghs_seq rsp = lc_seqid c /\ ghs_modid rsp = modid /\ ghs_cmdid rsp = cmdid in
  match get_host sendto_at modid cmdid out c with
  | Ok (ret, out', c') =>
      sendto_at (length (lc_sent c)) = SendError /\ ret = RET_SYSTEM_ERROR /\ out' = out \/
      exists before r rest, coming i c = before ++ r :: rest /\ Forall (stale (lc_seqid c)) before /\ coming i c' = rest /\
        ((exists rsp, carries ID_GetHostResponse r rsp /\ own rsp /\ (ret, out') = host_outcome rsp out) \/
         (forall rsp, carries ID_GetHostResponse r rsp -> ~ own rsp) /\ ret = RET_SYSTEM_ERROR /\ out' = out)
  | Err f =>
      f = OutOfBounds /\ (route_index modid cmdid < 0 \/ lc_sockfd c !! i = None) \/
      exists before rest, coming i c = before ++ rest /\ Forall (stale (lc_seqid c)) before /\ recv_stops rest f
  end.
Proof. apply get_host_outcomes. Qed.

(** The two ways to ask for a host give its address in opposite byte orders:
    [get_host] turns the number into text as it is, [get_route] swaps it first.
    For an address that is no palindrome the texts differ; a report with the text
    of [get_host] names the host, one with that of [get_route] names another. *)
Theorem address_order_differs modid cmdid out route (i : nat) fd c retcode host rsp rspr rest rest' :
  route_index modid cmdid = i -> lc_sockfd c !! i = Some fd -> (forall n, sendto_at n = SendOk) ->
  HostInfo_ok host -> ntohl (u32 (hi_ip host)) <> u32 (hi_ip host) ->
  msg_ok rsp -> ghs_seq rsp = lc_seqid c -> ghs_modid rsp = modid -> ghs_cmdid rsp = cmdid ->
  ghs_retcode rsp = RET_SUCC -> ghs_host rsp = Some host ->
  msg_ok rspr -> grs_modid rspr = modid -> grs_cmdid rspr = cmdid -> grs_host rspr = [host] ->
  exists ip ip', ip <> ip' /\
    (lc_input c !! i = Some (host_datagram rsp :: rest) ->
     exists c', get_host sendto_at modid cmdid out c = Ok (RET_SUCC, (ip, hi_port host), c')) /\
    (lc_input c !! i = Some (route_datagram rspr :: rest') ->
     exists c', get_route sendto_at modid cmdid route c = Ok (RET_SUCC, route ++ [(ip', hi_port host)], c')) /\
    (let sent h := [(fd, frame ID_ReportRequest (msg_encode
       {| rrq_modid := modid; rrq_cmdid := cmdid; rrq_host := Some h; rrq_retcode := retcode |}))] in
     report sendto_at modid cmdid ip (hi_port host) retcode c =
       Ok (LarsClient (lc_sockfd c) (lc_seqid c) (lc_input c) (lc_sent c ++ sent host)) /\
     exists other, other <> host /\ report sendto_at modid cmdid ip' (hi_port host) retcode c =
       Ok (LarsClient (lc_sockfd c) (lc_seqid c) (lc_input c) (lc_sent c ++ sent other))).
Proof.
  intros Hi Hfd Hs Hh Hne Hok Hseq Hm Hc Hret Hhost Hokr Hmr Hcr Hhr. set (a := u32 (hi_ip host)) in *.
  assert (is_u32 a) as Ha by apply u32_range. pose proof (ntohl_range a) as Hb.
  exists (inet_ntoa a), (inet_ntoa (ntohl a)). split.
  { intros Heq. apply (f_equal inet_aton) in Heq. rewrite !inet_roundtrip in Heq by done. congruence. }
  split; [|split].
  - intros Hin. rewrite (get_host_answered sendto_at modid cmdid out i fd c [] rsp rest) by (done || constructor).
    unfold host_outcome, ghs_host_get. rewrite Hret, Hhost. cbn [default id from_option]. eexists. done.
  - intros Hin. rewrite (get_route_answered sendto_at modid cmdid route i fd c rspr rest') by (done || (rewrite Hhr; cbn; unfold max_hosts; lia)).
    rewrite Hhr. by eexists.
  - assert (forall ip s h, inet_aton ip = Some s -> h = {| hi_ip := i32 s; hi_port := hi_port host |} ->
      report sendto_at modid cmdid ip (hi_port host) retcode c =
        Ok (LarsClient (lc_sockfd c) (lc_seqid c) (lc_input c) (lc_sent c ++ [(fd, frame ID_ReportRequest (msg_encode
          {| rrq_modid := modid; rrq_cmdid := cmdid; rrq_host := Some h; rrq_retcode := retcode |}))]))) as Hrep.
    { intros ip s h Hip ->. unfold report. rewrite Hip. cbn [of_option mbind res_bind].
      rewrite (api_send_ok sendto_at modid cmdid _ _ i fd); [done|done|done| |done]. apply ReportRequest_length. }
    split.
    + apply (Hrep _ a); [by apply inet_roundtrip|]. destruct Hh as [Hip _]. unfold a. rewrite i32_u32, i32_id by done. by destruct host.
    + exists {| hi_ip := i32 (ntohl a); hi_port := hi_port host |}. split.
      * intros Heq. apply (f_equal hi_ip) in Heq. cbn in Heq. apply Hne. unfold a at 2. by rewrite <-Heq, u32_i32, u32_id.
      * apply (Hrep _ (ntohl a)); [by apply inet_roundtrip|done].
Qed.

(** The answers [reg_init] reads: up to the first one with hosts. *)
Fixpoint answers_read (answers : list GetRouteResponse) : nat :=
  match answers with
  | [] => 0
  | a :: l => match grs_host a with [] => S (answers_read l) | _ => 1 end
  end.
Definition some_hosts (answers : list GetRouteResponse) : bool := existsb (fun a => negb (bool_decide (grs_host a = []))) answers.

Definition route_answer_ok (modid cmdid : Z) (a : GetRouteResponse) : Prop :=
  msg_ok a /\ length (grs_host a) <= max_hosts /\ grs_modid a = modid /\ grs_cmdid a = cmdid.

Lemma register_answered modid cmdid (i : nat) fd answers rest c :
  route_index modid cmdid = i -> lc_sockfd c !! i = Some fd -> (forall n, sendto_at n = SendOk) ->
  lc_input c !! i = Some ((route_datagram <$> answers) ++ rest) -> Forall (route_answer_ok modid cmdid) answers ->
  exists route c', register_tries sendto_at (length answers) modid cmdid [] c = Ok (route, c') /\
    (route = [] <-> some_hosts answers = false) /\ length (lc_sent c') = (length (lc_sent c) + answers_read answers)%nat.
Proof.
  intros Hi Hfd Hs. revert c Hfd. induction answers as [|a l IH]; intros c Hfd Hin Hall; cbn [length register_tries].
  { exists [], c. cbn. split; [done|]. split; [done|lia]. }
  inversion Hall as [|? ? (Hok & Hl & Hm & Hc) Hall']; subst x l0.
  rewrite (get_route_answered sendto_at modid cmdid [] i fd c a ((route_datagram <$> l) ++ rest)) by done.
  set (c1 := lc_set_input i _ _). assert (length (lc_sent c1) = S (length (lc_sent c))) as Hl1.
  { cbn. rewrite length_app. cbn. lia. }
  cbn [mbind res_bind app]. unfold some_hosts. cbn [existsb answers_read].
  destruct (grs_host a) as [|h hs].
  - destruct (IH c1) as (route & c' & Hr & Hiff & Hsent); [done|apply list_lookup_insert_eq; by apply lookup_lt_Some in Hin|done|].
    exists route, c'. cbn [fmap list_fmap]. split; [done|]. rewrite bool_decide_true by done. split; [exact Hiff|lia].
  - exists (route_entry <$> h :: hs), c1. rewrite bool_decide_false by done. cbn [negb orb].
    split; [by destruct (length l)|]. split; [done|lia].
Qed.

(** Registering a module asks for its route at most three times, and stops at the
    first answer that has a host: it succeeds exactly when one of them has, since
    the agent answers an unknown module with no hosts while it asks the dns
    service. *)
Theorem reg_init_retries modid cmdid (i : nat) fd answers rest c :
  route_index modid cmdid = i -> lc_sockfd c !! i = Some fd -> (forall n, sendto_at n = SendOk) ->
  length answers = 3%nat -> lc_input c !! i = Some ((route_datagram <$> answers) ++ rest) ->
  Forall (route_answer_ok modid cmdid) answers ->
  exists c', reg_init sendto_at modid cmdid c = Ok (if some_hosts answers then RET_SUCC else RET_NOEXIST, c') /\
    length (lc_sent c') = (length (lc_sent c) + answers_read answers)%nat.
Proof.
  intros Hi Hfd Hs H3 Hin Hall. destruct (register_answered modid cmdid i fd answers rest c Hi Hfd Hs Hin Hall)
    as (route & c' & Hr & Hiff & Hsent). exists c'. split; [|done]. unfold reg_init. rewrite <-H3, Hr. cbn [mbind res_bind].
  destruct (some_hosts answers); destruct route; try done; destruct Hiff as [H1 H2]; [by specialize (H1 eq_refl)|by specialize (H2 eq_refl)].
Qed.
End api_properties.

Module ApiDemo.
#[local] Existing Instances epoll_map wire_varint inet_dotted.
#[local] Instance demo_order : HashOrder := hash_order_list.
#[local] Instance demo_clock : Clock := clock_const 1000.
Definition always_sent (_ : nat) : send_result := SendOk.

Definition client0 : lars_client :=
  match lars_client_new [(Some 3, true); (Some 4, true); (Some 5, true)] [[]; []; []] with Ok c => c | Err _ => LarsClient [] 0 [] [] end.

(** 177.1.168.192 is what the text of 192.168.1.177 becomes. *)
Example addresses : inet_ntoa (ntohl 3232235953) = "192.168.1.177"%string /\ inet_ntoa 3232235953 = "177.1.168.192"%string.
Proof. vm_compute. done. Qed.

Definition rsp_none : GetHostResponse := {| ghs_seq := 0; ghs_modid := 1; ghs_cmdid := 1; ghs_retcode := RET_NOEXIST; ghs_host := None |}.

Definition rsp_host : GetHostResponse :=
  {| ghs_seq := 0; ghs_modid := 1; ghs_cmdid := 1; ghs_retcode := RET_SUCC; ghs_host := Some WireDemo.host0 |}.
Definition rsp_route (hosts : list HostInfo) : GetRouteResponse := {| grs_modid := 1; grs_cmdid := 1; grs_host := hosts |}.

(** An answer that reads as one to this call, but has the id of another kind of message. *)
Example other_ids_are_refused :
  match get_host always_sent 1 1 (EmptyString, 0)
    (lc_set_input 2 [RecvDatagram (frame ID_API_GetRouteResponse (msg_encode rsp_host)) tt] client0) with
  | Ok (ret, out, _) => ret = RET_SYSTEM_ERROR /\ out = (EmptyString, 0)
  | Err _ => False
  end.
Proof. vm_compute. done. Qed.

(** The first request for a module. *)
Lemma host_request_served_witness :
  exists c', get_host always_sent 1 1 (EmptyString, 0) (lc_set_input 2 [host_datagram rsp_none] client0) = Ok (RET_NOEXIST, (EmptyString, 0), c') /\
    lc_sent c' = [(5, frame ID_GetHostRequest (msg_encode {| ghq_seq := 0; ghq_modid := 1; ghq_cmdid := 1 |}))].
Proof.
  destruct (RouteLb.get_host lb_agent_ini 1 1 {| ghs_seq := 0; ghs_modid := 1; ghs_cmdid := 1; ghs_retcode := 0; ghs_host := None |}
    (route_lb_new 3) (ag_world (u_env AgentDemo.server2))) as [[[[ret rsp] r'] w']|f] eqn:Hf; [|discriminate].
  assert (rsp = rsp_none) as -> by (injection Hf as _ <- _ _; reflexivity).
  destruct (host_request_served lb_agent_ini AgentDemo.always_sent always_sent 2 AgentDemo.server2 1%nat 1 1 (EmptyString, 0) 5
    (lc_set_input 2 [host_datagram rsp_none] client0) (route_lb_new 3) ret rsp_none r' w') as (_ & Hc); try reflexivity.
  - exact AgentDemo.server2_ok.
  - unfold is_i32. lia.
  - unfold is_i32. lia.
  - unfold is_u32. cbn. lia.
  - exact Hf.
  - split_and!; try (unfold is_u32, is_i32; cbn; unfold RET_NOEXIST; lia). discriminate.
  - destruct (Hc [] []) as (c' & Hg & Hsent & _); [constructor|reflexivity|]. exists c'. split; [exact Hg|exact Hsent].
Defined.

Lemma host0_ok : HostInfo_ok WireDemo.host0.
Proof. split; unfold is_i32; cbn; vm_compute; split; (discriminate || reflexivity). Qed.

Lemma route_answer0 hosts : Forall HostInfo_ok hosts -> length hosts <= 1 -> route_answer_ok 1 1 (rsp_route hosts).
Proof.
  intros Hh Hl. split; [|split; [cbn; unfold max_hosts; lia|done]].
  split; [unfold is_i32; cbn; lia|]. split; [unfold is_i32; cbn; lia|done].
Qed.

Lemma address_order_differs_witness : exists ip ip' c1 c2 other,
  ip <> ip' /\ other <> WireDemo.host0 /\
  get_host always_sent 1 1 (EmptyString, 0) (lc_set_input 2 [host_datagram rsp_host] client0) = Ok (RET_SUCC, (ip, 7777), c1) /\
  report always_sent 1 1 ip' 7777 0 (lc_set_input 2 [host_datagram rsp_host] client0) = Ok c2 /\
  lc_sent c2 = [(5, frame ID_ReportRequest (msg_encode {| rrq_modid := 1; rrq_cmdid := 1; rrq_host := Some other; rrq_retcode := 0 |}))].
Proof.
  destruct (address_order_differs always_sent 1 1 (EmptyString, 0) [] 2 5 (lc_set_input 2 [host_datagram rsp_host] client0) 0
    WireDemo.host0 rsp_host (rsp_route [WireDemo.host0]) [] []) as (ip & ip' & Hne & Hg & _ & _ & other & Ho & Hrep); try reflexivity.
  - exact host0_ok.
  - vm_compute. discriminate.
  - split_and!; try (unfold is_u32, is_i32; cbn; unfold RET_SUCC; lia). intros h [= <-]. exact host0_ok.
  - apply (route_answer0 [WireDemo.host0]); [constructor; [exact host0_ok|constructor]|cbn; lia].
  - destruct (Hg eq_refl) as (c1 & Hg'). exists ip, ip', c1. eexists. exists other. split; [exact Hne|]. split; [exact Ho|].
    split; [exact Hg'|]. split; [exact Hrep|]. reflexivity.
Defined.

(** The agent learns the host while the api retries. *)
Lemma reg_init_retries_witness : exists c',
  reg_init always_sent 1 1 (lc_set_input 2 (route_datagram <$> [rsp_route []; rsp_route [WireDemo.host0]; rsp_route []]) client0) = Ok (RET_SUCC, c') /\
  length (lc_sent c') = 2%nat.
Proof.
  destruct (reg_init_retries always_sent 1 1 2 5 [rsp_route []; rsp_route [WireDemo.host0]; rsp_route []] []
    (lc_set_input 2 (route_datagram <$> [rsp_route []; rsp_route [WireDemo.host0]; rsp_route []]) client0)) as (c' & Hr & Hl); try reflexivity.
  - apply Forall_cons. split; [apply route_answer0; [constructor|cbn; lia]|].
    apply Forall_cons. split; [apply route_answer0; [constructor; [exact host0_ok|constructor]|cbn; lia]|].
    apply Forall_cons. split; [apply route_answer0; [constructor|cbn; lia]|constructor].
  - exists c'. split; [exact Hr|exact Hl].
Defined.
End ApiDemo.
