(* ===== verification/System.v ===== *)
(** * System: the agent and the dns service together

    What the agent's threads do to its modules, what the dns service does to its
    table, and the messages between them, as one transition system.  A message on
    the tcp connection is the body of a frame: that frames arrive whole and in
    order is [tcp_conn_output] and [tcp_conn_reassembly]; Channel puts the bytes back. *)

From S2P Require Import Prelude Keys Proto HostNode LoadBalance BalanceSpec RouteLb RouteSpec Bytes Wire Messages.
From S2P Require Import EventLoop BufPool ReactorBuf Stream StreamSpec TcpConn Udp DnsRoute Subscribe DnsService AgentService.
From stdpp Require Import base numbers list gmap fin_maps.
From Stdlib Require Import ZArith Lia.
Open Scope Z_scope.

(** [sy_replied] and [sy_tables] are the history: the hosts applications were given, with
    the module they asked for, and the tables the readers of the dns service have
    been given so far. *)
Record system := System {
  sy_agent : agent;
  sy_route : Route;
  sy_requests : list GetRouteRequest;      (* sent by new_dns_request *)
  sy_answers : list bytes;                 (* sent by the dns service *)
  sy_replied : list (Z * Z * HostInfo);
  sy_tables : list route_map
}.

Section system.
Context `{Clock} `{HashOrder} `{WireFormat} (cfg : load_balance_config).

(** The answer a callback of the udp server starts from. *)
Definition new_host_response (req : GetHostRequest) : GetHostResponse := host_response req 0 None.
Definition new_route_response (modid cmdid : Z) : GetRouteResponse := {| grs_modid := modid; grs_cmdid := cmdid; grs_host := [] |}.

(** The hosts in an answer to an application. *)
Definition given_host (rsp : GetHostResponse) : list (Z * Z * HostInfo) :=
  match ghs_host rsp with Some h => if ghs_retcode rsp =? RET_SUCC then [(ghs_modid rsp, ghs_cmdid rsp, h)] else [] | None => [] end.
Definition given_route (rsp : GetRouteResponse) : list (Z * Z * HostInfo) := (fun h => (grs_modid rsp, grs_cmdid rsp, h)) <$> grs_host rsp.

Definition with_agent (a : agent) (s : system) : system :=
  System a (sy_route s) (sy_requests s) (sy_answers s) (sy_replied s) (sy_tables s).
Definition with_replied (l : list (Z * Z * HostInfo)) (s : system) : system :=
  System (sy_agent s) (sy_route s) (sy_requests s) (sy_answers s) (sy_replied s ++ l) (sy_tables s).
Definition with_answer (d : bytes) (s : system) : system :=
  System (sy_agent s) (sy_route s) (sy_requests s) (sy_answers s ++ [d]) (sy_replied s) (sy_tables s).

Inductive sys_step : system -> system -> Prop :=
(** [get_host_cb], [get_route_cb] and [report_cb] of the [i]-th udp server *)
| sys_get_host i req rsp a s :
    is_i32 (ghq_modid req) -> is_i32 (ghq_cmdid req) ->
    on_lb i (fun r w => '(_, rsp, r, w) ← RouteLb.get_host cfg (ghq_modid req) (ghq_cmdid req) (new_host_response req) r w; Ok (rsp, r, w))
      (sy_agent s) = Ok (rsp, a) ->
    sys_step s (with_replied (given_host rsp) (with_agent a s))
| sys_get_route i modid cmdid rsp a s :
    is_i32 modid -> is_i32 cmdid ->
    on_lb i (fun r w => '(_, rsp, r, w) ← RouteLb.get_route cfg modid cmdid (new_route_response modid cmdid) r w; Ok (rsp, r, w))
      (sy_agent s) = Ok (rsp, a) ->
    sys_step s (with_replied (given_route rsp) (with_agent a s))
| sys_report i req a s :
    on_lb i (fun r w => '(r, w) ← report_host cfg req r w; Ok (tt, r, w)) (sy_agent s) = Ok (tt, a) ->
    sys_step s (with_agent a s)
(** [new_dns_request] *)
| sys_requests s :
    sys_step s (System (requests_taken (sy_agent s)) (sy_route s) (sy_requests s ++ w_dns_queue (ag_world (sy_agent s)))
                  (sy_answers s) (sy_replied s) (sy_tables s))
(** the dns service's [get_route] for the next request, and a module it pushes *)
| sys_answer req rest s :
    sy_requests s = req :: rest ->
    let rsp := fill_hosts (hs_elements (get_hosts (grq_modid req) (grq_cmdid req) (sy_route s))) (new_route_response (grq_modid req) (grq_cmdid req)) in
    sys_step s (with_answer (msg_encode rsp) (System (sy_agent s) (sy_route s) rest (sy_answers s) (sy_replied s) (sy_tables s)))
| sys_push mod_ s :
    sys_step s (with_answer (msg_encode (route_response (key_hi_int mod_) (key_lo_int mod_) (sy_route s))) s)
(** [check_route_changes] loads the table anew *)
| sys_reload rows r s :
    reload rows (sy_route s) = Ok r ->
    sys_step s (System (sy_agent s) r (sy_requests s) (sy_answers s) (sy_replied s) (sy_tables s ++ [data_map r]))
(** [deal_recv_route] on the next answer *)
| sys_deliver d rest a s :
    sy_answers s = d :: rest -> deal_recv_route cfg d (sy_agent s) = Ok a ->
    sys_step s (System a (sy_route s) (sy_requests s) rest (sy_replied s) (sy_tables s))
(** the connection breaks and is opened again: [conn_init] *)
| sys_reconnect s :
    sys_step s (System (conn_init (sy_agent s)) (sy_route s) [] [] (sy_replied s) (sy_tables s)).

Inductive sys_reachable (r : Route) : system -> Prop :=
| sys_start : sys_reachable r (System init_lb_agent r [] [] [] [data_map r])
| sys_next s s' : sys_reachable r s -> sys_step s s' -> sys_reachable r s'.

(** ** Where hosts come from *)

(** The key by which the agent knows a host. *)
Definition key_of (h : HostInfo) : Z := pack_key (hi_ip h) (hi_port h).

(** The hosts of a module in any of the tables. *)
Definition ever_hosts (tables : list route_map) (k : Z) : gset Z :=
  ⋃ ((fun m : route_map => remote_keys (host_of <$> elements (m !!! k))) <$> tables).

Lemma elem_of_ever tables k x :
  x ∈ ever_hosts tables k <-> exists m ip_port, m ∈ tables /\ ip_port ∈ (m : route_map) !!! k /\ x = key_of (host_of ip_port).
Proof.
  unfold ever_hosts, remote_keys, key_of. rewrite elem_of_union_list. split.
  - intros (X & HX & Hx). apply list_elem_of_fmap in HX as (m & -> & Hm). set_unfold in Hx.
    destruct Hx as (h & -> & ip & -> & Hip). by exists m, ip.
  - intros (m & ip & Hm & Hip & ->). eexists. split; [apply list_elem_of_fmap; by exists m|]. set_unfold. exists (host_of ip). split; [done|]. by exists ip.
Qed.

Lemma ever_more tables m k : ever_hosts tables k ⊆ ever_hosts (tables ++ [m]) k.
Proof. intros x. rewrite !elem_of_ever. intros (m' & ip & Hm & ?). exists m', ip. set_solver. Qed.

(** ** One module *)

(** A module all of whose hosts are among [F] and whose requests can be sent. *)
Record lb_from (F : gset Z) (k : Z) (lb : load_balance) : Prop := {
  lf_wf : lb_wf lb;
  lf_key : lb_key lb = k;
  lf_ids : is_i32 (lb_modid lb) /\ is_i32 (lb_cmdid lb);
  lf_hosts : dom (lb_host_map lb) ⊆ F
}.

Lemma lb_from_mono F F' k lb : F ⊆ F' -> lb_from F k lb -> lb_from F' k lb.
Proof. intros HF []. split; [done|done|done|by etransitivity]. Qed.

Lemma lb_from_same F k lb lb' :
  lb_wf lb' -> lb_host_map lb' = lb_host_map lb -> same_module lb lb' -> lb_from F k lb -> lb_from F k lb'.
Proof. intros Hwf Hm [H1m H1c] [_ Hk Hi HF]. split; [done|by eapply good_key|by rewrite H1m, H1c|by rewrite Hm]. Qed.

(** A host on the heap is one of them. *)
Lemma heap_from F k lb p h : lb_from F k lb -> lb_heap lb !! p = Some h -> key_of (host_answer h) ∈ F.
Proof.
  intros Hf Hp. apply (lf_hosts _ _ _ Hf), elem_of_dom. exists p. pose proof (wf_mapped lb (lf_wf _ _ _ Hf) p h Hp) as Hm.
  unfold host_key in Hm. rewrite <-Hm. f_equal. unfold key_of. cbn. by rewrite <-pack_key_u32_hi, u32_i32, pack_key_u32_hi.
Qed.

Lemma choice_keeps rsp lb ret rsp' lb' :
  lb_wf lb -> choice_one_host cfg rsp lb = Ok (ret, rsp', lb') ->
  lb_wf lb' /\ lb_host_map lb' = lb_host_map lb /\ same_module lb lb'.
Proof.
  intros Hwf Hc. destruct (decide (lb_idle lb ++ lb_over lb = [])) as [Hnil|Hne].
  - apply app_eq_nil in Hnil as [Hi Ho]. unfold choice_one_host, choice_over in Hc. rewrite Hi in Hc.
    destruct (probe_num cfg <=? lb_access_cnt lb); [cbn in Hc; by rewrite Ho in Hc|]. injection Hc as _ _ <-.
    split; [|done]. apply wf_set_cnt; [|done]. pose proof (wf_cnt _ Hwf). lia.
  - destruct (choice_safe cfg rsp lb Hwf Hne) as (? & ? & ? & Heq & Hwf' & Hm & _ & _ & _ & Hs).
    rewrite Hc in Heq. by injection Heq as _ _ <-.
Qed.

Lemma choice_host rsp lb ret rsp' lb' :
  choice_one_host cfg rsp lb = Ok (ret, rsp', lb') ->
  rsp' = rsp \/ exists p h, lb_heap lb !! p = Some h /\ rsp' = ghs_set_host (host_answer h) rsp.
Proof.
  assert (forall lb0 l l', lb_heap lb0 = lb_heap lb -> get_host_from_list lb0 rsp l = Ok (rsp', l') ->
    exists p h, lb_heap lb !! p = Some h /\ rsp' = ghs_set_host (host_answer h) rsp) as Hl.
  { intros lb0 l l' Hh Hg. unfold get_host_from_list, deref in Hg. destruct l as [|p l]; [done|]. rewrite Hh in Hg.
    apply bind_ok in Hg as (h & Hp & [= <- _]). apply of_option_ok in Hp. by exists p, h. }
  unfold choice_one_host, choice_idle, choice_over. intros Hc.
  repeat (case_match; try (injection Hc as _ <- _; by left)); apply bind_ok in Hc as ([rsp1 l1] & Hg & [= _ <- _]);
    right; (eapply Hl; [|exact Hg]); done.
Qed.

(** ** The modules of a thread *)

(** [F] says for each module which hosts it may have. *)
Definition rl_from (F : Z -> gset Z) (r : route_lb) : Prop := map_Forall (fun k lb => lb_from (F k) k lb) (rl_map r).

Lemma rl_from_mono (F F' : Z -> gset Z) r : (forall k, F k ⊆ F' k) -> rl_from F r -> rl_from F' r.
Proof. intros HF Hr k lb Hlb. eapply lb_from_mono; [apply HF|by apply Hr]. Qed.

Lemma rl_from_set F r k lb : rl_from F r -> lb_from (F k) k lb -> rl_from F (rl_set k lb r).
Proof. intros Hr Hlb. by apply map_Forall_insert_2. Qed.

Definition request_ok (req : GetRouteRequest) : Prop := is_i32 (grq_modid req) /\ is_i32 (grq_cmdid req).

(** The requests in a thread's queue. *)
Abbreviation queue_ok w := (Forall request_ok (w_dns_queue w)).

Lemma refresh_from F k lb w :
  lb_from F k lb -> queue_ok w -> lb_from F k (refresh cfg lb w).1 /\ queue_ok (refresh cfg lb w).2.
Proof.
  intros Hf Hq. destruct (refresh_spec cfg lb w) as (w' & -> & Hw' & _). cbn [fst snd]. rewrite Hw'. destruct Hf as [Hwf Hk Hi HF].
  destruct (due cfg lb w); [|split; [done|by rewrite app_nil_r]].
  split; [split; [by apply wf_set_status|done|done|done]|]. apply Forall_app. split; [done|]. by constructor.
Qed.

Lemma create_from F modid cmdid r w :
  is_i32 modid -> is_i32 cmdid -> rl_from F r -> queue_ok w ->
  rl_from F (create_module modid cmdid r w).1 /\ queue_ok (create_module modid cmdid r w).2.
Proof.
  intros Hm Hc Hr Hq. destruct (create_module_spec modid cmdid r w) as (w' & -> & Hw' & _). cbn [fst snd]. split.
  - apply rl_from_set; [done|]. destruct (good_created modid cmdid (time_at (w_ticks w))) as [Hwf _ Hk]. split; [done|done|done|set_solver].
  - rewrite Hw'. apply Forall_app. split; [done|]. by constructor.
Qed.

Definition host_from (F : Z -> gset Z) (x : Z * Z * HostInfo) : Prop :=
  let '(modid, cmdid, h) := x in key_of h ∈ F (pack_key modid cmdid).

Lemma get_host_from F req r w ret rsp r' w' :
  is_i32 (ghq_modid req) -> is_i32 (ghq_cmdid req) -> rl_from F r -> queue_ok w ->
  RouteLb.get_host cfg (ghq_modid req) (ghq_cmdid req) (new_host_response req) r w = Ok (ret, rsp, r', w') ->
  rl_from F r' /\ queue_ok w' /\ Forall (host_from F) (given_host rsp).
Proof.
  intros Hm Hc Hr Hq Hg. unfold RouteLb.get_host in Hg. destruct (rl_map r !! _) as [lb|] eqn:Hlb.
  - destruct (lb_empty lb); [injection Hg as _ <- <- <-; by split_and!|].
    apply bind_ok in Hg as ([[ret1 rsp1] lb1] & Hch & Hg). pose proof (Hr _ _ Hlb) as Hf.
    destruct (choice_keeps _ _ _ _ _ (lf_wf _ _ _ Hf) Hch) as (Hwf1 & Hm1 & Hs1).
    pose proof (lb_from_same _ _ _ _ Hwf1 Hm1 Hs1 Hf) as Hf1. destruct (refresh_from _ _ _ w Hf1 Hq) as [Hf2 Hq2].
    destruct (refresh cfg lb1 w) as [lb2 w2]. injection Hg as _ <- <- <-. split; [by apply rl_from_set|]. split; [done|].
    destruct (choice_host _ _ _ _ _ Hch) as [->|(p & h & Hp & ->)]; [constructor|].
    unfold given_host. cbn [ghs_host ghs_retcode ghs_set_retcode ghs_set_host ghs_modid ghs_cmdid new_host_response host_response].
    destruct (_ =? RET_SUCC); [|constructor]. constructor; [|constructor]. exact (heap_from _ _ lb p h Hf Hp).
  - destruct (create_from F _ _ r w Hm Hc Hr Hq) as [Hr1 Hq1]. destruct (create_module _ _ r w) as [r1 w1].
    injection Hg as _ <- <- <-. by split_and!.
Qed.

Lemma route_hosts_from F k lb rsp l rsp' :
  lb_from (F k) k lb -> foldM (get_route_host lb) rsp l = Ok rsp' -> k = pack_key (grs_modid rsp) (grs_cmdid rsp) ->
  Forall (host_from F) (given_route rsp) -> Forall (host_from F) (given_route rsp').
Proof.
  intros Hf Hl Hk. revert rsp Hl Hk. induction l as [|p l IH]; intros rsp Hl Hk Hall; cbn [foldM] in Hl; [by injection Hl as <-|].
  apply bind_ok in Hl as (rsp1 & Hg1 & Hl). apply (IH rsp1 Hl).
  - by apply bind_ok in Hg1 as (h & _ & [= <-]).
  - apply bind_ok in Hg1 as (h & Hp & [= <-]). unfold deref in Hp. apply of_option_ok in Hp.
    unfold given_route, grs_add_host. cbn [grs_host grs_modid grs_cmdid]. rewrite fmap_app. apply Forall_app. split; [done|].
    constructor; [|constructor]. pose proof (heap_from _ _ _ _ _ Hf Hp) as Hin. cbn. by rewrite Hk in Hin.
Qed.

Lemma get_route_from F modid cmdid r w ret rsp r' w' :
  is_i32 modid -> is_i32 cmdid -> rl_from F r -> queue_ok w ->
  RouteLb.get_route cfg modid cmdid (new_route_response modid cmdid) r w = Ok (ret, rsp, r', w') ->
  rl_from F r' /\ queue_ok w' /\ Forall (host_from F) (given_route rsp).
Proof.
  intros Hm Hc Hr Hq Hg. unfold RouteLb.get_route in Hg. destruct (rl_map r !! _) as [lb|] eqn:Hlb.
  - apply bind_ok in Hg as (rsp1 & Hh & Hg). pose proof (Hr _ _ Hlb) as Hf. destruct (refresh_from _ _ _ w Hf Hq) as [Hf2 Hq2].
    destruct (refresh cfg lb w) as [lb2 w2]. injection Hg as _ <- <- <-. split; [by apply rl_from_set|]. split; [done|].
    eapply route_hosts_from; [exact Hf|exact Hh|done|constructor].
  - destruct (create_from F _ _ r w Hm Hc Hr Hq) as [Hr1 Hq1]. destruct (create_module _ _ r w) as [r1 w1].
    injection Hg as _ <- <- <-. by split_and!.
Qed.

Lemma commit_queue lb w w' : commit lb w = Ok w' -> w_dns_queue w' = w_dns_queue w.
Proof. unfold commit. destruct (lb_empty lb); [by intros [= <-]|]. cbn. intros Hc. res_inv. done. Qed.

Lemma report_from F req r w r' w' :
  rl_from F r -> queue_ok w -> report_host cfg req r w = Ok (r', w') -> rl_from F r' /\ queue_ok w'.
Proof.
  intros Hr Hq Hrep. unfold report_host in Hrep. destruct (rl_map r !! _) as [lb|] eqn:Hlb; [|by injection Hrep as <- <-].
  pose proof (Hr _ _ Hlb) as Hf. apply bind_ok in Hrep as ([lb1 w1] & H1r & Hrep). apply bind_ok in Hrep as (w2 & Hc & [= <- <-]).
  pose proof (report_cases cfg lb w (hi_ip (rrq_host_get req)) (hi_port (rrq_host_get req)) (rrq_retcode req) (lf_wf _ _ _ Hf)) as Hcase.
  case_decide; [congruence|]. destruct Hcase as (lb' & w'' & Heq & Hwf & [Hsq _] & _ & Hm & _ & _ & Hs).
  rewrite H1r in Heq. injection Heq as <- <-. split; [|by rewrite (commit_queue _ _ _ Hc), Hsq].
  apply rl_from_set; [done|]. by eapply lb_from_same.
Qed.

Lemma update_from F modid cmdid rsp r w ret r' w' :
  rl_from F r -> queue_ok w -> remote_keys (grs_host rsp) ⊆ F (pack_key modid cmdid) ->
  update_host cfg modid cmdid rsp r w = Ok (ret, r', w') -> rl_from F r' /\ queue_ok w'.
Proof.
  intros Hr Hq HR Hu. unfold update_host in Hu. destruct (rl_map r !! _) as [lb|] eqn:Hlb; [|by injection Hu as _ <- <-].
  destruct (Nat.eqb_spec (length (grs_host rsp)) 0) as [Hz|Hnz].
  - injection Hu as _ <- <-. split; [|done]. intros k lb' Hk. cbn in Hk. apply lookup_delete_Some in Hk as [_ Hk]. by apply Hr.
  - apply bind_ok in Hu as ([lb1 w1] & Hup & [= _ <- <-]). pose proof (Hr _ _ Hlb) as Hf.
    assert (grs_host rsp <> []) as Hne by (intros He; by rewrite He in Hnz).
    pose proof (update_outcome cfg rsp lb w (lf_wf _ _ _ Hf) Hne) as Ho. case_decide; [|congruence].
    destruct Ho as (lb2 & w2 & Heq & [Hsq _] & Hupd). rewrite Hup in Heq. injection Heq as <- <-.
    split; [|by rewrite Hsq]. apply rl_from_set; [done|]. destruct Hupd as [Hwf' [Hkm Hkc _] _ _ Hdom _ _]. destruct Hf as [_ Hk Hi HF].
    split; [done|by eapply good_key|by rewrite Hkm, Hkc|rewrite Hdom; set_solver].
Qed.

Lemma key_ids k : is_i32 (key_hi_int k) /\ is_i32 (key_lo_int k).
Proof. split; apply i32_range. Qed.

(** ** The invariant *)

(** An answer on its way lists hosts its module has had. *)
Definition answer_from (tables : list route_map) (d : bytes) : Prop :=
  exists rsp : GetRouteResponse, d = msg_encode rsp /\ msg_ok rsp /\
    remote_keys (grs_host rsp) ⊆ ever_hosts tables (pack_key (grs_modid rsp) (grs_cmdid rsp)).

Record sys_inv (s : system) : Prop := {
  si_modules : Forall (rl_from (ever_hosts (sy_tables s))) (ag_lb (sy_agent s));
  si_queue : queue_ok (ag_world (sy_agent s));
  si_requests : Forall request_ok (sy_requests s);
  si_answers : Forall (answer_from (sy_tables s)) (sy_answers s);
  si_table : data_map (sy_route s) ∈ sy_tables s;
  si_replied : Forall (host_from (ever_hosts (sy_tables s))) (sy_replied s)
}.

Lemma on_lb_inv {A} (f : route_lb -> world -> res (A * route_lb * world)) i a x a' (P : route_lb -> Prop) :
  on_lb i f a = Ok (x, a') -> Forall P (ag_lb a) ->
  exists j r r' w', ag_lb a !! j = Some r /\ P r /\ f r (ag_world a) = Ok (x, r', w') /\
    ag_world a' = w' /\ (P r' -> Forall P (ag_lb a')).
Proof.
  unfold on_lb. intros Ho Hall. apply bind_ok in Ho as (j & _ & Ho). apply bind_ok in Ho as (r & Hr & Ho). apply of_option_ok in Hr.
  apply bind_ok in Ho as ([[x1 r1] w1] & Hf & [= <- <-]). exists j, r, r1, w1. split; [done|].
  split; [by eapply Forall_lookup_1|]. split; [done|]. split; [done|]. intros Hr1. by apply Forall_insert.
Qed.

Lemma table_answer modid cmdid r tables :
  is_i32 modid -> is_i32 cmdid -> data_map r ∈ tables -> answer_from tables (msg_encode (route_response modid cmdid r)).
Proof.
  intros Hm Hc Ht. exists (route_response modid cmdid r). split; [done|]. split; [by apply route_response_ok|].
  intros x. cbn [grs_host grs_modid grs_cmdid route_response]. rewrite elem_of_ever. unfold remote_keys.
  rewrite elem_of_list_to_set, list_elem_of_fmap. intros (h & -> & Hh). apply list_elem_of_fmap in Hh as (ip & -> & Hip).
  exists (data_map r), ip. split; [done|]. split; [|done]. rewrite elem_of_hs_elements, get_hosts_total in Hip. done.
Qed.

Lemma answer_more tables m d : answer_from tables d -> answer_from (tables ++ [m]) d.
Proof. intros (rsp & Hd & Hok & HR). exists rsp. split; [done|]. split; [done|]. etransitivity; [done|apply ever_more]. Qed.

Lemma host_more tables m x : host_from (ever_hosts tables) x -> host_from (ever_hosts (tables ++ [m])) x.
Proof. destruct x as [[modid cmdid] h]. apply ever_more. Qed.

Lemma sys_inv_start r : sys_inv (System init_lb_agent r [] [] [] [data_map r]).
Proof.
  split; cbn; [|constructor|constructor|constructor|by left|constructor].
  do 3 (constructor; [apply map_Forall_empty|]). constructor.
Qed.

Lemma sys_inv_step s s' : sys_inv s -> sys_step s s' -> sys_inv s'.
Proof.
  intros [Hmods Hq Hreq Hans Htab Hrep] Hstep.
  destruct Hstep as [i req rsp a s Hm Hc Ho|i modid cmdid rsp a s Hm Hc Ho|i req a s Ho|s|req rest s Hr rsp|mod_ s|rows r s Hl|d rest a s Hd Ho|s].
  - destruct (on_lb_inv _ _ _ _ _ _ Ho Hmods) as (j & r & r' & w' & _ & Hrl & Hf & Hw & Hset).
    apply bind_ok in Hf as ([[[ret rsp1] r1] w1] & Hg & [= <- <- <-]).
    destruct (get_host_from _ req r _ _ _ _ _ Hm Hc Hrl Hq Hg) as (Hr' & Hq' & Hgiven).
    split; cbn; [by apply Hset|by rewrite Hw|done|done|done|by apply Forall_app].
  - destruct (on_lb_inv _ _ _ _ _ _ Ho Hmods) as (j & r & r' & w' & _ & Hrl & Hf & Hw & Hset).
    apply bind_ok in Hf as ([[[ret rsp1] r1] w1] & Hg & [= <- <- <-]).
    destruct (get_route_from _ modid cmdid r _ _ _ _ _ Hm Hc Hrl Hq Hg) as (Hr' & Hq' & Hgiven).
    split; cbn; [by apply Hset|by rewrite Hw|done|done|done|by apply Forall_app].
  - destruct (on_lb_inv _ _ _ _ _ _ Ho Hmods) as (j & r & r' & w' & _ & Hrl & Hf & Hw & Hset).
    apply bind_ok in Hf as ([r1 w1] & Hg & [= <- <-]). destruct (report_from _ _ _ _ _ _ Hrl Hq Hg) as [Hr' Hq'].
    split; cbn; [by apply Hset|by rewrite Hw|done|done|done|done].
  - split; cbn; [done|constructor|by apply Forall_app|done|done|done].
  - rewrite Hr in Hreq. apply Forall_cons in Hreq as [[Hm Hc] Hreq].
    split; cbn; [done|done|done| |done|done]. apply Forall_app. split; [done|]. apply Forall_singleton.
    unfold rsp. rewrite fill_hosts_fmap. by apply table_answer.
  - split; cbn; [done|done|done| |done|done]. apply Forall_app. split; [done|]. apply Forall_singleton.
    apply table_answer; [apply key_ids|apply key_ids|done].
  - split; cbn; [|done|done| | |].
    + eapply Forall_impl; [exact Hmods|]. intros r0. apply rl_from_mono. intros k. apply ever_more.
    + eapply Forall_impl; [exact Hans|]. intros d. apply answer_more.
    + apply elem_of_app. right. by left.
    + eapply Forall_impl; [exact Hrep|]. intros x. apply host_more.
  - rewrite Hd in Hans. apply Forall_cons in Hans as [(rsp & -> & Hok & HR) Hans]. unfold deal_recv_route in Ho.
    rewrite (msg_roundtrip rsp Hok) in Ho. cbn [mbind res_bind] in Ho. destruct (0 <=? _); [|done].
    apply bind_ok in Ho as ([ret a1] & Ho & [= <-]).
    destruct (on_lb_inv _ _ _ _ _ _ Ho Hmods) as (j & r & r' & w' & _ & Hrl & Hf & Hw & Hset).
    apply bind_ok in Hf as ([[ret1 r1] w1] & Hg & [= <- <- <-]).
    destruct (update_from _ _ _ _ _ _ _ _ _ Hrl Hq HR Hg) as [Hr' Hq'].
    split; cbn; [by apply Hset|by rewrite Hw|done|done|done|done].
  - split; cbn; [|done|constructor|constructor|done|done]. apply Forall_fmap. eapply Forall_impl; [exact Hmods|].
    intros r Hr k lb Hlb. cbn in Hlb. apply lookup_fmap_Some in Hlb as (lb0 & <- & Hlb). destruct (Hr _ _ Hlb) as [Hwf Hk Hi HF].
    split; [by apply wf_set_status|done|done|done].
Qed.
End system.

(** ** Properties *)

(** C1: Every host an application is given for a module, by get_host or get_route, in
    any run of the agent and the dns service together, is one that a table of the
    dns service listed for that very module: through requests, answers, pushes,
    reloads, reports, broken connections and messages that arrive late, no host
    strays to another module and none is made up. *)
Theorem hosts_come_from_tables `{Clock} `{HashOrder} `{WireFormat} cfg r s :
  sys_reachable cfg r s ->
  Forall (fun '(modid, cmdid, h) => exists table ip_port, table ∈ sy_tables s /\
    ip_port ∈ (table : route_map) !!! pack_key modid cmdid /\ key_of h = key_of (host_of ip_port)) (sy_replied s).
Proof.
  intros Hreach. assert (sys_inv s) as [_ _ _ _ _ Hrep].
  { induction Hreach as [|s s' _ IH Hstep]; [apply sys_inv_start|by eapply sys_inv_step]. }
  eapply Forall_impl; [exact Hrep|]. intros [[modid cmdid] h] Hh. by apply elem_of_ever in Hh.
Qed.

(** C38: One datagram to an agent stops the dns service for everybody.  Module (0, 0) is a
    legal argument of the api; the agent, which does not know it, asks the dns service,
    and that request, all of whose fields are 0, is a message without a body.  The
    connection on the other side, when the request is all that has come in, answers
    it and then fails an assert (or, at the memory limit, exits). *)
Theorem module_zero_kills_dns {T K T' K' Addr} `{Epoll K} `{Epoll K'} `{Clock} `{HashOrder} `{WireFormat} cfg sendto_at
    (i : nat) (u : udp T K agent agent_cb nat Addr) r req
    (others : list tenant) F (e : endpoint io_proc T' Z K' (server_env dns_app)) outb n :
  server_ok i u -> msg_ok req -> ghq_modid req = 0 -> ghq_cmdid req = 0 ->
  ag_lb (u_env u) !! i = Some r -> rl_map r !! pack_key 0 0 = None ->
  ep_ok fd_in_table others F e [] outb -> e_ibuf e = None ->
  length outb + 30 + 24 * size (get_hosts 0 0 (da_route (se_app (e_env e)))) <= m8M ->
  exists u1 q, get_host_cb cfg sendto_at (msg_encode req) (Some i) u = Ok u1 /\
    w_dns_queue (ag_world (u_env u1)) = w_dns_queue (ag_world (u_env u)) ++ [q] /\
    match dns_do_read (deliver (n, frame ID_GetRouteRequest (msg_encode q))) e with
    | Ok _ => False
    | Err f => f = AssertFail \/ f = ExitFailure \/ f = Blocked
    end.
Proof.
  intros Hu Hreq Hm Hc Hr Hnone Hok Hib Hsize.
  destruct (new_module_asked cfg sendto_at i u r req Hu Hreq Hr) as (u1 & Hcb & Hq); [by rewrite Hm, Hc|].
  exists u1, {| grq_modid := 0; grq_cmdid := 0 |}. split; [exact Hcb|]. split; [by rewrite Hq, Hm, Hc|]. by eapply zero_request_aborts.
Qed.

Module SystemDemo.
#[local] Existing Instances epoll_map wire_varint.
#[local] Instance demo_order : HashOrder := hash_order_list.
#[local] Instance demo_clock : Clock := clock_const 1000.
Abbreviation step := (sys_step lb_agent_ini).

(** The steps as functions, to evaluate them. *)
Definition ask (i : nat) (req : GetHostRequest) (s : system) : option system :=
  match on_lb (Some i) (fun r w => '(_, rsp, r, w) ← RouteLb.get_host lb_agent_ini (ghq_modid req) (ghq_cmdid req) (new_host_response req) r w;
                                   Ok (rsp, r, w)) (sy_agent s) with
  | Ok (rsp, a) => Some (with_replied (given_host rsp) (with_agent a s))
  | Err _ => None
  end.
Definition deliver (s : system) : option system :=
  match sy_answers s with
  | [] => None
  | d :: rest => match deal_recv_route lb_agent_ini d (sy_agent s) with
                 | Ok a => Some (System a (sy_route s) (sy_requests s) rest (sy_replied s) (sy_tables s))
                 | Err _ => None
                 end
  end.

Lemma ask_step i req s s' : is_i32 (ghq_modid req) -> is_i32 (ghq_cmdid req) -> ask i req s = Some s' -> step s s'.
Proof. unfold ask. intros Hm Hc. destruct (on_lb _ _ _) as [[rsp a]|f] eqn:Ho; [|done]. intros [= <-]. by eapply sys_get_host. Qed.

Lemma deliver_step s s' : deliver s = Some s' -> step s s'.
Proof.
  unfold deliver. destruct (sy_answers s) as [|d rest] eqn:Ha; [done|]. destruct (deal_recv_route _ _ _) as [a|f] eqn:Hd; [|done].
  intros [= <-]. by eapply sys_deliver.
Qed.

Definition route0 : Route := match Route_new true (Some [db_row 1 1 1 3232235953 7777]) with Ok r => r | Err _ => RouteObj ∅ ∅ false 0 end.
Definition req0 : GetHostRequest := {| ghq_seq := 0; ghq_modid := 1; ghq_cmdid := 1 |}.

(** A request, the pull it causes, the answer, a second request. *)
Definition s0 : system := System init_lb_agent route0 [] [] [] [data_map route0].
Definition s1 : system := default s0 (ask 2 req0 s0).
Definition s2 : system := System (requests_taken (sy_agent s1)) route0 (w_dns_queue (ag_world (sy_agent s1))) [] [] [data_map route0].
Definition s3 : system := with_answer (msg_encode (fill_hosts (hs_elements (get_hosts 1 1 route0)) (new_route_response 1 1)))
  (System (sy_agent s2) route0 [] [] [] [data_map route0]).
Definition s4 : system := default s0 (deliver s3).
Definition s5 : system := default s0 (ask 2 req0 s4).

Lemma reach5 : sys_reachable lb_agent_ini route0 s5.
Proof.
  apply (sys_next _ _ s4); [apply (sys_next _ _ s3); [apply (sys_next _ _ s2); [apply (sys_next _ _ s1); [apply (sys_next _ _ s0); [apply sys_start|]|]|]|]|].
  - apply (ask_step 2 req0); [unfold is_i32; cbn; lia|unfold is_i32; cbn; lia|]. vm_compute. reflexivity.
  - exact (sys_requests _ s1).
  - exact (sys_answer _ {| grq_modid := 1; grq_cmdid := 1 |} [] s2 eq_refl).
  - apply deliver_step. vm_compute. reflexivity.
  - apply (ask_step 2 req0); [unfold is_i32; cbn; lia|unfold is_i32; cbn; lia|]. vm_compute. reflexivity.
Qed.

Example replied5 : sy_replied s5 = [(1, 1, WireDemo.host0)].
Proof. vm_compute. reflexivity. Qed.

Lemma hosts_come_from_tables_witness :
  Forall (fun '(modid, cmdid, h) => exists table ip_port, table ∈ sy_tables s5 /\
    ip_port ∈ (table : route_map) !!! pack_key modid cmdid /\ key_of h = key_of (host_of ip_port)) (sy_replied s5).
Proof. exact (hosts_come_from_tables lb_agent_ini route0 s5 reach5). Defined.

Lemma module_zero_kills_dns_witness : exists F p (u1 : udp unit (gmap Z Z) agent agent_cb nat nat) (q : GetRouteRequest), pool_ok F p /\
  get_host_cb lb_agent_ini AgentDemo.always_sent (msg_encode {| ghq_seq := 7; ghq_modid := 0; ghq_cmdid := 0 |}) (Some 2%nat) AgentDemo.server2 = Ok u1 /\
  match dns_do_read (StreamSpec.deliver (0%nat, frame ID_GetRouteRequest (msg_encode q))) (ServiceDemo.conn1 p) with
  | Ok _ => False
  | Err f => f = AssertFail \/ f = ExitFailure \/ f = Blocked
  end.
Proof.
  destruct buf_pool_new_spec as (F & p & _ & Hp & _). exists F, p.
  destruct (module_zero_kills_dns lb_agent_ini AgentDemo.always_sent 2 AgentDemo.server2 (route_lb_new 3)
    {| ghq_seq := 7; ghq_modid := 0; ghq_cmdid := 0 |} [] F (ServiceDemo.conn1 p) [] 0) as (u1 & q & Hcb & Hq & Hd).
  - exact AgentDemo.server2_ok.
  - apply AgentDemo.ghq_ok; unfold is_i32; lia.
  - reflexivity.
  - reflexivity.
  - reflexivity.
  - reflexivity.
  - exact (ServiceDemo.conn1_ok F p Hp).
  - reflexivity.
  - vm_compute. discriminate.
  - by exists u1, q.
Defined.
End SystemDemo.
