(* ===== verification/Progress.v ===== *)
(** * Progress: every module that is asked for gets its hosts

    System says what the agent and the dns service never do together; here is what
    they do in the end.  As long as the table of the dns service only gains hosts
    (an update that drops one leaves a dangling pointer in the agent), nothing in the
    system faults, and the messages under way bring every module that was asked for
    to the hosts of the table. *)

From S2P Require Import Prelude Keys Proto HostNode LoadBalance BalanceSpec RouteLb RouteSpec Bytes Wire Messages.
From S2P Require Import EventLoop BufPool ReactorBuf Stream StreamSpec TcpConn Udp DnsRoute Subscribe DnsService AgentService System.
From stdpp Require Import base numbers list gmap fin_maps relations.
From Stdlib Require Import ZArith Lia Sorting.Sorted.
Open Scope Z_scope.

(** ** Keys *)

(** The keys of the hosts of a module in a table, and of those in an answer. *)
Definition table_keys (m : route_map) (k : Z) : gset Z := remote_keys (host_of <$> elements (m !!! k)).
Definition rsp_key (rsp : GetRouteResponse) : Z := pack_key (grs_modid rsp) (grs_cmdid rsp).
Definition rsp_keys (rsp : GetRouteResponse) : gset Z := remote_keys (grs_host rsp).

Lemma elem_of_table_keys m k x : x ∈ table_keys m k <-> exists ip_port, ip_port ∈ m !!! k /\ x = key_of (host_of ip_port).
Proof.
  unfold table_keys, remote_keys, key_of. rewrite elem_of_list_to_set, list_elem_of_fmap. setoid_rewrite list_elem_of_fmap. setoid_rewrite elem_of_elements.
  split; [intros (h & -> & ip & -> & Hip); by exists ip|intros (ip & Hip & ->); exists (host_of ip); split; [done|by exists ip]].
Qed.

Lemma table_keys_mono (m m' : route_map) k : m !!! k ⊆ m' !!! k -> table_keys m k ⊆ table_keys m' k.
Proof. intros Hm x. rewrite !elem_of_table_keys. set_solver. Qed.

Lemma response_keys `{HashOrder} modid cmdid r :
  rsp_keys (route_response modid cmdid r) = table_keys (data_map r) (pack_key modid cmdid).
Proof.
  apply set_eq. intros x. rewrite elem_of_table_keys. unfold rsp_keys, remote_keys. cbn [grs_host route_response].
  rewrite elem_of_list_to_set, list_elem_of_fmap. setoid_rewrite list_elem_of_fmap. setoid_rewrite elem_of_hs_elements. rewrite get_hosts_total.
  split; [intros (h & -> & ip & -> & Hip); by exists ip|intros (ip & Hip & ->); exists (host_of ip); split; [done|by exists ip]].
Qed.

Lemma rsp_keys_nil rsp : rsp_keys rsp = ∅ -> grs_host rsp = [].
Proof. unfold rsp_keys, remote_keys. destruct (grs_host rsp) as [|h l]; [done|]. cbn. set_solver. Qed.

(** What a module may know so that no answer on its way drops a host of it. *)
Fixpoint bound (rsps : list GetRouteResponse) (m : route_map) (k : Z) : gset Z :=
  match rsps with
  | [] => table_keys m k
  | rsp :: rsps => if decide (rsp_key rsp = k) then rsp_keys rsp ∩ bound rsps m k else bound rsps m k
  end.

Lemma elem_of_bound rsps m k x :
  x ∈ bound rsps m k <-> x ∈ table_keys m k /\ forall rsp, rsp ∈ rsps -> rsp_key rsp = k -> x ∈ rsp_keys rsp.
Proof.
  induction rsps as [|rsp rsps IH]; cbn [bound]; [split; [split; [done|set_solver]|tauto]|].
  case_decide as Hk; [rewrite elem_of_intersection|]; rewrite IH; setoid_rewrite elem_of_cons; naive_solver.
Qed.

(** Later answers about a module list what earlier ones do. *)
Definition extends (a b : GetRouteResponse) : Prop := rsp_key a = rsp_key b -> rsp_keys a ⊆ rsp_keys b.

(** ** Growing runs *)

(** A module the agent can ask for: its ids fit, its thread exists, and it is not
    (0, 0). *)
Definition askable (modid cmdid : Z) : Prop :=
  is_i32 modid /\ is_i32 cmdid /\ 0 <= route_index modid cmdid /\ ~ (modid = 0 /\ cmdid = 0).
Definition request_askable (q : GetRouteRequest) : Prop := askable (grq_modid q) (grq_cmdid q).
Definition answer_askable `{!Codec GetRouteResponse} (d : bytes) : Prop :=
  exists rsp, d = msg_encode rsp /\ msg_ok rsp /\ askable (grs_modid rsp) (grs_cmdid rsp).

Section progress.
Context `{Clock} `{HashOrder} `{WireFormat} (cfg : load_balance_config).
Implicit Types s : system.

Record grow_step s s' : Prop := {
  gs_step : sys_step cfg s s';
  gs_table k : data_map (sy_route s) !!! k ⊆ data_map (sy_route s') !!! k;
  gs_queue : Forall request_askable (w_dns_queue (ag_world (sy_agent s')));
  gs_answers : Forall answer_askable (sy_answers s')
}.

Definition grow_reachable (r : Route) : system -> Prop := rtc grow_step (System init_lb_agent r [] [] [] [data_map r]).

(** [rsps]: the answers on their way. *)
Record grow_ok s (rsps : list GetRouteResponse) : Prop := {
  go_answers : sy_answers s = msg_encode <$> rsps;
  go_three : length (ag_lb (sy_agent s)) = 3%nat;
  go_good : Forall rl_good (ag_lb (sy_agent s));
  go_from : Forall (rl_from (bound rsps (data_map (sy_route s)))) (ag_lb (sy_agent s));
  go_queue : Forall request_askable (w_dns_queue (ag_world (sy_agent s)));
  go_requests : Forall request_askable (sy_requests s);
  go_rsps : Forall (fun rsp => msg_ok rsp /\ askable (grs_modid rsp) (grs_cmdid rsp) /\
              rsp_keys rsp ⊆ table_keys (data_map (sy_route s)) (rsp_key rsp)) rsps;
  go_sorted : StronglySorted extends rsps
}.

Lemma askable_queue w : Forall request_askable (w_dns_queue w) -> Forall request_ok (w_dns_queue w).
Proof. intros Hq. eapply Forall_impl; [exact Hq|]. by intros q (? & ? & _). Qed.

(** An operation on one thread that keeps its modules sound and within their bounds. *)
Lemma grow_on_lb {A} (f : route_lb -> world -> res (A * route_lb * world)) i a x a' F :
  on_lb i f a = Ok (x, a') -> Forall rl_good (ag_lb a) -> Forall (rl_from F) (ag_lb a) ->
  exists r r' w', f r (ag_world a) = Ok (x, r', w') /\ ag_world a' = w' /\ length (ag_lb a') = length (ag_lb a) /\ rl_good r /\ rl_from F r /\
    (rl_good r' -> rl_from F r' -> Forall rl_good (ag_lb a') /\ Forall (rl_from F) (ag_lb a')).
Proof.
  unfold on_lb. intros Ho Hg Hf. apply bind_ok in Ho as (j & _ & Ho). apply bind_ok in Ho as (r & Hr & Ho). apply of_option_ok in Hr.
  apply bind_ok in Ho as ([[x1 r1] w1] & Hfr & [= <- <-]). exists r, r1, w1. split; [done|]. split; [done|]. cbn.
  split; [by rewrite length_insert|]. split; [by eapply Forall_lookup_1|]. split; [by eapply Forall_lookup_1|].
  intros Hg1 Hf1. split; by apply Forall_insert.
Qed.
(** The operations keep both. *)
Lemma get_host_within F req r w ret rsp r' w' :
  is_i32 (ghq_modid req) -> is_i32 (ghq_cmdid req) -> Forall request_ok (w_dns_queue w) -> rl_good r -> rl_from F r ->
  RouteLb.get_host cfg (ghq_modid req) (ghq_cmdid req) (new_host_response req) r w = Ok (ret, rsp, r', w') -> rl_good r' /\ rl_from F r'.
Proof.
  intros Hm Hc Hq Hg Hf Hget. destruct (get_host_from cfg F req r w ret rsp r' w' Hm Hc Hf Hq Hget) as [Hf' _]. split; [|done].
  destruct (exec_get_host_ok cfg (ghq_modid req) (ghq_cmdid req) (new_host_response req) r w Hg) as (? & ? & ? & ? & Heq & Hg').
  rewrite Hget in Heq. by injection Heq as _ _ <- _.
Qed.

Lemma get_route_within F modid cmdid r w ret rsp r' w' :
  is_i32 modid -> is_i32 cmdid -> Forall request_ok (w_dns_queue w) -> rl_good r -> rl_from F r ->
  RouteLb.get_route cfg modid cmdid (new_route_response modid cmdid) r w = Ok (ret, rsp, r', w') -> rl_good r' /\ rl_from F r'.
Proof.
  intros Hm Hc Hq Hg Hf Hget. destruct (get_route_from cfg F modid cmdid r w ret rsp r' w' Hm Hc Hf Hq Hget) as [Hf' _]. split; [|done].
  destruct (exec_get_route_ok cfg modid cmdid (new_route_response modid cmdid) r w Hg) as (? & ? & ? & ? & Heq & Hg').
  rewrite Hget in Heq. by injection Heq as _ _ <- _.
Qed.

Lemma report_within F req r w r' w' :
  Forall request_ok (w_dns_queue w) -> rl_good r -> rl_from F r -> report_host cfg req r w = Ok (r', w') -> rl_good r' /\ rl_from F r'.
Proof.
  intros Hq Hg Hf Hrep. destruct (report_from cfg F req r w r' w' Hf Hq Hrep) as [Hf' _]. split; [|done].
  destruct (exec_report_ok cfg req r w Hg) as (? & ? & Heq & Hg'). rewrite Hrep in Heq. by injection Heq as <- _.
Qed.

(** An answer that lists everything its module knows: the module then has exactly the
    hosts of the answer, or is gone when there are none. *)
Lemma update_within F rsp r w :
  rl_good r -> rl_from F r -> F (rsp_key rsp) ⊆ rsp_keys rsp ->
  exists r' w', update_host cfg (grs_modid rsp) (grs_cmdid rsp) rsp r w = Ok (0, r', w') /\ w_dns_queue w' = w_dns_queue w /\ rl_good r' /\
    (forall k, k <> rsp_key rsp -> rl_map r' !! k = rl_map r !! k) /\
    match rl_map r' !! rsp_key rsp with
    | Some lb' => lb_from (rsp_keys rsp) (rsp_key rsp) lb' /\ dom (lb_host_map lb') = rsp_keys rsp
    | None => rl_map r !! rsp_key rsp = None \/ grs_host rsp = []
    end.
Proof.
  intros Hg Hf HF. unfold update_host. fold (rsp_key rsp). destruct (rl_map r !! rsp_key rsp) as [lb|] eqn:Hlb.
  2:{ exists r, w. do 4 (split; [done|]). rewrite Hlb. by left. }
  destruct (Hg _ _ Hlb) as [Hwf Hint Hkey]. pose proof (Hf _ _ Hlb) as [_ _ Hids Hdom].
  destruct (Nat.eqb_spec (length (grs_host rsp)) 0) as [Hz|Hz].
  - eexists _, w. do 2 (split; [done|]). split; [by apply map_Forall_delete|]. cbn. rewrite lookup_delete_eq.
    split; [intros k Hk; by apply lookup_delete_ne|]. right. by apply length_zero_iff_nil.
  - assert (grs_host rsp <> []) as Hne by (intros He; by rewrite He in Hz).
    pose proof (update_outcome cfg rsp lb w Hwf Hne) as Hu. rewrite decide_True in Hu by (rewrite Hint; set_solver).
    destruct Hu as (lb' & w' & -> & [Hq _] & [Hwf' [Hkm Hkc _] _ _ Hd Hlive _]). fold (rsp_keys rsp) in *.
    assert (dom (lb_host_map lb') = rsp_keys rsp) as Hd'
      by (rewrite Hd, (comm_L (∪)); apply subseteq_union_1_L; by etransitivity).
    eexists _, w'. do 2 (split; [done|]). cbn [rl_set rl_set_map rl_map]. rewrite lookup_insert_eq. split; [|split; [intros k Hk; by apply lookup_insert_ne|]].
    + apply rl_good_set; [done|]. split; [done| |by eapply good_key].
      unfold lb_intact, dead_keys. rewrite Hd, Hlive, keys_of_domain, Hint. apply reconcile_nothing_lost. rewrite keys_of_domain in Hdom. set_solver.
    + split; [|done]. split; [done|by eapply good_key|by rewrite Hkm, Hkc|by rewrite Hd'].
Qed.

(** *** The messages *)

Lemma bound_cons rsp rsps m k : bound (rsp :: rsps) m k ⊆ bound rsps m k.
Proof. intros x. rewrite !elem_of_bound. intros [Hx Hall]. split; [done|]. intros rsp' Hin. apply Hall. by right. Qed.

Lemma bound_table rsps m m' k : m !!! k ⊆ m' !!! k -> bound rsps m k ⊆ bound rsps m' k.
Proof. intros Hm x. rewrite !elem_of_bound. intros [Hx Hall]. split; [by apply (table_keys_mono m m' k Hm)|done]. Qed.

Lemma bound_nil rsps m k : bound rsps m k ⊆ bound [] m k.
Proof. intros x. rewrite !elem_of_bound. intros [Hx _]. split; [done|]. by intros rsp Hin%not_elem_of_nil. Qed.

(** A new answer is from the table: everything before it is among its hosts. *)
Lemma answer_grows s rsps modid cmdid :
  grow_ok s rsps -> askable modid cmdid ->
  grow_ok (with_answer (msg_encode (route_response modid cmdid (sy_route s))) s) (rsps ++ [route_response modid cmdid (sy_route s)]).
Proof.
  intros [Ha H3 Hg Hf Hq Hr Hrs Hso] Hask. pose proof Hask as (Hm & Hc & _).
  set (rsp := route_response modid cmdid (sy_route s)).
  assert (rsp_keys rsp = table_keys (data_map (sy_route s)) (rsp_key rsp)) as Hkeys by apply response_keys.
  split; cbn; [by rewrite Ha, fmap_app|done|done| |done|done| |].
  - eapply Forall_impl; [exact Hf|]. intros r. apply rl_from_mono. intros k x. rewrite !elem_of_bound. intros [Hx Hall]. split; [done|].
    intros rsp' [Hin|Hin%list_elem_of_singleton]%elem_of_app Hk; [by apply Hall|]. subst rsp'. by rewrite Hkeys, Hk.
  - apply Forall_app. split; [done|]. apply Forall_singleton. split; [by apply route_response_ok|]. split; [done|by rewrite Hkeys].
  - clear Ha Hf. induction Hso as [|a l Hso IH Hle]; [by constructor; constructor|]. apply Forall_cons in Hrs as [(_ & _ & Hin) Hrs].
    constructor; [by apply IH|]. apply Forall_app. split; [done|]. apply Forall_singleton. intros Hk. by rewrite Hkeys, <-Hk.
Qed.

(** Delivering the first answer. *)
Lemma deliver_grows s rsp rsps :
  grow_ok s (rsp :: rsps) -> exists a, deal_recv_route cfg (msg_encode rsp) (sy_agent s) = Ok a /\
    grow_ok (System a (sy_route s) (sy_requests s) (msg_encode <$> rsps) (sy_replied s) (sy_tables s)) rsps /\
    exists r r', let i := Z.to_nat (route_index (grs_modid rsp) (grs_cmdid rsp)) in
      ag_lb (sy_agent s) !! i = Some r /\ ag_lb a = <[i := r']> (ag_lb (sy_agent s)) /\ w_dns_queue (ag_world a) = w_dns_queue (ag_world (sy_agent s)) /\
      (forall k, k <> rsp_key rsp -> rl_map r' !! k = rl_map r !! k) /\
      match rl_map r' !! rsp_key rsp with
      | Some lb' => dom (lb_host_map lb') = rsp_keys rsp
      | None => rl_map r !! rsp_key rsp = None \/ grs_host rsp = []
      end.
Proof.
  intros [Ha H3 Hg Hf Hq Hr Hrs Hso]. apply Forall_cons in Hrs as [(Hok & Hask & Hin) Hrs]. apply StronglySorted_inv in Hso as [Hso Hle].
  set (i := Z.to_nat (route_index (grs_modid rsp) (grs_cmdid rsp))). pose proof Hask as (_ & _ & Hidx & _).
  assert (route_index (grs_modid rsp) (grs_cmdid rsp) < 3) as Hlt by (unfold route_index; pose proof (Z.rem_bound_abs (i32 (grs_modid rsp + grs_cmdid rsp)) 3); lia).
  destruct (lookup_lt_is_Some_2 (ag_lb (sy_agent s)) i) as [r Hri]; [unfold i; lia|].
  pose proof (Forall_lookup_1 _ _ _ _ Hg Hri) as Hgr. pose proof (Forall_lookup_1 _ _ _ _ Hf Hri) as Hfr.
  destruct (update_within _ rsp r (ag_world (sy_agent s)) Hgr Hfr) as (r' & w' & Hup & Hqw & Hg' & Hoth & Hown).
  { cbn [bound]. rewrite decide_True by done. set_solver. }
  pose proof (deal_recv_route_run cfg i (sy_agent s) rsp r 0 r' w' Hok ltac:(unfold i; lia) Hri Hup) as Hd.
  eexists. split; [exact Hd|]. split.
  - split; cbn; [done|by rewrite length_insert|by apply Forall_insert| |by rewrite Hqw|done|done|done].
    apply Forall_insert; [eapply Forall_impl; [exact Hf|]; intros r0; apply rl_from_mono; intros k; apply bound_cons|].
    intros k lb Hlb. destruct (decide (k = rsp_key rsp)) as [->|Hne].
    + rewrite Hlb in Hown. destruct Hown as [Hfrom _]. eapply lb_from_mono; [|exact Hfrom]. intros x Hx. apply elem_of_bound. split; [set_solver|].
      intros rsp' Hin' Hk. rewrite Forall_forall in Hle. apply (Hle rsp' Hin'); [by symmetry|done].
    + rewrite (Hoth k Hne) in Hlb. eapply lb_from_mono; [apply bound_cons|by apply Hfr].
  - exists r, r'. split; [done|]. split; [done|]. split; [done|]. split; [done|]. destruct (rl_map r' !! rsp_key rsp); [apply Hown|done].
Qed.

(** The table is loaded anew, with more hosts. *)
Lemma reload_grows s rsps r :
  grow_ok s rsps -> (forall k, data_map (sy_route s) !!! k ⊆ data_map r !!! k) ->
  grow_ok (System (sy_agent s) r (sy_requests s) (sy_answers s) (sy_replied s) (sy_tables s ++ [data_map r])) rsps.
Proof.
  intros [Ha H3 Hg Hf Hq Hr Hrs Hso] Ht. split; cbn; [done|done|done| |done|done| |done].
  - eapply Forall_impl; [exact Hf|]. intros r0. apply rl_from_mono. intros k. by apply bound_table.
  - eapply Forall_impl; [exact Hrs|]. intros rsp (Hok & Hask & Hin). split; [done|]. split; [done|]. etransitivity; [exact Hin|by apply table_keys_mono].
Qed.

(** A new connection: what was under way is lost, the modules are NEW. *)
Lemma reconnect_grows s rsps :
  grow_ok s rsps -> grow_ok (System (conn_init (sy_agent s)) (sy_route s) [] [] (sy_replied s) (sy_tables s)) [].
Proof.
  intros [Ha H3 Hg Hf Hq Hr Hrs Hso]. split; cbn; [done|by rewrite length_fmap| | |done|constructor|constructor|constructor].
  - apply Forall_fmap. eapply Forall_impl; [exact Hg|]. intros r Hgr. apply map_Forall_fmap. intros k lb Hlb. by apply good_set_status, Hgr.
  - apply Forall_fmap. eapply Forall_impl; [exact Hf|]. intros r Hfr. apply map_Forall_fmap. intros k lb Hlb.
    destruct (Hfr _ _ Hlb) as [Hwf Hk Hi HF]. split; [by apply wf_set_status|done|done|]. etransitivity; [exact HF|apply (bound_nil rsps)].
Qed.

(** A step of the agent's udp servers. *)
Lemma agent_grows s rsps a l :
  grow_ok s rsps -> length (ag_lb a) = length (ag_lb (sy_agent s)) -> Forall rl_good (ag_lb a) ->
  Forall (rl_from (bound rsps (data_map (sy_route s)))) (ag_lb a) -> Forall request_askable (w_dns_queue (ag_world a)) ->
  grow_ok (with_replied l (with_agent a s)) rsps.
Proof. intros [Ha H3 Hg Hf Hq Hr Hrs Hso] Hl Hg' Hf' Hq'. split; cbn; [done|by rewrite Hl|done|done|done|done|done|done]. Qed.

Lemma answer_response req s :
  fill_hosts (hs_elements (get_hosts (grq_modid req) (grq_cmdid req) (sy_route s))) (new_route_response (grq_modid req) (grq_cmdid req)) =
  route_response (grq_modid req) (grq_cmdid req) (sy_route s).
Proof. by rewrite fill_hosts_fmap. Qed.

Lemma grow_ok_step s s' rsps : grow_ok s rsps -> grow_step s s' -> exists rsps', grow_ok s' rsps'.
Proof.
  intros Hs [Hstep Ht Hq' Ha']. pose proof (askable_queue _ (go_queue _ _ Hs)) as Hq.
  destruct Hstep as [i req rsp a s Hm Hc Ho|i modid cmdid rsp a s Hm Hc Ho|i req a s Ho|s|req rest s Hr rsp|mod_ s|rows r s Hl|d rest a s Hd Ho|s].
  - destruct (grow_on_lb _ _ _ _ _ _ Ho (go_good _ _ Hs) (go_from _ _ Hs)) as (r & r' & w' & Hf & Hw & Hlen & Hg & Hfr & Hset).
    apply bind_ok in Hf as ([[[ret rsp1] r1] w1] & Hget & [= <- <- <-]). destruct (get_host_within _ _ _ _ _ _ _ _ Hm Hc Hq Hg Hfr Hget) as [Hg1 Hf1].
    destruct (Hset Hg1 Hf1). exists rsps. by apply agent_grows.
  - destruct (grow_on_lb _ _ _ _ _ _ Ho (go_good _ _ Hs) (go_from _ _ Hs)) as (r & r' & w' & Hf & Hw & Hlen & Hg & Hfr & Hset).
    apply bind_ok in Hf as ([[[ret rsp1] r1] w1] & Hget & [= <- <- <-]). destruct (get_route_within _ _ _ _ _ _ _ _ _ Hm Hc Hq Hg Hfr Hget) as [Hg1 Hf1].
    destruct (Hset Hg1 Hf1). exists rsps. by apply agent_grows.
  - destruct (grow_on_lb _ _ _ _ _ _ Ho (go_good _ _ Hs) (go_from _ _ Hs)) as (r & r' & w' & Hf & Hw & Hlen & Hg & Hfr & Hset).
    apply bind_ok in Hf as ([r1 w1] & Hrep & [= <- <-]). destruct (report_within _ _ _ _ _ _ Hq Hg Hfr Hrep) as [Hg1 Hf1].
    destruct (Hset Hg1 Hf1) as [Hga Hfa]. exists rsps. pose proof (agent_grows s rsps a [] Hs Hlen Hga Hfa Hq') as Hok.
    destruct Hok. split; done.
  - exists rsps. destruct Hs as [Ha H3 Hg Hf Hqs Hr Hrs Hso]. split; cbn; [done|done|done|done|constructor|by apply Forall_app|done|done].
  - assert (request_askable req) as Hask by (pose proof (go_requests _ _ Hs) as Hrq; rewrite Hr in Hrq; by apply Forall_cons in Hrq as [? _]).
    unfold rsp. rewrite answer_response. eexists.
    apply (answer_grows (System (sy_agent s) (sy_route s) rest (sy_answers s) (sy_replied s) (sy_tables s)) rsps); [|exact Hask].
    destruct Hs as [Ha H3 Hg Hf Hqs Hrq Hrs Hso]. rewrite Hr in Hrq. apply Forall_cons in Hrq as [_ Hrq]. by split.
  - eexists. apply (answer_grows s rsps); [done|]. cbn [sy_answers with_answer] in Ha'. apply Forall_app in Ha' as [_ Ha']. apply Forall_singleton in Ha' as (rsp & He & Hok & Hask).
    pose proof (msg_roundtrip rsp Hok) as Hrt. destruct (key_ids mod_) as [Hhi Hlo].
    assert (msg_ok (route_response (key_hi_int mod_) (key_lo_int mod_) (sy_route s))) as Hro by by apply route_response_ok.
    rewrite <-He, (msg_roundtrip _ Hro) in Hrt. by injection Hrt as <-.
  - exists rsps. by apply reload_grows.
  - rewrite (go_answers _ _ Hs) in Hd. destruct rsps as [|rsp rsps]; [done|].
    assert (d = msg_encode rsp /\ rest = msg_encode <$> rsps) as [-> ->] by by injection Hd.
    destruct (deliver_grows s rsp rsps Hs) as (a' & Ha & Hok & _). rewrite Ho in Ha. injection Ha as <-. by exists rsps.
  - exists []. by apply (reconnect_grows s rsps).
Qed.

Lemma grow_reachable_ok r s : grow_reachable r s -> exists rsps, grow_ok s rsps.
Proof.
  intros Hr. assert (exists rsps, grow_ok (System init_lb_agent r [] [] [] [data_map r]) rsps) as Hstart.
  { exists []. split; cbn; [done|done| | |constructor|constructor|constructor|constructor]; do 3 (constructor; [apply map_Forall_empty|]); constructor. }
  unfold grow_reachable in Hr. induction Hr as [s|s1 s2 s3 Hstep _ IH]; [done|]. apply IH. destruct Hstart as [rsps Hs]. by eapply grow_ok_step.
Qed.

(** ** The messages under way *)

(** [new_dns_request], [get_route] of the dns service, [deal_recv_route]. *)
Inductive drain_step : system -> system -> Prop :=
| dr_requests s :
    w_dns_queue (ag_world (sy_agent s)) <> [] ->
    drain_step s (System (requests_taken (sy_agent s)) (sy_route s) (sy_requests s ++ w_dns_queue (ag_world (sy_agent s)))
                    (sy_answers s) (sy_replied s) (sy_tables s))
| dr_answer req rest s :
    sy_requests s = req :: rest ->
    drain_step s (with_answer (msg_encode (route_response (grq_modid req) (grq_cmdid req) (sy_route s)))
                    (System (sy_agent s) (sy_route s) rest (sy_answers s) (sy_replied s) (sy_tables s)))
| dr_deliver d rest a s :
    sy_answers s = d :: rest -> deal_recv_route cfg d (sy_agent s) = Ok a ->
    drain_step s (System a (sy_route s) (sy_requests s) rest (sy_replied s) (sy_tables s)).

(** They are steps of the system. *)
Lemma drain_sys s s' : drain_step s s' -> sys_step cfg s s'.
Proof.
  intros [s1 Hne|req rest s1 Hr|d rest a s1 Hd Ho]; [apply sys_requests| |by eapply sys_deliver].
  rewrite <-answer_response. by apply (sys_answer cfg req rest).
Qed.

(** Nothing is under way. *)
Definition quiet s : Prop := w_dns_queue (ag_world (sy_agent s)) = [] /\ sy_requests s = [] /\ sy_answers s = [].

Lemma drain_ok s s' rsps : grow_ok s rsps -> drain_step s s' -> exists rsps', grow_ok s' rsps'.
Proof.
  intros Hs Hstep. destruct Hstep as [s Hne|req rest s Hr|d rest a s Hd Ho].
  - exists rsps. destruct Hs as [Ha H3 Hg Hf Hqs Hr Hrs Hso]. split; cbn; [done|done|done|done|constructor|by apply Forall_app|done|done].
  - destruct Hs as [Ha H3 Hg Hf Hqs Hrq Hrs Hso]. rewrite Hr in Hrq. apply Forall_cons in Hrq as [Hask Hrq].
    eexists. apply (answer_grows (System (sy_agent s) (sy_route s) rest (sy_answers s) (sy_replied s) (sy_tables s)) rsps); [by split|done].
  - rewrite (go_answers _ _ Hs) in Hd. destruct rsps as [|rsp rsps]; [done|].
    assert (d = msg_encode rsp /\ rest = msg_encode <$> rsps) as [-> ->] by by injection Hd.
    destruct (deliver_grows s rsp rsps Hs) as (a' & Ha & Hok & _). rewrite Ho in Ha. injection Ha as <-. by exists rsps.
Qed.

Lemma quiet_nf s rsps : grow_ok s rsps -> nf drain_step s -> quiet s.
Proof.
  intros Hs Hnf. split_and!.
  - destruct (w_dns_queue (ag_world (sy_agent s))) eqn:Hq; [done|]. destruct Hnf. eexists. apply dr_requests. by rewrite Hq.
  - destruct (sy_requests s) as [|req rest] eqn:Hr; [done|]. destruct Hnf. eexists. by eapply dr_answer.
  - destruct rsps as [|rsp rsps]; [by rewrite (go_answers _ _ Hs)|]. destruct Hnf. destruct (deliver_grows s rsp rsps Hs) as (a & Ha & _).
    eexists. eapply dr_deliver; [exact (go_answers _ _ Hs)|exact Ha].
Qed.

(** A request in the queue has three steps to go, one that was sent two, an answer one. *)
Definition under_way s : nat := 3 * length (w_dns_queue (ag_world (sy_agent s))) + 2 * length (sy_requests s) + length (sy_answers s).

Lemma drain_measure s s' rsps : grow_ok s rsps -> drain_step s s' -> (under_way s' < under_way s)%nat.
Proof.
  intros Hs Hstep. unfold under_way. destruct Hstep as [s Hne|req rest s Hr|d rest a s Hd Ho]; cbn -[Nat.mul].
  - rewrite length_app. destruct (w_dns_queue _); [done|]. cbn -[Nat.mul]. lia.
  - rewrite Hr, length_app. cbn -[Nat.mul]. lia.
  - rewrite (go_answers _ _ Hs) in Hd. destruct rsps as [|rsp rsps]; [done|].
    assert (d = msg_encode rsp /\ rest = msg_encode <$> rsps) as [-> ->] by by injection Hd.
    destruct (deliver_grows s rsp rsps Hs) as (a' & Ha & _ & r & r' & _ & _ & Hq & _). rewrite Ho in Ha. injection Ha as <-.
    rewrite (go_answers _ _ Hs), Hq. cbn -[Nat.mul]. lia.
Qed.

Lemma drain_terminates s rsps : grow_ok s rsps -> sn drain_step s.
Proof.
  remember (under_way s) as n eqn:Hn. revert s rsps Hn. induction n as [n IH] using lt_wf_ind. intros s rsps -> Hs.
  constructor. intros s' Hstep. destruct (drain_ok s s' rsps Hs Hstep) as (rsps' & Hs'). eapply IH; [|done|exact Hs']. by eapply drain_measure.
Qed.

(** *** One module *)

(** The module in the thread that the agent hands its answers to. *)
Definition module_at (a : agent) (modid cmdid : Z) : option load_balance :=
  r ← ag_lb a !! Z.to_nat (route_index modid cmdid); rl_map r !! pack_key modid cmdid.

Lemma deliver_module s rsp rsps a modid cmdid :
  grow_ok s (rsp :: rsps) -> deal_recv_route cfg (msg_encode rsp) (sy_agent s) = Ok a -> is_i32 modid -> is_i32 cmdid ->
  w_dns_queue (ag_world a) = w_dns_queue (ag_world (sy_agent s)) /\
  if decide (rsp_key rsp = pack_key modid cmdid) then
    match module_at a modid cmdid with
    | Some lb => dom (lb_host_map lb) = rsp_keys rsp
    | None => module_at (sy_agent s) modid cmdid = None \/ grs_host rsp = []
    end
  else module_at a modid cmdid = module_at (sy_agent s) modid cmdid.
Proof.
  intros Hs Ho Hm Hc. destruct (deliver_grows s rsp rsps Hs) as (a' & Ha & _ & r & r' & Hr & Hlb & Hq & Hoth & Hown).
  rewrite Ho in Ha. injection Ha as <-. split; [done|]. unfold module_at. rewrite Hlb.
  pose proof (go_rsps _ _ Hs) as Hrs. apply Forall_cons in Hrs as [(_ & (Hrm & Hrc & _) & _) _].
  case_decide as Hk.
  - destruct (pack_key_inj (grs_modid rsp) (grs_cmdid rsp) modid cmdid Hrm Hrc Hm Hc Hk) as [Hem Hec]. rewrite <-Hem, <-Hec.
    rewrite list_lookup_insert_eq by (by eapply lookup_lt_Some). rewrite Hr. cbn. exact Hown.
  - destruct (decide (Z.to_nat (route_index (grs_modid rsp) (grs_cmdid rsp)) = Z.to_nat (route_index modid cmdid))) as [He|Hne].
    + rewrite <-He, list_lookup_insert_eq by (by eapply lookup_lt_Some). rewrite Hr. cbn. by apply Hoth.
    + by rewrite list_lookup_insert_ne.
Qed.

(** The module is known, and its hosts are asked for, or on their way, or there. *)
Record awaited (s : system) (rsps : list GetRouteResponse) (modid cmdid : Z) : Prop := {
  aw_known : is_Some (module_at (sy_agent s) modid cmdid);
  aw_hosts rsp : rsp ∈ rsps -> rsp_key rsp = pack_key modid cmdid -> grs_host rsp <> [];
  aw_settling : let table := table_keys (data_map (sy_route s)) (pack_key modid cmdid) in
    {| grq_modid := modid; grq_cmdid := cmdid |} ∈ w_dns_queue (ag_world (sy_agent s)) ++ sy_requests s \/
    (exists rsp, rsp ∈ rsps /\ rsp_key rsp = pack_key modid cmdid /\ rsp_keys rsp = table) \/
    exists lb, module_at (sy_agent s) modid cmdid = Some lb /\ dom (lb_host_map lb) = table
}.

(** What a module knows is bounded. *)
Lemma module_bound s rsps modid cmdid lb :
  grow_ok s rsps -> module_at (sy_agent s) modid cmdid = Some lb ->
  dom (lb_host_map lb) ⊆ bound rsps (data_map (sy_route s)) (pack_key modid cmdid) /\ lb_good (pack_key modid cmdid) lb.
Proof.
  intros Hs Hlb. unfold module_at in Hlb. destruct (ag_lb (sy_agent s) !! _) as [r|] eqn:Hr; [|done]. cbn in Hlb.
  pose proof (Forall_lookup_1 _ _ _ _ (go_from _ _ Hs) Hr _ _ Hlb) as []. split; [done|].
  exact (Forall_lookup_1 _ _ _ _ (go_good _ _ Hs) Hr _ _ Hlb).
Qed.

Lemma drain_awaited s s' rsps modid cmdid :
  grow_ok s rsps -> askable modid cmdid -> table_keys (data_map (sy_route s)) (pack_key modid cmdid) <> ∅ ->
  awaited s rsps modid cmdid -> drain_step s s' ->
  exists rsps', grow_ok s' rsps' /\ awaited s' rsps' modid cmdid /\ sy_route s' = sy_route s.
Proof.
  intros Hs Hask Hne [Hkn Hh Hset] Hstep. pose proof Hask as (Hm & Hc & _).
  destruct (drain_ok s s' rsps Hs Hstep) as [rsps1 Hs1]. destruct Hstep as [s Hq|req rest s Hr|d rest a s Hd Ho].
  - exists rsps. split; [|split; [split; [done|done|]|done]].
    + destruct Hs as [Ha H3 Hg Hf Hqs Hrq Hrs Hso]. split; cbn; [done|done|done|done|constructor|by apply Forall_app|done|done].
    + cbn in Hset |- *. rewrite (Permutation_app_comm (sy_requests s)). exact Hset.
  - pose proof (go_requests _ _ Hs) as Hrq. rewrite Hr in Hrq. apply Forall_cons in Hrq as [Hreq Hrest].
    exists (rsps ++ [route_response (grq_modid req) (grq_cmdid req) (sy_route s)]).
    split; [|split; [split; [done| |]|done]].
    + apply (answer_grows (System (sy_agent s) (sy_route s) rest (sy_answers s) (sy_replied s) (sy_tables s)) rsps); [|done]. destruct Hs. by split.
    + intros rsp [Hin| ->%list_elem_of_singleton]%elem_of_app Hk; [by apply Hh|]. intros Hnil. apply Hne.
      rewrite <-Hk. change (rsp_key _) with (pack_key (grq_modid req) (grq_cmdid req)).
      rewrite <-response_keys. unfold rsp_keys. rewrite Hnil. reflexivity.
    + rewrite Hr in Hset. destruct Hset as [Hin|[(rsp & Hin & Hrsp)|Hdone]].
      * apply elem_of_app in Hin as [Hin|Hin]; [left; by apply elem_of_app; left|]. apply elem_of_cons in Hin as [<-|Hin].
        -- right. left. eexists. split; [apply elem_of_app; right; by left|]. split; [done|apply response_keys].
        -- left. apply elem_of_app. by right.
      * right. left. exists rsp. split; [by apply elem_of_app; left|done].
      * by right; right.
  - rewrite (go_answers _ _ Hs) in Hd. destruct rsps as [|rsp rsps]; [done|].
    assert (d = msg_encode rsp /\ rest = msg_encode <$> rsps) as [-> ->] by by injection Hd.
    destruct (deliver_grows s rsp rsps Hs) as (a' & Ha & Hok & _). rewrite Ho in Ha. injection Ha as <-.
    destruct (deliver_module s rsp rsps a modid cmdid Hs Ho Hm Hc) as [Hq Hmod]. exists rsps.
    split; [exact Hok|]. split; [|done]. case_decide as Hk.
    + destruct (module_at a modid cmdid) as [lb|] eqn:Hlb.
      2:{ exfalso. destruct Hmod as [Hno|Hnil]; [rewrite Hno in Hkn; by destruct Hkn|]. exact (Hh rsp ltac:(by left) Hk Hnil). }
      split; cbn; [by rewrite Hlb|intros rsp' Hin; apply Hh; by right|]. rewrite Hq.
      destruct Hset as [Hque|[(rsp' & [->|Hin]%elem_of_cons & Hk' & Ht)|(lb0 & Hlb0 & Ht)]]; [by left| |right; left; by exists rsp'|].
      * right. right. exists lb. by rewrite Hmod.
      * right. right. exists lb. split; [done|]. rewrite Hmod. apply set_eq. intros x. split.
        -- pose proof (go_rsps _ _ Hs) as Hrs. apply Forall_cons in Hrs as [(_ & _ & Hin) _]. rewrite Hk in Hin. apply Hin.
        -- rewrite <-Ht. intros Hx. apply (module_bound _ _ _ _ _ Hs Hlb0), elem_of_bound in Hx as [_ Hx]. by apply Hx; [left|].
    + split; cbn; [by rewrite Hmod|intros rsp' Hin; apply Hh; by right|]. rewrite Hq, Hmod.
      destruct Hset as [Hque|[(rsp' & [->|Hin]%elem_of_cons & Hk' & Ht)|?]]; [by left|done|right; left; by exists rsp'|by right; right].
Qed.

(** A module with hosts serves. *)
Lemma known_serves modid cmdid lb rsp r w :
  lb_good (pack_key modid cmdid) lb -> lb_host_map lb <> ∅ -> rl_map r !! pack_key modid cmdid = Some lb ->
  exists ret rsp' r' w', RouteLb.get_host cfg modid cmdid rsp r w = Ok (ret, rsp', r', w') /\
    ghs_retcode rsp' = ret /\ (ret = RET_SUCC \/ ret = RET_OVERLOAD).
Proof.
  intros [Hwf Hint _] Hne Hlb. unfold RouteLb.get_host. rewrite Hlb. unfold lb_empty. rewrite bool_decide_false by done.
  pose proof (intact_lists lb Hwf Hint Hne) as Hl.
  destruct (choice_safe cfg rsp lb Hwf Hl) as (ret & rsp1 & lb1 & Hch & _). rewrite Hch. cbn [mbind res_bind].
  destruct (refresh cfg lb1 w) as [lb2 w2]. do 4 eexists. split; [done|]. split; [done|]. by eapply choice_retcode.
Qed.

Lemma awaited_done s rsps modid cmdid :
  grow_ok s rsps -> quiet s -> awaited s rsps modid cmdid ->
  exists lb, module_at (sy_agent s) modid cmdid = Some lb /\ dom (lb_host_map lb) = table_keys (data_map (sy_route s)) (pack_key modid cmdid).
Proof.
  intros Hs (Hq & Hr & Ha) [_ _ Hset]. rewrite Hq, Hr in Hset. destruct Hset as [Hin|[(rsp & Hin & _)|Hdone]]; [by apply not_elem_of_nil in Hin| |done].
  rewrite (go_answers _ _ Hs) in Ha. destruct rsps; [by apply not_elem_of_nil in Hin|done].
Qed.

Lemma drains_awaited s s' rsps modid cmdid :
  grow_ok s rsps -> askable modid cmdid -> table_keys (data_map (sy_route s)) (pack_key modid cmdid) <> ∅ ->
  awaited s rsps modid cmdid -> rtc drain_step s s' ->
  exists rsps', grow_ok s' rsps' /\ awaited s' rsps' modid cmdid /\ sy_route s' = sy_route s.
Proof.
  intros Hs Hask Hne Haw Hr. revert rsps Hs Hne Haw. induction Hr as [s|s1 s2 s3 Hstep _ IH]; intros rsps Hs Hne Haw; [by exists rsps|].
  destruct (drain_awaited s1 s2 rsps modid cmdid Hs Hask Hne Haw Hstep) as (rsps2 & Hs2 & Haw2 & Hrt).
  destruct (IH rsps2 Hs2) as (rsps3 & Hs3 & Haw3 & Hrt3); [by rewrite Hrt|done|]. exists rsps3. split; [done|]. split; [done|congruence].
Qed.

Lemma nf_quiet s : quiet s -> nf drain_step s.
Proof. intros (Hq & Hr & Ha) [s' Hstep]. destruct Hstep as [s Hne|req rest s Hr'|d rest a s Hd Ho]; congruence. Qed.
End progress.

(** ** Properties *)

(** C2: Every module that is asked for gets its hosts.  In every state that the agent
    and the dns service reach while its table only gains hosts and (0, 0) and the
    modules without a thread are not asked for, whatever else is asked, reported,
    pushed, reloaded or lost with a connection: the messages under way are all
    handled, without a fault and in any order of the threads; and then a known
    module whose request was under way has exactly the hosts of the table, and
    get_host answers it with one of them (or that all are overloaded), provided
    that no answer saying it has none was already on its way. *)
Theorem asked_module_gets_its_hosts `{Clock} `{HashOrder} `{WireFormat} cfg r s modid cmdid :
  grow_reachable cfg r s -> is_Some (module_at (sy_agent s) modid cmdid) ->
  {| grq_modid := modid; grq_cmdid := cmdid |} ∈ w_dns_queue (ag_world (sy_agent s)) ++ sy_requests s ->
  data_map (sy_route s) !!! pack_key modid cmdid <> ∅ ->
  (forall rsp, msg_ok rsp -> msg_encode rsp ∈ sy_answers s -> rsp_key rsp = pack_key modid cmdid -> grs_host rsp <> []) ->
  sn (drain_step cfg) s /\
  forall s', rtc (drain_step cfg) s s' -> nf (drain_step cfg) s' ->
    quiet s' /\ exists lb, module_at (sy_agent s') modid cmdid = Some lb /\
      dom (lb_host_map lb) = table_keys (data_map (sy_route s)) (pack_key modid cmdid) /\
      forall rsp r w, rl_map r !! pack_key modid cmdid = Some lb ->
        exists ret rsp' r' w', RouteLb.get_host cfg modid cmdid rsp r w = Ok (ret, rsp', r', w') /\
          ghs_retcode rsp' = ret /\ (ret = RET_SUCC \/ ret = RET_OVERLOAD).
Proof.
  intros Hr Hkn Hreq Hne Hans. destruct (grow_reachable_ok cfg r s Hr) as [rsps Hs]. split; [by eapply drain_terminates|]. intros s' Hrun Hnf.
  assert (askable modid cmdid) as Hask.
  { pose proof (Forall_app_2 _ _ _ (go_queue _ _ Hs) (go_requests _ _ Hs)) as Hall. rewrite Forall_forall in Hall. exact (Hall _ Hreq). }
  assert (table_keys (data_map (sy_route s)) (pack_key modid cmdid) <> ∅) as Hkeys.
  { apply set_choose_L in Hne as [ip Hip]. intros He. apply (not_elem_of_empty (C := gset Z) (key_of (host_of ip))). rewrite <-He.
    apply elem_of_table_keys. by exists ip. }
  assert (awaited s rsps modid cmdid) as Haw.
  { split; [done| |by left]. intros rsp Hin. pose proof (go_rsps _ _ Hs) as Hrs. rewrite Forall_forall in Hrs. destruct (Hrs _ Hin) as [Hok _].
    apply Hans; [done|]. rewrite (go_answers _ _ Hs). apply list_elem_of_fmap. by exists rsp. }
  destruct (drains_awaited cfg s s' rsps modid cmdid Hs Hask Hkeys Haw Hrun) as (rsps' & Hs' & Haw' & Hrt).
  pose proof (quiet_nf cfg s' rsps' Hs' Hnf) as Hquiet. split; [done|].
  destruct (awaited_done s' rsps' modid cmdid Hs' Hquiet Haw') as (lb & Hlb & Hdom). exists lb. split; [done|]. rewrite Hrt in Hdom. split; [done|].
  intros rsp r0 w Hl. apply (known_serves cfg modid cmdid lb); [by apply (module_bound _ _ _ _ _ Hs' Hlb)| |done].
  intros He. apply Hkeys. by rewrite <-Hdom, He, dom_empty_L.
Qed.

Module ProgressDemo.
Import SystemDemo.
#[local] Existing Instances wire_varint.
#[local] Existing Instances SystemDemo.demo_order SystemDemo.demo_clock.

(** One request of an application, and what follows. *)
Lemma asked_drained : rtc (drain_step lb_agent_ini) s1 s4.
Proof.
  apply (rtc_l _ _ s2); [|apply (rtc_l _ _ s3); [|apply rtc_once]].
  - apply (dr_requests lb_agent_ini s1). vm_compute. discriminate.
  - exact (dr_answer lb_agent_ini {| grq_modid := 1; grq_cmdid := 1 |} [] s2 eq_refl).
  - refine (dr_deliver lb_agent_ini (hd [] (sy_answers s3)) [] (sy_agent s4) s3 _ _); vm_compute; reflexivity.
Qed.

Lemma asked_module_gets_its_hosts_witness : exists lb,
  module_at (sy_agent s4) 1 1 = Some lb /\ dom (lb_host_map lb) = table_keys (data_map route0) (pack_key 1 1).
Proof.
  destruct (asked_module_gets_its_hosts lb_agent_ini route0 s1 1 1) as [_ Hall].
  - apply rtc_once. split.
    + apply (ask_step 2 req0); [unfold is_i32; cbn; lia|unfold is_i32; cbn; lia|]. vm_compute. reflexivity.
    + assert (sy_route s1 = route0) as -> by (vm_compute; reflexivity). cbn [sy_route]. intros k x Hx. exact Hx.
    + assert (w_dns_queue (ag_world (sy_agent s1)) = [{| grq_modid := 1; grq_cmdid := 1 |}]) as -> by (vm_compute; reflexivity).
      constructor; [|constructor]. unfold request_askable, askable, is_i32. cbn [grq_modid grq_cmdid].
      assert (route_index 1 1 = 2) as -> by reflexivity. lia.
    + assert (sy_answers s1 = []) as -> by (vm_compute; reflexivity). constructor.
  - assert (exists lb, module_at (sy_agent s1) 1 1 = Some lb) as [lb ->] by (vm_compute; by eexists). by eexists.
  - assert (w_dns_queue (ag_world (sy_agent s1)) = [{| grq_modid := 1; grq_cmdid := 1 |}]) as -> by (vm_compute; reflexivity). by left.
  - vm_compute. discriminate.
  - assert (sy_answers s1 = []) as -> by (vm_compute; reflexivity). by intros rsp _ Hin%not_elem_of_nil.
  - destruct (Hall s4 asked_drained) as (_ & lb & Hlb & Hdom & _); [apply nf_quiet; split_and!; vm_compute; reflexivity|].
    exists lb. split; [exact Hlb|exact Hdom].
Defined.
End ProgressDemo.
