(* ===== verification/Channel.v ===== *)
(** * Channel: the connection between the agent and the dns service, byte by byte

    System has the messages between the two as lists.  Here they are what they are in
    the program: an endpoint of the reactor on either side, with its buffers, and the
    bytes on their way.  [channel_refines_system]: whatever the two processes do and
    however the kernel cuts the streams, what they do is a run of System. *)

From S2P Require Import Prelude Keys Proto HostNode LoadBalance BalanceSpec RouteLb RouteSpec Bytes Wire Messages.
From S2P Require Import EventLoop BufPool ReactorBuf Stream StreamSpec TcpConn TcpClient Udp DnsRoute Subscribe DnsService AgentService System.
From stdpp Require Import base numbers list gmap fin_maps relations.
From Stdlib Require Import ZArith Lia.
Open Scope Z_scope.

(** ** Frames on their way *)

Definition frames (ms : list (Z * bytes)) : bytes := concat ((fun m => frame m.1 m.2) <$> ms).
#[global] Arguments frames : simpl never.
Definition message_ok (m : Z * bytes) : Prop := is_i32 m.1 /\ length m.2 <= MESSAGE_LENGTH_LIMIT.

Lemma frames_app ms1 ms2 : frames (ms1 ++ ms2) = frames ms1 ++ frames ms2.
Proof. unfold frames. by rewrite fmap_app, concat_app. Qed.

(** The front of a sequence of frames: the first of its messages, and the beginning of
    the others. *)
Lemma parse_front ms pre post :
  Forall message_ok ms -> frames ms = pre ++ post ->
  exists ms1 ms2 rest, ms = ms1 ++ ms2 /\ parse pre = (ms1, More rest) /\ frames ms2 = rest ++ post.
Proof.
  intros Hms. revert pre. induction Hms as [|[mid body] ms [Hm Hb] _ IH]; intros pre Heq.
  { cbn in Heq. symmetry in Heq. apply app_nil in Heq as [-> ->]. exists [], [], []. rewrite parse_scan. done. }
  unfold frames in Heq. cbn [fmap list_fmap concat fst snd] in Heq. fold (frames ms) in Heq.
  pose proof (scan_frame_app pre post) as Hs. rewrite <-Heq, scan_frame_frame in Hs by done. rewrite parse_scan.
  destruct (scan_frame pre) as [| |mid' body' rest]; [|done|].
  - exists [], ((mid, body) :: ms), pre. split; [done|]. split; [done|exact Heq].
  - injection Hs as <- <- Hr. destruct (IH rest Hr) as (ms1 & ms2 & rest' & -> & Hp & Hf).
    exists ((mid, body) :: ms1), ms2, rest'. rewrite Hp. done.
Qed.

(** What [read_messages] does with one handler it does with another that succeeds where
    the first does, and so does [do_read]. *)
Section handlers.
Context {C T A K X : Type} `{Epoll K}.
Context (clean : endpoint C T A K X -> res (endpoint C T A K X)) (h h' : Z -> bytes -> endpoint C T A K X -> res (endpoint C T A K X)).
Context (Hh : forall mid data e e', h mid data e = Ok e' -> h' mid data e = Ok e').

Lemma read_messages_handler fuel e e' : read_messages clean h fuel e = Ok e' -> read_messages clean h' fuel e = Ok e'.
Proof.
  revert e. induction fuel as [|fuel IH]; intros e; cbn [read_messages]; [done|].
  destruct (rb_length _ _) as [len|]; cbn [mbind res_bind]; [|done]. destruct (len <? MESSAGE_HEAD_LEN); [done|].
  destruct (rb_peek _ _ _) as [hb|]; cbn [mbind res_bind]; [|done]. destruct (_ || _); [done|]. destruct (len <? _); [done|].
  destruct (ibuf_pop _ e) as [e1|]; cbn [mbind res_bind]; [|done]. unfold call_router. intros Hr.
  apply bind_ok in Hr as (e2 & Hc & Hr). apply bind_ok in Hc as (data & -> & Hc). cbn [mbind res_bind]. rewrite (Hh _ _ _ _ Hc).
  cbn [mbind res_bind]. apply bind_ok in Hr as (e3 & -> & Hr). cbn [mbind res_bind]. by apply IH.
Qed.

Lemma do_read_handler io e e' : ep_do_read clean h io e = Ok e' -> ep_do_read clean h' io e = Ok e'.
Proof.
  unfold ep_do_read. intros Hr. apply bind_ok in Hr as ([[ret ib] p] & -> & Hr). cbn [mbind res_bind].
  destruct (ret =? -1); [done|]. apply bind_ok in Hr as (e1 & -> & Hr). cbn [mbind res_bind].
  apply bind_ok in Hr as (len & -> & Hr). cbn [mbind res_bind]. apply bind_ok in Hr as (e2 & Hm & Hr).
  by rewrite (read_messages_handler _ _ _ Hm).
Qed.
End handlers.

(** A handler whose faults do not end. *)
Definition blocking {X} (h : Z -> bytes -> X -> res X) (mid : Z) (data : bytes) (e : X) : res X :=
  match h mid data e with Ok e => Ok e | Err _ => Err Blocked end.

(** A fault of [do_read] is one of the handler, or it does not come from it. *)
Section faults.
Context {C T A K X : Type} `{Epoll K}.
Context (clean : endpoint C T A K X -> res (endpoint C T A K X)) (h : Z -> bytes -> endpoint C T A K X -> res (endpoint C T A K X)).

Lemma read_messages_blocking fuel e f :
  read_messages clean h fuel e = Err f -> read_messages clean (blocking h) fuel e = Err f \/ exists mid data e1, h mid data e1 = Err f.
Proof.
  revert e. induction fuel as [|fuel IH]; intros e; cbn [read_messages]; [by left|].
  destruct (rb_length _ _) as [len|]; cbn [mbind res_bind]; [|by left]. destruct (len <? MESSAGE_HEAD_LEN); [done|].
  destruct (rb_peek _ _ _) as [hb|]; cbn [mbind res_bind]; [|by left]. destruct (_ || _); [by left|]. destruct (len <? _); [done|].
  destruct (ibuf_pop _ e) as [e1|]; cbn [mbind res_bind]; [|by left]. unfold call_router, blocking at 2.
  destruct (if msglen (head_of_bytes hb) =? 0 then Ok [] else _) as [data|]; cbn [mbind res_bind]; [|by left].
  destruct (h _ data _) as [e2|f'] eqn:Hc; cbn [mbind res_bind]; [|intros Hf; right; eexists _, _, _; by rewrite Hc, Hf].
  destruct (ibuf_pop _ e2) as [e3|]; cbn [mbind res_bind]; [apply IH|by left].
Qed.

Lemma do_read_blocking io e f :
  ep_do_read clean h io e = Err f -> ep_do_read clean (blocking h) io e = Err f \/ exists mid data e1, h mid data e1 = Err f.
Proof.
  unfold ep_do_read. destruct (read_data _ _ _) as [[[ret ib] p]|]; cbn [mbind res_bind]; [|by left].
  destruct (ret =? -1); [by left|]. match goal with |- context [if ?b then clean ?x else _] => destruct (if b then clean x else Ok x) as [e1|] end;
    cbn [mbind res_bind]; [|by left].
  destruct (rb_length _ _) as [len|]; cbn [mbind res_bind]; [|by left].
  destruct (read_messages clean h _ e1) as [e2|f'] eqn:Hm; cbn [mbind res_bind].
  - assert (read_messages clean (blocking h) (S (Z.to_nat len)) e1 = Ok e2) as ->; [|by left].
    eapply read_messages_handler; [|exact Hm]. intros mid data e3 e4 Hc. unfold blocking. by rewrite Hc.
  - intros [= ->]. destruct (read_messages_blocking _ _ _ Hm) as [->|?]; [by left|by right].
Qed.
End faults.

(** ** The two ends *)

Section channel.
Context {T K : Type} `{Epoll K} `{Clock} `{HashOrder} `{WireFormat} (cfg : load_balance_config).
Abbreviation client := (endpoint io_proc T Z K (client_env agent unit unit unit)).
Abbreviation conn := (endpoint io_proc T Z K (server_env dns_app)).

(** The callbacks of the dns client, with what it registered. *)
Definition dns_client_read (io : read_io) (e : client) : res client := TcpClient.client_do_read dns_start_hook (dns_msg_callback cfg) io e.
Definition dns_client_write (ws : list write_result) (e : client) : res client := client_do_write dns_start_hook ws e.
Definition dns_conn_write (ws : list write_result) (e : conn) : res conn := do_write (Some clear_subscribe) ws e.

Definition request_msg (q : GetRouteRequest) : Z * bytes := (ID_GetRouteRequest, msg_encode q).
Definition answer_msg (d : bytes) : Z * bytes := (ID_GetRouteResponse, d).

(** [ch_up], [ch_down]: the bytes written by the agent, by the dns service, that the
    other side has not read.  The last two are the history, as in System. *)
Record channel := Channel {
  ch_client : client;
  ch_conn : conn;
  ch_up : bytes;
  ch_down : bytes;
  ch_replied : list (Z * Z * HostInfo);
  ch_tables : list route_map
}.
Definition ch_agent (c : channel) : agent := client_app (ch_client c).
Definition ch_route (c : channel) : Route := da_route (se_app (e_env (ch_conn c))).

(** Room for [n] more bytes behind the pending output. *)
Definition room {X} (e : endpoint io_proc T Z K X) (n : nat) : Prop :=
  exists len, rb_length (e_obuf e) (e_pool e) = Ok len /\ len + n <= m8M.

(** The receiver takes no message longer than MESSAGE_LENGTH_LIMIT. *)
Definition small_table (r : Route) : Prop :=
  forall modid cmdid, 22 + 24 * size (get_hosts modid cmdid r) <= MESSAGE_LENGTH_LIMIT.

Definition with_client (e : client) (c : channel) : channel :=
  Channel e (ch_conn c) (ch_up c) (ch_down c) (ch_replied c) (ch_tables c).
Definition with_conn (e : conn) (c : channel) : channel :=
  Channel (ch_client c) e (ch_up c) (ch_down c) (ch_replied c) (ch_tables c).
Definition given (l : list (Z * Z * HostInfo)) (c : channel) : channel :=
  Channel (ch_client c) (ch_conn c) (ch_up c) (ch_down c) (ch_replied c ++ l) (ch_tables c).

Inductive ch_step : channel -> channel -> Prop :=
(** the callbacks of the agent's udp servers *)
| ch_get_host i req rsp a c :
    is_i32 (ghq_modid req) -> is_i32 (ghq_cmdid req) ->
    on_lb i (fun r w => '(_, rsp, r, w) ← RouteLb.get_host cfg (ghq_modid req) (ghq_cmdid req) (new_host_response req) r w; Ok (rsp, r, w))
      (ch_agent c) = Ok (rsp, a) ->
    ch_step c (given (given_host rsp) (with_client (set_client_app a (ch_client c)) c))
| ch_get_route i modid cmdid rsp a c :
    is_i32 modid -> is_i32 cmdid ->
    on_lb i (fun r w => '(_, rsp, r, w) ← RouteLb.get_route cfg modid cmdid (new_route_response modid cmdid) r w; Ok (rsp, r, w))
      (ch_agent c) = Ok (rsp, a) ->
    ch_step c (given (given_route rsp) (with_client (set_client_app a (ch_client c)) c))
| ch_report i req a c :
    on_lb i (fun r w => '(r, w) ← report_host cfg req r w; Ok (tt, r, w)) (ch_agent c) = Ok (tt, a) ->
    ch_step c (with_client (set_client_app a (ch_client c)) c)
(** the dns client: [new_dns_request], [do_write], [do_read] *)
| ch_requests e c :
    room (ch_client c) (length (frames (request_msg <$> w_dns_queue (ag_world (ch_agent c))))) ->
    new_dns_request (ch_client c) = Ok e -> ch_step c (with_client e c)
| ch_client_write ws e out c :
    WriteError ∉ ws -> dns_client_write ws (ch_client c) = Ok e -> e_wire e = e_wire (ch_client c) ++ out ->
    ch_step c (Channel e (ch_conn c) (ch_up c ++ out) (ch_down c) (ch_replied c) (ch_tables c))
| ch_client_read n chunk down e c :
    ch_down c = chunk ++ down -> chunk <> [] -> length chunk <= m8M - 65535 ->
    dns_client_read (deliver (n, chunk)) (ch_client c) = Ok e ->
    ch_step c (Channel e (ch_conn c) (ch_up c) down (ch_replied c) (ch_tables c))
(** the connection of the dns service: [do_read], [do_write] and a module that is
    pushed *)
| ch_conn_read n chunk up e c :
    ch_up c = chunk ++ up -> chunk <> [] -> length chunk <= m8M - 65535 ->
    (forall inb, holds_bytes (e_pool (ch_conn c)) (e_ibuf (ch_conn c)) inb ->
       room (ch_conn c) (length (replies (route_reply (ch_route c)) (parse (inb ++ chunk)).1))) ->
    dns_do_read (deliver (n, chunk)) (ch_conn c) = Ok e ->
    ch_step c (Channel (ch_client c) e up (ch_down c) (ch_replied c) (ch_tables c))
| ch_conn_write ws e out c :
    WriteError ∉ ws -> dns_conn_write ws (ch_conn c) = Ok e -> e_wire e = e_wire (ch_conn c) ++ out ->
    ch_step c (Channel (ch_client c) e (ch_up c) (ch_down c ++ out) (ch_replied c) (ch_tables c))
| ch_push mod_ e c :
    let rsp := msg_encode (route_response (key_hi_int mod_) (key_lo_int mod_) (ch_route c)) in
    room (ch_conn c) (8 + length rsp) -> send_message rsp ID_GetRouteResponse (ch_conn c) = Ok (0, e) ->
    ch_step c (with_conn e c)
(** the rest of the dns service: [check_route_changes], the other connections *)
| ch_reload rows r c :
    reload rows (ch_route c) = Ok r -> small_table r ->
    ch_step c (Channel (ch_client c) (set_env (set_route r (e_env (ch_conn c))) (ch_conn c)) (ch_up c) (ch_down c)
                 (ch_replied c) (ch_tables c ++ [data_map r]))
| ch_others x c :
    da_route (se_app x) = ch_route c -> (forall fd, fd_in_table fd (e_env (ch_conn c)) -> fd_in_table fd x) ->
    ch_step c (with_conn (set_env x (ch_conn c)) c).

(** An endpoint that has neither read nor sent anything, among the others of its
    thread; the client has registered its callback. *)
Definition wired (_ : Z) (x : client_env agent unit unit unit) : Prop :=
  router_call ID_GetRouteResponse (ce_router x) = Some (tt, Some tt).

Record ch_start (r : Route) (others_c others_s : list tenant) (c : channel) : Prop := {
  cs_client : exists F, ep_ok wired others_c F (ch_client c) [] [];
  cs_conn : exists G, ep_ok fd_in_table others_s G (ch_conn c) [] [];
  cs_bufs : e_ibuf (ch_client c) = None /\ e_ibuf (ch_conn c) = None;
  cs_fresh : ch_up c = [] /\ ch_down c = [] /\ ch_replied c = [] /\ ch_tables c = [data_map r];
  cs_agent : ch_agent c = init_lb_agent;
  cs_route : ch_route c = r /\ small_table r
}.

Inductive ch_reachable (c0 : channel) : channel -> Prop :=
| ch_init : ch_reachable c0 c0
| ch_next c c' : ch_reachable c0 c -> ch_step c c' -> ch_reachable c0 c'.

(** ** Every run is a run of System *)

Section refinement.
Context (others_c others_s : list tenant).
Implicit Types (c : channel) (s : system).

(** The buffers and the bytes on their way hold the messages on their way, in order. *)
Record ends_ok c s (F G : gmap Z (list ptr)) (inb_c outb_c inb_s outb_s : bytes) : Prop := {
  en_client : ep_ok wired others_c F (ch_client c) inb_c outb_c;
  en_client_start : at_start (e_pool (ch_client c)) (e_ibuf (ch_client c));
  en_conn : ep_ok (route_is (sy_route s)) others_s G (ch_conn c) inb_s outb_s;
  en_conn_start : at_start (e_pool (ch_conn c)) (e_ibuf (ch_conn c));
  en_up : frames (request_msg <$> sy_requests s) = inb_s ++ ch_up c ++ outb_c;
  en_down : frames (answer_msg <$> sy_answers s) = inb_c ++ ch_down c ++ outb_s;
  en_unread_c : scan_frame inb_c = NeedMore;
  en_unread_s : scan_frame inb_s = NeedMore
}.

Record ch_sim c s : Prop := {
  sm_agent : ch_agent c = sy_agent s;
  sm_replied : ch_replied c = sy_replied s;
  sm_tables : ch_tables c = sy_tables s;
  sm_small : small_table (sy_route s);
  sm_answers : Forall (fun d => length d <= MESSAGE_LENGTH_LIMIT) (sy_answers s);
  sm_ends : exists F G inb_c outb_c inb_s outb_s, ends_ok c s F G inb_c outb_c inb_s outb_s
}.

Lemma sim_route c s : ch_sim c s -> ch_route c = sy_route s.
Proof. intros [_ _ _ _ _ (F & G & ? & ? & ? & ? & [])]. apply (eo_env _ _ _ _ _ _ en_conn0). Qed.

(** *** The messages *)

Lemma requests_fit qs : Forall message_ok (request_msg <$> qs).
Proof.
  apply Forall_fmap, Forall_forall. intros q _. split; [by vm_compute|]. cbn. unfold GetRouteRequest_serialize. rewrite length_app.
  pose proof (length_prim 1 (grq_modid q)). pose proof (length_prim 2 (grq_cmdid q)). unfold MESSAGE_LENGTH_LIMIT, MESSAGE_HEAD_LEN. lia.
Qed.

Lemma answers_fit ds : Forall (fun d => length d <= MESSAGE_LENGTH_LIMIT) ds -> Forall message_ok (answer_msg <$> ds).
Proof. intros Hd. apply Forall_fmap. eapply Forall_impl; [exact Hd|]. intros d Hl. split; [by vm_compute|done]. Qed.

Lemma response_small modid cmdid r : small_table r -> length (msg_encode (route_response modid cmdid r)) <= MESSAGE_LENGTH_LIMIT.
Proof. intros Hs. pose proof (route_response_length modid cmdid r). pose proof (Hs modid cmdid). lia. Qed.

(** What the dns service answers to requests is what System says. *)
Definition response_to (r : Route) (q : GetRouteRequest) : bytes := msg_encode (route_response (grq_modid q) (grq_cmdid q) r).

Lemma replies_requests r qs : Forall request_ok qs ->
  replies (route_reply r) (request_msg <$> qs) = frames (answer_msg <$> (response_to r <$> qs)).
Proof.
  unfold replies, frames. induction 1 as [|q qs Hq _ IH]; [done|]. cbn [fmap list_fmap concat fst snd] in *. rewrite IH. f_equal.
  unfold route_reply, request_msg, answer_msg. cbn [fst snd]. rewrite Z.eqb_refl, msg_roundtrip by exact Hq. done.
Qed.

Lemma answered_run qs rest s : sy_requests s = qs ++ rest ->
  rtc (sys_step cfg) s (System (sy_agent s) (sy_route s) rest (sy_answers s ++ (response_to (sy_route s) <$> qs)) (sy_replied s) (sy_tables s)).
Proof.
  revert s. induction qs as [|q qs IH]; intros s Hs.
  { rewrite app_nil_r. cbn in Hs. rewrite <-Hs. by destruct s. }
  eapply rtc_l; [by eapply sys_answer|]. rewrite fill_hosts_fmap. cbn [grs_modid grs_cmdid grs_host new_route_response app].
  change (msg_encode _) with (response_to (sy_route s) q). eapply transitivity; [apply IH; done|].
  cbn. rewrite <-app_assoc. done.
Qed.

(** What the agent does with answers. *)
Definition client_reply (mid : Z) (data : bytes) (st st' : bytes * client_env agent unit unit unit) : Prop :=
  st'.1 = st.1 /\ (mid = ID_GetRouteResponse -> deal_recv_route cfg data (ce_app st.2) = Ok (ce_app st'.2)).

Lemma client_serves others :
  handler_serves wired others (blocking (client_router_call (dns_msg_callback (T := T) (K := K) cfg))) (fun _ _ _ => True) client_reply.
Proof.
  intros inb outb x mid data _ F e Hok Hx. unfold blocking, client_router_call. pose proof (eo_env _ _ _ _ _ _ Hok) as Hw. unfold wired in Hw.
  destruct (router_call mid (ce_router (e_env e))) as [[cb ud]|] eqn:Hc.
  - unfold dns_msg_callback, client_app. destruct (deal_recv_route cfg data (ce_app (e_env e))) as [a|f] eqn:Hd; cbn [mbind res_bind]; [|by right].
    split; [|done]. exists F, outb. split; [same_ep Hok|]. split; [done|]. intros _. cbn. by rewrite <-Hx.
  - split; [|done]. exists F, outb. split; [done|]. split; [done|]. intros ->. congruence.
Qed.

Lemma delivered_run ds rest outb x st' s :
  served client_reply (answer_msg <$> ds) (outb, x) st' -> sy_agent s = ce_app x -> sy_answers s = ds ++ rest ->
  st'.1 = outb /\ rtc (sys_step cfg) s (System (ce_app st'.2) (sy_route s) (sy_requests s) rest (sy_replied s) (sy_tables s)).
Proof.
  revert outb x s. induction ds as [|d ds IH]; intros outb x s Hs Ha Hr.
  { inversion Hs; subst. split; [done|]. cbn in *. rewrite <-Hr, <-Ha. by destruct s. }
  inversion Hs as [|? ? ? ? [outb1 x1] ? [Ho Hd] Hs1]; subst. cbn in Ho, Hd. subst outb1. specialize (Hd eq_refl).
  destruct (IH outb x1 (System (ce_app x1) (sy_route s) (sy_requests s) (ds ++ rest) (sy_replied s) (sy_tables s)) Hs1 eq_refl eq_refl) as [Ho Hrun].
  split; [done|]. eapply rtc_l; [|exact Hrun]. eapply sys_deliver; [exact Hr|]. by rewrite Ha.
Qed.

(** [new_dns_request] sends what the queue holds. *)
Lemma forward_all F (e : client) inb outb qs :
  ep_ok wired others_c F e inb outb -> at_start (e_pool e) (e_ibuf e) -> length outb + length (frames (request_msg <$> qs)) <= m8M ->
  match foldM (forward ID_GetRouteRequest) e qs with
  | Ok e' => exists F', ep_ok wired others_c F' e' inb (outb ++ frames (request_msg <$> qs)) /\ at_start (e_pool e') (e_ibuf e') /\ same_reader e e'
  | Err f => f = ExitFailure
  end.
Proof.
  revert F e outb. induction qs as [|q qs IH]; intros F e outb Hok Hst Hl; cbn [foldM].
  { exists F. rewrite app_nil_r. done. }
  unfold frames in Hl |- *. cbn [fmap list_fmap concat fst snd request_msg] in Hl |- *. fold (frames (request_msg <$> qs)) in Hl |- *.
  rewrite length_app, length_frame in Hl.
  change (forward ID_GetRouteRequest e q) with ('(_, e) ← ep_send_message write_callback (msg_encode q) ID_GetRouteRequest e; Ok e).
  destruct (send_message_spec wired others_c write_callback F e inb outb (msg_encode q) ID_GetRouteRequest Hok)
    as [->|(e1 & F1 & -> & Hok1 & Hsame & _ & Hst1 & _)]; [lia|done|]. cbn [mbind res_bind].
  specialize (IH F1 e1 _ Hok1 (Hst1 Hst)). rewrite length_app, length_frame in IH. specialize (IH ltac:(lia)).
  destruct (foldM _ e1 qs) as [e'|f]; [|done]. destruct IH as (F' & Hok' & Hst' & Hs'). exists F'. rewrite app_assoc.
  split; [done|]. split; [done|]. by eapply same_reader_trans.
Qed.

Lemma room_left {X} I others F (e : endpoint io_proc T Z K X) inb outb n :
  ep_ok I others F e inb outb -> room e n -> length outb + n <= m8M.
Proof. intros Hok (len & Hl & Hn). rewrite (holds_length _ _ _ (eo_out _ _ _ _ _ _ Hok)) in Hl. injection Hl as <-. done. Qed.

(** *** The steps *)

(** What the other threads of the agent do to it. *)
Lemma sim_agent c s a l :
  ch_sim c s -> ch_sim (given l (with_client (set_client_app a (ch_client c)) c)) (with_replied l (with_agent a s)).
Proof.
  intros [Ha Hr Ht Hs Hd (F & G & inb_c & outb_c & inb_s & outb_s & [])]. split; cbn; [done|by rewrite Hr|done|done|done|].
  exists F, G, inb_c, outb_c, inb_s, outb_s. split; [same_ep en_client0|done..].
Qed.

Lemma sim_requests c s e :
  ch_sim c s -> room (ch_client c) (length (frames (request_msg <$> w_dns_queue (ag_world (ch_agent c))))) ->
  new_dns_request (ch_client c) = Ok e ->
  ch_sim (with_client e c)
    (System (requests_taken (sy_agent s)) (sy_route s) (sy_requests s ++ w_dns_queue (ag_world (sy_agent s))) (sy_answers s) (sy_replied s) (sy_tables s)).
Proof.
  intros [Ha Hr Ht Hs Hd (F & G & inb_c & outb_c & inb_s & outb_s & [])] Hroom He. unfold new_dns_request in He. fold (ch_agent c) in He.
  set (e0 := set_client_app _ _) in He. assert (ep_ok wired others_c F e0 inb_c outb_c) as Hok by same_ep en_client0.
  pose proof (forward_all F e0 inb_c outb_c (w_dns_queue (ag_world (ch_agent c))) Hok en_client_start0 (room_left _ _ _ _ _ _ _ en_client0 Hroom)) as Hf.
  rewrite He in Hf. destruct Hf as (F' & Hok' & Hst' & (_ & _ & _ & _ & _ & Henv)). split; cbn; [|done|done|done|done|].
  - unfold ch_agent, client_app. cbn. rewrite Henv. unfold e0. cbn. by rewrite Ha.
  - exists F', G, inb_c, (outb_c ++ frames (request_msg <$> w_dns_queue (ag_world (ch_agent c)))), inb_s, outb_s.
    split; cbn; [done|done|done|done| |done|done|done]. by rewrite fmap_app, frames_app, en_up0, Ha, <-!app_assoc.
Qed.

Lemma sim_client_write c s ws e out :
  ch_sim c s -> WriteError ∉ ws -> dns_client_write ws (ch_client c) = Ok e -> e_wire e = e_wire (ch_client c) ++ out ->
  ch_sim (Channel e (ch_conn c) (ch_up c ++ out) (ch_down c) (ch_replied c) (ch_tables c)) s.
Proof.
  intros [Ha Hr Ht Hs Hd (F & G & inb_c & outb_c & inb_s & outb_s & [])] Hws He Hout.
  pose proof (do_write_spec wired others_c (client_clean_conn dns_start_hook) ws F _ _ _ en_client0 Hws) as Hw.
  unfold dns_client_write, client_do_write in He. rewrite He in Hw.
  destruct Hw as (out' & outb' & F' & -> & Hwire & Hok & (_ & _ & _ & _ & _ & Henv) & Hst & _).
  rewrite Hwire in Hout. apply app_inv_head in Hout as ->. split; cbn; [|done|done|done|done|].
  - unfold ch_agent, client_app. cbn. rewrite Henv. exact Ha.
  - exists F', G, inb_c, outb', inb_s, outb_s. split; cbn; [done|by apply Hst|done|done| |done|done|done]. by rewrite en_up0, <-!app_assoc.
Qed.

Lemma sim_conn_write c s ws e out :
  ch_sim c s -> WriteError ∉ ws -> dns_conn_write ws (ch_conn c) = Ok e -> e_wire e = e_wire (ch_conn c) ++ out ->
  ch_sim (Channel (ch_client c) e (ch_up c) (ch_down c ++ out) (ch_replied c) (ch_tables c)) s.
Proof.
  intros [Ha Hr Ht Hs Hd (F & G & inb_c & outb_c & inb_s & outb_s & [])] Hws He Hout.
  pose proof (do_write_spec (route_is (sy_route s)) others_s (clean_conn (Some clear_subscribe)) ws G _ _ _ en_conn0 Hws) as Hw.
  unfold dns_conn_write, do_write in He. rewrite He in Hw. destruct Hw as (out' & outb' & G' & -> & Hwire & Hok & _ & Hst & _).
  rewrite Hwire in Hout. apply app_inv_head in Hout as ->. split; cbn; [done|done|done|done|done|].
  exists F, G', inb_c, outb_c, inb_s, outb'. split; cbn; [done|done|done|by apply Hst|done| |done|done]. by rewrite en_down0, <-!app_assoc.
Qed.

Lemma sim_client_read c s n chunk down e :
  ch_sim c s -> ch_down c = chunk ++ down -> chunk <> [] -> length chunk <= m8M - 65535 ->
  dns_client_read (deliver (n, chunk)) (ch_client c) = Ok e ->
  exists s', rtc (sys_step cfg) s s' /\ ch_sim (Channel e (ch_conn c) (ch_up c) down (ch_replied c) (ch_tables c)) s'.
Proof.
  intros [Ha Hr Ht Hs Hd (F & G & inb_c & outb_c & inb_s & outb_s & [])] Hdown Hne Hl He.
  rewrite Hdown, <-app_assoc, (app_assoc inb_c) in en_down0.
  destruct (parse_front _ _ _ (answers_fit _ Hd) en_down0) as (ms1 & ms2 & rest & Hms & Hp & Hrest).
  apply fmap_app_inv in Hms as (ds1 & ds2 & -> & -> & Hds).
  unfold dns_client_read, TcpClient.client_do_read in He. apply (do_read_handler _ _ (blocking (client_router_call (dns_msg_callback cfg)))) in He;
    [|by intros mid data e1 e2 Hc; unfold blocking; rewrite Hc].
  pose proof (need_more_short _ en_unread_c0) as Hshort.
  pose proof (do_read_spec wired others_c (client_clean_conn dns_start_hook) _ _ _ (client_serves others_c) F (ch_client c) inb_c outb_c (n, chunk)
    en_client0 en_client_start0 Hne) as Hread. cbn [snd] in Hread. rewrite Hp, He in Hread.
  destruct Hread as (_ & _ & _ & F' & outb' & Hok & Hst & Hsv); [lia|apply all_fit_true|done|].
  assert (sy_agent s = ce_app (e_env (ch_client c))) as Hag by (by rewrite <-Ha).
  destruct (delivered_run ds1 ds2 outb_c _ _ s Hsv Hag Hds) as [Hob Hrun]. cbn in Hob. subst outb'. eexists. split; [exact Hrun|].
  rewrite Hds in Hd. apply Forall_app in Hd as [_ Hd]. split; cbn; [done|done|done|done|done|].
  exists F', G, rest, outb_c, inb_s, outb_s. split; cbn; [done|done|done|done|done|done| |done].
  eapply parse_more_short. by rewrite Hp.
Qed.

Lemma sim_conn_read c s n chunk up e :
  ch_sim c s -> Forall request_ok (sy_requests s) -> ch_up c = chunk ++ up -> chunk <> [] -> length chunk <= m8M - 65535 ->
  (forall inb, holds_bytes (e_pool (ch_conn c)) (e_ibuf (ch_conn c)) inb ->
     room (ch_conn c) (length (replies (route_reply (ch_route c)) (parse (inb ++ chunk)).1))) ->
  dns_do_read (deliver (n, chunk)) (ch_conn c) = Ok e ->
  exists s', rtc (sys_step cfg) s s' /\ ch_sim (Channel (ch_client c) e up (ch_down c) (ch_replied c) (ch_tables c)) s'.
Proof.
  intros Hsim Hq Hup Hne Hl Hroom He. rewrite (sim_route c s Hsim) in Hroom.
  destruct Hsim as [Ha Hr Ht Hs Hd (F & G & inb_c & outb_c & inb_s & outb_s & [])].
  rewrite Hup, <-app_assoc, (app_assoc inb_s) in en_up0.
  destruct (parse_front _ _ _ (requests_fit _) en_up0) as (ms1 & ms2 & rest & Hms & Hp & Hrest).
  apply fmap_app_inv in Hms as (qs1 & qs2 & -> & -> & Hqs).
  specialize (Hroom inb_s (eo_in _ _ _ _ _ _ en_conn0)). apply (room_left _ _ _ _ _ _ _ en_conn0) in Hroom. rewrite Hp in Hroom. cbn [fst] in Hroom.
  pose proof (need_more_short _ en_unread_s0) as Hshort. unfold dns_do_read, do_read in He.
  pose proof (do_read_spec (route_is (sy_route s)) others_s (clean_conn (Some clear_subscribe)) _ _ _ (dns_callback_serves others_s (sy_route s))
    G (ch_conn c) inb_s outb_s (n, chunk) en_conn0 en_conn_start0 Hne) as Hread. cbn [snd] in Hread. rewrite Hp, He in Hread.
  destruct Hread as (_ & _ & _ & G' & outb' & Hok & Hst & Hsv); [lia|by apply all_fit_answers|done|].
  apply served_answers in Hsv. cbn [fst] in Hsv. subst outb'. eexists. split; [by apply (answered_run qs1 qs2)|].
  rewrite Hqs in Hq. apply Forall_app in Hq as [Hq1 _]. rewrite (replies_requests _ _ Hq1) in Hok. split; cbn; [done|done|done|done| |].
  - apply Forall_app. split; [done|]. apply Forall_fmap, Forall_forall. intros q _. by apply response_small.
  - exists F, G', inb_c, outb_c, rest, (outb_s ++ frames (answer_msg <$> (response_to (sy_route s) <$> qs1))).
    split; cbn; [done|done|done|done|done| |done|eapply parse_more_short; by rewrite Hp]. by rewrite fmap_app, frames_app, en_down0, <-!app_assoc.
Qed.

Lemma sim_push c s mod_ e :
  ch_sim c s -> let rsp := msg_encode (route_response (key_hi_int mod_) (key_lo_int mod_) (ch_route c)) in
  room (ch_conn c) (8 + length rsp) -> send_message rsp ID_GetRouteResponse (ch_conn c) = Ok (0, e) ->
  ch_sim (with_conn e c) (with_answer (msg_encode (route_response (key_hi_int mod_) (key_lo_int mod_) (sy_route s))) s).
Proof.
  intros Hsim rsp Hroom He. assert (rsp = msg_encode (route_response (key_hi_int mod_) (key_lo_int mod_) (sy_route s))) as Hrsp
    by (unfold rsp; by rewrite (sim_route c s Hsim)). rewrite <-Hrsp. clearbody rsp.
  destruct Hsim as [Ha Hr Ht Hs Hd (F & G & inb_c & outb_c & inb_s & outb_s & [])].
  apply (room_left _ _ _ _ _ _ _ en_conn0) in Hroom.
  destruct (send_message_spec (route_is (sy_route s)) others_s conn_wt_callback G _ inb_s outb_s rsp ID_GetRouteResponse en_conn0)
    as [Hf|(e' & G' & Hs' & Hok & _ & _ & Hst & _)]; [lia|unfold send_message in He; congruence|].
  unfold send_message in He. rewrite He in Hs'. injection Hs' as <-. split; cbn; [done|done|done|done| |].
  - apply Forall_app. split; [done|]. apply Forall_singleton. rewrite Hrsp. by apply response_small.
  - exists F, G', inb_c, outb_c, inb_s, (outb_s ++ frame ID_GetRouteResponse rsp). split; cbn; [done|done|done|by apply Hst|done| |done|done].
    rewrite fmap_app, frames_app, en_down0, <-!app_assoc. unfold frames at 1. cbn. by rewrite app_nil_r.
Qed.

(** The rest of the dns service moves. *)
Lemma sim_env c s x r tables :
  ch_sim c s -> da_route (se_app x) = r -> small_table r -> (forall fd, fd_in_table fd (e_env (ch_conn c)) -> fd_in_table fd x) ->
  ch_sim (Channel (ch_client c) (set_env x (ch_conn c)) (ch_up c) (ch_down c) (ch_replied c) tables)
    (System (sy_agent s) r (sy_requests s) (sy_answers s) (sy_replied s) tables).
Proof.
  intros [Ha Hr Ht Hs Hd (F & G & inb_c & outb_c & inb_s & outb_s & [])] Hx Hsmall Hfd. split; cbn; [done|done|done|done|done|].
  exists F, G, inb_c, outb_c, inb_s, outb_s. split; cbn; try done.
  apply (ep_ok_env fd_in_table); [by intros fd|]. eapply (ep_ok_same _ _ _ (ch_conn c)); [|done..].
  eapply ep_ok_env; [|exact en_conn0]. by intros fd [].
Qed.

Lemma sim_step c s c' :
  sys_inv s -> ch_sim c s -> ch_step c c' -> exists s', rtc (sys_step cfg) s s' /\ ch_sim c' s'.
Proof.
  intros Hinv Hsim Hstep. pose proof (sim_route c s Hsim) as Hrt. pose proof (sm_agent _ _ Hsim) as Hag.
  destruct Hstep as [i req rsp a c Hm Hc Ho|i modid cmdid rsp a c Hm Hc Ho|i req a c Ho|e c Hroom He|ws e out c Hws He Hout|n chunk down e c Hdn Hne Hl He
    |n chunk up e c Hup Hne Hl Hroom He|ws e out c Hws He Hout|mod_ e c rsp Hroom He|rows r c Hre Hsm|x c Hx Hfd].
  - eexists. split; [apply rtc_once; rewrite Hag in Ho; by eapply sys_get_host|by apply sim_agent].
  - eexists. split; [apply rtc_once; rewrite Hag in Ho; exact (sys_get_route cfg i modid cmdid rsp a s Hm Hc Ho)|by apply sim_agent].
  - eexists. split; [apply rtc_once; rewrite Hag in Ho; by eapply sys_report|]. pose proof (sim_agent c s a [] Hsim) as Hs.
    destruct c, s. cbn in *. unfold given, with_replied in Hs. cbn in Hs. by rewrite !app_nil_r in Hs.
  - eexists. split; [apply rtc_once, sys_requests|by apply sim_requests].
  - exists s. split; [done|by eapply sim_client_write].
  - by eapply sim_client_read.
  - eapply sim_conn_read; [done|apply Hinv|done..].
  - exists s. split; [done|by eapply sim_conn_write].
  - eexists. split; [apply rtc_once, sys_push|by eapply sim_push].
  - eexists. split; [apply rtc_once; rewrite Hrt in Hre; by eapply sys_reload|]. rewrite (sm_tables _ _ Hsim). by apply sim_env.
  - exists s. split; [done|]. pose proof (sim_env c s x (sy_route s) (ch_tables c) Hsim) as Hs. rewrite Hrt in Hx.
    specialize (Hs Hx (sm_small _ _ Hsim) Hfd). rewrite (sm_tables _ _ Hsim) in Hs at 2. by destruct s.
Qed.

Lemma sys_steps_reachable r s s' : sys_reachable cfg r s -> rtc (sys_step cfg) s s' -> sys_reachable cfg r s'.
Proof. intros Hs Hrun. induction Hrun; [done|]. apply IHHrun. by eapply sys_next. Qed.

Lemma sys_reachable_inv r s : sys_reachable cfg r s -> sys_inv s.
Proof. induction 1 as [|s s' _ IH Hs]; [apply sys_inv_start|by eapply sys_inv_step]. Qed.

Lemma sim_start r c : ch_start r others_c others_s c -> ch_sim c (System init_lb_agent r [] [] [] [data_map r]).
Proof.
  intros [[F Hc] [G Hs] [Hib1 Hib2] (Hup & Hdn & Hrp & Htb) Ha [Hr Hsm]]. split; cbn; [done|done|done|done|constructor|].
  exists F, G, [], [], [], []. split; cbn; [done|by rewrite Hib1| |by rewrite Hib2|by rewrite Hup|by rewrite Hdn|done|done].
  eapply ep_ok_env; [|exact Hs]. by intros fd.
Qed.

Lemma sim_reachable r c0 c :
  ch_start r others_c others_s c0 -> ch_reachable c0 c -> exists s, sys_reachable cfg r s /\ ch_sim c s.
Proof.
  intros Hst. induction 1 as [|c c' _ (s & Hs & Hsim) Hstep].
  - eexists. split; [apply sys_start|by apply sim_start].
  - destruct (sim_step c s c' (sys_reachable_inv _ _ Hs) Hsim Hstep) as (s' & Hrun & Hsim'). exists s'. split; [|done].
    by eapply sys_steps_reachable.
Qed.

(** *** The operations return *)

Definition ch_total c s : Prop :=
  (forall ws, WriteError ∉ ws ->
     match dns_client_write ws (ch_client c) with Ok e => exists out, e_wire e = e_wire (ch_client c) ++ out | Err f => f = Blocked end) /\
  (forall ws, WriteError ∉ ws ->
     match dns_conn_write ws (ch_conn c) with Ok e => exists out, e_wire e = e_wire (ch_conn c) ++ out | Err f => f = Blocked end) /\
  (room (ch_client c) (length (frames (request_msg <$> w_dns_queue (ag_world (ch_agent c))))) ->
     match new_dns_request (ch_client c) with Ok _ => True | Err f => f = ExitFailure end) /\
  (forall n chunk up, ch_up c = chunk ++ up -> chunk <> [] -> length chunk <= m8M - 65535 ->
     (forall inb, holds_bytes (e_pool (ch_conn c)) (e_ibuf (ch_conn c)) inb ->
        room (ch_conn c) (length (replies (route_reply (ch_route c)) (parse (inb ++ chunk)).1))) ->
     match dns_do_read (deliver (n, chunk)) (ch_conn c) with
     | Ok _ => True
     | Err f => f = ExitFailure \/ f = Blocked \/ f = AssertFail /\ {| grq_modid := 0; grq_cmdid := 0 |} ∈ sy_requests s
     end) /\
  (forall n chunk down, ch_down c = chunk ++ down -> chunk <> [] -> length chunk <= m8M - 65535 ->
     match dns_client_read (deliver (n, chunk)) (ch_client c) with
     | Ok _ => True
     | Err f => f = ExitFailure \/ f = Blocked \/ f = AssertFail /\ [] ∈ sy_answers s \/ exists d a, deal_recv_route cfg d a = Err f
     end).

Lemma empty_end ms rest : ~ no_empty_end (ms, More rest) -> exists mid, (mid, []) ∈ ms.
Proof.
  intros Hn. destruct (last ms) as [[mid [|b body]]|] eqn:Hl; [exists mid; by apply last_Some_elem_of| |];
    exfalso; apply Hn; intros mid' Hl'; cbn in Hl'; congruence.
Qed.

Lemma empty_request q : request_ok q -> msg_encode q = [] -> q = {| grq_modid := 0; grq_cmdid := 0 |}.
Proof.
  intros Hq He. pose proof (msg_roundtrip q Hq) as Hr. rewrite He, <-zero_request_empty in Hr.
  rewrite (msg_roundtrip {| grq_modid := 0; grq_cmdid := 0 |}) in Hr by (by split). by injection Hr.
Qed.

Lemma sim_total c s : sys_inv s -> ch_sim c s -> ch_total c s.
Proof.
  intros Hinv Hsim. pose proof (sim_route c s Hsim) as Hrt. destruct Hsim as [Ha Hr Ht Hs Hd (F & G & inb_c & outb_c & inb_s & outb_s & [])].
  split; [|split; [|split; [|split]]].
  - intros ws Hws. pose proof (do_write_spec wired others_c (client_clean_conn dns_start_hook) ws F _ _ _ en_client0 Hws) as Hw.
    unfold dns_client_write, client_do_write. destruct (ep_do_write _ _ _); [|done]. destruct Hw as (out & _ & _ & _ & Hw & _). by exists out.
  - intros ws Hws. pose proof (do_write_spec (route_is (sy_route s)) others_s (clean_conn (Some clear_subscribe)) ws G _ _ _ en_conn0 Hws) as Hw.
    unfold dns_conn_write, do_write. destruct (ep_do_write _ _ _); [|done]. destruct Hw as (out & _ & _ & _ & Hw & _). by exists out.
  - intros Hroom. unfold new_dns_request. fold (ch_agent c). set (e0 := set_client_app _ _).
    assert (ep_ok wired others_c F e0 inb_c outb_c) as Hok by same_ep en_client0.
    pose proof (forward_all F e0 inb_c outb_c (w_dns_queue (ag_world (ch_agent c))) Hok en_client_start0 (room_left _ _ _ _ _ _ _ en_client0 Hroom)) as Hf.
    by destruct (foldM _ e0 _).
  - intros n chunk up Hup Hne Hl Hroom. rewrite Hrt in Hroom. rewrite Hup, <-app_assoc, (app_assoc inb_s) in en_up0.
    destruct (parse_front _ _ _ (requests_fit _) en_up0) as (ms1 & ms2 & rest & Hms & Hp & _).
    specialize (Hroom inb_s (eo_in _ _ _ _ _ _ en_conn0)). apply (room_left _ _ _ _ _ _ _ en_conn0) in Hroom. rewrite Hp in Hroom. cbn [fst] in Hroom.
    pose proof (need_more_short _ en_unread_s0). unfold dns_do_read, do_read.
    pose proof (do_read_spec (route_is (sy_route s)) others_s (clean_conn (Some clear_subscribe)) _ _ _ (dns_callback_serves others_s (sy_route s))
      G (ch_conn c) inb_s outb_s (n, chunk) en_conn0 en_conn_start0 Hne) as Hread. cbn [snd] in Hread. rewrite Hp in Hread.
    destruct (ep_do_read _ _ _ _) as [e|f]; [done|]. destruct Hread as [->|[->|[-> Hn]]]; [lia|by apply all_fit_answers|done|by left|by right; left|].
    right. right. split; [done|]. apply empty_end in Hn as [mid Hin].
    assert ((mid, []) ∈ request_msg <$> sy_requests s) as Hq by (rewrite Hms; apply elem_of_app; by left).
    apply list_elem_of_fmap in Hq as (q & Hq & Hqin). injection Hq as _ Hq. pose proof (si_requests _ Hinv) as Hall.
    rewrite Forall_forall in Hall. by rewrite <-(empty_request q (Hall q Hqin) (eq_sym Hq)).
  - intros n chunk down Hdown Hne Hl. rewrite Hdown, <-app_assoc, (app_assoc inb_c) in en_down0.
    destruct (parse_front _ _ _ (answers_fit _ Hd) en_down0) as (ms1 & ms2 & rest & Hms & Hp & _).
    unfold dns_client_read, TcpClient.client_do_read. destruct (ep_do_read _ (client_router_call _) _ _) as [e|f] eqn:He; [done|].
    apply do_read_blocking in He as [He|(mid & data & e1 & He)].
    + pose proof (need_more_short _ en_unread_c0).
      pose proof (do_read_spec wired others_c (client_clean_conn dns_start_hook) _ _ _ (client_serves others_c) F (ch_client c) inb_c outb_c (n, chunk)
        en_client0 en_client_start0 Hne) as Hread. cbn [snd] in Hread. rewrite Hp, He in Hread.
      destruct Hread as [->|[->|[-> Hn]]]; [lia|apply all_fit_true|done|by left|by right; left|]. right. right. left. split; [done|].
      apply empty_end in Hn as [mid Hin]. assert ((mid, []) ∈ answer_msg <$> sy_answers s) as Hq by (rewrite Hms; apply elem_of_app; by left).
      apply list_elem_of_fmap in Hq as (d & Hq & Hqin). by injection Hq as _ ->.
    + right. right. right. unfold client_router_call in He. destruct (router_call mid _) as [[cb ud]|]; [|done]. unfold dns_msg_callback in He.
      destruct (deal_recv_route cfg data (client_app e1)) as [a|f'] eqn:Hdl; [done|]. injection He as ->. by exists data, (client_app e1).
Qed.
End refinement.
End channel.

(** ** Properties *)

(** C4: The connection is what System takes it for.  Whatever the threads of the agent
    and of the dns service do, however the kernel cuts the two streams and interrupts
    reads and writes: the state is that of a run of System - the same agent, the same
    table, the same hosts given to applications - in which the requests on their way
    are what is buffered at the dns service, on the wire and pending at the agent, in
    this order, and the answers on their way correspondingly.  (As long as the pending
    bytes stay below the limit of the buffers and no module has more hosts than fit in
    a message.)  The operations of both ends return; what else can happen is the exit
    at the pool's memory limit, a system call that does not return, the assert at a
    message without a body, and a fault of update_host on an answer. *)
Theorem channel_refines_system {T K} `{Epoll K} `{Clock} `{HashOrder} `{WireFormat} cfg r others_c others_s (c0 c : channel (T := T) (K := K)) :
  ch_start r others_c others_s c0 -> ch_reachable cfg c0 c ->
  exists s, sys_reachable cfg r s /\
    sy_agent s = ch_agent c /\ sy_route s = ch_route c /\ sy_replied s = ch_replied c /\ sy_tables s = ch_tables c /\
    (exists inb_c outb_c inb_s outb_s,
      holds_bytes (e_pool (ch_client c)) (e_ibuf (ch_client c)) inb_c /\ holds_bytes (e_pool (ch_client c)) (e_obuf (ch_client c)) outb_c /\
      holds_bytes (e_pool (ch_conn c)) (e_ibuf (ch_conn c)) inb_s /\ holds_bytes (e_pool (ch_conn c)) (e_obuf (ch_conn c)) outb_s /\
      frames (request_msg <$> sy_requests s) = inb_s ++ ch_up c ++ outb_c /\
      frames (answer_msg <$> sy_answers s) = inb_c ++ ch_down c ++ outb_s) /\
    ch_total cfg c s.
Proof.
  intros Hst Hr. destruct (sim_reachable cfg others_c others_s r c0 c Hst Hr) as (s & Hs & Hsim). exists s. split; [done|].
  pose proof (sim_total cfg others_c others_s c s (sys_reachable_inv cfg r s Hs) Hsim) as Htot. pose proof (sim_route _ _ c s Hsim) as Hrt.
  destruct Hsim as [Ha Hrp Htb _ _ (F & G & inb_c & outb_c & inb_s & outb_s & [])].
  do 4 (split; [done|]). split; [|done]. exists inb_c, outb_c, inb_s, outb_s.
  split; [apply en_client0|]. split; [apply en_client0|]. split; [apply en_conn0|]. split; [apply en_conn0|done].
Qed.

(** ** A request and its answer, in pieces *)

Module ChannelDemo.
#[local] Existing Instances epoll_map wire_varint.
#[local] Instance demo_order : HashOrder := hash_order_list.
#[local] Instance demo_clock : Clock := clock_const 1000.
Abbreviation chan := (channel (T := unit) (K := gmap Z Z)).
Abbreviation step := (ch_step (T := unit) (K := gmap Z Z) lb_agent_ini).

Definition client0 (p : buf_pool) : endpoint io_proc unit Z (gmap Z Z) (client_env agent unit unit unit) :=
  Endpoint 9 90 None None (event_loop_new ∅) p
    (ClientEnv (Some tt) None None None (register_msg_router ID_GetRouteResponse tt tt msg_router_new).2 init_lb_agent) [] [] [].
Definition chan0 (p : buf_pool) : chan := Channel (client0 p) (ServiceDemo.conn1 p) [] [] [] [data_map ServiceDemo.route0].

Lemma small_tables r : map_Forall (fun _ hosts => 22 + 24 * size hosts <= MESSAGE_LENGTH_LIMIT) (data_map r) -> small_table r.
Proof.
  intros Hr modid cmdid. rewrite get_hosts_total, lookup_total_alt. destruct (data_map r !! _) as [hosts|] eqn:Hl; [by apply (Hr _ _ Hl)|].
  cbn. unfold MESSAGE_LENGTH_LIMIT, MESSAGE_HEAD_LEN. rewrite size_empty. lia.
Qed.

Lemma start0 F p : pool_ok F p -> ch_start ServiceDemo.route0 [] [] (chan0 p).
Proof.
  intros Hp. split; [exists F; constructor; try done; by constructor|exists F; by apply ServiceDemo.conn1_ok|done|done|done|].
  split; [done|]. apply small_tables. apply (bool_decide_unpack _). vm_compute. exact I.
Qed.

(** The steps as a function, to evaluate them. *)
Inductive op := Ask | Requests | ClientWrite (n : nat) | ConnRead (ms : list (Z * bytes)) | ConnWrite (n : nat) | ClientRead (n : nat).

Definition req0 : GetHostRequest := {| ghq_seq := 0; ghq_modid := 1; ghq_cmdid := 1 |}.
Definition run_op (c : chan) (o : op) : res chan :=
  match o with
  | Ask =>
      '(rsp, a) ← on_lb (Some 2%nat) (fun r w => '(_, rsp, r, w) ← RouteLb.get_host lb_agent_ini 1 1 (new_host_response req0) r w; Ok (rsp, r, w)) (ch_agent c);
      Ok (given (given_host rsp) (with_client (set_client_app a (ch_client c)) c))
  | Requests =>
      len ← rb_length (e_obuf (ch_client c)) (e_pool (ch_client c));
      ensure len + length (frames (request_msg <$> w_dns_queue (ag_world (ch_agent c)))) <=? m8M or Blocked;
      e ← new_dns_request (ch_client c); Ok (with_client e c)
  | ClientWrite n =>
      e ← dns_client_write [WriteRoom n; WriteEagain] (ch_client c);
      let out := drop (length (e_wire (ch_client c))) (e_wire e) in
      ensure bool_decide (e_wire e = e_wire (ch_client c) ++ out) or Blocked;
      Ok (Channel e (ch_conn c) (ch_up c ++ out) (ch_down c) (ch_replied c) (ch_tables c))
  | ConnRead ms =>
      len ← rb_length (e_obuf (ch_conn c)) (e_pool (ch_conn c));
      ensure bool_decide (ch_up c = frames ms) && negb (bool_decide (frames ms = [])) && (length (frames ms) <=? m8M - 65535) &&
        bool_decide (Forall message_ok ms) && bool_decide (e_ibuf (ch_conn c) = None) &&
        (len + length (replies (route_reply (ch_route c)) ms) <=? m8M) or Blocked;
      e ← dns_do_read (StreamSpec.deliver (0%nat, frames ms)) (ch_conn c);
      Ok (Channel (ch_client c) e [] (ch_down c) (ch_replied c) (ch_tables c))
  | ConnWrite n =>
      e ← dns_conn_write [WriteRoom n; WriteEagain] (ch_conn c);
      let out := drop (length (e_wire (ch_conn c))) (e_wire e) in
      ensure bool_decide (e_wire e = e_wire (ch_conn c) ++ out) or Blocked;
      Ok (Channel (ch_client c) e (ch_up c) (ch_down c ++ out) (ch_replied c) (ch_tables c))
  | ClientRead n =>
      let chunk := take n (ch_down c) in
      ensure negb (bool_decide (chunk = [])) && (length chunk <=? m8M - 65535) or Blocked;
      e ← dns_client_read lb_agent_ini (StreamSpec.deliver (1%nat, chunk)) (ch_client c);
      Ok (Channel e (ch_conn c) (ch_up c) (drop n (ch_down c)) (ch_replied c) (ch_tables c))
  end.

Lemma run_op_step c o c' : run_op c o = Ok c' -> step c c'.
Proof.
  unfold run_op. destruct o as [| |n|ms|n|n]; intros Hr.
  - apply bind_ok in Hr as ([rsp a] & Ho & [= <-]). by apply (ch_get_host _ (Some 2%nat) req0).
  - apply bind_ok in Hr as (len & Hl & Hr). destruct (Z.leb_spec (len + length (frames (request_msg <$> w_dns_queue (ag_world (ch_agent c))))) m8M) as [Hle|]; [|done].
    apply bind_ok in Hr as (e & He & [= <-]). apply ch_requests; [by exists len|done].
  - apply bind_ok in Hr as (e & He & Hr). case_bool_decide as Hw; [|done]. injection Hr as <-.
    eapply ch_client_write; [|exact He|exact Hw]. set_solver.
  - apply bind_ok in Hr as (len & Hl & Hr).
    match type of Hr with (if ?b then _ else _) = _ => destruct b eqn:Hg end; [|done].
    apply bind_ok in Hr as (e & He & [= <-]). rewrite !andb_true_iff in Hg. destruct Hg as (((((Hup & Hne) & Hlen) & Hms) & Hib) & Hroom).
    apply bool_decide_eq_true in Hup, Hms, Hib. apply negb_true_iff, bool_decide_eq_false in Hne. apply Z.leb_le in Hlen, Hroom.
    apply (ch_conn_read _ 0%nat (frames ms) []); [by rewrite app_nil_r|exact Hne|exact Hlen| |exact He].
    intros inb Hin. rewrite Hib in Hin. cbn in Hin. subst inb. cbn [app]. exists len. split; [done|].
    rewrite <-(app_nil_r (frames ms)). unfold frames. rewrite parse_frames by done. rewrite parse_scan. cbn. by rewrite app_nil_r.
  - apply bind_ok in Hr as (e & He & Hr). case_bool_decide as Hw; [|done]. injection Hr as <-.
    eapply ch_conn_write; [|exact He|exact Hw]. set_solver.
  - match type of Hr with (if ?b then _ else _) = _ => destruct b eqn:Hg end; [|done]. apply andb_true_iff in Hg as [Hne Hl].
    apply bind_ok in Hr as (e & He & [= <-]). apply negb_true_iff, bool_decide_eq_false in Hne.
    apply Z.leb_le in Hl. eapply ch_client_read; [by rewrite (take_drop n)|exact Hne|exact Hl|exact He].
Qed.

Lemma run_ops_reachable ops c0 c c' : ch_reachable lb_agent_ini c0 c -> foldM run_op c ops = Ok c' -> ch_reachable lb_agent_ini c0 c'.
Proof.
  revert c. induction ops as [|o ops IH]; intros c Hc Hr; cbn [foldM] in Hr; [by injection Hr as <-|].
  apply bind_ok in Hr as (c1 & H1 & Hr). eapply IH; [|exact Hr]. eapply ch_next; [exact Hc|by apply (run_op_step _ o)].
Qed.

(** An application asks for (1,1), which the agent does not know; the request goes out
    in two pieces and comes in as one, the answer is read in two; the application
    asks again. *)
Definition ops0 : list op :=
  [Ask; Requests; ClientWrite 5; ClientWrite 20; ConnRead [request_msg {| grq_modid := 1; grq_cmdid := 1 |}]; ConnWrite 100; ClientRead 7; ClientRead 100; Ask].
Definition asked_host : list (Z * Z * HostInfo) :=
  match buf_pool_new with
  | Ok p => match foldM run_op (chan0 p) ops0 with Ok c => ch_replied c | Err _ => [] end
  | Err _ => []
  end.

Lemma channel_refines_system_witness : exists (c : chan) s,
  ch_replied c = asked_host /\ length asked_host = 1%nat /\ sys_reachable lb_agent_ini ServiceDemo.route0 s /\ sy_replied s = asked_host.
Proof.
  destruct buf_pool_new_spec as (F & p & Hnew & Hp & _).
  assert (length asked_host = 1%nat) as Hlen by (vm_compute; reflexivity). unfold asked_host in *. rewrite Hnew in *.
  destruct (foldM run_op (chan0 p) ops0) as [c|f] eqn:Hc; [|discriminate].
  destruct (channel_refines_system lb_agent_ini ServiceDemo.route0 [] [] (chan0 p) c (start0 F p Hp)) as (s & Hs & _ & _ & Hrp & _).
  - eapply run_ops_reachable; [apply ch_init|exact Hc].
  - exists c, s. split; [reflexivity|]. split; [exact Hlen|]. split; [exact Hs|exact Hrp].
Defined.
End ChannelDemo.
