(* ===== verification/ApiExamples.v ===== *)
(** * ApiExamples: the programs that use the api (api/cpp/example)

    simulator, the load generator the services are tried with; example, get_host and
    get_route, which make each call once; qps, which measures.  What rand(), time() and
    the sockets answer are arguments.  [simulator_counts]: the statistics it prints are
    those of the reports it sent, each about a host the agent gave it. *)

From S2P Require Import Prelude Proto HostNode LoadBalance RouteLb Bytes Wire Messages Text EventLoop Stream TcpConn Udp AgentService LarsApi.
From stdpp Require Import base numbers list gmap strings.
From Stdlib Require Import ZArith Lia.
Open Scope Z_scope.

(** ** The programs *)

Section programs.
Context `{WireFormat} `{InetAddr}.
(** What the [n]-th [sendto], [rand()], [time(NULL)] answers; what is in the memory of
    the uninitialised [port]. *)
Context (sendto_at : nat -> send_result) (rand_at : nat -> Z) (port0 : Z).
(** What [socket] and [connect] answer, and what will come in on the sockets. *)
Context (answers : list (option Z * bool)) (input : list socket_input).

(** [atoi(argv[i])] *)
Definition int_arg (argv : list string) (i : nat) : res Z := s ← of_option OutOfBounds (argv !! i); Ok (atoi s).

(** [std::map<std::string, std::pair<int, int> > result], key: ip, value: the successes
    and the errors; at most [query_cnt] of them, so that no [int] overflows. *)
Abbreviation tallies := (gmap string (Z * Z)).
Record simulation := Simulation {
  su_api : lars_client;
  su_out : ip_port;        (* ip, port *)
  su_result : tallies;
  su_rands : nat           (* calls of rand() so far *)
}.

(** [result[ip]] *)
Definition tally_at (ip : string) (result : tallies) : Z * Z := default (0, 0) (result !! ip).

(** The first lines of a successful turn of simulator. *)
Definition first_seen (ip : string) (result : tallies) : tallies :=
  match result !! ip with None => <[ip := (0, 0)]> result | Some _ => result end.

(** One turn of the loop of simulator. *)
Definition simulator_turn (modid cmdid err_rate : Z) (s : simulation) : res simulation :=
  '(ret, out, api) ← LarsApi.get_host sendto_at modid cmdid (su_out s) (su_api s);
  let '(ip, port) := out : ip_port in
  if ret =? 0 then
    let result := first_seen ip (su_result s) in
    if Z.rem (rand_at (su_rands s)) 10 <? err_rate then
      let result := <[ip := let '(succ, err) := tally_at ip result in (succ, err + 1)]> result in
      api ← report sendto_at modid cmdid ip port 1 api;
      Ok (Simulation api out result (S (su_rands s)))
    else
      let result := <[ip := let '(succ, err) := tally_at ip result in (succ + 1, err)]> result in
      api ← report sendto_at modid cmdid ip port 0 api;
      Ok (Simulation api out result (S (su_rands s)))
  else Ok (Simulation api out (su_result s) (su_rands s)).

Fixpoint simulator_loop (turns : nat) (modid cmdid err_rate : Z) (s : simulation) : res simulation :=
  match turns with
  | O => Ok s
  | S turns => s ← simulator_turn modid cmdid err_rate s; simulator_loop turns modid cmdid err_rate s
  end.

(** [int main(int argc, char** argv)] of simulator: what it returns, and what it prints
    at the end. *)
Definition simulator (argv : list string) : res (Z * option simulation) :=
  if (length argv <? 3)%nat then Ok (1, None)
  else
    modid ← int_arg argv 1;
    cmdid ← int_arg argv 2;
    err_rate ← (if (3 <? length argv)%nat then int_arg argv 3 else Ok 2);
    query_cnt ← (if (4 <? length argv)%nat then int_arg argv 4 else Ok 100);
    api ← lars_client_new answers input;
    '(_, api) ← reg_init sendto_at modid cmdid api;
    s ← simulator_loop (Z.to_nat query_cnt) modid cmdid err_rate (Simulation api (EmptyString, port0) ∅ 0);
    Ok (0, Some s).

(** What example, get_host and get_route print: the host, and the hosts of the route. *)
Record printed := Printed {
  pr_host : option ip_port;
  pr_route : list ip_port
}.

(** [int main(int argc, char** argv)] of example *)
Definition example_main (argv : list string) : res (Z * printed * list (Z * bytes)) :=
  if negb (length argv =? 3)%nat then Ok (1, Printed None [], [])
  else
    api ← lars_client_new answers input;
    modid ← int_arg argv 1;
    cmdid ← int_arg argv 2;
    '(_, api) ← reg_init sendto_at modid cmdid api;
    '(ret, out, api) ← LarsApi.get_host sendto_at modid cmdid (EmptyString, port0) api;
    api ← (if ret =? 0 then let '(ip, port) := out : ip_port in report sendto_at modid cmdid ip port 1 api else Ok api);
    let host := if ret =? 0 then Some out else None in
    '(ret, route, api) ← LarsApi.get_route sendto_at modid cmdid [] api;
    Ok (0, Printed host (if ret =? 0 then route else []), lc_sent api).

(** [int main(int argc, char** argv)] of get_host *)
Definition get_host_main (argv : list string) : res (Z * printed) :=
  if negb (length argv =? 3)%nat then Ok (1, Printed None [])
  else
    api ← lars_client_new answers input;
    modid ← int_arg argv 1;
    cmdid ← int_arg argv 2;
    '(_, api) ← reg_init sendto_at modid cmdid api;
    '(ret, out, api) ← LarsApi.get_host sendto_at modid cmdid (EmptyString, port0) api;
    Ok (0, Printed (if ret =? 0 then Some out else None) []).

(** [int main(int argc, char** argv)] of get_route *)
Definition get_route_main (argv : list string) : res (Z * printed) :=
  if negb (length argv =? 3)%nat then Ok (1, Printed None [])
  else
    api ← lars_client_new answers input;
    modid ← int_arg argv 1;
    cmdid ← int_arg argv 2;
    '(_, api) ← reg_init sendto_at modid cmdid api;
    '(ret, route, api) ← LarsApi.get_route sendto_at modid cmdid [] api;
    Ok (0, Printed None (if ret =? 0 then route else [])).

(** [struct ID] of qps, and the ones its main gives to the threads. *)
Record ID := NewID { t_id : Z; id_modid : Z; id_cmdid : Z }.
Definition qps_ids (cnt : Z) : list ID := (fun i => NewID i (i + 1) 1) <$> seqZ 0 cnt.

(** The variables of [test_qps], with what it prints: qps and average. *)
Record qps_state := Qps {
  qs_api : lars_client;
  qs_out : ip_port;
  qs_qps : Z;
  qs_last_time : Z;
  qs_total_qps : Z;
  qs_total_time_second : Z;
  qs_printed : list (Z * Z)
}.

(** Up to the [while (1)] of [test_qps], which starts at [now]. *)
Definition qps_start (now : Z) (id : ID) : res qps_state :=
  api ← lars_client_new answers input;
  '(_, api) ← reg_init sendto_at (id_modid id) (id_cmdid id) api;
  Ok (Qps api (EmptyString, port0) 0 now 0 0 []).

(** One turn of it. *)
Definition qps_turn (id : ID) (current_time : Z) (s : qps_state) : res qps_state :=
  let modid := id_modid id in let cmdid := id_cmdid id in
  '(ret, out, api) ← LarsApi.get_host sendto_at modid cmdid (qs_out s) (qs_api s);
  let '(ip, port) := out : ip_port in
  '(qps, api) ← (if (ret =? 0) || (ret =? 1) || (ret =? 3) then
      let qps := qs_qps s + 1 in
      if ret =? 0 then api ← report sendto_at modid cmdid ip port 0 api; Ok (qps, api)
      else if ret =? 1 then api ← report sendto_at modid cmdid ip port 1 api; Ok (qps, api)
      else Ok (qps, api)
    else Ok (qs_qps s, api));
  if 1 <=? current_time - qs_last_time s then
    let total_time_second := qs_total_time_second s + 1 in
    let total_qps := qs_total_qps s + qps in
    Ok (Qps api out 0 current_time total_qps total_time_second (qs_printed s ++ [(qps, Z.quot total_qps total_time_second)]))
  else Ok (Qps api out qps (qs_last_time s) (qs_total_qps s) (qs_total_time_second s) (qs_printed s)).
End programs.

(** ** What the calls take from the sockets and send *)

Section calls.
Context `{WireFormat} `{InetAddr} (sendto_at : nat -> send_result).
Implicit Types c : lars_client.

(** The sockets are the same, and what they still hold is the end of what they held. *)
Definition consumes c c' : Prop :=
  lc_sockfd c' = lc_sockfd c /\ Forall2 suffix (lc_input c') (lc_input c).

#[export] Instance consumes_preorder : PreOrder consumes.
Proof.
  split; [by intros c|]. intros c1 c2 c3 [H12 I12] [H23 I23]. split; [congruence|]. by transitivity (lc_input c2).
Qed.

Lemma consumes_set i (r : recv_result unit) rest c : lc_input c !! i = Some (r :: rest) -> consumes c (lc_set_input i rest c).
Proof.
  intros Hi. split; [done|]. cbn. rewrite <-(list_insert_id (lc_input c) i (r :: rest)) at 2 by done.
  apply Forall2_insert; [done|]. by exists [r].
Qed.

Lemma consumes_from c c' i l : consumes c c' -> lc_input c' !! i = Some l -> exists l0, lc_input c !! i = Some l0 /\ l `suffix_of` l0.
Proof. intros [_ Hin] Hl. destruct (Forall2_lookup_l _ _ _ _ _ Hin Hl) as (l0 & ? & ?). eauto. Qed.

(** The reports among what was sent. *)
Definition is_report (d : Z * bytes) : bool := msgid (head_of_bytes (take 8 d.2)) =? ID_ReportRequest.
Definition reports_sent c : list bytes := snd <$> filter is_report (lc_sent c).

Lemma reports_sent_frame c fd id body : is_i32 id ->
  reports_sent (lc_put_sent fd (frame id body) c) = reports_sent c ++ if id =? ID_ReportRequest then [frame id body] else [].
Proof.
  intros Hi. unfold reports_sent. cbn [lc_sent lc_put_sent]. rewrite filter_app, fmap_app. f_equal.
  rewrite filter_cons, filter_nil. assert (is_report (fd, frame id body) = (id =? ID_ReportRequest)) as ->
    by (unfold is_report, frame; cbn [snd]; by rewrite head_msgid). by destruct (id =? _).
Qed.

(** A call that sends no report: it takes datagrams, and sends something else. *)
Definition quiet c c' : Prop := consumes c c' /\ reports_sent c' = reports_sent c.

#[export] Instance quiet_preorder : PreOrder quiet.
Proof. split; [by intros c|]. intros c1 c2 c3 [? ?] [? ?]. split; [by transitivity c2|congruence]. Qed.

Lemma api_send_quiet modid cmdid id body c i sent c' :
  is_i32 id -> id <> ID_ReportRequest -> api_send sendto_at modid cmdid id body c = Ok (i, sent, c') -> quiet c c'.
Proof.
  unfold api_send. intros Hi Hne Hs. destruct (_ <=? 4096); [|done]. destruct (0 <=? _); [|done].
  apply bind_ok in Hs as (fd & _ & Hs). destruct (sendto_at _); injection Hs as _ _ <-; [|done]. split; [by split|].
  rewrite reports_sent_frame by done. destruct (Z.eqb_spec id ID_ReportRequest); [done|by rewrite app_nil_r].
Qed.

Lemma read_answer_quiet {M} `{!Codec M} id i buf c rsp buf' c' :
  is_i32 id -> read_answer (M := M) id i buf c = Ok (rsp, buf', c') -> quiet c c'.
Proof.
  intros Hid Hr. pose proof (read_answer_outcome (M := M) id i buf c Hid) as Ho. rewrite Hr in Ho. destruct Ho as (r & rest & Hin & -> & _).
  split; [by eapply consumes_set|done].
Qed.

Lemma await_host_quiet fuel seq i buf c rsp c' : await_host fuel seq i buf c = Ok (rsp, c') -> quiet c c'.
Proof.
  revert buf c. induction fuel as [|fuel IH]; intros buf c Ha; cbn [await_host] in Ha; [done|].
  apply bind_ok in Ha as ([[rsp1 buf1] c1] & Hr & Ha). apply read_answer_quiet in Hr; [|by vm_compute].
  destruct rsp1 as [rsp1|]; [|by injection Ha as _ <-]. destruct (_ <? seq); [|by injection Ha as _ <-]. transitivity c1; [done|by eapply IH].
Qed.

Lemma get_host_quiet modid cmdid out c ret out' c' : LarsApi.get_host sendto_at modid cmdid out c = Ok (ret, out', c') -> quiet c c'.
Proof.
  unfold LarsApi.get_host. intros Hg. set (c0 := lc_set_seqid _ c) in Hg. transitivity c0; [done|].
  apply bind_ok in Hg as ([[i sent] c1] & Hs & Hg). apply api_send_quiet in Hs; [|by vm_compute|done]. transitivity c1; [done|].
  destruct sent; [|by injection Hg as _ _ <-]. cbn [negb] in Hg. apply bind_ok in Hg as ([rsp c2] & Ha & Hg).
  apply await_host_quiet in Ha. assert (c' = c2) as ->; [|done].
  destruct rsp as [rsp|]; [|by injection Hg]. by repeat case_match; simplify_eq.
Qed.

Lemma get_route_quiet modid cmdid route c ret route' c' : LarsApi.get_route sendto_at modid cmdid route c = Ok (ret, route', c') -> quiet c c'.
Proof.
  unfold LarsApi.get_route. intros Hg. apply bind_ok in Hg as ([[i sent] c1] & Hs & Hg).
  apply api_send_quiet in Hs; [|by vm_compute|done]. transitivity c1; [done|].
  destruct sent; [|by injection Hg as _ _ <-]. cbn [negb] in Hg. apply bind_ok in Hg as ([[rsp buf] c2] & Ha & Hg).
  apply read_answer_quiet in Ha; [|by vm_compute]. assert (c' = c2) as ->; [|done].
  destruct rsp as [rsp|]; [|by injection Hg]. by repeat case_match; simplify_eq.
Qed.

Lemma reg_init_quiet modid cmdid c ret c' : reg_init sendto_at modid cmdid c = Ok (ret, c') -> quiet c c'.
Proof.
  unfold reg_init. intros Hr. apply bind_ok in Hr as ([route c1] & Ht & [= _ <-]). revert Ht. generalize (@nil ip_port).
  generalize 3%nat. intros n. revert c. induction n as [|n IH]; intros c l; cbn [register_tries]; [by destruct l as [|?]; intros [= _ <-]|].
  destruct l; [|by intros [= _ <-]]. intros Hr. apply bind_ok in Hr as ([[ret1 route1] c2] & Hg & Hr). transitivity c2; [by eapply get_route_quiet|by eapply IH].
Qed.

(** What [report] sends for an address [get_host] gave. *)
Definition report_frame (modid cmdid : Z) (call : HostInfo * Z) : bytes :=
  frame ID_ReportRequest (msg_encode {| rrq_modid := modid; rrq_cmdid := cmdid; rrq_host := Some call.1; rrq_retcode := call.2 |}).
Definition host_text (h : HostInfo) : string := inet_ntoa (u32 (hi_ip h)).

Lemma report_host modid cmdid h retcode c : HostInfo_ok h ->
  match report sendto_at modid cmdid (host_text h) (hi_port h) retcode c with
  | Ok c' => consumes c c' /\
      ((forall n, sendto_at n = SendOk) -> reports_sent c' = reports_sent c ++ [report_frame modid cmdid (h, retcode)])
  | Err f => f = OutOfBounds
  end.
Proof.
  intros [Hip _]. unfold report, host_text. rewrite inet_roundtrip by apply u32_range. cbn [of_option mbind res_bind].
  rewrite i32_u32, i32_id by done. unfold api_send. destruct (_ <=? 4096); [|done]. destruct (0 <=? _); [|done].
  destruct (lc_sockfd c !! _) as [fd|]; cbn [of_option mbind res_bind]; [|done].
  destruct (sendto_at (length (lc_sent c))) eqn:Hs; cbn [mbind res_bind]; (split; [done|intros Hok]).
  - rewrite reports_sent_frame by (by vm_compute). unfold report_frame. cbn [fst snd]. by destruct h.
  - by rewrite Hok in Hs.
Qed.

(** What can go wrong in a call, besides the sockets. *)
Lemma get_route_outcomes modid cmdid route c :
  match LarsApi.get_route sendto_at modid cmdid route c with Ok _ => True | Err f => api_fault f end.
Proof.
  unfold LarsApi.get_route, api_send, api_fault. destruct (_ <=? 4096); [|by left]. destruct (0 <=? _); [|by left].
  destruct (lc_sockfd c !! _) as [fd|]; cbn [of_option mbind res_bind]; [|by left]. destruct (sendto_at _); cbn [mbind res_bind negb]; [|done].
  match goal with |- context [read_answer (M := GetRouteResponse) ?id ?i ?b ?c] => pose proof (read_answer_outcome (M := GetRouteResponse) id i b c ltac:(by vm_compute)) as Ho;
    destruct (read_answer id i b c) as [[[[rsp|] buf] c2]|f] end; cbn [mbind res_bind]; [|done|by eapply recv_stops_fault]. by destruct (_ || _).
Qed.

Lemma reg_init_outcomes modid cmdid c :
  match reg_init sendto_at modid cmdid c with Ok _ => True | Err f => api_fault f end.
Proof.
  unfold reg_init. assert (forall n route c, match register_tries sendto_at n modid cmdid route c with Ok _ => True | Err f => api_fault f end) as Ht.
  { induction n as [|n IH]; intros route c1; cbn [register_tries]; [by destruct route|]. destruct route; [|done].
    pose proof (get_route_outcomes modid cmdid [] c1). destruct (LarsApi.get_route _ _ _ _ _) as [[[? ?] ?]|]; [apply IH|done]. }
  specialize (Ht 3%nat [] c). by destruct (register_tries _ _ _ _ _ _) as [[? ?]|].
Qed.

Lemma lars_client_new_outcomes answers input :
  match lars_client_new answers input with Ok c => lc_input c = input /\ lc_sent c = [] | Err f => f = ExitFailure end.
Proof.
  unfold lars_client_new. match goal with |- context [foldM ?f _ _] => set (opened := f) end. generalize (@nil Z).
  induction (take 3 answers) as [|[[fd|] []] l IH]; intros fds; cbn [foldM]; [done| |done..]. apply IH.
Qed.
End calls.

(** ** The calls of a simulation *)

Section simulations.
Context `{WireFormat} `{InetAddr} (sendto_at : nat -> send_result) (rand_at : nat -> Z).
Implicit Types (calls : list (HostInfo * Z)) (s : simulation).

(** The successes and the errors among the calls to one address; nothing, when there is
    no call to it. *)
Definition calls_to (ip : string) calls : list Z := snd <$> filter (fun x => host_text x.1 = ip) calls.
Definition counts (l : list Z) : Z * Z :=
  (Z.of_nat (length (filter (fun rc => rc = 0) l)), Z.of_nat (length (filter (fun rc => rc <> 0) l))).
Definition tally (ip : string) calls : option (Z * Z) :=
  match calls_to ip calls with [] => None | l => Some (counts l) end.
Definition tallied (retcode : Z) (n : Z * Z) : Z * Z := if retcode =? 0 then (n.1 + 1, n.2) else (n.1, n.2 + 1).

Lemma calls_to_snoc ip calls h rc : calls_to ip (calls ++ [(h, rc)]) = calls_to ip calls ++ if decide (host_text h = ip) then [rc] else [].
Proof. unfold calls_to. rewrite filter_app, fmap_app. f_equal. rewrite filter_cons, filter_nil. cbn [fst]. by destruct (decide _). Qed.

Lemma counts_snoc l rc : counts (l ++ [rc]) = tallied rc (counts l).
Proof.
  unfold counts, tallied. rewrite !filter_app, !length_app, !filter_cons, !filter_nil. cbn [fst snd].
  destruct (Z.eqb_spec rc 0) as [->|Hne].
  - rewrite decide_True, decide_False by (done || by intros []). cbn [length]. f_equal; lia.
  - rewrite decide_False, decide_True by done. cbn [length]. f_equal; lia.
Qed.

Lemma tally_snoc ip calls h rc :
  tally ip (calls ++ [(h, rc)]) = if decide (host_text h = ip) then Some (tallied rc (default (0, 0) (tally ip calls))) else tally ip calls.
Proof.
  unfold tally. rewrite calls_to_snoc. destruct (decide (host_text h = ip)) as [_|_]; [|by rewrite app_nil_r].
  destruct (calls_to ip calls) as [|rc0 l]; [exact (f_equal Some (counts_snoc [] rc))|exact (f_equal Some (counts_snoc (rc0 :: l) rc))].
Qed.

(** What simulator does in its [k]-th call. *)
Definition verdict (err_rate : Z) (k : nat) : Z := if Z.rem (rand_at k) 10 <? err_rate then 1 else 0.
Definition socket_of (modid cmdid : Z) (l : list socket_input) : socket_input := default [] (l !! Z.to_nat (route_index modid cmdid)).
(** A datagram that gives a host of the module. *)
Definition gives (modid cmdid : Z) (r : recv_result unit) (call : HostInfo * Z) : Prop :=
  exists rsp : GetHostResponse, carries ID_GetHostResponse r rsp /\ ghs_retcode rsp = RET_SUCC /\ ghs_modid rsp = modid /\ ghs_cmdid rsp = cmdid /\
    ghs_host_get rsp = call.1.

Record sim_ok (modid cmdid err_rate : Z) (input : list socket_input) calls s : Prop := {
  so_rands : su_rands s = length calls;
  so_verdicts : calls.*2 = verdict err_rate <$> seq 0 (length calls);
  so_tallies : forall ip, su_result s !! ip = tally ip calls;
  so_given : exists used rs, socket_of modid cmdid input = used ++ socket_of modid cmdid (lc_input (su_api s)) /\
      rs `sublist_of` used /\ Forall2 (gives modid cmdid) rs calls;
  so_reports : (forall n, sendto_at n = SendOk) -> reports_sent (su_api s) = report_frame modid cmdid <$> calls
}.

Lemma consumes_socket modid cmdid (c c' : lars_client) : consumes c c' ->
  exists used, socket_of modid cmdid (lc_input c) = used ++ socket_of modid cmdid (lc_input c').
Proof.
  intros [_ Hin]. unfold socket_of. destruct (lc_input c' !! _) as [l|] eqn:Hl.
  - destruct (Forall2_lookup_l _ _ _ _ _ Hin Hl) as (l0 & -> & used & ->). by exists used.
  - apply lookup_ge_None in Hl. rewrite (Forall2_length _ _ _ Hin) in Hl. apply lookup_ge_None in Hl. rewrite Hl. by exists [].
Qed.

(** A step that makes no call. *)
Lemma sim_quiet modid cmdid err_rate input calls s c out :
  sim_ok modid cmdid err_rate input calls s -> quiet (su_api s) c ->
  sim_ok modid cmdid err_rate input calls (Simulation c out (su_result s) (su_rands s)).
Proof.
  intros [Hr Hv Ht (used & rs & Hin & Hsub & Hg) Hrep] [Hc Hq]. destruct (consumes_socket modid cmdid _ _ Hc) as [more Hmore].
  split; cbn; [done|done|done| |by rewrite Hq]. exists (used ++ more), rs. rewrite Hin, Hmore, app_assoc.
  split; [done|]. split; [by apply sublist_inserts_r|done].
Qed.

Lemma given_ok (r : recv_result unit) (rsp : GetHostResponse) : carries ID_GetHostResponse r rsp -> HostInfo_ok (ghs_host_get rsp).
Proof.
  intros (pkt & from & n & body & _ & _ & Hp). apply msg_parse_ok in Hp as (_ & _ & _ & _ & Hh). unfold ghs_host_get.
  destruct (ghs_host rsp) as [h|]; [by apply Hh|by split].
Qed.

(** The two branches of a turn, as one. *)
Lemma simulator_turn_eq modid cmdid err_rate s :
  simulator_turn sendto_at rand_at modid cmdid err_rate s =
    ('(ret, out, api) ← LarsApi.get_host sendto_at modid cmdid (su_out s) (su_api s);
     if ret =? 0 then
       let rc := verdict err_rate (su_rands s) in
       api ← report sendto_at modid cmdid out.1 out.2 rc api;
       Ok (Simulation api out (<[out.1 := tallied rc (tally_at out.1 (su_result s))]> (su_result s)) (S (su_rands s)))
     else Ok (Simulation api out (su_result s) (su_rands s))).
Proof.
  unfold simulator_turn, verdict. destruct (LarsApi.get_host _ _ _ _ _) as [[[ret [ip port]] api]|]; cbn [mbind res_bind]; [|done].
  destruct (ret =? 0); [|done]. cbn [fst snd].
  assert (forall f : Z * Z -> Z * Z, <[ip := f (tally_at ip (first_seen ip (su_result s)))]> (first_seen ip (su_result s))
    = <[ip := f (tally_at ip (su_result s))]> (su_result s)) as Hf.
  { intros f. unfold tally_at, first_seen. destruct (su_result s !! ip) eqn:Hl; [by rewrite Hl|]. by rewrite lookup_insert_eq, insert_insert_eq. }
  destruct (_ <? err_rate).
  - pose proof (Hf (tallied 1)) as H1. unfold tallied in H1 |- *. cbn [Z.eqb] in *. destruct (tally_at ip (first_seen _ _)). cbn [fst snd] in H1. by rewrite H1.
  - pose proof (Hf (tallied 0)) as H1. unfold tallied in H1 |- *. cbn [Z.eqb] in *. destruct (tally_at ip (first_seen _ _)). cbn [fst snd] in H1. by rewrite H1.
Qed.

Lemma simulator_turn_ok modid cmdid err_rate input calls s :
  sim_ok modid cmdid err_rate input calls s ->
  match simulator_turn sendto_at rand_at modid cmdid err_rate s with
  | Ok s' => exists calls', sim_ok modid cmdid err_rate input (calls ++ calls') s' /\ (length calls' <= 1)%nat
  | Err f => api_fault f
  end.
Proof.
  intros Hok. rewrite simulator_turn_eq. pose proof (get_host_outcomes sendto_at modid cmdid (su_out s) (su_api s)) as Hg.
  destruct (LarsApi.get_host _ _ _ _ _) as [[[ret out] api]|f] eqn:Hget; cbn [mbind res_bind].
  2:{ destruct Hg as [[-> _]|(before & rest & _ & _ & Hs)]; [by left|by eapply recv_stops_fault]. }
  apply get_host_quiet in Hget.
  destruct (Z.eqb_spec ret 0) as [->|Hret].
  2:{ exists []. rewrite app_nil_r. split; [by apply sim_quiet|cbn; lia]. }
  destruct Hg as [(_ & Hz & _)|(before & r & rest & Hin & _ & Hrest & [(rsp & Hcar & (_ & Hm & Hc) & Hout)|(_ & Hz & _)])]; [by vm_compute in Hz| |by vm_compute in Hz].
  unfold host_outcome in Hout. injection Hout as Hrc ->. rewrite <-Hrc. change (0 =? RET_SUCC) with true. cbn [fst snd].
  pose proof (given_ok r rsp Hcar) as Hh. set (h := ghs_host_get rsp) in *. set (rc := verdict err_rate (su_rands s)).
  pose proof (report_host sendto_at modid cmdid h rc api Hh) as Hrep. unfold host_text in Hrep at 1.
  destruct (report _ _ _ _ _ _ _) as [api'|f]; cbn [mbind res_bind]; [|by subst; left]. destruct Hrep as [Hcons Hrep].
  destruct Hok as [Hr Hv Ht (used & rs & Hin' & Hsub & Hgv) Hreps]. exists [(h, rc)]. split; [|cbn; lia].
  fold (host_text h). split; cbn [su_rands su_result su_api].
  - rewrite length_app. cbn. lia.
  - rewrite fmap_app, length_app, seq_app, fmap_app, Hv. cbn. unfold rc. by rewrite Hr.
  - intros ip. rewrite tally_snoc, lookup_insert. unfold tally_at. by case_decide; subst; rewrite ?Ht.
  - destruct (consumes_socket modid cmdid _ _ Hcons) as [more Hmore].
    assert (socket_of modid cmdid (lc_input (su_api s)) = before ++ r :: socket_of modid cmdid (lc_input api)) as Hrd.
    { unfold coming in Hin, Hrest. unfold socket_of. by rewrite Hin, Hrest. }
    exists (used ++ before ++ r :: more), (rs ++ [r]). split; [by rewrite Hin', Hrd, Hmore, <-!app_assoc|].
    split; [apply sublist_app; [done|]; apply sublist_inserts_l, sublist_skip, sublist_nil_l|].
    apply Forall2_app; [done|]. constructor; [|constructor]. exists rsp. by rewrite <-Hrc.
  - intros Hs. destruct Hget as [_ Hq]. by rewrite Hrep, Hq, Hreps, fmap_app.
Qed.

Lemma simulator_loop_ok turns modid cmdid err_rate input calls s :
  sim_ok modid cmdid err_rate input calls s ->
  match simulator_loop sendto_at rand_at turns modid cmdid err_rate s with
  | Ok s' => exists calls', sim_ok modid cmdid err_rate input calls' s' /\ (length calls' <= length calls + turns)%nat
  | Err f => api_fault f
  end.
Proof.
  revert calls s. induction turns as [|turns IH]; intros calls s Hok; cbn [simulator_loop]; [exists calls; split; [done|lia]|].
  pose proof (simulator_turn_ok modid cmdid err_rate input calls s Hok) as Ht.
  destruct (simulator_turn _ _ _ _ _ _) as [s1|]; cbn [mbind res_bind]; [|done]. destruct Ht as (more & Hok1 & Hl).
  specialize (IH _ _ Hok1). destruct (simulator_loop _ _ _ _ _ _ _); [|done]. destruct IH as (calls' & Hok' & Hl'). exists calls'.
  split; [done|]. rewrite length_app in Hl'. lia.
Qed.
End simulations.

(** ** Properties *)

(** What argument [i] says, or the default. *)
Definition setting (argv : list string) (i : nat) (default_ : Z) : Z := match argv !! i with Some a => atoi a | None => default_ end.

Lemma int_arg_setting argv i d : (i < length argv)%nat -> int_arg argv i = Ok (setting argv i d).
Proof. intros Hi. unfold int_arg, setting. by destruct (lookup_lt_is_Some_2 argv i Hi) as [a ->]. Qed.

Lemma optional_setting argv i d : (if (i <? length argv)%nat then int_arg argv i else Ok d) = Ok (setting argv i d).
Proof.
  destruct (Nat.ltb_spec i (length argv)) as [Hi|Hi]; [by apply int_arg_setting|]. unfold setting. by rewrite lookup_ge_None_2.
Qed.

(** C39: What simulator prints is what happened.  Each of its calls (at most query_cnt) is
    to a host that one of the datagrams gave for the module, a different datagram for
    each and in their order, and is judged by rand() and err_rate; the printed counts of
    an address are those of the calls to it, with nothing for an address that was not
    called; and when the datagrams can be sent, the reports the agent receives are
    exactly these calls: the very host it gave (the address survives its way through
    the text) with the verdict.  Nothing else ends the program but the missing
    arguments, a socket that cannot be opened, waiting for a datagram that does not
    come, a datagram shorter than a head and a negative module. *)
Theorem simulator_counts `{WireFormat} `{InetAddr} sendto_at rand_at port0 answers input argv :
  let modid := setting argv 1 0 in let cmdid := setting argv 2 0 in
  let err_rate := setting argv 3 2 in let query_cnt := setting argv 4 100 in
  match simulator sendto_at rand_at port0 answers input argv with
  | Ok (ret, None) => ret = 1 /\ (length argv < 3)%nat
  | Ok (ret, Some s) => ret = 0 /\ exists calls : list (HostInfo * Z),
      length calls <= Z.max 0 query_cnt /\
      calls.*2 = verdict rand_at err_rate <$> seq 0 (length calls) /\
      (exists rs, rs `sublist_of` socket_of modid cmdid input /\ Forall2 (gives modid cmdid) rs calls) /\
      (forall ip, su_result s !! ip = tally ip calls) /\
      ((forall n, sendto_at n = SendOk) -> reports_sent (su_api s) = report_frame modid cmdid <$> calls)
  | Err f => f = ExitFailure \/ api_fault f
  end.
Proof.
  intros modid cmdid err_rate query_cnt. unfold simulator. destruct (Nat.ltb_spec (length argv) 3) as [Hl|Hl]; [done|].
  rewrite (int_arg_setting argv 1 0), (int_arg_setting argv 2 0) by lia. cbn [mbind res_bind]. rewrite !optional_setting. cbn [mbind res_bind].
  fold modid cmdid err_rate query_cnt. pose proof (lars_client_new_outcomes answers input) as Hn.
  destruct (lars_client_new answers input) as [c|f]; cbn [mbind res_bind]; [|by left]. destruct Hn as [Hin Hsent].
  pose proof (reg_init_outcomes sendto_at modid cmdid c) as Hreg. destruct (reg_init _ _ _ _) as [[ret c1]|f] eqn:Hr; cbn [mbind res_bind]; [|by right].
  apply reg_init_quiet in Hr. assert (sim_ok sendto_at rand_at modid cmdid err_rate input [] (Simulation c (EmptyString, port0) ∅ 0)) as Hok.
  { split; cbn; [done|done|done| |intros _; unfold reports_sent; by rewrite Hsent]. exists [], []. by rewrite Hin. }
  pose proof (sim_quiet _ _ _ _ _ _ _ _ c1 (EmptyString, port0) Hok Hr) as Hok1.
  pose proof (simulator_loop_ok sendto_at rand_at (Z.to_nat query_cnt) modid cmdid err_rate input [] _ Hok1) as Hloop. cbn [su_result su_rands] in Hloop.
  destruct (simulator_loop _ _ _ _ _ _ _) as [s|f]; cbn [mbind res_bind]; [|by right].
  destruct Hloop as (calls & [? Hv Ht (used & rs & Hin' & Hsub & Hg) Hrep] & Hlen). split; [done|]. exists calls. cbn in Hlen.
  split; [lia|]. split; [done|]. split; [|done]. exists rs. split; [|done]. rewrite Hin'. by apply sublist_inserts_r.
Qed.

(** ** Runs *)

Module ExamplesDemo.
#[local] Existing Instances wire_varint inet_dotted.
Definition rsp_at (seq retcode : Z) : GetHostResponse :=
  {| ghs_seq := seq; ghs_modid := 1; ghs_cmdid := 1; ghs_retcode := retcode;
     ghs_host := if retcode =? RET_SUCC then Some WireDemo.host0 else None |}.
Definition opened : list (option Z * bool) := [(Some 3, true); (Some 4, true); (Some 5, true)].
Definition input0 : list socket_input :=
  [[]; []; [route_datagram (ApiDemo.rsp_route [WireDemo.host0]); host_datagram (rsp_at 0 RET_SUCC); host_datagram (rsp_at 1 RET_OVERLOAD); host_datagram (rsp_at 2 RET_SUCC)]].
Definition argv0 : list string := ["simulator"; "1"; "1"; "5"; "3"]%string.

(** Three turns: a call that succeeds, none, a call that fails. *)
Definition run0 : res (Z * option simulation) :=
  simulator ApiDemo.always_sent (fun n => if (n =? 0)%nat then 27 else 32) 0 opened input0 argv0.

Lemma simulator_counts_witness : exists s calls,
  run0 = Ok (0, Some s) /\ su_result s !! host_text WireDemo.host0 = Some (1, 1) /\
  tally (host_text WireDemo.host0) calls = Some (1, 1) /\ reports_sent (su_api s) = report_frame 1 1 <$> calls.
Proof.
  pose proof (simulator_counts ApiDemo.always_sent (fun n => if (n =? 0)%nat then 27 else 32) 0 opened input0 argv0) as Hc.
  change (simulator _ _ _ _ _ _) with run0 in Hc. destruct run0 as [[ret [s|]]|f] eqn:Hrun; [|vm_compute in Hrun; discriminate..].
  destruct Hc as (-> & calls & _ & _ & _ & Ht & Hrep). exists s, calls.
  assert (su_result s !! host_text WireDemo.host0 = Some (1, 1)) as Hs.
  { vm_compute in Hrun. injection Hrun as <-. vm_compute. reflexivity. }
  split; [reflexivity|]. split; [exact Hs|]. split; [rewrite <-Ht; exact Hs|]. apply Hrep. reflexivity.
Defined.

(** The first answer to qps is that all hosts are overloaded: it reports the host it
    does not have. *)
Example qps_reports_nothing :
  match qps_start ApiDemo.always_sent 0 opened input0 100 (NewID 0 1 1) with
  | Ok s => qps_turn ApiDemo.always_sent (NewID 0 1 1) 101 (Qps (lc_set_input 2 [host_datagram (rsp_at 0 RET_OVERLOAD)] (qs_api s)) (qs_out s) 0 100 0 0 []) = Err Uninit
  | Err _ => False
  end.
Proof. vm_compute. reflexivity. Qed.
End ExamplesDemo.
